(** * Exponential-smoothing forecasts and XML signature export

    A shallow embedding of two parts of the office suite:

    - [ETS]: the class [ScETSForecastCalculation] of
      [sc/source/core/tool/interpr8.cxx] (the FORECAST.ETS functions): preprocessing of
      the data range, period detection, initialisation, the smoothing
      recurrences, the search for the smoothing constants, the forecast of
      a target and of a range of targets, and the prediction intervals of
      double exponential smoothing;
    - [XSec]: the SAX chain controller and the signature writers of
      [xmlsecurity/source/helper/xsecctl.cxx], and the signature manager of
      [xmlsecurity/source/helper/documentsignaturemanager.cxx].

    Numbers.  A C++ [double] is modelled by an exact rational ([Q]): no
    rounding, no infinities, no NaN; a division by zero yields 0 as [Qinv]
    does; where a property depends on a quotient of the code whose
    divisor is 0, its statement says that the divisor is 0.  [SCSIZE]
    indices are [nat] (every subtraction the code performs on them is on
    values where it does not wrap), except in [GetForecast], where they
    come from the target: there they are computed in [Z] and a read outside
    of an array has no result.  [int] and [long] are [Z]; the signed sum
    that overflows is undefined, as in C++, and has no result.
    The mathematical library ([sqrt]) and the interpreter's inverse normal
    distribution ([gaussinv]) are not part of the translated files; they are
    section variables. *)

From Stdlib Require Import String Ascii.
From Stdlib Require Import QArith Qabs Qround ZArith List Lia Lqa Bool.
Import ListNotations.

(** ** Arithmetic of [double] values *)

Definition Qltb (x y : Q) : bool := negb (Qle_bool y x).

(** [static_cast<long>(x)], and the conversion of a [double] to [SCSIZE]:
    truncation toward zero. *)
Definition Qtrunc (x : Q) : Z :=
  if Qle_bool 0 x then Qfloor x else Qceiling x.

(** [fmod(x, y)]: [x - n*y] where [n] is [x/y] truncated toward zero. *)
Definition fmod (x y : Q) : Q := x - inject_Z (Qtrunc (x / y)) * y.

Definition ofNat (n : nat) : Q := inject_Z (Z.of_nat n).

(** [std::numeric_limits<double>::max()]. *)
Definition DBL_MAX : Q := inject_Z ((2 ^ 53 - 1) * 2 ^ 971).

(** Counted loop [for (i = lo; i < hi; i++) body], for a body that changes
    neither [i] nor the bound. *)
Definition for_loop {S : Type} (lo hi : nat) (body : nat -> S -> S) (s : S) : S :=
  fold_left (fun acc i => body i acc) (seq lo (hi - lo)) s.

(** Write to one cell of a raw array ([p[i] = v]). *)
Fixpoint upd (a : list Q) (i : nat) (v : Q) : list Q :=
  match a, i with
  | [], _ => []
  | _ :: t, O => v :: t
  | h :: t, S j => h :: upd t j v
  end.

(** Read of one cell of a raw array ([p[i]]). *)
Definition rd (a : list Q) (i : nat) : Q := nth i a 0.

(** ** Calendar dates

    Modelled from the spec: [tools/date.hxx] is not among the translated
    files.  A [Date] is a day number (days since 1970-01-01) in the
    proleptic Gregorian calendar; [aDate + n] is addition of day numbers and
    two dates are equal when their day numbers are. *)
Module Date.

Definition civil (z : Z) : Z * Z * Z :=
  let z := (z + 719468)%Z in
  let era := (z / 146097)%Z in
  let doe := (z - era * 146097)%Z in
  let yoe := ((doe - doe / 1460 + doe / 36524 - doe / 146096) / 365)%Z in
  let y := (yoe + era * 400)%Z in
  let doy := (doe - (365 * yoe + yoe / 4 - yoe / 100))%Z in
  let mp := ((5 * doy + 2) / 153)%Z in
  let d := (doy - (153 * mp + 2) / 5 + 1)%Z in
  let m := (if mp <? 10 then mp + 3 else mp - 9)%Z in
  ((if m <=? 2 then y + 1 else y)%Z, m, d).

Definition GetYear (d : Z) : Z := fst (fst (civil d)).
Definition GetMonth (d : Z) : Z := snd (fst (civil d)).
Definition GetDay (d : Z) : Z := snd (civil d).
Definition IsLeapYear (d : Z) : bool :=
  let y := GetYear d in
  (((y mod 4 =? 0) && negb (y mod 100 =? 0)) || (y mod 400 =? 0))%Z%bool.

(** The default null date of the number formatter, 1899-12-30. *)
Definition nullDate1899 : Z := (-25569)%Z.

End Date.

(** * Core A: [ScETSForecastCalculation] *)
Module ETS.

Open Scope Q_scope.

Record DataPoint := mkDataPoint { X : Q; Y : Q }.

(** [lcl_SortByX]. *)
Definition lcl_SortByX (lhs rhs : DataPoint) : bool := Qltb (X lhs) (X rhs).

Inductive ScETSType :=
  etsAdd | etsMult | etsSeason | etsPIAdd | etsPIMult | etsStatAdd | etsStatMult.

Definition ScETSType_eqb (a b : ScETSType) : bool :=
  match a, b with
  | etsAdd, etsAdd | etsMult, etsMult | etsSeason, etsSeason | etsPIAdd, etsPIAdd
  | etsPIMult, etsPIMult | etsStatAdd, etsStatAdd | etsStatMult, etsStatMult => true
  | _, _ => false
  end.

(** The error codes the class stores in [mnErrorValue]. *)
Inductive FormulaError :=
  errNoValue | errIllegalFPOperation | errDivisionByZero | errUnknownState.

(** The object's fields.  [mpFormatter] is represented by the null date it
    supplies; a raw array ([double*]) is the list of its cells, [nullptr]
    the empty list; [mnErrorValue], which the constructor leaves
    unassigned, is [None] until a function stores a code. *)
Record ScETSForecastCalculation := {
  mpFormatter : Z;
  maRange : list DataPoint;
  mpBase : list Q;
  mpTrend : list Q;
  mpPerIdx : list Q;
  mpForecast : list Q;
  mnSmplInPrd : nat;
  mfStepSize : Q;
  mfAlpha : Q;
  mfBeta : Q;
  mfGamma : Q;
  mnCount : nat;
  mbInitialised : bool;
  mnMonthDay : Z;
  mfMAE : Q;
  mfMASE : Q;
  mfMSE : Q;
  mfRMSE : Q;
  mfSMAPE : Q;
  mnErrorValue : option FormulaError;
  bAdditive : bool;
  bEDS : bool
}.

Definition set_maRange (v : list DataPoint) (this : ScETSForecastCalculation) :=
  {| mpFormatter := mpFormatter this; maRange := v; mpBase := mpBase this; mpTrend := mpTrend
     this; mpPerIdx := mpPerIdx this; mpForecast := mpForecast this; mnSmplInPrd := mnSmplInPrd
     this; mfStepSize := mfStepSize this; mfAlpha := mfAlpha this; mfBeta := mfBeta this;
     mfGamma := mfGamma this; mnCount := mnCount this; mbInitialised := mbInitialised this;
     mnMonthDay := mnMonthDay this; mfMAE := mfMAE this; mfMASE := mfMASE this; mfMSE := mfMSE
     this; mfRMSE := mfRMSE this; mfSMAPE := mfSMAPE this; mnErrorValue := mnErrorValue this;
     bAdditive := bAdditive this; bEDS := bEDS this |}.

Definition set_mpBase (v : list Q) (this : ScETSForecastCalculation) :=
  {| mpFormatter := mpFormatter this; maRange := maRange this; mpBase := v; mpTrend := mpTrend
     this; mpPerIdx := mpPerIdx this; mpForecast := mpForecast this; mnSmplInPrd := mnSmplInPrd
     this; mfStepSize := mfStepSize this; mfAlpha := mfAlpha this; mfBeta := mfBeta this;
     mfGamma := mfGamma this; mnCount := mnCount this; mbInitialised := mbInitialised this;
     mnMonthDay := mnMonthDay this; mfMAE := mfMAE this; mfMASE := mfMASE this; mfMSE := mfMSE
     this; mfRMSE := mfRMSE this; mfSMAPE := mfSMAPE this; mnErrorValue := mnErrorValue this;
     bAdditive := bAdditive this; bEDS := bEDS this |}.

Definition set_mpTrend (v : list Q) (this : ScETSForecastCalculation) :=
  {| mpFormatter := mpFormatter this; maRange := maRange this; mpBase := mpBase this; mpTrend :=
     v; mpPerIdx := mpPerIdx this; mpForecast := mpForecast this; mnSmplInPrd := mnSmplInPrd
     this; mfStepSize := mfStepSize this; mfAlpha := mfAlpha this; mfBeta := mfBeta this;
     mfGamma := mfGamma this; mnCount := mnCount this; mbInitialised := mbInitialised this;
     mnMonthDay := mnMonthDay this; mfMAE := mfMAE this; mfMASE := mfMASE this; mfMSE := mfMSE
     this; mfRMSE := mfRMSE this; mfSMAPE := mfSMAPE this; mnErrorValue := mnErrorValue this;
     bAdditive := bAdditive this; bEDS := bEDS this |}.

Definition set_mpPerIdx (v : list Q) (this : ScETSForecastCalculation) :=
  {| mpFormatter := mpFormatter this; maRange := maRange this; mpBase := mpBase this; mpTrend :=
     mpTrend this; mpPerIdx := v; mpForecast := mpForecast this; mnSmplInPrd := mnSmplInPrd
     this; mfStepSize := mfStepSize this; mfAlpha := mfAlpha this; mfBeta := mfBeta this;
     mfGamma := mfGamma this; mnCount := mnCount this; mbInitialised := mbInitialised this;
     mnMonthDay := mnMonthDay this; mfMAE := mfMAE this; mfMASE := mfMASE this; mfMSE := mfMSE
     this; mfRMSE := mfRMSE this; mfSMAPE := mfSMAPE this; mnErrorValue := mnErrorValue this;
     bAdditive := bAdditive this; bEDS := bEDS this |}.

Definition set_mpForecast (v : list Q) (this : ScETSForecastCalculation) :=
  {| mpFormatter := mpFormatter this; maRange := maRange this; mpBase := mpBase this; mpTrend :=
     mpTrend this; mpPerIdx := mpPerIdx this; mpForecast := v; mnSmplInPrd := mnSmplInPrd this;
     mfStepSize := mfStepSize this; mfAlpha := mfAlpha this; mfBeta := mfBeta this; mfGamma :=
     mfGamma this; mnCount := mnCount this; mbInitialised := mbInitialised this; mnMonthDay :=
     mnMonthDay this; mfMAE := mfMAE this; mfMASE := mfMASE this; mfMSE := mfMSE this; mfRMSE :=
     mfRMSE this; mfSMAPE := mfSMAPE this; mnErrorValue := mnErrorValue this; bAdditive :=
     bAdditive this; bEDS := bEDS this |}.

Definition set_mnSmplInPrd (v : nat) (this : ScETSForecastCalculation) :=
  {| mpFormatter := mpFormatter this; maRange := maRange this; mpBase := mpBase this; mpTrend :=
     mpTrend this; mpPerIdx := mpPerIdx this; mpForecast := mpForecast this; mnSmplInPrd := v;
     mfStepSize := mfStepSize this; mfAlpha := mfAlpha this; mfBeta := mfBeta this; mfGamma :=
     mfGamma this; mnCount := mnCount this; mbInitialised := mbInitialised this; mnMonthDay :=
     mnMonthDay this; mfMAE := mfMAE this; mfMASE := mfMASE this; mfMSE := mfMSE this; mfRMSE :=
     mfRMSE this; mfSMAPE := mfSMAPE this; mnErrorValue := mnErrorValue this; bAdditive :=
     bAdditive this; bEDS := bEDS this |}.

Definition set_mfStepSize (v : Q) (this : ScETSForecastCalculation) :=
  {| mpFormatter := mpFormatter this; maRange := maRange this; mpBase := mpBase this; mpTrend :=
     mpTrend this; mpPerIdx := mpPerIdx this; mpForecast := mpForecast this; mnSmplInPrd :=
     mnSmplInPrd this; mfStepSize := v; mfAlpha := mfAlpha this; mfBeta := mfBeta this; mfGamma
     := mfGamma this; mnCount := mnCount this; mbInitialised := mbInitialised this; mnMonthDay
     := mnMonthDay this; mfMAE := mfMAE this; mfMASE := mfMASE this; mfMSE := mfMSE this; mfRMSE
     := mfRMSE this; mfSMAPE := mfSMAPE this; mnErrorValue := mnErrorValue this; bAdditive :=
     bAdditive this; bEDS := bEDS this |}.

Definition set_mfAlpha (v : Q) (this : ScETSForecastCalculation) :=
  {| mpFormatter := mpFormatter this; maRange := maRange this; mpBase := mpBase this; mpTrend :=
     mpTrend this; mpPerIdx := mpPerIdx this; mpForecast := mpForecast this; mnSmplInPrd :=
     mnSmplInPrd this; mfStepSize := mfStepSize this; mfAlpha := v; mfBeta := mfBeta this;
     mfGamma := mfGamma this; mnCount := mnCount this; mbInitialised := mbInitialised this;
     mnMonthDay := mnMonthDay this; mfMAE := mfMAE this; mfMASE := mfMASE this; mfMSE := mfMSE
     this; mfRMSE := mfRMSE this; mfSMAPE := mfSMAPE this; mnErrorValue := mnErrorValue this;
     bAdditive := bAdditive this; bEDS := bEDS this |}.

Definition set_mfBeta (v : Q) (this : ScETSForecastCalculation) :=
  {| mpFormatter := mpFormatter this; maRange := maRange this; mpBase := mpBase this; mpTrend :=
     mpTrend this; mpPerIdx := mpPerIdx this; mpForecast := mpForecast this; mnSmplInPrd :=
     mnSmplInPrd this; mfStepSize := mfStepSize this; mfAlpha := mfAlpha this; mfBeta := v;
     mfGamma := mfGamma this; mnCount := mnCount this; mbInitialised := mbInitialised this;
     mnMonthDay := mnMonthDay this; mfMAE := mfMAE this; mfMASE := mfMASE this; mfMSE := mfMSE
     this; mfRMSE := mfRMSE this; mfSMAPE := mfSMAPE this; mnErrorValue := mnErrorValue this;
     bAdditive := bAdditive this; bEDS := bEDS this |}.

Definition set_mfGamma (v : Q) (this : ScETSForecastCalculation) :=
  {| mpFormatter := mpFormatter this; maRange := maRange this; mpBase := mpBase this; mpTrend :=
     mpTrend this; mpPerIdx := mpPerIdx this; mpForecast := mpForecast this; mnSmplInPrd :=
     mnSmplInPrd this; mfStepSize := mfStepSize this; mfAlpha := mfAlpha this; mfBeta := mfBeta
     this; mfGamma := v; mnCount := mnCount this; mbInitialised := mbInitialised this;
     mnMonthDay := mnMonthDay this; mfMAE := mfMAE this; mfMASE := mfMASE this; mfMSE := mfMSE
     this; mfRMSE := mfRMSE this; mfSMAPE := mfSMAPE this; mnErrorValue := mnErrorValue this;
     bAdditive := bAdditive this; bEDS := bEDS this |}.

Definition set_mnCount (v : nat) (this : ScETSForecastCalculation) :=
  {| mpFormatter := mpFormatter this; maRange := maRange this; mpBase := mpBase this; mpTrend :=
     mpTrend this; mpPerIdx := mpPerIdx this; mpForecast := mpForecast this; mnSmplInPrd :=
     mnSmplInPrd this; mfStepSize := mfStepSize this; mfAlpha := mfAlpha this; mfBeta := mfBeta
     this; mfGamma := mfGamma this; mnCount := v; mbInitialised := mbInitialised this;
     mnMonthDay := mnMonthDay this; mfMAE := mfMAE this; mfMASE := mfMASE this; mfMSE := mfMSE
     this; mfRMSE := mfRMSE this; mfSMAPE := mfSMAPE this; mnErrorValue := mnErrorValue this;
     bAdditive := bAdditive this; bEDS := bEDS this |}.

Definition set_mbInitialised (v : bool) (this : ScETSForecastCalculation) :=
  {| mpFormatter := mpFormatter this; maRange := maRange this; mpBase := mpBase this; mpTrend :=
     mpTrend this; mpPerIdx := mpPerIdx this; mpForecast := mpForecast this; mnSmplInPrd :=
     mnSmplInPrd this; mfStepSize := mfStepSize this; mfAlpha := mfAlpha this; mfBeta := mfBeta
     this; mfGamma := mfGamma this; mnCount := mnCount this; mbInitialised := v; mnMonthDay :=
     mnMonthDay this; mfMAE := mfMAE this; mfMASE := mfMASE this; mfMSE := mfMSE this; mfRMSE :=
     mfRMSE this; mfSMAPE := mfSMAPE this; mnErrorValue := mnErrorValue this; bAdditive :=
     bAdditive this; bEDS := bEDS this |}.

Definition set_mnMonthDay (v : Z) (this : ScETSForecastCalculation) :=
  {| mpFormatter := mpFormatter this; maRange := maRange this; mpBase := mpBase this; mpTrend :=
     mpTrend this; mpPerIdx := mpPerIdx this; mpForecast := mpForecast this; mnSmplInPrd :=
     mnSmplInPrd this; mfStepSize := mfStepSize this; mfAlpha := mfAlpha this; mfBeta := mfBeta
     this; mfGamma := mfGamma this; mnCount := mnCount this; mbInitialised := mbInitialised
     this; mnMonthDay := v; mfMAE := mfMAE this; mfMASE := mfMASE this; mfMSE := mfMSE this;
     mfRMSE := mfRMSE this; mfSMAPE := mfSMAPE this; mnErrorValue := mnErrorValue this;
     bAdditive := bAdditive this; bEDS := bEDS this |}.

Definition set_mfMAE (v : Q) (this : ScETSForecastCalculation) :=
  {| mpFormatter := mpFormatter this; maRange := maRange this; mpBase := mpBase this; mpTrend :=
     mpTrend this; mpPerIdx := mpPerIdx this; mpForecast := mpForecast this; mnSmplInPrd :=
     mnSmplInPrd this; mfStepSize := mfStepSize this; mfAlpha := mfAlpha this; mfBeta := mfBeta
     this; mfGamma := mfGamma this; mnCount := mnCount this; mbInitialised := mbInitialised
     this; mnMonthDay := mnMonthDay this; mfMAE := v; mfMASE := mfMASE this; mfMSE := mfMSE
     this; mfRMSE := mfRMSE this; mfSMAPE := mfSMAPE this; mnErrorValue := mnErrorValue this;
     bAdditive := bAdditive this; bEDS := bEDS this |}.

Definition set_mfMASE (v : Q) (this : ScETSForecastCalculation) :=
  {| mpFormatter := mpFormatter this; maRange := maRange this; mpBase := mpBase this; mpTrend :=
     mpTrend this; mpPerIdx := mpPerIdx this; mpForecast := mpForecast this; mnSmplInPrd :=
     mnSmplInPrd this; mfStepSize := mfStepSize this; mfAlpha := mfAlpha this; mfBeta := mfBeta
     this; mfGamma := mfGamma this; mnCount := mnCount this; mbInitialised := mbInitialised
     this; mnMonthDay := mnMonthDay this; mfMAE := mfMAE this; mfMASE := v; mfMSE := mfMSE this;
     mfRMSE := mfRMSE this; mfSMAPE := mfSMAPE this; mnErrorValue := mnErrorValue this;
     bAdditive := bAdditive this; bEDS := bEDS this |}.

Definition set_mfMSE (v : Q) (this : ScETSForecastCalculation) :=
  {| mpFormatter := mpFormatter this; maRange := maRange this; mpBase := mpBase this; mpTrend :=
     mpTrend this; mpPerIdx := mpPerIdx this; mpForecast := mpForecast this; mnSmplInPrd :=
     mnSmplInPrd this; mfStepSize := mfStepSize this; mfAlpha := mfAlpha this; mfBeta := mfBeta
     this; mfGamma := mfGamma this; mnCount := mnCount this; mbInitialised := mbInitialised
     this; mnMonthDay := mnMonthDay this; mfMAE := mfMAE this; mfMASE := mfMASE this; mfMSE :=
     v; mfRMSE := mfRMSE this; mfSMAPE := mfSMAPE this; mnErrorValue := mnErrorValue this;
     bAdditive := bAdditive this; bEDS := bEDS this |}.

Definition set_mfRMSE (v : Q) (this : ScETSForecastCalculation) :=
  {| mpFormatter := mpFormatter this; maRange := maRange this; mpBase := mpBase this; mpTrend :=
     mpTrend this; mpPerIdx := mpPerIdx this; mpForecast := mpForecast this; mnSmplInPrd :=
     mnSmplInPrd this; mfStepSize := mfStepSize this; mfAlpha := mfAlpha this; mfBeta := mfBeta
     this; mfGamma := mfGamma this; mnCount := mnCount this; mbInitialised := mbInitialised
     this; mnMonthDay := mnMonthDay this; mfMAE := mfMAE this; mfMASE := mfMASE this; mfMSE :=
     mfMSE this; mfRMSE := v; mfSMAPE := mfSMAPE this; mnErrorValue := mnErrorValue this;
     bAdditive := bAdditive this; bEDS := bEDS this |}.

Definition set_mfSMAPE (v : Q) (this : ScETSForecastCalculation) :=
  {| mpFormatter := mpFormatter this; maRange := maRange this; mpBase := mpBase this; mpTrend :=
     mpTrend this; mpPerIdx := mpPerIdx this; mpForecast := mpForecast this; mnSmplInPrd :=
     mnSmplInPrd this; mfStepSize := mfStepSize this; mfAlpha := mfAlpha this; mfBeta := mfBeta
     this; mfGamma := mfGamma this; mnCount := mnCount this; mbInitialised := mbInitialised
     this; mnMonthDay := mnMonthDay this; mfMAE := mfMAE this; mfMASE := mfMASE this; mfMSE :=
     mfMSE this; mfRMSE := mfRMSE this; mfSMAPE := v; mnErrorValue := mnErrorValue this;
     bAdditive := bAdditive this; bEDS := bEDS this |}.

Definition set_mnErrorValue (v : option FormulaError) (this : ScETSForecastCalculation) :=
  {| mpFormatter := mpFormatter this; maRange := maRange this; mpBase := mpBase this; mpTrend :=
     mpTrend this; mpPerIdx := mpPerIdx this; mpForecast := mpForecast this; mnSmplInPrd :=
     mnSmplInPrd this; mfStepSize := mfStepSize this; mfAlpha := mfAlpha this; mfBeta := mfBeta
     this; mfGamma := mfGamma this; mnCount := mnCount this; mbInitialised := mbInitialised
     this; mnMonthDay := mnMonthDay this; mfMAE := mfMAE this; mfMASE := mfMASE this; mfMSE :=
     mfMSE this; mfRMSE := mfRMSE this; mfSMAPE := mfSMAPE this; mnErrorValue := v; bAdditive :=
     bAdditive this; bEDS := bEDS this |}.

Definition set_bAdditive (v : bool) (this : ScETSForecastCalculation) :=
  {| mpFormatter := mpFormatter this; maRange := maRange this; mpBase := mpBase this; mpTrend :=
     mpTrend this; mpPerIdx := mpPerIdx this; mpForecast := mpForecast this; mnSmplInPrd :=
     mnSmplInPrd this; mfStepSize := mfStepSize this; mfAlpha := mfAlpha this; mfBeta := mfBeta
     this; mfGamma := mfGamma this; mnCount := mnCount this; mbInitialised := mbInitialised
     this; mnMonthDay := mnMonthDay this; mfMAE := mfMAE this; mfMASE := mfMASE this; mfMSE :=
     mfMSE this; mfRMSE := mfRMSE this; mfSMAPE := mfSMAPE this; mnErrorValue := mnErrorValue
     this; bAdditive := v; bEDS := bEDS this |}.

Definition set_bEDS (v : bool) (this : ScETSForecastCalculation) :=
  {| mpFormatter := mpFormatter this; maRange := maRange this; mpBase := mpBase this; mpTrend :=
     mpTrend this; mpPerIdx := mpPerIdx this; mpForecast := mpForecast this; mnSmplInPrd :=
     mnSmplInPrd this; mfStepSize := mfStepSize this; mfAlpha := mfAlpha this; mfBeta := mfBeta
     this; mfGamma := mfGamma this; mnCount := mnCount this; mbInitialised := mbInitialised
     this; mnMonthDay := mnMonthDay this; mfMAE := mfMAE this; mfMASE := mfMASE this; mfMSE :=
     mfMSE this; mfRMSE := mfRMSE this; mfSMAPE := mfSMAPE this; mnErrorValue := mnErrorValue
     this; bAdditive := bAdditive this; bEDS := v |}.
Definition cfMinABCResolution : Q := 1 # 1000.
Definition cnScenarios : nat := 1000.

(** The constructor.  The fields it does not assign are given 0, [false]
    or [None]; the functions below assign each of them before reading it. *)
Definition ctor (nSize : nat) (pFormatter : Z) : ScETSForecastCalculation :=
  {| mpFormatter := pFormatter; maRange := []; mpBase := []; mpTrend := [];
     mpPerIdx := []; mpForecast := []; mnSmplInPrd := 0; mfStepSize := 0;
     mfAlpha := 0; mfBeta := 0; mfGamma := 0; mnCount := nSize;
     mbInitialised := false; mnMonthDay := 0%Z; mfMAE := 0; mfMASE := 0;
     mfMSE := 0; mfRMSE := 0; mfSMAPE := 0; mnErrorValue := None;
     bAdditive := false; bEDS := false |}.

(** [maRange[i].X] and [maRange[i].Y] for an index the surrounding loop
    keeps below [mnCount]. *)
Definition Xat (this : ScETSForecastCalculation) (i : nat) : Q :=
  X (nth i (maRange this) (mkDataPoint 0 0)).
Definition Yat (this : ScETSForecastCalculation) (i : nat) : Q :=
  Y (nth i (maRange this) (mkDataPoint 0 0)).

(** ** [CalcPeriodLen] *)

(** The body of the outer loop up to the comparison: the mean error of one
    candidate period length. *)
Definition fMeanError (this : ScETSForecastCalculation) (nPeriodLen : nat) : Q :=
  let nPeriods := (mnCount this / nPeriodLen)%nat in
  let nStart := (mnCount this - nPeriods * nPeriodLen + 1)%nat in
  for_loop nStart (mnCount this - nPeriodLen)
    (fun i acc =>
       acc + Qabs ((Yat this i - Yat this (i - 1)) -
                   (Yat this (nPeriodLen + i) - Yat this (nPeriodLen + i - 1))))
    0
  / ofNat ((nPeriods - 1) * nPeriodLen - 1).

(** The outer loop, [for (nPeriodLen = ...; nPeriodLen > 1; nPeriodLen--)],
    on the pair [(nBestVal, fBestME)]. *)
Fixpoint CalcPeriodLen_loop (this : ScETSForecastCalculation) (nPeriodLen : nat)
    (best : nat * Q) : nat * Q :=
  match nPeriodLen with
  | S (S _ as p) =>
      let fME := fMeanError this nPeriodLen in
      CalcPeriodLen_loop this p
        (if Qltb fME (snd best) || Qeq_bool fME 0 then (nPeriodLen, fME) else best)
  | _ => best
  end.

Definition CalcPeriodLen (this : ScETSForecastCalculation) : nat :=
  fst (CalcPeriodLen_loop this (mnCount this / 2) (mnCount this, DBL_MAX)).

(** ** Access to the vector [maRange]

    [PreprocessDataRange] erases from and inserts into [maRange] while it
    indexes it.  Its model keeps every element access checked: a run ends
    in [Ret], or in [OutOfRange i n] at the first access [maRange[i]] to a
    vector of [n <= i] elements (undefined behaviour in the source), or in
    [OutOfFuel] when a loop has not left within its bound. *)

Inductive Res (A : Type) : Type :=
| Ret (a : A)
| OutOfRange (i n : nat)
| OutOfFuel.
Arguments Ret {A} a.
Arguments OutOfRange {A} i n.
Arguments OutOfFuel {A}.

Notation "x <-- c ;; k" :=
  (match c with
   | Ret x => k
   | OutOfRange i n => OutOfRange i n
   | OutOfFuel => OutOfFuel
   end)
  (at level 61, c at next level, right associativity).

Definition at_ (v : list DataPoint) (i : nat) : Res DataPoint :=
  match nth_error v i with
  | Some d => Ret d
  | None => OutOfRange i (length v)
  end.

(** [maRange[i].X = x] and [maRange[i].Y = y]. *)
Fixpoint modify (f : DataPoint -> DataPoint) (v : list DataPoint) (i : nat)
    : list DataPoint :=
  match v, i with
  | [], _ => []
  | d :: t, O => f d :: t
  | d :: t, S j => d :: modify f t j
  end.

Definition setX (this : ScETSForecastCalculation) (i : nat) (x : Q)
    : Res ScETSForecastCalculation :=
  _ <-- at_ (maRange this) i ;;
  Ret (set_maRange (modify (fun d => mkDataPoint x (Y d)) (maRange this) i) this).

Definition setY (this : ScETSForecastCalculation) (i : nat) (y : Q)
    : Res ScETSForecastCalculation :=
  _ <-- at_ (maRange this) i ;;
  Ret (set_maRange (modify (fun d => mkDataPoint (X d) y) (maRange this) i) this).

(** [maRange.erase(maRange.begin() + i)] and
    [maRange.insert(maRange.begin() + i, d)]. *)
Definition erase (v : list DataPoint) (i : nat) : list DataPoint :=
  firstn i v ++ skipn (S i) v.
Definition insert (v : list DataPoint) (i : nat) (d : DataPoint) : list DataPoint :=
  firstn i v ++ d :: skipn i v.

(** [std::sort] with [lcl_SortByX], and on a vector of [double]: a stable
    insertion sort (the source does not fix which of two points of equal
    X comes first). *)
Fixpoint sort_insert {A : Type} (lt : A -> A -> bool) (d : A) (l : list A) : list A :=
  match l with
  | [] => [d]
  | h :: t => if lt h d then h :: sort_insert lt d t else d :: l
  end.
Definition sort {A : Type} (lt : A -> A -> bool) (l : list A) : list A :=
  fold_right (sort_insert lt) [] l.

(** ** Initialisation and smoothing *)

Notation "x <- c ;; k" := (match c with Some x => k | None => None end)
  (at level 61, c at next level, right associativity).

Section Calc.

(** [sqrt] of the mathematical library. *)
Variable sqrt : Q -> Q.
(** [ScInterpreter::gaussinv], the inverse of the standard normal
    distribution function. *)
Variable gaussinv : Q -> Q.
(** What a cell of freshly allocated storage holds before the first
    write to it. *)
Variable fresh : nat -> Q.

Definition new_double (n : nat) : list Q := map fresh (seq 0 n).

Definition calcAccuracyIndicators (this : ScETSForecastCalculation)
    : ScETSForecastCalculation :=
  let '(fSumAbsErr, fSumErrSq, fSumAbsPercErr) :=
    for_loop 1 (mnCount this)
      (fun i '(a, e, p) =>
         let fError := rd (mpForecast this) i - Yat this i in
         (a + Qabs fError,
          e + fError * fError,
          p + Qabs fError / (Qabs (rd (mpForecast this) i) + Qabs (Yat this i))))
      (0, 0, 0) in
  let fSumDivisor :=
    for_loop 2 (mnCount this)
      (fun i acc => acc + Qabs (Yat this i - Yat this (i - 1))) 0 in
  let nCalcCount : Z := (Z.of_nat (mnCount this) - 1)%Z in
  let this := set_mfMAE (fSumAbsErr / inject_Z nCalcCount) this in
  let this := set_mfMASE
    (fSumAbsErr / (inject_Z nCalcCount * fSumDivisor / inject_Z (nCalcCount - 1))) this in
  let this := set_mfMSE (fSumErrSq / inject_Z nCalcCount) this in
  let this := set_mfRMSE (sqrt (mfMSE this)) this in
  set_mfSMAPE (fSumAbsPercErr * 2 / inject_Z nCalcCount) this.

Definition prefillTrendData (this : ScETSForecastCalculation)
    : bool * ScETSForecastCalculation :=
  if bEDS this then
    (true,
     set_mpTrend
       (upd (mpTrend this) 0
          ((Yat this (mnCount this - 1) - Yat this 0) / ofNat (mnCount this - 1)))
       this)
  else if (mnCount this <? 2 * mnSmplInPrd this)%nat then
    (false, set_mnErrorValue (Some errNoValue) this)
  else
    let fSum :=
      for_loop 0 (mnSmplInPrd this)
        (fun i acc => acc + (Yat this (i + mnSmplInPrd this) - Yat this i)) 0 in
    let fTrend := fSum / ofNat (mnSmplInPrd this * mnSmplInPrd this) in
    (true, set_mpTrend (upd (mpTrend this) 0 fTrend) this).

(** The first loop of [prefillPerIdx]: the averages of the complete
    periods.  The loop leaves at the first average that is 0; nothing but
    the local vector has been written by then, so the averages are
    computed first and tested together. *)
Definition aPeriodAverage (this : ScETSForecastCalculation) (nPeriods : nat) : list Q :=
  map (fun i =>
         for_loop 0 (mnSmplInPrd this)
           (fun j acc => acc + Yat this (i * mnSmplInPrd this + j)) 0
         / ofNat (mnSmplInPrd this))
      (seq 0 nPeriods).

Definition prefillPerIdx (this : ScETSForecastCalculation)
    : bool * ScETSForecastCalculation :=
  if negb (bEDS this) then
    if (mnSmplInPrd this =? 0)%nat then
      (false, set_mnErrorValue (Some errUnknownState) this)
    else
      let nPeriods := (mnCount this / mnSmplInPrd this)%nat in
      let avg := aPeriodAverage this nPeriods in
      if existsb (fun a => Qeq_bool a 0) avg then
        (false, set_mnErrorValue (Some errDivisionByZero) this)
      else
        (true,
         for_loop 0 (mnSmplInPrd this)
           (fun j this =>
              let fI :=
                for_loop 0 nPeriods
                  (fun i fI =>
                     let adj :=
                       rd avg i +
                       (ofNat j - (1 # 2) * ofNat (mnSmplInPrd this - 1)) *
                       rd (mpTrend this) 0 in
                     if bAdditive this then
                       fI + (Yat this (i * mnSmplInPrd this + j) - adj)
                     else
                       fI + (Yat this (i * mnSmplInPrd this + j) / adj))
                  0 in
              set_mpPerIdx (upd (mpPerIdx this) j (fI / ofNat nPeriods)) this)
           this)
  else (true, this).

Definition prefillBaseData (this : ScETSForecastCalculation)
    : bool * ScETSForecastCalculation :=
  if bEDS this then
    (true, set_mpBase (upd (mpBase this) 0 (Yat this 0)) this)
  else
    (true, set_mpBase (upd (mpBase this) 0 (Yat this 0 / rd (mpPerIdx this) 0)) this).

Definition initData (this : ScETSForecastCalculation)
    : bool * ScETSForecastCalculation :=
  let this := set_mpBase (new_double (mnCount this)) this in
  let this := set_mpTrend (new_double (mnCount this)) this in
  let this :=
    if negb (bEDS this) then set_mpPerIdx (new_double (mnCount this)) this else this in
  let this := set_mpForecast (new_double (mnCount this)) this in
  let this := set_mpForecast (upd (mpForecast this) 0 (Yat this 0)) this in
  let '(ok, this) := prefillTrendData this in
  if ok then
    let '(ok, this) := prefillPerIdx this in
    if ok then
      let '(ok, this) := prefillBaseData this in
      if ok then (true, this) else (false, this)
    else (false, this)
  else (false, this).

(** One turn of the loop of [refill]. *)
Definition refill_body (i : nat) (this : ScETSForecastCalculation)
    : ScETSForecastCalculation :=
  if bEDS this then
    let this := set_mpBase
      (upd (mpBase this) i
         (mfAlpha this * Yat this i + (1 - mfAlpha this) * (rd (mpBase this) (i - 1) + rd (mpTrend this) (i - 1))))
      this in
    let this := set_mpTrend
      (upd (mpTrend this) i
         (mfGamma this * (rd (mpBase this) i - rd (mpBase this) (i - 1)) +
          (1 - mfGamma this) * rd (mpTrend this) (i - 1)))
      this in
    set_mpForecast
      (upd (mpForecast this) i (rd (mpBase this) (i - 1) + rd (mpTrend this) (i - 1)))
      this
  else
    let nIdx :=
      if bAdditive this
      then (if (mnSmplInPrd this <? i)%nat then i - mnSmplInPrd this else i)%nat
      else (if (mnSmplInPrd this <=? i)%nat then i - mnSmplInPrd this else i)%nat in
    let this :=
      if bAdditive this then
        let this := set_mpBase
          (upd (mpBase this) i
             (mfAlpha this * (Yat this i - rd (mpPerIdx this) nIdx) +
              (1 - mfAlpha this) * (rd (mpBase this) (i - 1) + rd (mpTrend this) (i - 1))))
          this in
        set_mpPerIdx
          (upd (mpPerIdx this) i
             (mfBeta this * (Yat this i - rd (mpBase this) i) +
              (1 - mfBeta this) * rd (mpPerIdx this) nIdx))
          this
      else
        let this := set_mpBase
          (upd (mpBase this) i
             (mfAlpha this * (Yat this i / rd (mpPerIdx this) nIdx) +
              (1 - mfAlpha this) * (rd (mpBase this) (i - 1) + rd (mpTrend this) (i - 1))))
          this in
        set_mpPerIdx
          (upd (mpPerIdx this) i
             (mfBeta this * (Yat this i / rd (mpBase this) i) +
              (1 - mfBeta this) * rd (mpPerIdx this) nIdx))
          this in
    let this := set_mpTrend
      (upd (mpTrend this) i
         (mfGamma this * (rd (mpBase this) i - rd (mpBase this) (i - 1)) +
          (1 - mfGamma this) * rd (mpTrend this) (i - 1)))
      this in
    if bAdditive this then
      set_mpForecast
        (upd (mpForecast this) i
           (rd (mpBase this) (i - 1) + rd (mpTrend this) (i - 1) +
            rd (mpPerIdx this) nIdx))
        this
    else
      set_mpForecast
        (upd (mpForecast this) i
           ((rd (mpBase this) (i - 1) + rd (mpTrend this) (i - 1)) *
            rd (mpPerIdx this) nIdx))
        this.

Definition refill (this : ScETSForecastCalculation) : ScETSForecastCalculation :=
  calcAccuracyIndicators (for_loop 1 (mnCount this) refill_body this).

(** A matrix ([ScMatrixRef]) is the list of its cells in the order in
    which the loops over rows and columns visit them; it has at least
    one cell. *)
Definition ScMatrix := list Q.

(** ** [PreprocessDataRange] *)

(** The date of a day number held in a [double]:
    [aNullDate + static_cast<long>(x)]. *)
Definition dateOf (this : ScETSForecastCalculation) (x : Q) : Z :=
  (mpFormatter this + Qtrunc x)%Z.

(** A date as a number of months: [GetYear() * 12 + GetMonth()]. *)
Definition monthsOf (aDate : Z) : Q :=
  inject_Z (Date.GetYear aDate * 12 + Date.GetMonth aDate).

(** [12 * (aDate1.GetYear() - aDate.GetYear()) +
     (aDate1.GetMonth() - aDate.GetMonth())]. *)
Definition monthsBetween (aDate aDate1 : Z) : Q :=
  inject_Z (12 * (Date.GetYear aDate1 - Date.GetYear aDate) +
            (Date.GetMonth aDate1 - Date.GetMonth aDate)).

(** The loop that verifies the month interval, over [i = 1, 2, ...];
    it leaves once [mnMonthDay] is 0. *)
Fixpoint month_scan (this : ScETSForecastCalculation) (aDate : Z) (idx : list nat)
    (nMonthDay : Z) : Res Z :=
  match idx with
  | [] => Ret nMonthDay
  | i :: idx =>
      if (nMonthDay =? 0)%Z then Ret nMonthDay else
      d <-- at_ (maRange this) i ;;
      let aDate1 := dateOf this (X d) in
      let nMonthDay :=
        if negb (aDate =? aDate1)%Z && negb (Date.GetDay aDate1 =? nMonthDay)%Z
        then 0%Z else nMonthDay in
      month_scan this aDate idx nMonthDay
  end.

(** The local variables of the aggregation: [fTmp], [nCounter], [aTmp]. *)
Record Acc := mkAcc { fTmp : Q; nCounter : nat; aTmp : list Q }.

(** [while (maRange[i].X == maRange[i-1].X && i < mnCount)
       { body; maRange.erase(maRange.begin() + i); --mnCount; }]:
    the element accesses of the condition come before the comparison of
    [i] with [mnCount]. *)
Fixpoint while_dup (body : DataPoint -> Acc -> Acc) (fuel i : nat)
    (this : ScETSForecastCalculation) (a : Acc)
    : Res (ScETSForecastCalculation * Acc) :=
  match fuel with
  | O => OutOfFuel
  | S fuel =>
      di <-- at_ (maRange this) i ;;
      dp <-- at_ (maRange this) (i - 1) ;;
      if Qeq_bool (X di) (X dp) && (i <? mnCount this)%nat then
        let a := body di a in
        let this := set_maRange (erase (maRange this) i) this in
        let this := set_mnCount (mnCount this - 1) this in
        while_dup body fuel i this a
      else Ret (this, a)
  end.

(** The [switch (nAggregation)] on a run of equal X that starts at
    [i - 1]. *)
Definition aggregate (nAggregation : Z) (i : nat) (this : ScETSForecastCalculation)
    : Res ScETSForecastCalculation :=
  dp <-- at_ (maRange this) (i - 1) ;;
  let a0 := mkAcc (Y dp) 1 [] in
  let fuel := S (length (maRange this)) in
  match nAggregation with
  | 1 | 7 =>   (* AVERAGE (default), SUM *)
      r <-- while_dup
              (fun d a => mkAcc (fTmp a + Y d) (S (nCounter a)) (aTmp a))
              fuel i this a0 ;;
      let '(this, a) := r in
      setY this (i - 1)
        (if (nAggregation =? 1)%Z then fTmp a / ofNat (nCounter a) else fTmp a)
  | 2 | 3 =>   (* COUNT, COUNTA *)
      r <-- while_dup (fun d a => mkAcc (fTmp a) (S (nCounter a)) (aTmp a))
              fuel i this a0 ;;
      let '(this, a) := r in
      setY this (i - 1) (ofNat (nCounter a))
  | 4 =>       (* MAX *)
      r <-- while_dup
              (fun d a =>
                 mkAcc (if Qltb (fTmp a) (Y d) then Y d else fTmp a) (nCounter a) (aTmp a))
              fuel i this a0 ;;
      let '(this, a) := r in
      setY this (i - 1) (fTmp a)
  | 5 =>       (* MEDIAN *)
      r <-- while_dup
              (fun d a => mkAcc (fTmp a) (S (nCounter a)) (aTmp a ++ [Y d]))
              fuel i this (mkAcc (Y dp) 1 [Y dp]) ;;
      let '(this, a) := r in
      let aTmp := sort Qltb (aTmp a) in
      if (nCounter a mod 2 =? 0)%nat then
        setY this (i - 1)
          ((rd aTmp (nCounter a / 2) + rd aTmp (nCounter a / 2 - 1)) / 2)
      else
        setY this (i - 1) (rd aTmp (nCounter a / 2))
  | 6 =>       (* MIN *)
      r <-- while_dup
              (fun d a =>
                 mkAcc (if Qltb (Y d) (fTmp a) then Y d else fTmp a) (nCounter a) (aTmp a))
              fuel i this a0 ;;
      let '(this, a) := r in
      setY this (i - 1) (fTmp a)
  | _ => Ret this
  end%Z.

(** The loop that finds the step size and aggregates equal X,
    [for (i = 1; i < mnCount; i++)], with its local [aDate]. *)
Fixpoint step_loop (nAggregation : Z) (fuel i : nat) (aDate : Z)
    (this : ScETSForecastCalculation) : Res (bool * ScETSForecastCalculation) :=
  if (i <? mnCount this)%nat then
    match fuel with
    | O => OutOfFuel
    | S fuel =>
        r <-- (if negb (mnMonthDay this =? 0)%Z then
                 d <-- at_ (maRange this) i ;;
                 let aDate := dateOf this (X d) in
                 this <-- setX this i (monthsOf aDate) ;;
                 Ret (aDate, this)
               else Ret (aDate, this)) ;;
        let '(aDate, this) := r in
        di <-- at_ (maRange this) i ;;
        dp <-- at_ (maRange this) (i - 1) ;;
        let fStep := X di - X dp in
        if Qeq_bool fStep 0 then
          if (nAggregation =? 0)%Z then
            (* identical X-values are not allowed *)
            Ret (false, set_mnErrorValue (Some errNoValue) this)
          else
            this <-- aggregate nAggregation i this ;;
            if (i <? mnCount this - 1)%nat then
              let i := S i in
              r <-- (if negb (mnMonthDay this =? 0)%Z then
                       d <-- at_ (maRange this) i ;;
                       let aDate1 := dateOf this (X d) in
                       Ret (monthsBetween aDate aDate1, aDate1)
                     else
                       di <-- at_ (maRange this) i ;;
                       dp <-- at_ (maRange this) (i - 1) ;;
                       Ret (X di - X dp, aDate)) ;;
              let '(fStep, aDate) := r in
              let this :=
                if Qltb fStep (mfStepSize this) then set_mfStepSize fStep this else this in
              step_loop nAggregation fuel (S i) aDate this
            else
              (* fStep = mfStepSize *)
              step_loop nAggregation fuel (S i) aDate this
        else
          let this :=
            if Qltb fStep (mfStepSize this) then set_mfStepSize fStep this else this in
          step_loop nAggregation fuel (S i) aDate this
    end
  else Ret (true, this).

(** The loop that looks for a gap,
    [for (i = 1; i < mnCount && !bHasGap; i++)]: [Some bHasGap], or
    [None] when a step is no multiple of [mfStepSize]. *)
Fixpoint gap_scan (this : ScETSForecastCalculation) (idx : list nat)
    : Res (option bool) :=
  match idx with
  | [] => Ret (Some false)
  | i :: idx =>
      di <-- at_ (maRange this) i ;;
      dp <-- at_ (maRange this) (i - 1) ;;
      let fStep := X di - X dp in
      if negb (Qeq_bool fStep (mfStepSize this)) then
        if negb (Qeq_bool (fmod fStep (mfStepSize this)) 0) then Ret None
        else Ret (Some true)
      else gap_scan this idx
  end.

(** The inner loop that fills one gap,
    [for (fXGap = ...; fXGap < maRange[i].X; fXGap += mfStepSize)], on
    [i], the object and [nMissingXCount]; it returns [false] when more
    than 30% of the points are missing.  [nOriginalCount] is the number
    of points before the first insertion ([fOriginalCount] as a
    [double]). *)
Fixpoint fill_gap (bDataCompletion : bool) (nOriginalCount : nat) (fYGap : Q) (fuel : nat)
    (fXGap : Q) (i : nat) (this : ScETSForecastCalculation) (nMissingXCount : nat)
    : Res (bool * nat * ScETSForecastCalculation * nat) :=
  di <-- at_ (maRange this) i ;;
  if Qltb fXGap (X di) then
    match fuel with
    | O => OutOfFuel
    | S fuel =>
        let this :=
          set_maRange
            (insert (maRange this) i
               (mkDataPoint fXGap (if bDataCompletion then fYGap else 0)))
            this in
        let i := S i in
        let this := set_mnCount (S (mnCount this)) this in
        let nMissingXCount := S nMissingXCount in
        if Qltb (3 # 10) (ofNat nMissingXCount / ofNat nOriginalCount) then
          (* maximum of 30% missing points exceeded *)
          Ret (false, i, set_mnErrorValue (Some errNoValue) this, nMissingXCount)
        else
          fill_gap bDataCompletion nOriginalCount fYGap fuel
            (fXGap + mfStepSize this) i this nMissingXCount
    end
  else Ret (true, i, this, nMissingXCount).

(** The loop that fills the gaps, [for (i = 1; i < mnCount; i++)], with
    its locals [aDate] and [nMissingXCount]. *)
Fixpoint fill_loop (bDataCompletion : bool) (nOriginalCount : nat) (fuel i : nat)
    (aDate : Z) (this : ScETSForecastCalculation) (nMissingXCount : nat)
    : Res (bool * ScETSForecastCalculation) :=
  if (i <? mnCount this)%nat then
    match fuel with
    | O => OutOfFuel
    | S fuel =>
        di <-- at_ (maRange this) i ;;
        r <-- (if negb (mnMonthDay this =? 0)%Z then
                 let aDate1 := dateOf this (X di) in
                 Ret (monthsBetween aDate aDate1, aDate1)
               else
                 dp <-- at_ (maRange this) (i - 1) ;;
                 Ret (X di - X dp, aDate)) ;;
        let '(fDist, aDate) := r in
        if Qltb (mfStepSize this) fDist then
          (* gap, insert missing data points *)
          dp <-- at_ (maRange this) (i - 1) ;;
          let fYGap := (Y di + Y dp) / 2 in
          r <-- fill_gap bDataCompletion nOriginalCount fYGap (S nOriginalCount)
                  (X dp + mfStepSize this) i this nMissingXCount ;;
          let '(ok, i, this, nMissingXCount) := r in
          if ok then
            fill_loop bDataCompletion nOriginalCount fuel (S i) aDate this nMissingXCount
          else Ret (false, this)
        else
          fill_loop bDataCompletion nOriginalCount fuel (S i) aDate this nMissingXCount
    end
  else Ret (true, this).

(** The first part of [PreprocessDataRange], up to the end of the loop
    that aggregates equal X. *)
Definition Preprocess_steps (this : ScETSForecastCalculation) (rMatX rMatY : ScMatrix)
    (rSmplInPrd : nat) (nAggregation : Z) (rTMat : option ScMatrix)
    (eETSType : ScETSType) : Res (bool * ScETSForecastCalculation) :=
  let this := set_bEDS (rSmplInPrd =? 0)%nat this in
  let this :=
    set_bAdditive
      (ScETSType_eqb eETSType etsAdd || ScETSType_eqb eETSType etsPIAdd ||
       ScETSType_eqb eETSType etsStatAdd) this in
  (* maRange needs to be sorted by X *)
  let this :=
    for_loop 0 (mnCount this)
      (fun i this =>
         set_maRange (maRange this ++ [mkDataPoint (rd rMatX i) (rd rMatY i)]) this)
      this in
  let this := set_maRange (sort lcl_SortByX (maRange this)) this in
  r <-- match rTMat with
        | Some rTMat =>
            if negb (ScETSType_eqb eETSType etsPIAdd) &&
               negb (ScETSType_eqb eETSType etsPIMult) then
              d0 <-- at_ (maRange this) 0 ;;
              (* target cannot be less than start of X-range *)
              Ret (negb (Qltb (rd rTMat 0) (X d0)))
            else
              dn <-- at_ (maRange this) (mnCount this - 1) ;;
              (* target cannot be before end of X-range *)
              Ret (negb (Qltb (rd rTMat 0) (X dn)))
        | None => Ret true
        end ;;
  if negb r then Ret (false, set_mnErrorValue (Some errIllegalFPOperation) this) else
  let this :=
    if negb (rSmplInPrd =? 1)%nat then set_mnSmplInPrd rSmplInPrd this
    else set_mnSmplInPrd (CalcPeriodLen this) this in
  (* detect whether a month interval is used *)
  d0 <-- at_ (maRange this) 0 ;;
  let aDate := dateOf this (X d0) in
  nMonthDay <-- month_scan this aDate (seq 1 (mnCount this - 1)) (Date.GetDay aDate) ;;
  let this := set_mnMonthDay nMonthDay this in
  let this := set_mfStepSize DBL_MAX this in
  r <-- (if negb (mnMonthDay this =? 0)%Z then
           d0 <-- at_ (maRange this) 0 ;;
           let aDate := dateOf this (X d0) in
           this <-- setX this 0 (monthsOf aDate) ;;
           Ret (aDate, this)
         else Ret (aDate, this)) ;;
  let '(aDate, this) := r in
  step_loop nAggregation (mnCount this) 1 aDate this.

(** The rest of [PreprocessDataRange]: the gaps and [initData]. *)
Definition Preprocess_gaps (this : ScETSForecastCalculation) (bDataCompletion : bool)
    : Res (bool * ScETSForecastCalculation) :=
  (* step must be constant (or gap multiple of step) *)
  g <-- gap_scan this (seq 1 (mnCount this - 1)) ;;
  match g with
  | None => Ret (false, set_mnErrorValue (Some errNoValue) this)
  | Some bHasGap =>
      r <-- (if bHasGap then
               aDate <-- (if negb (mnMonthDay this =? 0)%Z then
                            d0 <-- at_ (maRange this) 0 ;; Ret (dateOf this (X d0))
                          else Ret 0%Z) ;;
               fill_loop bDataCompletion (mnCount this) (mnCount this) 1 aDate this 0
             else Ret (true, this)) ;;
      let '(ok, this) := r in
      if ok then Ret (initData this) else Ret (false, this)
  end.

Definition PreprocessDataRange (this : ScETSForecastCalculation)
    (rMatX rMatY : ScMatrix) (rSmplInPrd : nat) (bDataCompletion : bool)
    (nAggregation : Z) (rTMat : option ScMatrix) (eETSType : ScETSType)
    : Res (bool * ScETSForecastCalculation) :=
  r <-- Preprocess_steps this rMatX rMatY rSmplInPrd nAggregation rTMat eETSType ;;
  let '(ok, this) := r in
  if ok then Preprocess_gaps this bDataCompletion else Ret (false, this).

(** ** The search for the smoothing constants

    [CalcGamma], [CalcBetaGamma] and [CalcAlphaBetaGamma] are three copies
    of one search; they differ in the field they assign ([setParam]) and
    in the statements that follow each assignment ([eval]).  The two
    definitions below are the [while] loop and the final [if] of that
    search.  The loop is given a bound on its number of turns; [None]
    is the loop that has not left within the bound. *)

Definition cnFuel : nat := 16.

Fixpoint search_loop (setParam : Q -> ScETSForecastCalculation -> ScETSForecastCalculation)
    (eval : ScETSForecastCalculation -> option ScETSForecastCalculation)
    (fuel : nat) (f0 f1 f2 fE0 fE2 : Q) (this : ScETSForecastCalculation)
    : option (Q * Q * Q * Q * Q * ScETSForecastCalculation) :=
  if Qltb cfMinABCResolution (f2 - f1) then
    match fuel with
    | O => None
    | S fuel =>
        if Qltb fE0 fE2 then
          let f2' := f1 in
          let fE2' := mfMSE this in
          let f1' := (f0 + f1) / 2 in
          this <- eval (setParam f1' this) ;;
          search_loop setParam eval fuel f0 f1' f2' fE0 fE2' this
        else
          let f0' := f1 in
          let fE0' := mfMSE this in
          let f1' := (f1 + f2) / 2 in
          this <- eval (setParam f1' this) ;;
          search_loop setParam eval fuel f0' f1' f2 fE0' fE2 this
    end
  else Some (f0, f1, f2, fE0, fE2, this).

Definition search_adopt (setParam : Q -> ScETSForecastCalculation -> ScETSForecastCalculation)
    (eval : ScETSForecastCalculation -> option ScETSForecastCalculation)
    (f0 f2 fE0 fE2 : Q) (this : ScETSForecastCalculation)
    : option ScETSForecastCalculation :=
  if Qltb fE0 fE2 then
    if Qltb fE0 (mfMSE this) then eval (setParam f0 this) else Some this
  else
    if Qltb fE2 (mfMSE this) then eval (setParam f2 this) else Some this.

Definition CalcGamma (this : ScETSForecastCalculation) : option ScETSForecastCalculation :=
  let eval this := Some (refill this) in
  let f0 := 0 in
  this <- eval (set_mfGamma f0 this) ;;
  let fE0 := mfMSE this in
  let f2 := 1 in
  this <- eval (set_mfGamma f2 this) ;;
  let fE2 := mfMSE this in
  let f1 := 1 # 2 in
  this <- eval (set_mfGamma f1 this) ;;
  if Qeq_bool fE0 (mfMSE this) && Qeq_bool (mfMSE this) fE2 then
    eval (set_mfGamma 0 this)
  else
    r <- search_loop set_mfGamma eval cnFuel f0 f1 f2 fE0 fE2 this ;;
    let '(f0, f1, f2, fE0, fE2, this) := r in
    search_adopt set_mfGamma eval f0 f2 fE0 fE2 this.

Definition CalcBetaGamma (this : ScETSForecastCalculation) : option ScETSForecastCalculation :=
  let eval this := (this <- CalcGamma this ;; Some (refill this)) in
  let f0 := 0 in
  this <- eval (set_mfBeta f0 this) ;;
  let fE0 := mfMSE this in
  let f2 := 1 in
  this <- eval (set_mfBeta f2 this) ;;
  let fE2 := mfMSE this in
  let f1 := 1 # 2 in
  this <- eval (set_mfBeta f1 this) ;;
  if Qeq_bool fE0 (mfMSE this) && Qeq_bool (mfMSE this) fE2 then
    eval (set_mfBeta 0 this)
  else
    r <- search_loop set_mfBeta eval cnFuel f0 f1 f2 fE0 fE2 this ;;
    let '(f0, f1, f2, fE0, fE2, this) := r in
    search_adopt set_mfBeta eval f0 f2 fE0 fE2 this.

Definition CalcAlphaBetaGamma (this : ScETSForecastCalculation)
    : option ScETSForecastCalculation :=
  let eval this :=
    (this <- (if bEDS this then CalcGamma this else CalcBetaGamma this) ;;
     Some (refill this)) in
  let f0 := 0 in
  let this := set_mfAlpha f0 this in
  this <- (if bEDS this
           then CalcGamma (set_mfBeta 0 this)   (* beta is not used with EDS *)
           else CalcBetaGamma this) ;;
  let this := refill this in
  let fE0 := mfMSE this in
  let f2 := 1 in
  this <- eval (set_mfAlpha f2 this) ;;
  let fE2 := mfMSE this in
  let f1 := 1 # 2 in
  this <- eval (set_mfAlpha f1 this) ;;
  if Qeq_bool fE0 (mfMSE this) && Qeq_bool (mfMSE this) fE2 then
    eval (set_mfAlpha 0 this)
  else
    r <- search_loop set_mfAlpha eval cnFuel f0 f1 f2 fE0 fE2 this ;;
    let '(f0, f1, f2, fE0, fE2, this) := r in
    this <- search_adopt set_mfAlpha eval f0 f2 fE0 fE2 this ;;
    Some (calcAccuracyIndicators this).

Definition initCalc (this : ScETSForecastCalculation)
    : option (bool * ScETSForecastCalculation) :=
  if negb (mbInitialised this) then
    this <- CalcAlphaBetaGamma this ;;
    let this := set_mbInitialised true this in
    Some (true, calcAccuracyIndicators this)
  else Some (true, this).

(** ** Prediction intervals of double exponential smoothing *)

(** Conversion of a [double] to [SCSIZE]; it is undefined ([None]) when
    the truncated value is negative. *)
Definition toSCSIZE (x : Q) : option nat :=
  if (Qtrunc x <? 0)%Z then None else Some (Z.to_nat (Qtrunc x)).

Fixpoint mapM {A B : Type} (f : A -> option B) (l : list A) : option (list B) :=
  match l with
  | [] => Some []
  | a :: l => b <- f a ;; bs <- mapM f l ;; Some (b :: bs)
  end.

Definition convertXtoMonths (this : ScETSForecastCalculation) (x : Q) : Q :=
  let aDate := (mpFormatter this + Qtrunc x)%Z in
  let nYear := Date.GetYear aDate in
  let nMonth := Date.GetMonth aDate in
  let fMonthLength : Q :=
    match nMonth with
    | 1%Z | 3%Z | 5%Z | 7%Z | 8%Z | 10%Z | 12%Z => 31
    | 2%Z => if Date.IsLeapYear aDate then 29 else 28
    | _ => 30
    end in
  12 * inject_Z nYear + inject_Z nMonth +
  inject_Z (Date.GetDay aDate - mnMonthDay this) / fMonthLength.

(** The maximum of the targets, as the first pair of loops finds it. *)
Definition maxTarget (rTMat : ScMatrix) : Q :=
  fold_left (fun fMaxTarget t => if Qltb fMaxTarget t then t else fMaxTarget)
    rTMat (hd 0 rTMat).

(** The distance of a target from the last X of the range (in months on
    a month axis): [fTarget] of the last pair of loops. *)
Definition targetOffset (this : ScETSForecastCalculation) (t : Q) : Q :=
  if (mnMonthDay this =? 0)%Z
  then t - Xat this (mnCount this - 1)
  else convertXtoMonths this t - Xat this (mnCount this - 1).

(** The coefficient [c[i]]. *)
Definition EDS_c (fPILevel : Q) (i : nat) : Q :=
  let o := 1 - fPILevel in
  sqrt (1 + (fPILevel / Qpower (1 + o) 3) *
            ((1 + 4 * o + 5 * o * o) +
             2 * ofNat i * fPILevel * (1 + 3 * o) +
             2 * ofNat (i * i) * fPILevel * fPILevel)).

Definition GetEDSPredictionIntervals (this : ScETSForecastCalculation)
    (rTMat : ScMatrix) (fPILevel : Q)
    : option (bool * ScETSForecastCalculation * ScMatrix) :=
  r <- initCalc this ;;
  let '(ok, this) := r in
  if negb ok then Some (false, this, []) else
  let fMaxTarget := targetOffset this (maxTarget rTMat) in
  nSize <- toSCSIZE (fMaxTarget / mfStepSize this) ;;
  let nSize :=
    if negb (Qeq_bool (fmod fMaxTarget (mfStepSize this)) 0) then S nSize else nSize in
  let z := gaussinv ((1 + fPILevel) / 2) in
  let c := map (EDS_c fPILevel) (seq 0 nSize) in
  rPIMat <-
    mapM (fun t =>
            let fTarget := targetOffset this t in
            nSteps <- toSCSIZE (fTarget / mfStepSize this - 1) ;;
            let fFactor := fmod fTarget (mfStepSize this) in
            cn <- nth_error c nSteps ;;
            c0 <- nth_error c 0 ;;
            let fPI := z * mfRMSE this * cn / c0 in
            if negb (Qeq_bool fFactor 0) then
              cn1 <- nth_error c (nSteps + 1) ;;
              let fPI1 := z * mfRMSE this * cn1 / c0 in
              Some (fPI + fFactor * (fPI1 - fPI))
            else Some fPI)
         rTMat ;;
  Some (true, this, rPIMat).

(** ** [GetForecast] and [GetForecastRange]

    The indices of the element accesses of [GetForecast] are computed
    from the target, so here every access is checked.  An index
    expression is evaluated in [Z]: the wrap-around of an intermediate
    [SCSIZE] difference cancels in the sum, and a negative result stands
    for an index near 2^64, beyond every array.  A run is undefined
    ([None]) at an access beyond the end of an array, at the conversion
    of a negative [double] to [SCSIZE], at a division by a step size of
    0 and at a remainder by 0. *)

Definition atZ {A : Type} (a : list A) (i : Z) : option A :=
  if (i <? 0)%Z then None else nth_error a (Z.to_nat i).

(** The expression the second branch of [GetForecast] writes twice, for
    [n] and for [n + 1]: the forecast [n] steps after the last point. *)
Definition stepForecast (this : ScETSForecastCalculation) (n : nat) : option Q :=
  let nLast := (Z.of_nat (mnCount this) - 1)%Z in
  fBase <- atZ (mpBase this) nLast ;;
  fTrend <- atZ (mpTrend this) nLast ;;
  if bEDS this then Some (fBase + ofNat n * fTrend)
  else if (mnSmplInPrd this =? 0)%nat then None
  else
    fPerIdx <- atZ (mpPerIdx this)
                 (nLast - Z.of_nat (mnSmplInPrd this) + Z.of_nat (n mod mnSmplInPrd this)) ;;
    if bAdditive this then Some (fBase + ofNat n * fTrend + fPerIdx)
    else Some ((fBase + ofNat n * fTrend) * fPerIdx).

(** [rForecast] is the value the caller's variable holds before the
    call; it is returned unchanged when the function returns [false]. *)
Definition GetForecast (this : ScETSForecastCalculation) (fTarget rForecast : Q)
    : option (bool * ScETSForecastCalculation * Q) :=
  r <- initCalc this ;;
  let '(ok, this) := r in
  if negb ok then Some (false, this, rForecast) else
  dLast <- atZ (maRange this) (Z.of_nat (mnCount this) - 1) ;;
  if Qeq_bool (mfStepSize this) 0 then None else
  if Qle_bool fTarget (X dLast) then
    d0 <- atZ (maRange this) 0 ;;
    n <- toSCSIZE ((fTarget - X d0) / mfStepSize this) ;;
    let fInterpolate := fmod (fTarget - X d0) (mfStepSize this) in
    dn <- nth_error (maRange this) n ;;
    let rForecast := Y dn in
    if Qle_bool cfMinABCResolution fInterpolate then
      let fInterpolateFactor := fInterpolate / mfStepSize this in
      fFc_1 <- nth_error (mpForecast this) (n + 1) ;;
      Some (true, this, rForecast + fInterpolateFactor * (fFc_1 - rForecast))
    else Some (true, this, rForecast)
  else
    n <- toSCSIZE ((fTarget - X dLast) / mfStepSize this) ;;
    let fInterpolate := fmod (fTarget - X dLast) (mfStepSize this) in
    rForecast <- stepForecast this n ;;
    if Qle_bool cfMinABCResolution fInterpolate then
      let fInterpolateFactor := fInterpolate / mfStepSize this in
      fFc_1 <- stepForecast this (n + 1) ;;
      Some (true, this, rForecast + fInterpolateFactor * (fFc_1 - rForecast))
    else Some (true, this, rForecast).

(** The pair of loops of [GetForecastRange] over the cells of [rTMat];
    [i] is the number of the cell, [rFcMat] the matrix of the results.
    The local [fForecast] is not initialised. *)
Fixpoint GetForecastRange_loop (this : ScETSForecastCalculation) (rTMat : ScMatrix)
    (i : nat) (rFcMat : ScMatrix) : option (bool * ScETSForecastCalculation * ScMatrix) :=
  match rTMat with
  | [] => Some (true, this, rFcMat)
  | t :: rTMat =>
      let fTarget :=
        if negb (mnMonthDay this =? 0)%Z then convertXtoMonths this t else t in
      r <- GetForecast this fTarget (fresh 0) ;;
      let '(ok, this, fForecast) := r in
      if ok then GetForecastRange_loop this rTMat (S i) (upd rFcMat i fForecast)
      else Some (false, this, rFcMat)
  end.

Definition GetForecastRange (this : ScETSForecastCalculation) (rTMat rFcMat : ScMatrix)
    : option (bool * ScETSForecastCalculation * ScMatrix) :=
  GetForecastRange_loop this rTMat 0 rFcMat.

(** [GetSamplesInPeriod]; [rVal] as [rForecast] above. *)
Definition GetSamplesInPeriod (this : ScETSForecastCalculation) (rVal : Q)
    : option (bool * ScETSForecastCalculation * Q) :=
  r <- initCalc this ;;
  let '(ok, this) := r in
  if negb ok then Some (false, this, rVal) else
  Some (true, this, ofNat (mnSmplInPrd this)).

(** Conversion of a [double] to [int]; it is undefined ([None]) when the
    truncated value is not an [int]. *)
Definition toInt (x : Q) : option Z :=
  if ((- 2 ^ 31 <=? Qtrunc x) && (Qtrunc x <=? 2 ^ 31 - 1))%Z then Some (Qtrunc x)
  else None.

(** The [switch] of [GetStatisticValue]: the value that is put for the
    type [nType], or [None] when no [case] matches and nothing is put. *)
Definition statisticValue (this : ScETSForecastCalculation) (nType : Z) : option Q :=
  match nType with
  | 1 => Some (mfAlpha this)
  | 2 => Some (mfGamma this)
  | 3 => Some (mfBeta this)
  | 4 => Some (mfMASE this)
  | 5 => Some (mfSMAPE this)
  | 6 => Some (mfMAE this)
  | 7 => Some (mfRMSE this)
  | 8 => Some (mfStepSize this)
  | 9 => Some (ofNat (mnSmplInPrd this))
  | _ => None
  end%Z.

(** The pair of loops of [GetStatisticValue] over the cells of
    [rTypeMat]; [i] is the number of the cell. *)
Fixpoint GetStatisticValue_loop (this : ScETSForecastCalculation) (rTypeMat : ScMatrix)
    (i : nat) (rStatMat : ScMatrix) : option ScMatrix :=
  match rTypeMat with
  | [] => Some rStatMat
  | t :: rTypeMat =>
      nType <- toInt t ;;
      GetStatisticValue_loop this rTypeMat (S i)
        (match statisticValue this nType with
         | Some v => upd rStatMat i v
         | None => rStatMat
         end)
  end.

Definition GetStatisticValue (this : ScETSForecastCalculation)
    (rTypeMat rStatMat : ScMatrix)
    : option (bool * ScETSForecastCalculation * ScMatrix) :=
  r <- initCalc this ;;
  let '(ok, this) := r in
  if negb ok then Some (false, this, rStatMat) else
  m <- GetStatisticValue_loop this rTypeMat 0 rStatMat ;;
  Some (true, this, m).

End Calc.

End ETS.

(** * Core B: XML signatures ([XSecController], [DocumentSignatureManager]) *)
Module XSec.

Open Scope string_scope.
Open Scope list_scope.

(** ** [OUString] *)

Definition isEmpty (s : string) : bool :=
  match s with EmptyString => true | _ => false end.

(** [s.startsWith(lit)]. *)
Definition startsWith (s lit : string) : bool := prefix lit s.

(** [s.endsWith(lit)]. *)
Definition endsWith (s lit : string) : bool :=
  (String.length lit <=? String.length s)%nat &&
  String.eqb (substring (String.length s - String.length lit) (String.length lit) s) lit.

(** [s.copy(n)] and [s.copy(0, n)]. *)
Definition copy_from (s : string) (n : nat) : string :=
  substring n (String.length s - n) s.
Definition copy_to (s : string) (n : nat) : string := substring 0 n s.

(** [s.indexOf(c)], [None] for -1. *)
Fixpoint indexOf (s : string) (c : ascii) : option nat :=
  match s with
  | EmptyString => None
  | String a t =>
      if Ascii.eqb a c then Some 0%nat
      else match indexOf t c with Some n => Some (S n) | None => None end
  end.

(** ** The names of the elements and attributes

    Modelled from the spec: the macros of [xsecctl.hxx], which is not
    among the translated files; the values are the element and attribute
    names of XML-DSig, of XAdES and of the OOXML package signature that
    the specification names. *)
Definition NS_XMLDSIG := "http://www.w3.org/2000/09/xmldsig#".
Definition NS_DC := "http://purl.org/dc/elements/1.1/".
Definition NS_XD := "http://uri.etsi.org/01903/v1.3.2#".
Definition NS_MDSSI := "http://schemas.openxmlformats.org/package/2006/digital-signature".
Definition TAG_SIGNATURE := "Signature".
Definition TAG_SIGNEDINFO := "SignedInfo".
Definition TAG_CANONICALIZATIONMETHOD := "CanonicalizationMethod".
Definition TAG_SIGNATUREMETHOD := "SignatureMethod".
Definition TAG_REFERENCE := "Reference".
Definition TAG_TRANSFORMS := "Transforms".
Definition TAG_TRANSFORM := "Transform".
Definition TAG_DIGESTMETHOD := "DigestMethod".
Definition TAG_DIGESTVALUE := "DigestValue".
Definition TAG_SIGNATUREVALUE := "SignatureValue".
Definition TAG_KEYINFO := "KeyInfo".
Definition TAG_X509DATA := "X509Data".
Definition TAG_X509ISSUERSERIAL := "X509IssuerSerial".
Definition TAG_X509ISSUERNAME := "X509IssuerName".
Definition TAG_X509SERIALNUMBER := "X509SerialNumber".
Definition TAG_X509CERTIFICATE := "X509Certificate".
Definition TAG_OBJECT := "Object".
Definition TAG_MANIFEST := "Manifest".
Definition TAG_RELATIONSHIPREFERENCE := "RelationshipReference".
Definition TAG_SIGNATUREPROPERTIES := "SignatureProperties".
Definition TAG_SIGNATUREPROPERTY := "SignatureProperty".
Definition TAG_SIGNATURETIME := "SignatureTime".
Definition TAG_FORMAT := "Format".
Definition TAG_VALUE := "Value".
Definition TAG_QUALIFYINGPROPERTIES := "QualifyingProperties".
Definition TAG_SIGNEDPROPERTIES := "SignedProperties".
Definition TAG_DATE := "date".
Definition TAG_DESCRIPTION := "description".
Definition ATTR_XMLNS := "xmlns".
Definition ATTR_ALGORITHM := "Algorithm".
Definition ATTR_URI := "URI".
Definition ATTR_ID := "Id".
Definition ATTR_TARGET := "Target".
Definition ATTR_SOURCEID := "SourceId".
Definition NSTAG_DC := "dc".
Definition NSTAG_XD := "xd".
Definition NSTAG_MDSSI := "mdssi".
Definition ALGO_C14N := "http://www.w3.org/TR/2001/REC-xml-c14n-20010315".
Definition ALGO_RSASHA1 := "http://www.w3.org/2000/09/xmldsig#rsa-sha1".
Definition ALGO_RSASHA256 := "http://www.w3.org/2001/04/xmldsig-more#rsa-sha256".
Definition ALGO_XMLDSIGSHA1 := "http://www.w3.org/2000/09/xmldsig#sha1".
Definition ALGO_XMLDSIGSHA256 := "http://www.w3.org/2001/04/xmlenc#sha256".
Definition ALGO_RELATIONSHIP :=
  "http://schemas.openxmlformats.org/package/2006/RelationshipTransform".
Definition CHAR_FRAGMENT := "#".

(** ** The signature record

    Modelled from the spec: [SignatureReferenceInformation] and
    [SignatureInformation] of [sigstruct.hxx], which is not among the
    translated files, with the fields the translated functions read. *)
Inductive SignatureReferenceType := SAMEDOCUMENT | BINARYSTREAM | XMLSTREAM.

Definition SignatureReferenceType_eqb (a b : SignatureReferenceType) : bool :=
  match a, b with
  | SAMEDOCUMENT, SAMEDOCUMENT | BINARYSTREAM, BINARYSTREAM | XMLSTREAM, XMLSTREAM => true
  | _, _ => false
  end.

Record SignatureReferenceInformation := mkReference {
  nType : SignatureReferenceType;
  ouURI : string;
  ouDigestValue : string }.

(** [css::util::DateTime]. *)
Record DateTime := mkDateTime {
  NanoSeconds : Z; Seconds : Z; Minutes : Z; Hours : Z;
  Day : Z; Month : Z; Year : Z; IsUTC : bool }.

(** [css::xml::crypto::SecurityOperationStatus], as its number. *)
Definition SecurityOperationStatus := Z.

Record SignatureInformation := mkSignatureInformation {
  nSecurityId : Z;
  nStatus : SecurityOperationStatus;
  vSignatureReferenceInfors : list SignatureReferenceInformation;
  ouX509IssuerName : string;
  ouX509SerialNumber : string;
  ouX509Certificate : string;
  ouSignatureValue : string;
  stDateTime : DateTime;
  ouDateTime : string;
  ouSignatureId : string;
  ouPropertyId : string;
  ouDescription : string;
  ouDescriptionPropertyId : string;
  ouCertDigest : string }.

(** ** SAX events

    What a function sends to its [XDocumentHandler]: the calls of
    [startElement] (with the attribute list in the order of the
    [AddAttribute]), [endElement] and [characters], in order. *)
Inductive SaxEvent :=
| startElement (aName : string) (xAttribs : list (string * string))
| endElement (aName : string)
| characters (aChars : string).

(** An empty element with attributes, and an element around a text. *)
Definition element (aName : string) (xAttribs : list (string * string)) : list SaxEvent :=
  [startElement aName xAttribs; endElement aName].
Definition textElement (aName aChars : string) : list SaxEvent :=
  [startElement aName []; characters aChars; endElement aName].

(** The output of a function that writes to a document handler and may
    leave by an exception: the events sent so far, and the result if it
    returned. *)
Definition Out (A : Type) : Type := (list SaxEvent * option A)%type.

Definition emit (l : list SaxEvent) : Out unit := (l, Some tt).
Definition throw {A : Type} : Out A := ([], None).
Definition bindOut {A B : Type} (c : Out A) (k : A -> Out B) : Out B :=
  match c with
  | (l, Some a) => let '(l', r) := k a in (l ++ l', r)
  | (l, None) => (l, None)
  end.

Notation "x <~ c ;; k" := (bindOut c (fun x => k))
  (at level 61, c at next level, right associativity).
Notation "c >> k" := (bindOut c (fun _ => k))
  (at level 61, right associativity).

(** A range-based [for] whose body may leave by an exception. *)
Fixpoint forEach {A : Type} (l : list A) (body : A -> Out unit) : Out unit :=
  match l with
  | [] => emit []
  | a :: t => body a >> forEach t body
  end.

(** ** The blacklists of the OOXML export *)

(** Should we intentionally not sign this stream?  Just the prefix is
    checked. *)
Definition lcl_isOOXMLBlacklist (rStreamName : string) : bool :=
  let vBlacklist :=
    [ "/%5BContent_Types%5D.xml";
      "/docProps/app.xml";
      "/docProps/core.xml";
      (* Don't attempt to sign other signatures for now. *)
      "/_xmlsignatures" ] in
  existsb (fun rLiteral => startsWith rStreamName rLiteral) vBlacklist.

(** Should we intentionally not sign this relation type? *)
Definition lcl_isOOXMLRelationBlacklist (rRelationName : string) : bool :=
  let vBlacklist :=
    [ "http://schemas.openxmlformats.org/officeDocument/2006/relationships/extended-properties";
      "http://schemas.openxmlformats.org/package/2006/relationships/metadata/core-properties";
      "http://schemas.openxmlformats.org/package/2006/relationships/digital-signature/origin"
    ] in
  existsb (fun rLiteral => String.eqb rLiteral rRelationName) vBlacklist.

(** ** [XSecController::exportSignature] and [exportOOXMLSignature] *)

(** [css::beans::StringPair]: [First] and [Second]. *)
Definition StringPair : Type := (string * string)%type.

(** The root storage as [exportOOXMLSignature] reads it: for a
    hierarchical name, what [ReadRelationsInfoSequence] returns on the
    stream of that name, or [None] when
    [openStreamElementByHierarchicalName] throws. *)
Definition XStorage : Type := string -> option (list (list StringPair)).

Section SignatureExport.

(** [utl::toISO8601]. *)
Variable toISO8601 : DateTime -> string.

Definition exportSignature (signatureInfo : SignatureInformation) : list SaxEvent :=
  let vReferenceInfors := vSignatureReferenceInfors signatureInfo in
  (* Write Signature element *)
  [startElement TAG_SIGNATURE
     ((ATTR_XMLNS, NS_XMLDSIG) ::
      (if negb (isEmpty (ouSignatureId signatureInfo))
       then [(ATTR_ID, ouSignatureId signatureInfo)] else []))] ++
  (* Write SignedInfo element *)
  [startElement TAG_SIGNEDINFO []] ++
  [startElement TAG_CANONICALIZATIONMETHOD [(ATTR_ALGORITHM, ALGO_C14N)];
   endElement TAG_CANONICALIZATIONMETHOD] ++
  [startElement TAG_SIGNATUREMETHOD [(ATTR_ALGORITHM, ALGO_RSASHA1)];
   endElement TAG_SIGNATUREMETHOD] ++
  (* Write Reference element *)
  flat_map
    (fun refInfor =>
       [startElement TAG_REFERENCE
          [(ATTR_URI,
            if negb (SignatureReferenceType_eqb (nType refInfor) SAMEDOCUMENT)
            then ouURI refInfor               (* stream reference *)
            else (CHAR_FRAGMENT ++ ouURI refInfor)%string)]] ++
       (* xml stream, so c14n transform is needed *)
       (if SignatureReferenceType_eqb (nType refInfor) XMLSTREAM then
          [startElement TAG_TRANSFORMS [];
           startElement TAG_TRANSFORM [(ATTR_ALGORITHM, ALGO_C14N)];
           endElement TAG_TRANSFORM;
           endElement TAG_TRANSFORMS]
        else []) ++
       [startElement TAG_DIGESTMETHOD [(ATTR_ALGORITHM, ALGO_XMLDSIGSHA1)];
        endElement TAG_DIGESTMETHOD] ++
       [startElement TAG_DIGESTVALUE [];
        characters (ouDigestValue refInfor);
        endElement TAG_DIGESTVALUE] ++
       [endElement TAG_REFERENCE])
    vReferenceInfors ++
  [endElement TAG_SIGNEDINFO] ++
  (* Write SignatureValue element *)
  [startElement TAG_SIGNATUREVALUE [];
   characters (ouSignatureValue signatureInfo);
   endElement TAG_SIGNATUREVALUE] ++
  (* Write KeyInfo element *)
  [startElement TAG_KEYINFO [];
   startElement TAG_X509DATA [];
   startElement TAG_X509ISSUERSERIAL [];
   startElement TAG_X509ISSUERNAME [];
   characters (ouX509IssuerName signatureInfo);
   endElement TAG_X509ISSUERNAME;
   startElement TAG_X509SERIALNUMBER [];
   characters (ouX509SerialNumber signatureInfo);
   endElement TAG_X509SERIALNUMBER;
   endElement TAG_X509ISSUERSERIAL] ++
  (if negb (isEmpty (ouX509Certificate signatureInfo)) then
     [startElement TAG_X509CERTIFICATE [];
      characters (ouX509Certificate signatureInfo);
      endElement TAG_X509CERTIFICATE]
   else []) ++
  [endElement TAG_X509DATA;
   endElement TAG_KEYINFO] ++
  (* Write Object element *)
  [startElement TAG_OBJECT [];
   startElement TAG_SIGNATUREPROPERTIES [];
   startElement TAG_SIGNATUREPROPERTY
     [(ATTR_ID, ouPropertyId signatureInfo);
      (ATTR_TARGET, (CHAR_FRAGMENT ++ ouSignatureId signatureInfo)%string)];
   (* Write timestamp element *)
   startElement (NSTAG_DC ++ ":" ++ TAG_DATE)%string [((ATTR_XMLNS ++ ":" ++ NSTAG_DC)%string, NS_DC)];
   characters
     (if negb (isEmpty (ouDateTime signatureInfo)) then ouDateTime signatureInfo
      else toISO8601 (stDateTime signatureInfo));
   endElement (NSTAG_DC ++ ":" ++ TAG_DATE)%string;
   endElement TAG_SIGNATUREPROPERTY] ++
  (* Write signature description. *)
  (if negb (isEmpty (ouDescription signatureInfo)) then
     [startElement TAG_SIGNATUREPROPERTY
        [(ATTR_ID, ouDescriptionPropertyId signatureInfo);
         (ATTR_TARGET, (CHAR_FRAGMENT ++ ouSignatureId signatureInfo)%string)];
      startElement (NSTAG_DC ++ ":" ++ TAG_DESCRIPTION)%string
        [((ATTR_XMLNS ++ ":" ++ NSTAG_DC)%string, NS_DC)];
      characters (ouDescription signatureInfo);
      endElement (NSTAG_DC ++ ":" ++ TAG_DESCRIPTION)%string;
      endElement TAG_SIGNATUREPROPERTY]
   else []) ++
  [endElement TAG_SIGNATUREPROPERTIES;
   endElement TAG_OBJECT;
   endElement TAG_SIGNATURE].

(** [css::io::XInputStream], and
    [comphelper::OFOPXMLHelper::ReadRelationsInfoSequence] on a stream and
    its name ([None]: it throws). *)
Variable XInputStream : Type.
Variable ReadRelationsInfoSequence :
  XInputStream -> string -> option (list (list StringPair)).

(** The [aId] and [aType] of one relation, by the loop over its pairs. *)
Definition relationIdType (rPairs : list StringPair) : string * string :=
  fold_left
    (fun '(aId, aType) rPair =>
       if String.eqb (fst rPair) "Id" then (snd rPair, aType)
       else if String.eqb (fst rPair) "Type" then (aId, snd rPair)
       else (aId, aType))
    rPairs (EmptyString, EmptyString).

(** The loop over [aRelationsInfo] inside the relationship transform. *)
Definition exportRelations (aRelationsInfo : list (list StringPair)) : list SaxEvent :=
  flat_map
    (fun rPairs =>
       let '(aId, aType) := relationIdType rPairs in
       if lcl_isOOXMLRelationBlacklist aType then []
       else
         [startElement (NSTAG_MDSSI ++ ":" ++ TAG_RELATIONSHIPREFERENCE)%string
            [((ATTR_XMLNS ++ ":" ++ NSTAG_MDSSI)%string, NS_MDSSI); (ATTR_SOURCEID, aId)];
          endElement (NSTAG_MDSSI ++ ":" ++ TAG_RELATIONSHIPREFERENCE)%string])
    aRelationsInfo.

(** The name of the relationships part of a reference: the URI without
    its leading slash and without its query part. *)
Definition relationsPartName (ouURI : string) : string :=
  let aURI := ouURI in
  (* Ignore leading slash. *)
  let aURI := if startsWith aURI "/" then copy_from aURI 1 else aURI in
  (* Ignore query part of the URI. *)
  match indexOf aURI "?" with
  | Some nQueryPos => copy_to aURI nQueryPos
  | None => aURI
  end.

(** The body of the loop that writes the [Manifest]. *)
Definition exportManifestReference
    (xRootStorage : string -> option XInputStream)
    (rReference : SignatureReferenceInformation) : Out unit :=
  if negb (SignatureReferenceType_eqb (nType rReference) SAMEDOCUMENT) then
    if lcl_isOOXMLBlacklist (ouURI rReference) then emit [] else
    emit [startElement TAG_REFERENCE [(ATTR_URI, ouURI rReference)]] >>
    (* Transforms *)
    (if endsWith (ouURI rReference)
          "?ContentType=application/vnd.openxmlformats-package.relationships+xml"
     then
       let aURI := relationsPartName (ouURI rReference) in
       xRelStream <~ (match xRootStorage aURI with
                      | Some s => ([], Some s)
                      | None => throw
                      end) ;;
       emit [startElement TAG_TRANSFORMS [];
             startElement TAG_TRANSFORM [(ATTR_ALGORITHM, ALGO_RELATIONSHIP)]] >>
       aRelationsInfo <~ (match ReadRelationsInfoSequence xRelStream aURI with
                          | Some r => ([], Some r)
                          | None => throw
                          end) ;;
       emit (exportRelations aRelationsInfo) >>
       emit [endElement TAG_TRANSFORM;
             startElement TAG_TRANSFORM [(ATTR_ALGORITHM, ALGO_C14N)];
             endElement TAG_TRANSFORM;
             endElement TAG_TRANSFORMS]
     else emit []) >>
    emit [startElement TAG_DIGESTMETHOD [(ATTR_ALGORITHM, ALGO_XMLDSIGSHA256)];
          endElement TAG_DIGESTMETHOD;
          startElement TAG_DIGESTVALUE [];
          characters (ouDigestValue rReference);
          endElement TAG_DIGESTVALUE;
          endElement TAG_REFERENCE]
  else emit [].

(** The body of the loop that writes the references of [SignedInfo]. *)
Definition exportSignedInfoReference (rReference : SignatureReferenceInformation)
    : list SaxEvent :=
  if SignatureReferenceType_eqb (nType rReference) SAMEDOCUMENT then
    [startElement TAG_REFERENCE
       [("Type",
         if negb (String.eqb (ouURI rReference) "idSignedProperties")
         then "http://www.w3.org/2000/09/xmldsig#Object"
         else "http://uri.etsi.org/01903#SignedProperties");
        (ATTR_URI, (CHAR_FRAGMENT ++ ouURI rReference)%string)]] ++
    (if String.eqb (ouURI rReference) "idSignedProperties" then
       [startElement TAG_TRANSFORMS [];
        startElement TAG_TRANSFORM [(ATTR_ALGORITHM, ALGO_C14N)];
        endElement TAG_TRANSFORM;
        endElement TAG_TRANSFORMS]
     else []) ++
    [startElement TAG_DIGESTMETHOD [(ATTR_ALGORITHM, ALGO_XMLDSIGSHA256)];
     endElement TAG_DIGESTMETHOD;
     startElement TAG_DIGESTVALUE [];
     characters (ouDigestValue rReference);
     endElement TAG_DIGESTVALUE;
     endElement TAG_REFERENCE]
  else [].

(** [aSignatureTimeValue]. *)
Definition signatureTimeValue (rInformation : SignatureInformation) : string :=
  if negb (isEmpty (ouDateTime rInformation)) then ouDateTime rInformation
  else
    let aSignatureTimeValue := toISO8601 (stDateTime rInformation) in
    (* Ignore sub-seconds. *)
    match indexOf aSignatureTimeValue "," with
    | Some nCommaPos => (copy_to aSignatureTimeValue nCommaPos ++ "Z")%string
    | None => aSignatureTimeValue
    end.

(** [assert(b)], in a build with assertions: when [b] does not hold the
    process is aborted, and the function does not return. *)
Definition assert_ (b : bool) : Out unit := if b then emit [] else throw.

(** The part of [exportOOXMLSignature] inside [if (!bTest)]: the
    [xd:SignedProperties]. *)
Definition exportSignedProperties (rInformation : SignatureInformation) : Out unit :=
  emit
  [startElement (NSTAG_XD ++ ":" ++ TAG_SIGNEDPROPERTIES)%string [(ATTR_ID, "idSignedProperties")];
   startElement "xd:SignedSignatureProperties" [];
   startElement "xd:SigningTime" [];
   characters (signatureTimeValue rInformation);
   endElement "xd:SigningTime";
   startElement "xd:SigningCertificate" [];
   startElement "xd:Cert" [];
   startElement "xd:CertDigest" [];
   startElement "DigestMethod" [(ATTR_ALGORITHM, ALGO_XMLDSIGSHA256)];
   endElement "DigestMethod";
   startElement "DigestValue" []] >>
  assert_ (negb (isEmpty (ouCertDigest rInformation))) >>
  emit
  [characters (ouCertDigest rInformation);
   endElement "DigestValue";
   endElement "xd:CertDigest";
   startElement "xd:IssuerSerial" [];
   startElement "X509IssuerName" [];
   characters (ouX509IssuerName rInformation);
   endElement "X509IssuerName";
   startElement "X509SerialNumber" [];
   characters (ouX509SerialNumber rInformation);
   endElement "X509SerialNumber";
   endElement "xd:IssuerSerial";
   endElement "xd:Cert";
   endElement "xd:SigningCertificate";
   startElement "xd:SignaturePolicyIdentifier" [];
   startElement "xd:SignaturePolicyImplied" [];
   endElement "xd:SignaturePolicyImplied";
   endElement "xd:SignaturePolicyIdentifier";
   endElement "xd:SignedSignatureProperties";
   endElement (NSTAG_XD ++ ":" ++ TAG_SIGNEDPROPERTIES)%string].

(** [exportOOXMLSignature] up to the loop that writes the manifest. *)
Definition exportOOXML_beforeManifest (rInformation : SignatureInformation)
    : list SaxEvent :=
  let rReferences := vSignatureReferenceInfors rInformation in
       [startElement TAG_SIGNATURE [(ATTR_XMLNS, NS_XMLDSIG); (ATTR_ID, "idPackageSignature")];
        startElement TAG_SIGNEDINFO [];
        startElement TAG_CANONICALIZATIONMETHOD [(ATTR_ALGORITHM, ALGO_C14N)];
        endElement TAG_CANONICALIZATIONMETHOD;
        startElement TAG_SIGNATUREMETHOD [(ATTR_ALGORITHM, ALGO_RSASHA256)];
        endElement TAG_SIGNATUREMETHOD] ++
  flat_map exportSignedInfoReference rReferences ++
       [endElement TAG_SIGNEDINFO;
        startElement TAG_SIGNATUREVALUE [];
        characters (ouSignatureValue rInformation);
        endElement TAG_SIGNATUREVALUE;
        startElement TAG_KEYINFO [];
        startElement TAG_X509DATA [];
        startElement TAG_X509CERTIFICATE [];
        characters (ouX509Certificate rInformation);
        endElement TAG_X509CERTIFICATE;
        endElement TAG_X509DATA;
        endElement TAG_KEYINFO;
        startElement TAG_OBJECT [(ATTR_ID, "idPackageObject")];
        startElement TAG_MANIFEST []].

(** [exportOOXMLSignature] from the end of the manifest to the start of
    [xd:QualifyingProperties]. *)
Definition exportOOXML_afterManifest (rInformation : SignatureInformation)
    : list SaxEvent :=
       [endElement TAG_MANIFEST;
        (* SignatureProperties *)
        startElement TAG_SIGNATUREPROPERTIES [];
        startElement TAG_SIGNATUREPROPERTY
          [(ATTR_ID, "idSignatureTime"); (ATTR_TARGET, "#idPackageSignature")];
        startElement (NSTAG_MDSSI ++ ":" ++ TAG_SIGNATURETIME)%string
          [((ATTR_XMLNS ++ ":" ++ NSTAG_MDSSI)%string, NS_MDSSI)];
        startElement (NSTAG_MDSSI ++ ":" ++ TAG_FORMAT)%string [];
        characters "YYYY-MM-DDThh:mm:ssTZD";
        endElement (NSTAG_MDSSI ++ ":" ++ TAG_FORMAT)%string;
        startElement (NSTAG_MDSSI ++ ":" ++ TAG_VALUE)%string [];
        characters (signatureTimeValue rInformation);
        endElement (NSTAG_MDSSI ++ ":" ++ TAG_VALUE)%string;
        endElement (NSTAG_MDSSI ++ ":" ++ TAG_SIGNATURETIME)%string;
        endElement TAG_SIGNATUREPROPERTY;
        endElement TAG_SIGNATUREPROPERTIES;
        endElement TAG_OBJECT;
        (* idOfficeObject *)
        startElement TAG_OBJECT [(ATTR_ID, "idOfficeObject")];
        startElement TAG_SIGNATUREPROPERTIES [];
        startElement TAG_SIGNATUREPROPERTY
          [(ATTR_ID, "idOfficeV1Details"); (ATTR_TARGET, "#idPackageSignature")];
        startElement "SignatureInfoV1"
          [(ATTR_XMLNS, "http://schemas.microsoft.com/office/2006/digsig")];
        startElement "SetupId" []; endElement "SetupId";
        startElement "SignatureText" []; endElement "SignatureText";
        startElement "SignatureImage" []; endElement "SignatureImage";
        startElement "SignatureComments" [];
        characters (ouDescription rInformation);
        endElement "SignatureComments";
        (* Just hardcode something valid according to [MS-OFFCRYPTO]. *)
        startElement "WindowsVersion" []; characters "6.1"; endElement "WindowsVersion";
        startElement "OfficeVersion" []; characters "16.0"; endElement "OfficeVersion";
        startElement "ApplicationVersion" []; characters "16.0";
        endElement "ApplicationVersion";
        startElement "Monitors" []; characters "1"; endElement "Monitors";
        startElement "HorizontalResolution" []; characters "1280";
        endElement "HorizontalResolution";
        startElement "VerticalResolution" []; characters "800";
        endElement "VerticalResolution";
        startElement "ColorDepth" []; characters "32"; endElement "ColorDepth";
        startElement "SignatureProviderId" [];
        characters "{00000000-0000-0000-0000-000000000000}";
        endElement "SignatureProviderId";
        startElement "SignatureProviderUrl" []; endElement "SignatureProviderUrl";
        startElement "SignatureProviderDetails" []; characters "9";
        endElement "SignatureProviderDetails";
        startElement "SignatureType" []; characters "1"; endElement "SignatureType";
        endElement "SignatureInfoV1";
        endElement TAG_SIGNATUREPROPERTY;
        endElement TAG_SIGNATUREPROPERTIES;
        endElement TAG_OBJECT;
        startElement TAG_OBJECT [];
        startElement (NSTAG_XD ++ ":" ++ TAG_QUALIFYINGPROPERTIES)%string
          [((ATTR_XMLNS ++ ":" ++ NSTAG_XD)%string, NS_XD);
           (ATTR_TARGET, "#idPackageSignature")]].

(** [bTest] is [getenv("LO_TESTNAME")], read once. *)
Definition exportOOXMLSignature (bTest : bool)
    (xRootStorage : string -> option XInputStream)
    (rInformation : SignatureInformation) : Out unit :=
  let rReferences := vSignatureReferenceInfors rInformation in
  emit (exportOOXML_beforeManifest rInformation) >>
  forEach rReferences (exportManifestReference xRootStorage) >>
  emit (exportOOXML_afterManifest rInformation) >>
  (if negb bTest then exportSignedProperties rInformation else emit []) >>
  emit [endElement (NSTAG_XD ++ ":" ++ TAG_QUALIFYINGPROPERTIES)%string;
        endElement TAG_OBJECT;
        endElement TAG_SIGNATURE].

End SignatureExport.

(** ** The controller of the SAX chain

    A UNO object is known by its identity; a reference is [None] when it
    is null. *)
Definition XInterface : Type := nat.

(** [m_nStatusOfSecurityComponents]. *)
Inductive ComponentStatus := UNINITIALIZED | INITIALIZED | FAILTOINITIALIZED.

Definition ComponentStatus_eqb (a b : ComponentStatus) : bool :=
  match a, b with
  | UNINITIALIZED, UNINITIALIZED | INITIALIZED, INITIALIZED
  | FAILTOINITIALIZED, FAILTOINITIALIZED => true
  | _, _ => false
  end.

(** Modelled from the spec: [InternalSignatureInformation] of
    [xsecctl.hxx], which is not among the translated files, with the
    fields the translated functions read. *)
Record InternalSignatureInformation := mkInternalSignatureInformation {
  signatureInfor : SignatureInformation;
  xReferenceResolvedListener : option XInterface }.

(** The members of [XSecController]; [mxCtx] is the component context as
    a service factory: for a service name, the instance that
    [createInstanceWithContext] returns, queried for the interface. *)
Record XSecController := mkXSecController {
  mxCtx : string -> option XInterface;
  m_xXMLDocumentWrapper : option XInterface;
  m_xSAXEventKeeper : option XInterface;
  m_xXMLSignature : option XInterface;
  m_xSecurityContext : option XInterface;
  m_xUriBinding : option XInterface;
  m_nNextSecurityId : Z;
  m_vInternalSignatureInformations : list InternalSignatureInformation;
  m_xPreviousNodeOnSAXChain : option XInterface;
  m_bIsPreviousNodeInitializable : bool;
  m_xNextNodeOnSAXChain : option XInterface;
  m_xElementStackKeeper : option XInterface;
  m_bIsSAXEventKeeperConnected : bool;
  m_bIsCollectingElement : bool;
  m_bIsBlocking : bool;
  m_nStatusOfSecurityComponents : ComponentStatus;
  m_bIsSAXEventKeeperSticky : bool;
  m_pErrorMessage : option string;
  m_nReservedSignatureId : Z;
  m_bVerifyCurrentSignature : bool }.

Definition set_m_xXMLDocumentWrapper (v : option XInterface) (this : XSecController) : XSecController :=
  mkXSecController (mxCtx this) v (m_xSAXEventKeeper this) (m_xXMLSignature this)
    (m_xSecurityContext this) (m_xUriBinding this) (m_nNextSecurityId this)
    (m_vInternalSignatureInformations this) (m_xPreviousNodeOnSAXChain this)
    (m_bIsPreviousNodeInitializable this) (m_xNextNodeOnSAXChain this) (m_xElementStackKeeper
    this) (m_bIsSAXEventKeeperConnected this) (m_bIsCollectingElement this) (m_bIsBlocking
    this) (m_nStatusOfSecurityComponents this) (m_bIsSAXEventKeeperSticky this)
    (m_pErrorMessage this) (m_nReservedSignatureId this) (m_bVerifyCurrentSignature this).
Definition set_m_xSAXEventKeeper (v : option XInterface) (this : XSecController) : XSecController :=
  mkXSecController (mxCtx this) (m_xXMLDocumentWrapper this) v (m_xXMLSignature this)
    (m_xSecurityContext this) (m_xUriBinding this) (m_nNextSecurityId this)
    (m_vInternalSignatureInformations this) (m_xPreviousNodeOnSAXChain this)
    (m_bIsPreviousNodeInitializable this) (m_xNextNodeOnSAXChain this) (m_xElementStackKeeper
    this) (m_bIsSAXEventKeeperConnected this) (m_bIsCollectingElement this) (m_bIsBlocking
    this) (m_nStatusOfSecurityComponents this) (m_bIsSAXEventKeeperSticky this)
    (m_pErrorMessage this) (m_nReservedSignatureId this) (m_bVerifyCurrentSignature this).
Definition set_m_xXMLSignature (v : option XInterface) (this : XSecController) : XSecController :=
  mkXSecController (mxCtx this) (m_xXMLDocumentWrapper this) (m_xSAXEventKeeper this) v
    (m_xSecurityContext this) (m_xUriBinding this) (m_nNextSecurityId this)
    (m_vInternalSignatureInformations this) (m_xPreviousNodeOnSAXChain this)
    (m_bIsPreviousNodeInitializable this) (m_xNextNodeOnSAXChain this) (m_xElementStackKeeper
    this) (m_bIsSAXEventKeeperConnected this) (m_bIsCollectingElement this) (m_bIsBlocking
    this) (m_nStatusOfSecurityComponents this) (m_bIsSAXEventKeeperSticky this)
    (m_pErrorMessage this) (m_nReservedSignatureId this) (m_bVerifyCurrentSignature this).
Definition set_m_xSecurityContext (v : option XInterface) (this : XSecController) : XSecController :=
  mkXSecController (mxCtx this) (m_xXMLDocumentWrapper this) (m_xSAXEventKeeper this)
    (m_xXMLSignature this) v (m_xUriBinding this) (m_nNextSecurityId this)
    (m_vInternalSignatureInformations this) (m_xPreviousNodeOnSAXChain this)
    (m_bIsPreviousNodeInitializable this) (m_xNextNodeOnSAXChain this) (m_xElementStackKeeper
    this) (m_bIsSAXEventKeeperConnected this) (m_bIsCollectingElement this) (m_bIsBlocking
    this) (m_nStatusOfSecurityComponents this) (m_bIsSAXEventKeeperSticky this)
    (m_pErrorMessage this) (m_nReservedSignatureId this) (m_bVerifyCurrentSignature this).
Definition set_m_xUriBinding (v : option XInterface) (this : XSecController) : XSecController :=
  mkXSecController (mxCtx this) (m_xXMLDocumentWrapper this) (m_xSAXEventKeeper this)
    (m_xXMLSignature this) (m_xSecurityContext this) v (m_nNextSecurityId this)
    (m_vInternalSignatureInformations this) (m_xPreviousNodeOnSAXChain this)
    (m_bIsPreviousNodeInitializable this) (m_xNextNodeOnSAXChain this) (m_xElementStackKeeper
    this) (m_bIsSAXEventKeeperConnected this) (m_bIsCollectingElement this) (m_bIsBlocking
    this) (m_nStatusOfSecurityComponents this) (m_bIsSAXEventKeeperSticky this)
    (m_pErrorMessage this) (m_nReservedSignatureId this) (m_bVerifyCurrentSignature this).
Definition set_m_nNextSecurityId (v : Z) (this : XSecController) : XSecController :=
  mkXSecController (mxCtx this) (m_xXMLDocumentWrapper this) (m_xSAXEventKeeper this)
    (m_xXMLSignature this) (m_xSecurityContext this) (m_xUriBinding this) v
    (m_vInternalSignatureInformations this) (m_xPreviousNodeOnSAXChain this)
    (m_bIsPreviousNodeInitializable this) (m_xNextNodeOnSAXChain this) (m_xElementStackKeeper
    this) (m_bIsSAXEventKeeperConnected this) (m_bIsCollectingElement this) (m_bIsBlocking
    this) (m_nStatusOfSecurityComponents this) (m_bIsSAXEventKeeperSticky this)
    (m_pErrorMessage this) (m_nReservedSignatureId this) (m_bVerifyCurrentSignature this).
Definition set_m_vInternalSignatureInformations (v : list InternalSignatureInformation) (this : XSecController) : XSecController :=
  mkXSecController (mxCtx this) (m_xXMLDocumentWrapper this) (m_xSAXEventKeeper this)
    (m_xXMLSignature this) (m_xSecurityContext this) (m_xUriBinding this) (m_nNextSecurityId
    this) v (m_xPreviousNodeOnSAXChain this) (m_bIsPreviousNodeInitializable this)
    (m_xNextNodeOnSAXChain this) (m_xElementStackKeeper this) (m_bIsSAXEventKeeperConnected
    this) (m_bIsCollectingElement this) (m_bIsBlocking this) (m_nStatusOfSecurityComponents
    this) (m_bIsSAXEventKeeperSticky this) (m_pErrorMessage this) (m_nReservedSignatureId
    this) (m_bVerifyCurrentSignature this).
Definition set_m_xPreviousNodeOnSAXChain (v : option XInterface) (this : XSecController) : XSecController :=
  mkXSecController (mxCtx this) (m_xXMLDocumentWrapper this) (m_xSAXEventKeeper this)
    (m_xXMLSignature this) (m_xSecurityContext this) (m_xUriBinding this) (m_nNextSecurityId
    this) (m_vInternalSignatureInformations this) v (m_bIsPreviousNodeInitializable this)
    (m_xNextNodeOnSAXChain this) (m_xElementStackKeeper this) (m_bIsSAXEventKeeperConnected
    this) (m_bIsCollectingElement this) (m_bIsBlocking this) (m_nStatusOfSecurityComponents
    this) (m_bIsSAXEventKeeperSticky this) (m_pErrorMessage this) (m_nReservedSignatureId
    this) (m_bVerifyCurrentSignature this).
Definition set_m_bIsPreviousNodeInitializable (v : bool) (this : XSecController) : XSecController :=
  mkXSecController (mxCtx this) (m_xXMLDocumentWrapper this) (m_xSAXEventKeeper this)
    (m_xXMLSignature this) (m_xSecurityContext this) (m_xUriBinding this) (m_nNextSecurityId
    this) (m_vInternalSignatureInformations this) (m_xPreviousNodeOnSAXChain this) v
    (m_xNextNodeOnSAXChain this) (m_xElementStackKeeper this) (m_bIsSAXEventKeeperConnected
    this) (m_bIsCollectingElement this) (m_bIsBlocking this) (m_nStatusOfSecurityComponents
    this) (m_bIsSAXEventKeeperSticky this) (m_pErrorMessage this) (m_nReservedSignatureId
    this) (m_bVerifyCurrentSignature this).
Definition set_m_xNextNodeOnSAXChain (v : option XInterface) (this : XSecController) : XSecController :=
  mkXSecController (mxCtx this) (m_xXMLDocumentWrapper this) (m_xSAXEventKeeper this)
    (m_xXMLSignature this) (m_xSecurityContext this) (m_xUriBinding this) (m_nNextSecurityId
    this) (m_vInternalSignatureInformations this) (m_xPreviousNodeOnSAXChain this)
    (m_bIsPreviousNodeInitializable this) v (m_xElementStackKeeper this)
    (m_bIsSAXEventKeeperConnected this) (m_bIsCollectingElement this) (m_bIsBlocking this)
    (m_nStatusOfSecurityComponents this) (m_bIsSAXEventKeeperSticky this) (m_pErrorMessage
    this) (m_nReservedSignatureId this) (m_bVerifyCurrentSignature this).
Definition set_m_xElementStackKeeper (v : option XInterface) (this : XSecController) : XSecController :=
  mkXSecController (mxCtx this) (m_xXMLDocumentWrapper this) (m_xSAXEventKeeper this)
    (m_xXMLSignature this) (m_xSecurityContext this) (m_xUriBinding this) (m_nNextSecurityId
    this) (m_vInternalSignatureInformations this) (m_xPreviousNodeOnSAXChain this)
    (m_bIsPreviousNodeInitializable this) (m_xNextNodeOnSAXChain this) v
    (m_bIsSAXEventKeeperConnected this) (m_bIsCollectingElement this) (m_bIsBlocking this)
    (m_nStatusOfSecurityComponents this) (m_bIsSAXEventKeeperSticky this) (m_pErrorMessage
    this) (m_nReservedSignatureId this) (m_bVerifyCurrentSignature this).
Definition set_m_bIsSAXEventKeeperConnected (v : bool) (this : XSecController) : XSecController :=
  mkXSecController (mxCtx this) (m_xXMLDocumentWrapper this) (m_xSAXEventKeeper this)
    (m_xXMLSignature this) (m_xSecurityContext this) (m_xUriBinding this) (m_nNextSecurityId
    this) (m_vInternalSignatureInformations this) (m_xPreviousNodeOnSAXChain this)
    (m_bIsPreviousNodeInitializable this) (m_xNextNodeOnSAXChain this) (m_xElementStackKeeper
    this) v (m_bIsCollectingElement this) (m_bIsBlocking this) (m_nStatusOfSecurityComponents
    this) (m_bIsSAXEventKeeperSticky this) (m_pErrorMessage this) (m_nReservedSignatureId
    this) (m_bVerifyCurrentSignature this).
Definition set_m_bIsCollectingElement (v : bool) (this : XSecController) : XSecController :=
  mkXSecController (mxCtx this) (m_xXMLDocumentWrapper this) (m_xSAXEventKeeper this)
    (m_xXMLSignature this) (m_xSecurityContext this) (m_xUriBinding this) (m_nNextSecurityId
    this) (m_vInternalSignatureInformations this) (m_xPreviousNodeOnSAXChain this)
    (m_bIsPreviousNodeInitializable this) (m_xNextNodeOnSAXChain this) (m_xElementStackKeeper
    this) (m_bIsSAXEventKeeperConnected this) v (m_bIsBlocking this)
    (m_nStatusOfSecurityComponents this) (m_bIsSAXEventKeeperSticky this) (m_pErrorMessage
    this) (m_nReservedSignatureId this) (m_bVerifyCurrentSignature this).
Definition set_m_bIsBlocking (v : bool) (this : XSecController) : XSecController :=
  mkXSecController (mxCtx this) (m_xXMLDocumentWrapper this) (m_xSAXEventKeeper this)
    (m_xXMLSignature this) (m_xSecurityContext this) (m_xUriBinding this) (m_nNextSecurityId
    this) (m_vInternalSignatureInformations this) (m_xPreviousNodeOnSAXChain this)
    (m_bIsPreviousNodeInitializable this) (m_xNextNodeOnSAXChain this) (m_xElementStackKeeper
    this) (m_bIsSAXEventKeeperConnected this) (m_bIsCollectingElement this) v
    (m_nStatusOfSecurityComponents this) (m_bIsSAXEventKeeperSticky this) (m_pErrorMessage
    this) (m_nReservedSignatureId this) (m_bVerifyCurrentSignature this).
Definition set_m_nStatusOfSecurityComponents (v : ComponentStatus) (this : XSecController) : XSecController :=
  mkXSecController (mxCtx this) (m_xXMLDocumentWrapper this) (m_xSAXEventKeeper this)
    (m_xXMLSignature this) (m_xSecurityContext this) (m_xUriBinding this) (m_nNextSecurityId
    this) (m_vInternalSignatureInformations this) (m_xPreviousNodeOnSAXChain this)
    (m_bIsPreviousNodeInitializable this) (m_xNextNodeOnSAXChain this) (m_xElementStackKeeper
    this) (m_bIsSAXEventKeeperConnected this) (m_bIsCollectingElement this) (m_bIsBlocking
    this) v (m_bIsSAXEventKeeperSticky this) (m_pErrorMessage this) (m_nReservedSignatureId
    this) (m_bVerifyCurrentSignature this).
Definition set_m_pErrorMessage (v : option string) (this : XSecController) : XSecController :=
  mkXSecController (mxCtx this) (m_xXMLDocumentWrapper this) (m_xSAXEventKeeper this)
    (m_xXMLSignature this) (m_xSecurityContext this) (m_xUriBinding this) (m_nNextSecurityId
    this) (m_vInternalSignatureInformations this) (m_xPreviousNodeOnSAXChain this)
    (m_bIsPreviousNodeInitializable this) (m_xNextNodeOnSAXChain this) (m_xElementStackKeeper
    this) (m_bIsSAXEventKeeperConnected this) (m_bIsCollectingElement this) (m_bIsBlocking
    this) (m_nStatusOfSecurityComponents this) (m_bIsSAXEventKeeperSticky this) v
    (m_nReservedSignatureId this) (m_bVerifyCurrentSignature this).
Definition set_m_bVerifyCurrentSignature (v : bool) (this : XSecController) : XSecController :=
  mkXSecController (mxCtx this) (m_xXMLDocumentWrapper this) (m_xSAXEventKeeper this)
    (m_xXMLSignature this) (m_xSecurityContext this) (m_xUriBinding this) (m_nNextSecurityId
    this) (m_vInternalSignatureInformations this) (m_xPreviousNodeOnSAXChain this)
    (m_bIsPreviousNodeInitializable this) (m_xNextNodeOnSAXChain this) (m_xElementStackKeeper
    this) (m_bIsSAXEventKeeperConnected this) (m_bIsCollectingElement this) (m_bIsBlocking
    this) (m_nStatusOfSecurityComponents this) (m_bIsSAXEventKeeperSticky this)
    (m_pErrorMessage this) (m_nReservedSignatureId this) v.

(** The constructor. *)
Definition XSecController_ctor (rxCtx : string -> option XInterface) : XSecController :=
  mkXSecController rxCtx None None None None None 1 [] None false None None
    false false false UNINITIALIZED false None 0 false.

(** The calls a function makes on other objects, in order. *)
Inductive Call :=
| SAXEventKeeper_initialize (xXMLDocumentWrapper : option XInterface)
| addSAXEventKeeperStatusChangeListener (bThis : bool)
| SAXEventKeeper_setNextHandler (xHandler : option XInterface)
| PreviousNode_initialize (xHandler : option XInterface)
| PreviousNode_setDocumentHandler (xHandler : option XInterface)
| ElementStackKeeper_retrieve (xHandler : option XInterface) (bRetrievingLastEvent : bool)
| ElementStackKeeper_stop
| ElementStackKeeper_start
| MissionTaker_endMission (xListener : option XInterface).

(** A member function: from the object to the result, the object after
    the call and the calls made; [None] when the function does not return
    (a call through a null reference, an exception) or when what it does
    is undefined. *)
Definition M (A : Type) : Type := XSecController -> option (A * XSecController * list Call).

Definition ret {A : Type} (a : A) : M A := fun this => Some (a, this, []).
Definition bind {A B : Type} (c : M A) (k : A -> M B) : M B :=
  fun this =>
    match c this with
    | Some (a, this1, l1) =>
        match k a this1 with
        | Some (b, this2, l2) => Some (b, this2, l1 ++ l2)
        | None => None
        end
    | None => None
    end.
Definition get : M XSecController := fun this => Some (this, this, []).
Definition modify (f : XSecController -> XSecController) : M unit :=
  fun this => Some (tt, f this, []).
Definition call (c : Call) : M unit := fun this => Some (tt, this, [c]).
Definition undefined {A : Type} : M A := fun _ => None.
(** [r->...]: the call is made through [r]. *)
Definition through (r : option XInterface) (c : Call) : M unit :=
  fun this => match r with Some _ => Some (tt, this, [c]) | None => None end.
Definition when (b : bool) (c : M unit) : M unit := if b then c else ret tt.

Notation "x <<- c ;; k" := (bind c (fun x => k))
  (at level 61, c at next level, right associativity).
Notation "c ;;; k" := (bind c (fun _ => k))
  (at level 61, right associativity).

Definition is_ (r : option XInterface) : bool :=
  match r with Some _ => true | None => false end.

Definition XMLSIGNATURE_COMPONENT := "com.sun.star.xml.crypto.XMLSignature".
Definition XMLDOCUMENTWRAPPER_COMPONENT := "com.sun.star.xml.wrapper.XMLDocumentWrapper".
Definition SAXEVENTKEEPER_COMPONENT := "com.sun.star.xml.crypto.sax.SAXEventKeeper".

(** [findSignatureInfor]: the index of the signature with the id, or -1. *)
Fixpoint findSignatureInfor_from (v : list InternalSignatureInformation) (i : Z)
    (nId : Z) : Z :=
  match v with
  | [] => (-1)%Z
  | isi :: t =>
      if (nSecurityId (signatureInfor isi) =? nId)%Z then i
      else findSignatureInfor_from t (i + 1)%Z nId
  end.
Definition findSignatureInfor (this : XSecController) (nId : Z) : Z :=
  findSignatureInfor_from (m_vInternalSignatureInformations this) 0 nId.

Definition createXSecComponent : M unit :=
  (* marks all security components are not available. *)
  modify (set_m_nStatusOfSecurityComponents FAILTOINITIALIZED) ;;;
  modify (set_m_xXMLSignature None) ;;;
  modify (set_m_xXMLDocumentWrapper None) ;;;
  modify (set_m_xSAXEventKeeper None) ;;;
  this <<- get ;;
  modify (set_m_xXMLSignature (mxCtx this XMLSIGNATURE_COMPONENT)) ;;;
  this <<- get ;;
  let bSuccess := is_ (m_xXMLSignature this) in
  when bSuccess
    (modify (set_m_xXMLDocumentWrapper (mxCtx this XMLDOCUMENTWRAPPER_COMPONENT))) ;;;
  this <<- get ;;
  let bSuccess := bSuccess && is_ (m_xXMLDocumentWrapper this) in
  when bSuccess
    (modify (set_m_xSAXEventKeeper (mxCtx this SAXEVENTKEEPER_COMPONENT))) ;;;
  this <<- get ;;
  let bSuccess := bSuccess && is_ (m_xSAXEventKeeper this) in
  when bSuccess
    (through (m_xSAXEventKeeper this)
       (SAXEventKeeper_initialize (m_xXMLDocumentWrapper this)) ;;;
     through (m_xSAXEventKeeper this) (addSAXEventKeeperStatusChangeListener true) ;;;
     modify (set_m_nStatusOfSecurityComponents INITIALIZED)).

(** The connection of the previous node of the chain to [xHandler], in
    [chainOn] and [chainOff]. *)
Definition connectPreviousNode (xHandler : option XInterface) : M unit :=
  this <<- get ;;
  when (is_ (m_xPreviousNodeOnSAXChain this))
    (if m_bIsPreviousNodeInitializable this
     then call (PreviousNode_initialize xHandler)
     else call (PreviousNode_setDocumentHandler xHandler)).

Definition chainOn (bRetrievingLastEvent : bool) : M bool :=
  this <<- get ;;
  if negb (m_bIsSAXEventKeeperSticky this) && negb (m_bIsSAXEventKeeperConnected this) then
    when (ComponentStatus_eqb (m_nStatusOfSecurityComponents this) UNINITIALIZED)
      createXSecComponent ;;;
    this <<- get ;;
    if ComponentStatus_eqb (m_nStatusOfSecurityComponents this) INITIALIZED then
      (* disconnect the SAXEventKeeper with its current output handler *)
      through (m_xSAXEventKeeper this) (SAXEventKeeper_setNextHandler None) ;;;
      let xSEKHandler := m_xSAXEventKeeper this in
      (* connects the previous document handler on the SAX chain *)
      connectPreviousNode xSEKHandler ;;;
      (* get missed key SAX events *)
      when (is_ (m_xElementStackKeeper this))
        (call (ElementStackKeeper_retrieve xSEKHandler bRetrievingLastEvent) ;;;
         call ElementStackKeeper_stop) ;;;
      (* connects the next document handler on the SAX chain *)
      through (m_xSAXEventKeeper this)
        (SAXEventKeeper_setNextHandler (m_xNextNodeOnSAXChain this)) ;;;
      modify (set_m_bIsSAXEventKeeperConnected true) ;;;
      ret true
    else ret false
  else ret false.

Definition chainOff : M unit :=
  this <<- get ;;
  when (negb (m_bIsSAXEventKeeperSticky this))
    (when (m_bIsSAXEventKeeperConnected this)
       (through (m_xSAXEventKeeper this) (SAXEventKeeper_setNextHandler None) ;;;
        connectPreviousNode (m_xNextNodeOnSAXChain this) ;;;
        (* start the ElementStackKeeper to reserve any possible missed key
           SAX events *)
        when (is_ (m_xElementStackKeeper this)) (call ElementStackKeeper_start) ;;;
        modify (set_m_bIsSAXEventKeeperConnected false))).

Definition checkChainingStatus : M unit :=
  this <<- get ;;
  if m_bIsCollectingElement this || m_bIsBlocking this
  then chainOn true ;;; ret tt
  else chainOff.

Definition initializeSAXChain : M unit :=
  modify (set_m_bIsSAXEventKeeperConnected false) ;;;
  modify (set_m_bIsCollectingElement false) ;;;
  modify (set_m_bIsBlocking false) ;;;
  this <<- get ;;
  (* starts the ElementStackKeeper *)
  when (is_ (m_xElementStackKeeper this)) (call ElementStackKeeper_start) ;;;
  chainOff.

(** The largest [sal_Int32]. *)
Definition SAL_MAX_INT32 : Z := (2 ^ 31 - 1)%Z.

(** [m_nNextSecurityId++] on a [sal_Int32]: at the largest value the
    increment overflows, which is undefined in the source; the run does
    not go on. *)
Definition getNewSecurityId : M Z :=
  this <<- get ;;
  let nId := m_nNextSecurityId this in
  (if (m_nNextSecurityId this =? SAL_MAX_INT32)%Z then undefined else ret tt) ;;;
  modify (set_m_nNextSecurityId (m_nNextSecurityId this + 1)) ;;;
  ret nId.

Definition startMission (xUriBinding xSecurityContext : option XInterface) : M unit :=
  modify (set_m_xUriBinding xUriBinding) ;;;
  modify (set_m_nStatusOfSecurityComponents UNINITIALIZED) ;;;
  modify (set_m_xSecurityContext xSecurityContext) ;;;
  modify (set_m_pErrorMessage None) ;;;
  modify (set_m_vInternalSignatureInformations []) ;;;
  modify (set_m_bVerifyCurrentSignature false).

Definition setSAXChainConnector
    (xInitialization xDocumentHandler xElementStackKeeper : option XInterface) : M unit :=
  modify (set_m_bIsPreviousNodeInitializable true) ;;;
  modify (set_m_xPreviousNodeOnSAXChain xInitialization) ;;;
  modify (set_m_xNextNodeOnSAXChain xDocumentHandler) ;;;
  modify (set_m_xElementStackKeeper xElementStackKeeper) ;;;
  initializeSAXChain.

Definition clearSAXChainConnector : M unit :=
  this <<- get ;;
  when (is_ (m_xElementStackKeeper this) && is_ (m_xSAXEventKeeper this))
    (call (ElementStackKeeper_retrieve (m_xSAXEventKeeper this) true)) ;;;
  chainOff ;;;
  modify (set_m_xPreviousNodeOnSAXChain None) ;;;
  modify (set_m_xNextNodeOnSAXChain None) ;;;
  modify (set_m_xElementStackKeeper None).

(** The loop of [endMission] over the signatures. *)
Fixpoint endMission_loop (v : list InternalSignatureInformation) : M unit :=
  match v with
  | [] => ret tt
  | isi :: t =>
      this <<- get ;;
      when (ComponentStatus_eqb (m_nStatusOfSecurityComponents this) INITIALIZED)
        (through (xReferenceResolvedListener isi)
           (MissionTaker_endMission (xReferenceResolvedListener isi))) ;;;
      endMission_loop t
  end.

Definition endMission : M unit :=
  this <<- get ;;
  endMission_loop (m_vInternalSignatureInformations this) ;;;
  modify (set_m_xUriBinding None) ;;;
  modify (set_m_xSecurityContext None) ;;;
  (* free the status change listener reference to this object *)
  this <<- get ;;
  when (is_ (m_xSAXEventKeeper this))
    (call (addSAXEventKeeperStatusChangeListener false)).

(** [SignatureInformation aInf( 0 )]: the record of the id 0, its other
    members empty.  Modelled from the spec: the constructor is in
    [sigstruct.hxx]. *)
Definition SignatureInformation_ctor (nId : Z) : SignatureInformation :=
  mkSignatureInformation nId 0%Z [] EmptyString EmptyString EmptyString EmptyString
    (mkDateTime 0 0 0 0 0 0 0 false) EmptyString EmptyString EmptyString EmptyString
    EmptyString EmptyString.

Definition getSignatureInformation (this : XSecController) (nId : Z)
    : SignatureInformation :=
  let aInf := SignatureInformation_ctor 0 in
  let nIndex := findSignatureInfor this nId in
  if negb (nIndex =? -1)%Z then
    match nth_error (m_vInternalSignatureInformations this) (Z.to_nat nIndex) with
    | Some isi => signatureInfor isi
    | None => aInf
    end
  else aInf.

Definition getSignatureInformations (this : XSecController) : list SignatureInformation :=
  map signatureInfor (m_vInternalSignatureInformations this).

Definition blockingStatusChanged (isBlocking : bool) : M unit :=
  modify (set_m_bIsBlocking isBlocking) ;;;
  checkChainingStatus.

Definition collectionStatusChanged (isInsideCollectedElement : bool) : M unit :=
  modify (set_m_bIsCollectingElement isInsideCollectedElement) ;;;
  checkChainingStatus.

Definition bufferStatusChanged (isBufferEmpty : bool) : M unit := ret tt.

Definition set_nStatus (v : SecurityOperationStatus) (si : SignatureInformation)
    : SignatureInformation :=
  mkSignatureInformation (nSecurityId si) v (vSignatureReferenceInfors si)
    (ouX509IssuerName si) (ouX509SerialNumber si) (ouX509Certificate si)
    (ouSignatureValue si) (stDateTime si) (ouDateTime si) (ouSignatureId si)
    (ouPropertyId si) (ouDescription si) (ouDescriptionPropertyId si) (ouCertDigest si).

(** [v.at(index).signatureInfor.nStatus = nResult]; [at] throws when the
    index, as a [size_t], is not below the size. *)
Fixpoint setStatusAt (v : list InternalSignatureInformation) (index : nat)
    (nResult : SecurityOperationStatus) : option (list InternalSignatureInformation) :=
  match v, index with
  | [], _ => None
  | isi :: t, O =>
      Some (mkInternalSignatureInformation (set_nStatus nResult (signatureInfor isi))
              (xReferenceResolvedListener isi) :: t)
  | isi :: t, S n =>
      match setStatusAt t n nResult with
      | Some t' => Some (isi :: t')
      | None => None
      end
  end.

(** [signatureCreated] and [signatureVerified] have the same body. *)
Definition signatureCreated (securityId : Z) (nResult : SecurityOperationStatus) : M unit :=
  fun this =>
    let index := findSignatureInfor this securityId in
    if (index <? 0)%Z then None
    else
      match setStatusAt (m_vInternalSignatureInformations this) (Z.to_nat index) nResult with
      | Some v => Some (tt, set_m_vInternalSignatureInformations v this, [])
      | None => None
      end.

Definition signatureVerified (securityId : Z) (nResult : SecurityOperationStatus) : M unit :=
  signatureCreated securityId nResult.

(** ** [DocumentSignatureManager] *)

(** [s.lastIndexOf(c)], [None] for -1. *)
Fixpoint lastIndexOf (s : string) (c : ascii) : option nat :=
  match s with
  | EmptyString => None
  | String a t =>
      match lastIndexOf t c with
      | Some n => Some (S n)
      | None => if Ascii.eqb a c then Some 0%nat else None
      end
  end.

(** The upper-case letter of an ASCII letter, for
    [equalsIgnoreAsciiCase]. *)
Definition toAsciiUpperCase (a : ascii) : ascii :=
  let n := nat_of_ascii a in
  if (97 <=? n)%nat && (n <=? 122)%nat then ascii_of_nat (n - 32) else a.

Fixpoint equalsIgnoreAsciiCase (s t : string) : bool :=
  match s, t with
  | EmptyString, EmptyString => true
  | String a s', String b t' =>
      Ascii.eqb (toAsciiUpperCase a) (toAsciiUpperCase b) && equalsIgnoreAsciiCase s' t'
  | _, _ => false
  end.

(** [css::uno::Any], as far as [>>=] to an [OUString] tells. *)
Inductive Any := AnyString (s : string) | AnyOther.

(** [css::beans::PropertyValue]. *)
Record PropertyValue := mkPropertyValue { Name : string; Value : Any }.

(** [DocumentSignatureMode] and [css::embed::StorageFormats].  Modelled
    from the spec: [documentsignaturehelper.hxx] is not among the
    translated files. *)
Inductive DocumentSignatureMode := SignatureModeDocumentContent | SignatureModeMacros
                                 | SignatureModePackage.
Inductive StorageFormat := PACKAGE | ZIP | OFOPXML.

Definition StorageFormat_eqb (a b : StorageFormat) : bool :=
  match a, b with
  | PACKAGE, PACKAGE | ZIP, ZIP | OFOPXML, OFOPXML => true
  | _, _ => false
  end.

(** [SignatureStreamHelper]; a new one has no stream, no storage and the
    format [ZIP]. *)
Record SignatureStreamHelper := mkSignatureStreamHelper {
  xSignatureStorage : option XInterface;
  xSignatureStream : option XInterface;
  nStorageFormat : StorageFormat }.

(** [css::embed::ElementModes]. *)
Definition ElementModes_READ : Z := 1.
Definition ElementModes_WRITE : Z := 4.
Definition ElementModes_TRUNCATE : Z := 8.

Section Manager.

(** The state of [maSignatureHelper], an [XMLSignatureHelper]; its class
    is not among the translated files. *)
Variable XMLSignatureHelper : Type.

Record DocumentSignatureManager := mkDocumentSignatureManager {
  mxStore : option XInterface;
  maSignatureHelper : XMLSignatureHelper;
  maCurrentSignatureInformations : list SignatureInformation;
  meSignatureMode : DocumentSignatureMode;
  m_manifest : list (list PropertyValue);
  mxSignatureStream : option XInterface;
  mxTempSignatureStream : option XInterface;
  mxTempSignatureStorage : option XInterface }.

Definition set_maSignatureHelper v (this : DocumentSignatureManager) :=
  mkDocumentSignatureManager (mxStore this) v (maCurrentSignatureInformations this)
    (meSignatureMode this) (m_manifest this) (mxSignatureStream this)
    (mxTempSignatureStream this) (mxTempSignatureStorage this).
Definition set_maCurrentSignatureInformations v (this : DocumentSignatureManager) :=
  mkDocumentSignatureManager (mxStore this) (maSignatureHelper this) v
    (meSignatureMode this) (m_manifest this) (mxSignatureStream this)
    (mxTempSignatureStream this) (mxTempSignatureStorage this).
Definition set_mxTempSignatureStream v (this : DocumentSignatureManager) :=
  mkDocumentSignatureManager (mxStore this) (maSignatureHelper this)
    (maCurrentSignatureInformations this) (meSignatureMode this) (m_manifest this)
    (mxSignatureStream this) v (mxTempSignatureStorage this).
Definition set_mxTempSignatureStorage v (this : DocumentSignatureManager) :=
  mkDocumentSignatureManager (mxStore this) (maSignatureHelper this)
    (maCurrentSignatureInformations this) (meSignatureMode this) (m_manifest this)
    (mxSignatureStream this) (mxTempSignatureStream this) v.

(** [DocumentSignatureHelper::equalsReferenceUriManifestPath]. *)
Variable equalsReferenceUriManifestPath : string -> string -> bool.

(** The loop of [isXML] over the properties of one manifest entry:
    [sPath], [sMediaType] and [bEncrypted]. *)
Definition manifestEntry (entry : list PropertyValue) : string * string * bool :=
  fold_left
    (fun '(sPath, sMediaType, bEncrypted) prop =>
       if String.eqb (Name prop) "FullPath" then
         (match Value prop with AnyString s => s | AnyOther => sPath end,
          sMediaType, bEncrypted)
       else if String.eqb (Name prop) "MediaType" then
         (sPath, match Value prop with AnyString s => s | AnyOther => sMediaType end,
          bEncrypted)
       else if String.eqb (Name prop) "Digest" then (sPath, sMediaType, true)
       else (sPath, sMediaType, bEncrypted))
    entry (EmptyString, EmptyString, false).

(** The loop of [isXML] over the manifest: [Some bIsXML] when an entry
    has the path ([bPropsAvailable]). *)
Fixpoint isXML_manifest (manifest : list (list PropertyValue)) (rURI : string)
    : option bool :=
  match manifest with
  | [] => None
  | entry :: t =>
      let '(sPath, sMediaType, bEncrypted) := manifestEntry entry in
      if equalsReferenceUriManifestPath rURI sPath
      then Some (String.eqb sMediaType "text/xml" && negb bEncrypted)
      else isXML_manifest t rURI
  end.

(** [bTest] is [getenv("LO_TESTNAME")], read once. *)
Definition isXML (bTest : bool) (this : DocumentSignatureManager) (rURI : string) : bool :=
  if bTest then true else
  match isXML_manifest (m_manifest this) rURI with
  | Some bIsXML => bIsXML
  | None =>
      (* This would be the case for at least mimetype,
         META-INF/manifest.xml, META-INF/macrosignatures.xml. *)
      match lastIndexOf rURI "." with
      | Some nSep => equalsIgnoreAsciiCase (copy_from rURI (nSep + 1)) "XML"
      | None => false
      end
  end.

(** *** The calls out of the manager

    The member functions of the manager call [maSignatureHelper] and
    objects outside of it (streams, storages, the certificate, static
    helpers); neither is among the translated files.  A call is named by
    its function and arguments, and typed by its result. *)

(** The calls of member functions of [maSignatureHelper]. *)
Inductive HelperCall : Type -> Type :=
| StartMission : HelperCall unit
| EndMission : HelperCall unit
| GetNewSecurityId : HelperCall Z
| SetX509Certificate (nSecurityId : Z)
    (ouX509IssuerName ouX509SerialNumber ouX509Cert ouX509CertDigest : string)
    : HelperCall unit
| AddForSigning (nSecurityId : Z) (uri objectURL : string) (bBinary : bool)
    : HelperCall unit
| SetDateTime (nSecurityId : Z) : HelperCall unit
| SetDescription (nSecurityId : Z) (rDescription : string) : HelperCall unit
| CreateDocumentHandlerWithHeader (xOutputStream : XInterface) : HelperCall XInterface
| CreateAndWriteSignature (xDocumentHandler : XInterface) : HelperCall bool
| EnsureSignaturesRelation (xStorage : option XInterface) : HelperCall unit
| ExportSignatureRelations (xStorage : option XInterface) (nSignatureCount : nat)
    : HelperCall unit
| ExportOOXMLSignature (xRootStorage xSignatureStorage : option XInterface)
    (rInformation : SignatureInformation) (nSignatureIndex : nat) : HelperCall unit
| CreateAndWriteOOXMLSignature (xRootStorage xSignatureStorage : option XInterface)
    (nSignatureIndex : nat) : HelperCall bool
| ReadAndVerifySignature (xInputStream : option XInterface) : HelperCall bool
| ReadAndVerifySignatureStorage (xStorage : option XInterface) (bCacheLastSignature : bool)
    : HelperCall bool
| GetSignatureInformations : HelperCall (list SignatureInformation).

(** The other calls. *)
Inductive ExtCall : Type -> Type :=
| hasContentTypes (xStore : XInterface) : ExtCall bool
| TempFile_create : ExtCall XInterface
| GetStorageOfFormatFromStream (xStream : option XInterface) : ExtCall (option XInterface)
| OpenSignatureStream (xStore : option XInterface) (nOpenMode : Z)
    (eDocSigMode : DocumentSignatureMode) : ExtCall SignatureStreamHelper
| truncate (xStream : XInterface) : ExtCall unit
| seek (xStream : option XInterface) (location : Z) : ExtCall unit
| SerialNumber_toString (xCert : XInterface) : ExtCall string
| getEncoded_Base64 (xCert : XInterface) : ExtCall string
| getSHA256Thumbprint_Base64 (xCert : XInterface) : ExtCall (option string)
| getIssuerName (xCert : XInterface) : ExtCall string
| CreateElementList (xStore : option XInterface) (eMode : DocumentSignatureMode)
    : ExtCall (list string)
| AppendContentTypes (xStore : option XInterface) (rElements : list string)
    : ExtCall (list string)
| ExportSignature (xDocumentHandler : XInterface) (signatureInfo : SignatureInformation)
    : ExtCall unit
| CloseDocumentHandler (xDocumentHandler : XInterface) : ExtCall unit
| commit (xStorage : option XInterface) : ExtCall unit
| closeOutput (xStream : option XInterface) : ExtCall unit.

(** What is outside of the manager, and what the calls do and return
    ([None]: the call throws). *)
Variable World : Type.
Variable helperCall :
  forall A : Type, HelperCall A -> XMLSignatureHelper -> World ->
                   option A * XMLSignatureHelper * World.
Variable extCall : forall A : Type, ExtCall A -> World -> option A * World.

(** A call with its result, as a function has made it. *)
Inductive Made :=
| helperMade {A : Type} (c : HelperCall A) (r : option A)
| extMade {A : Type} (c : ExtCall A) (r : option A).

(** A member function of the manager: from the manager and the world to
    the result ([None]: an exception leaves the function), the manager
    and the world after it, and the calls made. *)
Definition DM (A : Type) : Type :=
  DocumentSignatureManager -> World ->
  option A * DocumentSignatureManager * World * list Made.

Definition retD {A : Type} (a : A) : DM A := fun this w => (Some a, this, w, []).
Definition bindD {A B : Type} (c : DM A) (k : A -> DM B) : DM B :=
  fun this w =>
    match c this w with
    | (Some a, this1, w1, l1) =>
        let '(r, this2, w2, l2) := k a this1 w1 in (r, this2, w2, l1 ++ l2)
    | (None, this1, w1, l1) => (None, this1, w1, l1)
    end.
Definition getD : DM DocumentSignatureManager := fun this w => (Some this, this, w, []).
Definition modifyD (f : DocumentSignatureManager -> DocumentSignatureManager) : DM unit :=
  fun this w => (Some tt, f this, w, []).
Definition helper {A : Type} (c : HelperCall A) : DM A :=
  fun this w =>
    let '(r, h, w') := helperCall A c (maSignatureHelper this) w in
    (r, set_maSignatureHelper h this, w', [helperMade c r]).
Definition ext {A : Type} (c : ExtCall A) : DM A :=
  fun this w => let '(r, w') := extCall A c w in (r, this, w', [extMade c r]).
(** A call through a reference that is null, and [UNO_QUERY_THROW] on it,
    do not return. *)
Definition nonNull (r : option XInterface) : DM XInterface :=
  fun this w => (r, this, w, []).
Definition whenD (b : bool) (c : DM unit) : DM unit := if b then c else retD tt.

Notation "x <== c ;; k" := (bindD c (fun x => k))
  (at level 61, c at next level, right associativity).
Notation "c ;; k" := (bindD c (fun _ => k))
  (at level 61, right associativity).

Fixpoint forD {A : Type} (l : list A) (body : A -> DM unit) : DM unit :=
  match l with
  | [] => retD tt
  | a :: t => body a ;; forD t body
  end.

(** [v[n]]. *)
Definition index {A : Type} (v : list A) (n : nat) : DM A :=
  fun this w => (nth_error v n, this, w, []).

Definition set_xSignatureStorage v (h : SignatureStreamHelper) :=
  mkSignatureStreamHelper v (xSignatureStream h) (nStorageFormat h).
Definition set_xSignatureStream v (h : SignatureStreamHelper) :=
  mkSignatureStreamHelper (xSignatureStorage h) v (nStorageFormat h).
Definition set_nStorageFormat v (h : SignatureStreamHelper) :=
  mkSignatureStreamHelper (xSignatureStorage h) (xSignatureStream h) v.

Definition hasMode (nStreamOpenMode flag : Z) : bool :=
  negb (Z.land nStreamOpenMode flag =? 0)%Z.

Definition ImplOpenSignatureStream (nStreamOpenMode : Z) (bTempStream : bool)
    : DM SignatureStreamHelper :=
  let aHelper := mkSignatureStreamHelper None None ZIP in
  this <== getD ;;
  aHelper <== match mxStore this with
              | Some xStore =>
                  b <== ext (hasContentTypes xStore) ;;
                  retD (if b then set_nStorageFormat OFOPXML aHelper else aHelper)
              | None => retD aHelper
              end ;;
  aHelper <==
    (if bTempStream then
       aHelper <==
         (if hasMode nStreamOpenMode ElementModes_TRUNCATE then
            (* We write always into a new temporary stream. *)
            xTemp <== ext TempFile_create ;;
            modifyD (set_mxTempSignatureStream (Some xTemp)) ;;
            if negb (StorageFormat_eqb (nStorageFormat aHelper) OFOPXML) then
              retD (set_xSignatureStream (Some xTemp) aHelper)
            else
              xStorage <== ext (GetStorageOfFormatFromStream (Some xTemp)) ;;
              modifyD (set_mxTempSignatureStorage xStorage) ;;
              retD (set_xSignatureStorage xStorage aHelper)
          else
            (* When we read from the temp stream, then we must have
               previously created one. *)
            retD aHelper) ;;
       this <== getD ;;
       let aHelper := set_xSignatureStream (mxTempSignatureStream this) aHelper in
       retD (if StorageFormat_eqb (nStorageFormat aHelper) OFOPXML
             then set_xSignatureStorage (mxTempSignatureStorage this) aHelper
             else aHelper)
     else
       (* No temporary stream *)
       if negb (is_ (mxSignatureStream this)) then
         ext (OpenSignatureStream (mxStore this) nStreamOpenMode (meSignatureMode this))
       else retD (set_xSignatureStream (mxSignatureStream this) aHelper)) ;;
  (if hasMode nStreamOpenMode ElementModes_TRUNCATE then
     match xSignatureStream aHelper with
     | Some xStream =>
         whenD (negb (StorageFormat_eqb (nStorageFormat aHelper) OFOPXML))
           (ext (truncate xStream))
     | None => retD tt
     end
   else
     whenD (bTempStream || is_ (mxSignatureStream this))
       (xSeek <== nonNull (xSignatureStream aHelper) ;;
        ext (seek (Some xSeek) 0))) ;;
  retD aHelper.

(** The two loops that export the signatures of
    [maCurrentSignatureInformations], in [add] and [remove]. *)
Definition exportOld (xDocumentHandler : XInterface) : DM unit :=
  this <== getD ;;
  let nInfos := length (maCurrentSignatureInformations this) in
  forD (seq 0 nInfos)
    (fun n =>
       this <== getD ;;
       info <== index (maCurrentSignatureInformations this) n ;;
       ext (ExportSignature xDocumentHandler info)).

Definition exportOldOOXML (xSignatureStorage : option XInterface) : DM unit :=
  this <== getD ;;
  forD (seq 0 (length (maCurrentSignatureInformations this)))
    (fun i =>
       this <== getD ;;
       info <== index (maCurrentSignatureInformations this) i ;;
       helper (ExportOOXMLSignature (mxStore this) xSignatureStorage info (i + 1))).

(** [add]; the second component of the result is [nSecurityId] at the
    return. *)
Definition add (bTest : bool) (xCert : option XInterface) (rDescription : string)
    (nSecurityId : Z) : DM (bool * Z) :=
  match xCert with
  | None => retD (false, nSecurityId)     (* no certificate selected *)
  | Some cert =>
      aCertSerial <== ext (SerialNumber_toString cert) ;;
      if isEmpty aCertSerial then retD (false, nSecurityId) else
      helper StartMission ;;
      nSecurityId <== helper GetNewSecurityId ;;
      aStrBuffer <== ext (getEncoded_Base64 cert) ;;
      digest <== ext (getSHA256Thumbprint_Base64 cert) ;;
      let aCertDigest := match digest with Some d => d | None => EmptyString end in
      issuer <== ext (getIssuerName cert) ;;
      helper (SetX509Certificate nSecurityId issuer aCertSerial aStrBuffer aCertDigest) ;;
      this <== getD ;;
      aElements <== ext (CreateElementList (mxStore this) (meSignatureMode this)) ;;
      aElements <== ext (AppendContentTypes (mxStore this) aElements) ;;
      forD aElements
        (fun element =>
           this <== getD ;;
           let bBinaryMode := negb (isXML bTest this element) in
           helper (AddForSigning nSecurityId element element bBinaryMode)) ;;
      helper (SetDateTime nSecurityId) ;;
      helper (SetDescription nSecurityId rDescription) ;;
      aStreamHelper <==
        ImplOpenSignatureStream (Z.lor ElementModes_WRITE ElementModes_TRUNCATE) true ;;
      (if negb (StorageFormat_eqb (nStorageFormat aStreamHelper) OFOPXML) then
         xOutputStream <== nonNull (xSignatureStream aStreamHelper) ;;
         xDocumentHandler <== helper (CreateDocumentHandlerWithHeader xOutputStream) ;;
         (* Export old signatures... *)
         exportOld xDocumentHandler ;;
         (* Create a new one... *)
         helper (CreateAndWriteSignature xDocumentHandler) ;;
         (* That's it... *)
         ext (CloseDocumentHandler xDocumentHandler)
       else
         (* OOXML: handle relations. *)
         this <== getD ;;
         helper (EnsureSignaturesRelation (mxStore this)) ;;
         (* Old signatures + the new one. *)
         let nSignatureCount := (length (maCurrentSignatureInformations this) + 1)%nat in
         helper (ExportSignatureRelations (xSignatureStorage aStreamHelper)
                   nSignatureCount) ;;
         (* Export old signatures. *)
         exportOldOOXML (xSignatureStorage aStreamHelper) ;;
         (* Create a new signature. *)
         helper (CreateAndWriteOOXMLSignature (mxStore this)
                   (xSignatureStorage aStreamHelper) nSignatureCount) ;;
         (* Flush objects. *)
         ext (commit (xSignatureStorage aStreamHelper)) ;;
         ext (closeOutput (xSignatureStream aStreamHelper))) ;;
      helper EndMission ;;
      retD (true, nSecurityId)
  end.

(** [remove]; erasing at a position that is not below the size does not
    return. *)
Definition remove (nPosition : nat) : DM unit :=
  this <== getD ;;
  _ <== index (maCurrentSignatureInformations this) nPosition ;;
  modifyD (set_maCurrentSignatureInformations
             (firstn nPosition (maCurrentSignatureInformations this) ++
              skipn (S nPosition) (maCurrentSignatureInformations this))) ;;
  (* Export all other signatures... *)
  aStreamHelper <==
    ImplOpenSignatureStream (Z.lor ElementModes_WRITE ElementModes_TRUNCATE) true ;;
  if negb (StorageFormat_eqb (nStorageFormat aStreamHelper) OFOPXML) then
    xOutputStream <== nonNull (xSignatureStream aStreamHelper) ;;
    xDocumentHandler <== helper (CreateDocumentHandlerWithHeader xOutputStream) ;;
    exportOld xDocumentHandler ;;
    ext (CloseDocumentHandler xDocumentHandler)
  else
    (* OOXML: handle relations. *)
    this <== getD ;;
    let nSignatureCount := length (maCurrentSignatureInformations this) in
    helper (ExportSignatureRelations (xSignatureStorage aStreamHelper) nSignatureCount) ;;
    (* Export old signatures. *)
    exportOldOOXML (xSignatureStorage aStreamHelper) ;;
    (* Flush objects. *)
    ext (commit (xSignatureStorage aStreamHelper)) ;;
    ext (closeOutput (xSignatureStream aStreamHelper)).

Definition read (bUseTempStream bCacheLastSignature : bool) : DM unit :=
  modifyD (set_maCurrentSignatureInformations []) ;;
  helper StartMission ;;
  aStreamHelper <== ImplOpenSignatureStream ElementModes_READ bUseTempStream ;;
  (if negb (StorageFormat_eqb (nStorageFormat aStreamHelper) OFOPXML) &&
      is_ (xSignatureStream aStreamHelper) then
     helper (ReadAndVerifySignature (xSignatureStream aStreamHelper)) ;; retD tt
   else if StorageFormat_eqb (nStorageFormat aStreamHelper) OFOPXML &&
           is_ (xSignatureStorage aStreamHelper) then
     helper (ReadAndVerifySignatureStorage (xSignatureStorage aStreamHelper)
               bCacheLastSignature) ;; retD tt
   else retD tt) ;;
  helper EndMission ;;
  infos <== helper GetSignatureInformations ;;
  modifyD (set_maCurrentSignatureInformations infos).

End Manager.

End XSec.

(** * The vocabulary of the properties

    What the statements below are written with: the quantities the
    specification speaks of, and the data of the examples. *)

Import ETS.
Open Scope Q_scope.

(** What the three prefill steps leave alone. *)
Definition same_input (a b : ScETSForecastCalculation) : Prop :=
  maRange b = maRange a /\ mnCount b = mnCount a /\ mnSmplInPrd b = mnSmplInPrd a /\
  bEDS b = bEDS a /\ bAdditive b = bAdditive a /\ length (mpBase b) = length (mpBase a).

(** The series 6, 2, 6, 2 at X = 1, 2, 3, 4, to be smoothed additively with
    two samples per period. *)
Definition additive_6262 : ScETSForecastCalculation :=
  set_bAdditive true
    (set_mnSmplInPrd 2
       (set_maRange
          [mkDataPoint 1 6; mkDataPoint 2 2; mkDataPoint 3 6; mkDataPoint 4 2]
          (ctor 4 Date.nullDate1899))).

(** [b] is the pair the loop of [CalcPeriodLen] holds once the candidates
    [n0], [n0 - 1], ..., [k + 1] have been tried. *)
Definition best_upto (this : ScETSForecastCalculation) (n0 k : nat) (b : nat * Q) : Prop :=
  snd b == fMeanError this (fst b) /\ (k < fst b <= n0)%nat /\
  forall q, (k < q <= n0)%nat ->
    fMeanError this (fst b) <= fMeanError this q /\
    (fMeanError this q == fMeanError this (fst b) ->
       (fMeanError this (fst b) == 0 -> (fst b <= q)%nat) /\
       (~ fMeanError this (fst b) == 0 -> (q <= fst b)%nat)).

(** The series 0, 0, 0, 5, 5, 9: the candidate periods 3 and 2 both have
    mean error 2. *)
Definition tie_series : ScETSForecastCalculation :=
  set_maRange
    [mkDataPoint 1 0; mkDataPoint 2 0; mkDataPoint 3 0;
     mkDataPoint 4 5; mkDataPoint 5 5; mkDataPoint 6 9]
    (ctor 6 Date.nullDate1899).

(** The fields no smoothing or accuracy computation writes. *)
Definition config (s : ScETSForecastCalculation) :=
  (mpFormatter s, maRange s, mnSmplInPrd s, mfStepSize s, mnCount s, mnMonthDay s,
   bAdditive s, bEDS s, mnErrorValue s).

Definition params (s : ScETSForecastCalculation) : Q * Q * Q :=
  (mfAlpha s, mfBeta s, mfGamma s).

Fixpoint pow2 (n : nat) : Q :=
  match n with O => 1 | S n => 2 * pow2 n end.

(** The search from its second evaluation on, as the three functions
    share it; [finish] is what follows the final [if] on the path that
    does not return early. *)
Definition search_rest
    (setParam : Q -> ScETSForecastCalculation -> ScETSForecastCalculation)
    (eval : ScETSForecastCalculation -> option ScETSForecastCalculation)
    (finish : ScETSForecastCalculation -> ScETSForecastCalculation)
    (fE0 : Q) (this : ScETSForecastCalculation) : option ScETSForecastCalculation :=
  this <- eval (setParam 1 this) ;;
  let fE2 := mfMSE this in
  this <- eval (setParam (1 # 2) this) ;;
  if Qeq_bool fE0 (mfMSE this) && Qeq_bool (mfMSE this) fE2 then
    eval (setParam 0 this)
  else
    r <- search_loop setParam eval cnFuel 0 (1 # 2) 1 fE0 fE2 this ;;
    let '(f0, f1, f2, fE0, fE2, this) := r in
    this <- search_adopt setParam eval f0 f2 fE0 fE2 this ;;
    Some (finish this).

(** The statements that follow each assignment of a smoothing constant. *)
Definition eval_gamma (sqrt : Q -> Q) (s : ScETSForecastCalculation) :=
  Some (refill sqrt s).

Definition eval_beta (sqrt : Q -> Q) (s : ScETSForecastCalculation) :=
  t <- CalcGamma sqrt s ;; Some (refill sqrt t).

Definition eval_alpha (sqrt : Q -> Q) (s : ScETSForecastCalculation) :=
  t <- (if bEDS s then CalcGamma sqrt s else CalcBetaGamma sqrt s) ;; Some (refill sqrt t).


(** Stand-ins for the two library functions, for running examples: the
    square root rounded down to a multiple of 2^-20, and the two values of
    the inverse normal distribution that the examples ask for, to four
    digits. *)
Definition sqrt_ex (x : Q) : Q :=
  inject_Z (Z.sqrt (Qfloor (x * inject_Z (2 ^ 40)))) / inject_Z (2 ^ 20).

Definition gaussinv_ex (p : Q) : Q :=
  if Qeq_bool p (39 # 40) then 196 # 100
  else if Qeq_bool p (3 # 4) then 6745 # 10000 else 0.

(** The series 1, 2, 4, 3 at X = 1, 2, 3, 4 (step 1), initialised for
    double exponential smoothing. *)
Definition des_step1 : ScETSForecastCalculation :=
  snd (initData (fun _ => 0)
         (set_bEDS true
            (set_mfStepSize 1
               (set_maRange
                  [mkDataPoint 1 1; mkDataPoint 2 2; mkDataPoint 3 4; mkDataPoint 4 3]
                  (ctor 4 Date.nullDate1899))))).

(** The number of the values [from], [from + step], [from + 2 step], ...
    that lie below [upto]. *)
Definition stepsBelow (step from upto : Q) : nat :=
  Z.to_nat (Qceiling ((upto - from) / step)).

(** The distance of two neighbouring points as the loop that fills the gaps
    measures it ([fDist]): the difference of the X, or on a month axis the
    number of months between the dates of the two X. *)
Definition gapDist (this : ScETSForecastCalculation) (a b : DataPoint) : Q :=
  if (mnMonthDay this =? 0)%Z then X b - X a
  else monthsBetween (dateOf this (X a)) (dateOf this (X b)).

(** The number of points the loop would insert between two neighbours. *)
Definition missingBetween (this : ScETSForecastCalculation) (a b : DataPoint) : nat :=
  if Qltb (mfStepSize this) (gapDist this a b)
  then stepsBelow (mfStepSize this) (X a + mfStepSize this) (X b)
  else 0%nat.

Fixpoint missingCount (this : ScETSForecastCalculation) (v : list DataPoint) : nat :=
  match v with
  | a :: (b :: _) as t => (missingBetween this a b + missingCount this t)%nat
  | _ => 0%nat
  end.

(** The Y of an inserted point. *)
Definition fillY (bDataCompletion : bool) (a b : DataPoint) : Q :=
  if bDataCompletion then (Y b + Y a) / 2 else 0.

(** [StepsFrom step x v]: the X of the points of [v] are [x], [x + step],
    [x + step + step], ..., each the sum the loop has computed. *)
Fixpoint StepsFrom (step x : Q) (v : list DataPoint) : Prop :=
  match v with
  | [] => True
  | d :: t => X d = x /\ StepsFrom step (x + step) t
  end.

(** [Filled this dc v v']: [v'] is [v] with, between every two neighbours
    [a] and [b], as many points as the loop would insert, at step
    intervals from [X a + step] on, each with an X between theirs and
    with Y the mean of their Y (or 0). *)
Inductive Filled (this : ScETSForecastCalculation) (bDataCompletion : bool)
    : list DataPoint -> list DataPoint -> Prop :=
| Filled_nil : Filled this bDataCompletion [] []
| Filled_one a : Filled this bDataCompletion [a] [a]
| Filled_gap a b t ins t' :
    length ins = missingBetween this a b ->
    Forall (fun d => Y d = fillY bDataCompletion a b /\ X a < X d /\ X d < X b) ins ->
    StepsFrom (mfStepSize this) (X a + mfStepSize this) ins ->
    Filled this bDataCompletion (b :: t) t' ->
    Filled this bDataCompletion (a :: b :: t) (a :: ins ++ t').

(** The fields the loops over [maRange] do not write. *)
Definition fixed (s : ScETSForecastCalculation) :=
  (mpFormatter s, mnSmplInPrd s, mfStepSize s, mnMonthDay s, bAdditive s, bEDS s).

(** The invariant of the loops over [maRange]. *)
Definition Counted (this : ScETSForecastCalculation) : Prop :=
  mnCount this = length (maRange this).

(** Ten points at 1..6, 9, 14, 15, 16: six points are missing. *)
Definition gaps_X : ScMatrix := [1; 2; 3; 4; 5; 6; 9; 14; 15; 16].

Definition gaps_Y : ScMatrix := [1; 2; 3; 4; 5; 6; 9; 14; 15; 16].

Definition gaps_steps : ScETSForecastCalculation :=
  Eval vm_compute in
    match Preprocess_steps (ctor 10 Date.nullDate1899) gaps_X gaps_Y 0 1 None etsAdd with
    | Ret (_, s) => s
    | _ => ctor 0 0
    end.

(** A level with its seasonal index: added in the additive model,
    multiplied in the multiplicative one. *)
Definition seasonal (this : ScETSForecastCalculation) (fLevel fPerIdx : Q) : Q :=
  if bAdditive this then fLevel + fPerIdx else fLevel * fPerIdx.

(** The forecast for the cell [t] of a target matrix; [None] where it is
    undefined. *)
Definition cellForecast (sqrt : Q -> Q) (this : ScETSForecastCalculation) (t : Q)
    : option Q :=
  r <- GetForecast sqrt this
         (if negb (mnMonthDay this =? 0)%Z then convertXtoMonths this t else t) 0 ;;
  Some (snd r).

(** A matrix after its cells [i], [i + 1], ... have been written with
    the values [fs]. *)
Fixpoint written (m : ScMatrix) (i : nat) (fs : list Q) : ScMatrix :=
  match fs with
  | [] => m
  | f :: fs => written (upd m i f) (S i) fs
  end.

(** The series 3, 5, 4, 6, 5, 7 at X = 1, ..., 6 (step 1) with two
    samples per period, initialised for additive smoothing. *)
Definition seasonal_step1 : ScETSForecastCalculation :=
  snd (initData (fun _ => 0)
         (set_bAdditive true
            (set_mnSmplInPrd 2
               (set_mfStepSize 1
                  (set_maRange
                     [mkDataPoint 1 3; mkDataPoint 2 5; mkDataPoint 3 4;
                      mkDataPoint 4 6; mkDataPoint 5 5; mkDataPoint 6 7]
                     (ctor 6 Date.nullDate1899)))))).

(** The two series above, smoothed with all constants 1/2 and marked as
    initialised. *)
Definition des_ready : ScETSForecastCalculation :=
  Eval vm_compute in
    set_mbInitialised true
      (refill sqrt_ex (set_mfGamma (1 # 2) (set_mfAlpha (1 # 2) des_step1))).

Definition seasonal_ready : ScETSForecastCalculation :=
  Eval vm_compute in
    set_mbInitialised true
      (refill sqrt_ex
         (set_mfGamma (1 # 2) (set_mfBeta (1 # 2) (set_mfAlpha (1 # 2) seasonal_step1)))).

(** A range in the order of its X. *)
Fixpoint SortedByX (v : list DataPoint) : Prop :=
  match v with
  | [] => True
  | a :: t => Forall (fun b => X a <= X b) t /\ SortedByX t
  end.

(** The two functions that return prediction intervals. *)
Definition isPI (eETSType : ScETSType) : bool :=
  ScETSType_eqb eETSType etsPIAdd || ScETSType_eqb eETSType etsPIMult.

(** The series 1, 2, 3, 4 at X = 1, ..., 4, a pure trend, to be smoothed
    additively with two samples per period. *)
Definition additive_1234 : ScETSForecastCalculation :=
  set_bAdditive true
    (set_mnSmplInPrd 2
       (set_maRange
          [mkDataPoint 1 1; mkDataPoint 2 2; mkDataPoint 3 3; mkDataPoint 4 4]
          (ctor 4 Date.nullDate1899))).

(** The points missing between two neighbours of a range with the step
    [step], those at [X a + step], [X a + 2 step], ... below [X b]; and
    the points missing in a whole range. *)
Definition missingPoints (step : Q) (a b : DataPoint) : nat :=
  if Qltb step (X b - X a) then stepsBelow step (X a + step) (X b) else 0%nat.

Fixpoint missingInRange (step : Q) (v : list DataPoint) : nat :=
  match v with
  | a :: (b :: _) as t => (missingPoints step a b + missingInRange step t)%nat
  | _ => 0%nat
  end.

(** Every distance between neighbours is a whole multiple of [step]. *)
Fixpoint WholeSteps (step : Q) (v : list DataPoint) : Prop :=
  match v with
  | a :: (b :: _) as t => fmod (X b - X a) step == 0 /\ WholeSteps step t
  | _ => True
  end.

(** [FilledRange step dc v v']: [v'] is [v] with the missing points put
    in: between every two neighbours [a] and [b] the points at
    [X a + step], [X a + step + step], ... below [X b], each with Y the
    mean of [Y a] and [Y b], or 0 when [dc] is off. *)
Inductive FilledRange (step : Q) (bDataCompletion : bool)
    : list DataPoint -> list DataPoint -> Prop :=
| FilledRange_nil : FilledRange step bDataCompletion [] []
| FilledRange_one a : FilledRange step bDataCompletion [a] [a]
| FilledRange_gap a b t ins t' :
    length ins = missingPoints step a b ->
    Forall (fun d => Y d = fillY bDataCompletion a b /\ X a < X d /\ X d < X b) ins ->
    StepsFrom step (X a + step) ins ->
    FilledRange step bDataCompletion (b :: t) t' ->
    FilledRange step bDataCompletion (a :: b :: t) (a :: ins ++ t').

(** Ten monthly values on the first of the month, from January 2020 to
    February 2021, with July, August, November and December 2020 missing
    (the X are the day numbers of the dates), and the same pattern on an
    axis of plain numbers. *)
Definition months_X : ScMatrix :=
  [43831; 43862; 43891; 43922; 43952; 43983; 44075; 44105; 44197; 44228].

Definition months_Y : ScMatrix := [1; 2; 3; 4; 5; 6; 9; 10; 13; 14].

Definition plain_X : ScMatrix := [1; 2; 3; 4; 5; 6; 9; 10; 13; 14].

Definition months_steps : ScETSForecastCalculation :=
  Eval vm_compute in
    match Preprocess_steps (ctor 10 Date.nullDate1899) months_X months_Y 0 1 None etsAdd with
    | Ret (_, s) => s
    | _ => ctor 0 0
    end.

(** Ten points at 1..8, 10, 11: one point is missing. *)
Definition gap_X : ScMatrix := [1; 2; 3; 4; 5; 6; 7; 8; 10; 11].

Definition gap_Y : ScMatrix := [1; 2; 3; 4; 5; 6; 7; 8; 10; 13].

Definition gap_steps : ScETSForecastCalculation :=
  Eval vm_compute in
    match Preprocess_steps (ctor 10 Date.nullDate1899) gap_X gap_Y 0 1 None etsAdd with
    | Ret (_, s) => s
    | _ => ctor 0 0
    end.





(** The series 1, -1, 2, -2 with two samples per period: both periods
    have the average 0. *)
Definition zero_average : ScETSForecastCalculation :=
  set_mnSmplInPrd 2
    (set_maRange
       [mkDataPoint 1 1; mkDataPoint 2 (-1); mkDataPoint 3 2; mkDataPoint 4 (-2)]
       (ctor 4 Date.nullDate1899)).

(** The first distance between neighbours that differs from [step] is a
    whole multiple of it; the distances after it are not looked at. *)
Fixpoint GapFirst (step : Q) (v : list DataPoint) : Prop :=
  match v with
  | a :: (b :: _) as t =>
      (~ X b - X a == step /\ fmod (X b - X a) step == 0) \/
      (X b - X a == step /\ GapFirst step t)
  | _ => False
  end.

(** Ten points at 1, ..., 7, 9, 10.5 and 11.5: after the gap from 7 to 9
    comes a distance of one step and a half. *)
Definition irregular_X : ScMatrix := [1; 2; 3; 4; 5; 6; 7; 9; 21 # 2; 23 # 2].

Definition irregular_Y : ScMatrix := [1; 2; 3; 4; 5; 6; 7; 9; 10; 12].

Definition irregular_steps : ScETSForecastCalculation :=
  Eval vm_compute in
    match Preprocess_steps (ctor 10 Date.nullDate1899) irregular_X irregular_Y 0 1 None
            etsAdd with
    | Ret (_, s) => s
    | _ => ctor 0 0
    end.

(** The same distances with the one of one step and a half before the
    gap. *)
Definition irregular_first_X : ScMatrix := [1; 2; 3; 9 # 2; 11 # 2; 13 # 2; 15 # 2; 19 # 2; 21 # 2; 23 # 2].


(** The error of the forecast of point [i]. *)
Definition fError (this : ScETSForecastCalculation) (i : nat) : Q :=
  rd (mpForecast this) i - Yat this i.

(** A cell of the statistics matrix after [GetStatisticValue]: the value
    for the type [t] truncated to a whole number, or what the cell held
    when there is no such type. *)
Definition statCell (this : ScETSForecastCalculation) (t old : Q) : Q :=
  match statisticValue this (Qtrunc t) with
  | Some v => v
  | None => old
  end.

Definition statCells (this : ScETSForecastCalculation) (rTypeMat rStatMat : ScMatrix)
    : ScMatrix :=
  map (fun c => statCell this (fst c) (snd c)) (combine rTypeMat rStatMat).

Module XSecSpec.

Import XSec.
Close Scope Q_scope.
Open Scope string_scope.
Open Scope list_scope.

(** The three relation types that are not signed. *)
Definition blacklistedRelationTypes : list string :=
  [ "http://schemas.openxmlformats.org/officeDocument/2006/relationships/extended-properties";
    "http://schemas.openxmlformats.org/package/2006/relationships/metadata/core-properties";
    "http://schemas.openxmlformats.org/package/2006/relationships/digital-signature/origin"
  ]%string.

(** The [mdssi:RelationshipReference] element of a relation of the id
    [aId], and its start. *)
Definition RelationshipReference_start (aId : string) : SaxEvent :=
  startElement "mdssi:RelationshipReference"
    [("xmlns:mdssi", NS_MDSSI); ("SourceId", aId)]%string.

Definition RelationshipReference (aId : string) : list SaxEvent :=
  [RelationshipReference_start aId; endElement "mdssi:RelationshipReference"].

(** The start of an element of the name [aName]. *)
Definition isStart (aName : string) (e : SaxEvent) : bool :=
  match e with
  | startElement n _ => String.eqb n aName
  | _ => false
  end.

Section ExportProperties.

Variable toISO8601 : DateTime -> string.
Variable XInputStream : Type.
Variable ReadRelationsInfoSequence :
  XInputStream -> string -> option (list (list StringPair)).
Variable xRootStorage : string -> option XInputStream.

(** A reference of the manifest that gets a relationship transform. *)
Definition hasRelationshipTransform (r : SignatureReferenceInformation) : bool :=
  negb (SignatureReferenceType_eqb (nType r) SAMEDOCUMENT) &&
  negb (lcl_isOOXMLBlacklist (ouURI r)) &&
  endsWith (ouURI r)
    "?ContentType=application/vnd.openxmlformats-package.relationships+xml".

(** The [<Id, Type>] pairs of the relationships part that a reference
    names (none when it cannot be read). *)
Definition relationsOf (r : SignatureReferenceInformation) : list (string * string) :=
  let aURI := relationsPartName (ouURI r) in
  match xRootStorage aURI with
  | Some s =>
      match ReadRelationsInfoSequence s aURI with
      | Some infos => map relationIdType infos
      | None => []
      end
  | None => []
  end.

(** The ids of the pairs whose type is none of the three. *)
Definition signedRelationIds (pairs : list (string * string)) : list string :=
  map fst
    (filter (fun p => negb (existsb (String.eqb (snd p)) blacklistedRelationTypes)) pairs).

End ExportProperties.

(** The relationships part [_rels/.rels] of the example: the three
    relations that are not signed, and the one of the document. *)
Definition rels_example : list (list StringPair) :=
  [ [("Id", "rId1");
     ("Type", "http://schemas.openxmlformats.org/officeDocument/2006/relationships/extended-properties");
     ("Target", "docProps/app.xml")];
    [("Id", "rId2");
     ("Type", "http://schemas.openxmlformats.org/package/2006/relationships/metadata/core-properties");
     ("Target", "docProps/core.xml")];
    [("Id", "rId3");
     ("Type", "http://schemas.openxmlformats.org/package/2006/relationships/digital-signature/origin");
     ("Target", "_xmlsignatures/origin.sigs")];
    [("Id", "rId4");
     ("Type", "http://schemas.openxmlformats.org/officeDocument/2006/relationships/officeDocument");
     ("Target", "word/document.xml")] ]%string.

(** A stream is known by what is read from it. *)
Definition storage_example (aName : string) : option (list (list StringPair)) :=
  if String.eqb aName "_rels/.rels" then Some rels_example else None.

Definition read_example (s : list (list StringPair)) (aName : string)
    : option (list (list StringPair)) := Some s.

Definition toISO8601_example (d : DateTime) : string := "2016-03-04T10:11:12,500000000".

Definition signature_example : SignatureInformation :=
  mkSignatureInformation 1 0%Z
    [ mkReference SAMEDOCUMENT "idPackageObject" "AAAA";
      mkReference SAMEDOCUMENT "idOfficeObject" "BBBB";
      mkReference SAMEDOCUMENT "idSignedProperties" "CCCC";
      mkReference XMLSTREAM
        "/_rels/.rels?ContentType=application/vnd.openxmlformats-package.relationships+xml"
        "DDDD";
      mkReference XMLSTREAM
        "/word/document.xml?ContentType=application/vnd.openxmlformats-officedocument.wordprocessingml.document.main+xml"
        "EEEE";
      mkReference XMLSTREAM "/docProps/app.xml?ContentType=application/xml" "FFFF" ]
    "CN=Issuer" "1234" "MIIB" "c2ln" (mkDateTime 500000000 12 11 10 4 3 2016 true)
    EmptyString "idPackageSignature" "idSignatureTime" "a comment" EmptyString "ZGln".

(** The number of the calls of [ElementStackKeeper::stop] and of
    [ElementStackKeeper::start] among the calls made. *)
Definition stops (log : list Call) : nat :=
  length (filter (fun c => match c with ElementStackKeeper_stop => true | _ => false end) log).

Definition starts (log : list Call) : nat :=
  length (filter (fun c => match c with ElementStackKeeper_start => true | _ => false end) log).

(** The security components are initialized, with their
    [SAXEventKeeper], and the keeper is not sticky. *)
Definition Ready (this : XSecController) : Prop :=
  m_nStatusOfSecurityComponents this = INITIALIZED /\
  m_bIsSAXEventKeeperSticky this = false /\
  is_ (m_xSAXEventKeeper this) = true.

(** A controller on a chain, with its components. *)
Definition controller_example : XSecController :=
  mkXSecController (fun _ => Some 0) (Some 1) (Some 2) (Some 3) None None 1 []
    (Some 4) true (Some 5) (Some 6) false false false INITIALIZED false None 0 false.

(** The manager after a call. *)
Definition after {XMLSignatureHelper World A : Type}
    (x : option A * DocumentSignatureManager XMLSignatureHelper * World * list Made)
    : DocumentSignatureManager XMLSignatureHelper :=
  snd (fst (fst x)).

(** A member function that leaves [maCurrentSignatureInformations] as it
    is, however it ends. *)
Definition KeepsList {XMLSignatureHelper World A : Type}
    (c : DM XMLSignatureHelper World A) : Prop :=
  forall this w,
    maCurrentSignatureInformations _ (after (c this w))
    = maCurrentSignatureInformations _ this.

(** All three services of the security components can be created. *)
Definition servicesAvailable (this : XSecController) : bool :=
  is_ (mxCtx this XMLSIGNATURE_COMPONENT) &&
  is_ (mxCtx this XMLDOCUMENTWRAPPER_COMPONENT) &&
  is_ (mxCtx this SAXEVENTKEEPER_COMPONENT).

(** [k] calls of [getNewSecurityId], one after the other. *)
Fixpoint newSecurityIds (k : nat) : M (list Z) :=
  match k with
  | O => ret []
  | S k => nId <<- getNewSecurityId ;; ids <<- newSecurityIds k ;; ret (nId :: ids)
  end.

(** The calls made on the [SAXEventKeeper] and on the previous node of the
    chain. *)
Definition onChain (c : Call) : bool :=
  match c with
  | SAXEventKeeper_setNextHandler _ | PreviousNode_initialize _
  | PreviousNode_setDocumentHandler _ => true
  | _ => false
  end.

(** The call that connects the previous node of the chain to [xHandler],
    if there is a previous node. *)
Definition previousNodeCalls (this : XSecController) (xHandler : option XInterface)
    : list Call :=
  if is_ (m_xPreviousNodeOnSAXChain this) then
    [if m_bIsPreviousNodeInitializable this
     then PreviousNode_initialize xHandler
     else PreviousNode_setDocumentHandler xHandler]
  else [].

(** The calls of [chainOn] when it connects the [SAXEventKeeper], and of
    [chainOff] when it disconnects it. *)
Definition chainOnCalls (this : XSecController) (bRetrievingLastEvent : bool) : list Call :=
  [SAXEventKeeper_setNextHandler None] ++
  previousNodeCalls this (m_xSAXEventKeeper this) ++
  (if is_ (m_xElementStackKeeper this)
   then [ElementStackKeeper_retrieve (m_xSAXEventKeeper this) bRetrievingLastEvent;
         ElementStackKeeper_stop]
   else []) ++
  [SAXEventKeeper_setNextHandler (m_xNextNodeOnSAXChain this)].
Definition chainOffCalls (this : XSecController) : list Call :=
  [SAXEventKeeper_setNextHandler None] ++
  previousNodeCalls this (m_xNextNodeOnSAXChain this) ++
  (if is_ (m_xElementStackKeeper this) then [ElementStackKeeper_start] else []).

(** The index of the first record with the id, counting from [i]. *)
Fixpoint firstWithId (v : list InternalSignatureInformation) (nId : Z) : option nat :=
  match v with
  | [] => None
  | isi :: t =>
      if (nSecurityId (signatureInfor isi) =? nId)%Z then Some 0
      else option_map S (firstWithId t nId)
  end.

(** A controller with three signatures, of the ids 7, 9 and 7. *)
Definition signatures_example : XSecController :=
  set_m_vInternalSignatureInformations
    [mkInternalSignatureInformation (SignatureInformation_ctor 7) (Some 10);
     mkInternalSignatureInformation (SignatureInformation_ctor 9) (Some 11);
     mkInternalSignatureInformation
       (set_nStatus 5%Z (SignatureInformation_ctor 7)) (Some 12)]
    controller_example.

(** The record of a signature with a new status. *)
Definition withStatus (nResult : SecurityOperationStatus)
    (isi : InternalSignatureInformation) : InternalSignatureInformation :=
  mkInternalSignatureInformation (set_nStatus nResult (signatureInfor isi))
    (xReferenceResolvedListener isi).

(** The list with the element at [n] replaced by [f] of it. *)
Fixpoint replaceAt {A : Type} (f : A -> A) (v : list A) (n : nat) : list A :=
  match v, n with
  | [], _ => []
  | a :: t, O => f a :: t
  | a :: t, S n => a :: replaceAt f t n
  end.

(** The elements left open after the events [l], with [opened] open
    before them (innermost first); [None] when an [endElement] does not
    close the innermost open element. *)
Fixpoint nest (opened : list string) (l : list SaxEvent) : option (list string) :=
  match l with
  | [] => Some opened
  | startElement aName _ :: t => nest (aName :: opened) t
  | endElement aName :: t =>
      match opened with
      | o :: rest => if String.eqb o aName then nest rest t else None
      | [] => None
      end
  | characters _ :: t => nest opened t
  end.

(** Every element that is started is ended, in the right order. *)
Definition Balanced (l : list SaxEvent) : Prop := nest [] l = Some [].

(** A signature for the ODF export. *)
Definition odf_signature_example : SignatureInformation :=
  mkSignatureInformation 1 0%Z
    [ mkReference XMLSTREAM "content.xml" "AAAA";
      mkReference BINARYSTREAM "Pictures/1.png" "BBBB";
      mkReference SAMEDOCUMENT "ID_0123" "CCCC" ]
    "CN=Issuer" "1234" "MIIB" "c2ln" (mkDateTime 0 12 11 10 4 3 2016 true)
    EmptyString "ID_sig" "ID_0123" "a comment" "ID_desc" EmptyString.

(** The relationships part that a reference of the manifest names can be
    opened and read (a reference without a relationship transform names
    none). *)
Definition readable (XInputStream : Type)
    (ReadRelationsInfoSequence : XInputStream -> string -> option (list (list StringPair)))
    (xRootStorage : string -> option XInputStream)
    (r : SignatureReferenceInformation) : bool :=
  if hasRelationshipTransform r then
    match xRootStorage (relationsPartName (ouURI r)) with
    | Some s =>
        match ReadRelationsInfoSequence s (relationsPartName (ouURI r)) with
        | Some _ => true
        | None => false
        end
    | None => false
    end
  else true.

(** The four prefixes of the names of the streams that are not signed. *)
Definition unsignedStreamPrefixes : list string :=
  ["/%5BContent_Types%5D.xml"; "/docProps/app.xml"; "/docProps/core.xml";
   "/_xmlsignatures"].

(** The start of the [Reference] element of a reference, in [SignedInfo]
    and in the [Manifest]. *)
Definition signedInfoReference_start (r : SignatureReferenceInformation) : SaxEvent :=
  startElement "Reference"
    [("Type",
      if String.eqb (ouURI r) "idSignedProperties"
      then "http://uri.etsi.org/01903#SignedProperties"
      else "http://www.w3.org/2000/09/xmldsig#Object");
     ("URI", ("#" ++ ouURI r)%string)].
Definition manifestReference_start (r : SignatureReferenceInformation) : SaxEvent :=
  startElement "Reference" [("URI", ouURI r)].

Definition isSameDocument (r : SignatureReferenceInformation) : bool :=
  SignatureReferenceType_eqb (nType r) SAMEDOCUMENT.
Definition isSignedStream (r : SignatureReferenceInformation) : bool :=
  negb (isSameDocument r) &&
  negb (existsb (fun p => prefix p (ouURI r)) unsignedStreamPrefixes).

(** The path, the media type and the encryption of a manifest entry are
    what [manifestEntry] finds; an entry is encrypted when it has a
    [Digest] property. *)
Definition entryPath (entry : list PropertyValue) : string := fst (fst (manifestEntry entry)).
Definition entryMediaType (entry : list PropertyValue) : string :=
  snd (fst (manifestEntry entry)).
Definition entryEncrypted (entry : list PropertyValue) : bool := snd (manifestEntry entry).

(** A manifest with a plain XML stream, an encrypted XML stream and a
    picture. *)
Definition manifest_example : list (list PropertyValue) :=
  [ [mkPropertyValue "FullPath" (AnyString "content.xml");
     mkPropertyValue "MediaType" (AnyString "text/xml")];
    [mkPropertyValue "FullPath" (AnyString "styles.xml");
     mkPropertyValue "MediaType" (AnyString "text/xml");
     mkPropertyValue "Digest" AnyOther];
    [mkPropertyValue "FullPath" (AnyString "Pictures/1.png");
     mkPropertyValue "MediaType" (AnyString "image/png")] ].
Definition manager_example : DocumentSignatureManager unit :=
  mkDocumentSignatureManager unit (Some 1) tt
    [SignatureInformation_ctor 1; SignatureInformation_ctor 2; SignatureInformation_ctor 3]
    SignatureModeDocumentContent manifest_example None None None.

(** The calls a status callback makes in the state [s] it reaches by
    setting its flag: those of [chainOn] when the keeper has to be
    connected and is not, those of [chainOff] when it is connected and
    has to be disconnected, and none otherwise. *)
Definition statusCalls (s : XSecController) : list Call :=
  if m_bIsCollectingElement s || m_bIsBlocking s then
    if m_bIsSAXEventKeeperConnected s then [] else chainOnCalls s true
  else
    if m_bIsSAXEventKeeperConnected s then chainOffCalls s else [].

(** What a status callback does to the chain, from the state [s] in which
    its flag is set: it returns; only the connected flag has changed, and
    the keeper is connected if and only if an element is being collected
    or the chain is blocking; the calls are [statusCalls s]; among them
    [stop] occurs once if the keeper got connected and there is a stack
    keeper, and not at all otherwise, [start] once if the keeper got
    disconnected and there is a stack keeper, and not at all
    otherwise. *)
Definition FollowsStatus (s : XSecController)
    (r : option (unit * XSecController * list Call)) : Prop :=
  exists this' log,
    r = Some (tt, this', log) /\
    this'
    = set_m_bIsSAXEventKeeperConnected (m_bIsCollectingElement s || m_bIsBlocking s) s /\
    m_bIsSAXEventKeeperConnected this'
    = (m_bIsCollectingElement this' || m_bIsBlocking this') /\
    log = statusCalls s /\
    stops log
    = (if negb (m_bIsSAXEventKeeperConnected s) && m_bIsSAXEventKeeperConnected this' &&
          is_ (m_xElementStackKeeper s)
       then 1 else 0) /\
    starts log
    = (if m_bIsSAXEventKeeperConnected s && negb (m_bIsSAXEventKeeperConnected this') &&
          is_ (m_xElementStackKeeper s)
       then 1 else 0) /\
    Ready this'.

End XSecSpec.

(** * Properties: the forecast calculation *)

Lemma Qltb_lt (x y : Q) : Qltb x y = true <-> x < y.
Proof.
  unfold Qltb. rewrite negb_true_iff, <- not_true_iff_false, Qle_bool_iff.
  split; intro H; [apply Qnot_le_lt | apply Qlt_not_le]; exact H.
Qed.

Lemma Qltb_ge (x y : Q) : Qltb x y = false <-> y <= x.
Proof.
  unfold Qltb. rewrite negb_false_iff. apply Qle_bool_iff.
Qed.

Lemma for_loop_ind {S : Type} (P : S -> Prop) (body : nat -> S -> S) :
  (forall i s, P s -> P (body i s)) ->
  forall lo hi s, P s -> P (for_loop lo hi body s).
Proof.
  intros Hb lo hi. unfold for_loop. generalize (seq lo (hi - lo)) as l.
  induction l as [|i l IH]; intros s Hs; simpl; auto.
Qed.

Lemma upd_length (a : list Q) (i : nat) (v : Q) : length (upd a i v) = length a.
Proof.
  revert i; induction a as [|h t IH]; intros [|i]; simpl; auto.
Qed.

Lemma rd_upd_same (a : list Q) (i : nat) (v : Q) :
  (i < length a)%nat -> rd (upd a i v) i = v.
Proof.
  unfold rd. revert i; induction a as [|h t IH]; intros [|i] H; simpl in *; try lia; auto.
  apply IH; lia.
Qed.

Lemma rd_upd_other (a : list Q) (i j : nat) (v : Q) :
  i <> j -> rd (upd a i v) j = rd a j.
Proof.
  unfold rd. revert i j; induction a as [|h t IH]; intros [|i] [|j] H; simpl; auto; try lia.
Qed.

Lemma new_double_length fresh n : length (new_double fresh n) = n.
Proof. unfold new_double. now rewrite length_map, length_seq. Qed.

Lemma prefillTrendData_frame this :
  same_input this (snd (prefillTrendData this)).
Proof.
  unfold prefillTrendData, same_input.
  destruct (bEDS this) eqn:E; [|destruct (mnCount this <? 2 * mnSmplInPrd this)%nat];
    simpl; rewrite ?upd_length; repeat split; auto.
Qed.

Lemma prefillPerIdx_frame this :
  same_input this (snd (prefillPerIdx this)).
Proof.
  unfold prefillPerIdx.
  destruct (negb (bEDS this)) eqn:E; [|unfold same_input; simpl; repeat split; auto].
  destruct (mnSmplInPrd this =? 0)%nat; [unfold same_input; simpl; repeat split; auto|].
  destruct (existsb _ _); [unfold same_input; simpl; repeat split; auto|].
  cbn [snd]. apply for_loop_ind.
  - intros i s (H1 & H2 & H3 & H4 & H5 & H6). unfold same_input; simpl. repeat split; auto.
  - unfold same_input; repeat split; auto.
Qed.

Lemma prefill_ok_count this :
  bEDS this = false ->
  fst (prefillTrendData this) = true ->
  fst (prefillPerIdx (snd (prefillTrendData this))) = true ->
  (2 <= mnCount this)%nat.
Proof.
  intros HE H1 H2.
  destruct (prefillTrendData_frame this) as (_ & _ & HP & HE' & _).
  unfold prefillPerIdx in H2. rewrite HE', HE, HP in H2. simpl in H2.
  destruct (mnSmplInPrd this =? 0)%nat eqn:H0; [discriminate|].
  unfold prefillTrendData in H1. rewrite HE in H1.
  destruct (mnCount this <? 2 * mnSmplInPrd this)%nat eqn:Hlt; [discriminate|].
  apply Nat.eqb_neq in H0. apply Nat.ltb_ge in Hlt. lia.
Qed.

(** [prefillBaseData] does not look at [bAdditive]: in both seasonal
    modes a successful initialisation computes Base[0] as the quotient
    Y[0] / PerIdx[0]. *)
Lemma prefillBaseData_seasonal
    (fresh : nat -> Q) (this : ScETSForecastCalculation) :
  bEDS this = false ->
  fst (initData fresh this) = true ->
  rd (mpBase (snd (initData fresh this))) 0
  = Yat this 0 / rd (mpPerIdx (snd (initData fresh this))) 0.
Proof.
  intros HE Hok. unfold initData in *.
  assert (HE1 : bEDS (set_mpTrend (new_double fresh (mnCount (set_mpBase (new_double fresh (mnCount this)) this))) (set_mpBase (new_double fresh (mnCount this)) this)) = false) by exact HE.
  rewrite HE1 in *. cbn [negb] in *.
  match type of Hok with context [prefillTrendData ?s] => set (s5 := s) in * end.
  assert (H5 : maRange s5 = maRange this /\ mnCount s5 = mnCount this /\
               bEDS s5 = bEDS this /\ length (mpBase s5) = mnCount this).
  { unfold s5; simpl. rewrite new_double_length. repeat split; auto. }
  pose proof (prefillTrendData_frame s5) as F6.
  pose proof (prefill_ok_count s5) as C6.
  destruct (prefillTrendData s5) as [ok6 s6] eqn:E6. cbn [snd fst] in *.
  destruct ok6; [|discriminate].
  pose proof (prefillPerIdx_frame s6) as F7.
  destruct (prefillPerIdx s6) as [ok7 s7] eqn:E7. cbn [snd fst] in *.
  destruct ok7; [|discriminate].
  destruct H5 as (R5 & N5 & B5 & L5).
  destruct F6 as (R6 & N6 & _ & B6 & _ & L6).
  destruct F7 as (R7 & N7 & _ & B7 & _ & L7).
  assert (HN : (2 <= mnCount this)%nat).
  { rewrite <- N5. apply C6; auto; congruence. }
  unfold prefillBaseData. rewrite B7, B6, B5, HE. cbn [snd].
  cbn [mpBase mpPerIdx set_mpBase].
  rewrite rd_upd_same by lia. unfold Yat. now rewrite R7, R6, R5.
Qed.

(** C1 fails on the code.  [prefillBaseData] has a branch for double
    exponential smoothing and one for seasonal smoothing, and none for
    the additive model.  On the additive series 6, 2, 6, 2 with period 2
    the initialisation succeeds with the seasonal index PerIdx[0] = 2 and
    sets Base[0] = Y[0] / PerIdx[0] = 3, not Y[0] = 6.  On the additive
    series 1, 2, 3, 4 with period 2, a pure trend, it succeeds with
    PerIdx[0] = 0, and the Base[0] it computes is the quotient of Y[0] = 1
    by that 0. *)
Lemma C1_additive_base_is_not_Y0 :
  (bAdditive additive_6262 = true /\ bEDS additive_6262 = false /\
   fst (initData (fun _ => 0) additive_6262) = true /\
   Yat additive_6262 0 == 6 /\
   rd (mpPerIdx (snd (initData (fun _ => 0) additive_6262))) 0 == 2 /\
   rd (mpBase (snd (initData (fun _ => 0) additive_6262))) 0 == 3 /\
   ~ rd (mpBase (snd (initData (fun _ => 0) additive_6262))) 0 == Yat additive_6262 0) /\
  (bAdditive additive_1234 = true /\ bEDS additive_1234 = false /\
   fst (initData (fun _ => 0) additive_1234) = true /\
   Yat additive_1234 0 == 1 /\
   rd (mpPerIdx (snd (initData (fun _ => 0) additive_1234))) 0 == 0 /\
   rd (mpBase (snd (initData (fun _ => 0) additive_1234))) 0
   = Yat additive_1234 0 / rd (mpPerIdx (snd (initData (fun _ => 0) additive_1234))) 0).
Proof.
  split.
  - repeat split; try reflexivity. vm_compute. discriminate.
  - repeat split; reflexivity.
Qed.

(** Double exponential smoothing starts from Base[0] = Y[0]. *)
Lemma prefillBaseData_EDS (this : ScETSForecastCalculation) :
  bEDS this = true -> (0 < length (mpBase this))%nat ->
  prefillBaseData this = (true, set_mpBase (upd (mpBase this) 0 (Yat this 0)) this) /\
  rd (mpBase (snd (prefillBaseData this))) 0 = Yat this 0.
Proof.
  intros HE HL. unfold prefillBaseData. rewrite HE. split; [reflexivity|].
  cbn. now apply rd_upd_same.
Qed.

(** ** Period detection *)

Lemma Qdiv_nonneg (a b : Q) : 0 <= a -> 0 <= b -> 0 <= a / b.
Proof.
  intros Ha Hb. unfold Qdiv. apply Qmult_le_0_compat; auto.
  now apply Qinv_le_0_compat.
Qed.

Lemma ofNat_nonneg (n : nat) : 0 <= ofNat n.
Proof.
  unfold ofNat. change 0 with (inject_Z 0). rewrite <- Zle_Qle. lia.
Qed.

Lemma fMeanError_nonneg (this : ScETSForecastCalculation) (p : nat) :
  0 <= fMeanError this p.
Proof.
  unfold fMeanError. apply Qdiv_nonneg; [|apply ofNat_nonneg].
  apply (for_loop_ind (fun s => 0 <= s)); [|apply Qle_refl].
  intros i s Hs. cbv beta in *.
  match goal with |- 0 <= _ + Qabs ?e => generalize (Qabs_nonneg e); generalize (Qabs e) end.
  intros a Ha. lra.
Qed.

Lemma CalcPeriodLen_loop_SS (this : ScETSForecastCalculation) (k : nat) (b : nat * Q) :
  CalcPeriodLen_loop this (S (S k)) b
  = CalcPeriodLen_loop this (S k)
      (if Qltb (fMeanError this (S (S k))) (snd b) || Qeq_bool (fMeanError this (S (S k))) 0
       then (S (S k), fMeanError this (S (S k))) else b).
Proof. reflexivity. Qed.

Lemma CalcPeriodLen_loop_best (this : ScETSForecastCalculation) (n0 k : nat) :
  forall b, (1 <= k <= n0)%nat -> best_upto this n0 k b ->
  best_upto this n0 1 (CalcPeriodLen_loop this k b).
Proof.
  induction k as [|k IH]; intros b Hk Hb; [lia|].
  destruct k as [|k]; [exact Hb|].
  rewrite CalcPeriodLen_loop_SS. apply IH; [lia|].
  destruct b as [p e]. destruct Hb as (He & Hp & Hq). cbn [fst snd] in *.
  pose proof (fMeanError_nonneg this (S (S k))) as Hnn.
  destruct (Qltb (fMeanError this (S (S k))) e || Qeq_bool (fMeanError this (S (S k))) 0)
    eqn:Hacc.
  - (* the candidate replaces the best value *)
    unfold best_upto. cbn [fst snd]. split; [reflexivity|]. split; [lia|].
    intros q Hq'. destruct (Nat.eq_dec q (S (S k))) as [->|Hne].
    + split; [apply Qle_refl|]. intros _. split; intros _; lia.
    + destruct (Hq q ltac:(lia)) as [Hle _].
      apply orb_true_iff in Hacc. destruct Hacc as [Hlt|H0].
      * apply Qltb_lt in Hlt. rewrite He in Hlt. split; [lra|].
        intros Heq. exfalso. lra.
      * apply Qeq_bool_iff in H0. pose proof (fMeanError_nonneg this q).
        split; [lra|]. intros Heq. split; intros H1; [lia|]. contradiction.
  - (* the best value stays *)
    apply orb_false_iff in Hacc. destruct Hacc as [Hge Hn0].
    apply Qltb_ge in Hge. rewrite He in Hge.
    assert (Hnz : ~ fMeanError this (S (S k)) == 0).
    { intro H. apply Qeq_bool_iff in H. congruence. }
    unfold best_upto. cbn [fst snd]. split; [exact He|]. split; [lia|].
    intros q Hq'. destruct (Nat.eq_dec q (S (S k))) as [->|Hne].
    + split; [exact Hge|]. intros Heq. split; intros H1; [|lia].
      exfalso. apply Hnz. lra.
    + apply Hq. lia.
Qed.

(** C3, as stated, fails: on 0, 0, 0, 5, 5, 9 the periods 3 and 2 have the same
    minimal mean error 2 (not zero), and the larger period, 3, is returned. *)
Lemma C3_tie_returns_larger_period :
  fMeanError tie_series 3 == 2 /\ fMeanError tie_series 2 == 2 /\
  CalcPeriodLen tie_series = 3%nat.
Proof.
  repeat split; reflexivity.
Qed.

(** C3 (amended): for a range of at least 4 points whose candidate mean
    errors are all below the largest [double], [CalcPeriodLen] returns a
    period in [2, N/2] of minimal mean error; among candidates of the same
    minimal error it returns the smallest one when that error is zero (a
    zero error always replaces the value held) and the largest one
    otherwise (a non-zero error replaces the value held only when strictly
    smaller). *)
Theorem C3_CalcPeriodLen_minimal (this : ScETSForecastCalculation) :
  (4 <= mnCount this)%nat ->
  (forall p, (2 <= p <= mnCount this / 2)%nat -> fMeanError this p < DBL_MAX) ->
  (2 <= CalcPeriodLen this <= mnCount this / 2)%nat /\
  forall q, (2 <= q <= mnCount this / 2)%nat ->
    fMeanError this (CalcPeriodLen this) <= fMeanError this q /\
    (fMeanError this q == fMeanError this (CalcPeriodLen this) ->
       (fMeanError this (CalcPeriodLen this) == 0 -> (CalcPeriodLen this <= q)%nat) /\
       (~ fMeanError this (CalcPeriodLen this) == 0 -> (q <= CalcPeriodLen this)%nat)).
Proof.
  intros HN Hmax. unfold CalcPeriodLen.
  assert (H2 : (2 <= mnCount this / 2)%nat).
  { apply (Nat.div_le_lower_bound _ 2 2); lia. }
  destruct (mnCount this / 2)%nat as [|[|n]] eqn:En; try lia.
  rewrite CalcPeriodLen_loop_SS.
  assert (Hfirst : Qltb (fMeanError this (S (S n))) (snd (mnCount this, DBL_MAX))
                   || Qeq_bool (fMeanError this (S (S n))) 0 = true).
  { apply orb_true_iff. left. apply Qltb_lt. apply Hmax. lia. }
  rewrite Hfirst.
  destruct (CalcPeriodLen_loop_best this (S (S n)) (S n)
              (S (S n), fMeanError this (S (S n)))) as (_ & Hp & Hq).
  - lia.
  - unfold best_upto. cbn [fst snd]. split; [reflexivity|]. split; [lia|].
    intros q Hq. assert (q = S (S n)) by lia. subst q.
    split; [apply Qle_refl|]. intros _. split; intros _; lia.
  - split; [lia|]. intros q Hq'. apply Hq. lia.
Qed.

(** C3 (amended), at the series 0, 0, 0, 5, 5, 9. *)
Lemma C3_CalcPeriodLen_minimal_witness :
  (2 <= CalcPeriodLen tie_series <= mnCount tie_series / 2)%nat /\
  forall q, (2 <= q <= mnCount tie_series / 2)%nat ->
    fMeanError tie_series (CalcPeriodLen tie_series) <= fMeanError tie_series q /\
    (fMeanError tie_series q == fMeanError tie_series (CalcPeriodLen tie_series) ->
       (fMeanError tie_series (CalcPeriodLen tie_series) == 0 ->
        (CalcPeriodLen tie_series <= q)%nat) /\
       (~ fMeanError tie_series (CalcPeriodLen tie_series) == 0 ->
        (q <= CalcPeriodLen tie_series)%nat)).
Proof.
  apply (C3_CalcPeriodLen_minimal tie_series).
  - vm_compute. lia.
  - intros p Hp. change (mnCount tie_series / 2)%nat with 3%nat in Hp.
    assert (Hc : p = 2%nat \/ p = 3%nat) by lia.
    destruct Hc as [-> | ->]; reflexivity.
Defined.

(** With fewer than 4 points there is no candidate and [CalcPeriodLen]
    returns the number of points. *)
Lemma CalcPeriodLen_short (this : ScETSForecastCalculation) :
  (mnCount this < 4)%nat -> CalcPeriodLen this = mnCount this.
Proof.
  intros H. unfold CalcPeriodLen.
  assert (Hd : (mnCount this / 2 < 2)%nat) by (apply Nat.Div0.div_lt_upper_bound; lia).
  destruct (mnCount this / 2)%nat as [|[|n]]; try lia; reflexivity.
Qed.

(** ** The search for the smoothing constants *)

Lemma calcAccuracyIndicators_frame sqrt s :
  config (calcAccuracyIndicators sqrt s) = config s /\
  params (calcAccuracyIndicators sqrt s) = params s /\
  mbInitialised (calcAccuracyIndicators sqrt s) = mbInitialised s.
Proof.
  unfold calcAccuracyIndicators.
  destruct (for_loop 1 (mnCount s) _ _) as [[a e] p]. now cbn.
Qed.

Lemma refill_body_frame i s :
  config (refill_body i s) = config s /\ params (refill_body i s) = params s /\
  mbInitialised (refill_body i s) = mbInitialised s.
Proof.
  unfold refill_body. destruct (bEDS s) eqn:E, (bAdditive s) eqn:A; cbn;
    rewrite ?E, ?A; cbn; rewrite ?E, ?A; auto.
Qed.

Lemma refill_frame sqrt s :
  config (refill sqrt s) = config s /\ params (refill sqrt s) = params s /\
  mbInitialised (refill sqrt s) = mbInitialised s.
Proof.
  unfold refill.
  destruct (calcAccuracyIndicators_frame sqrt (for_loop 1 (mnCount s) refill_body s))
    as (-> & -> & ->).
  apply (for_loop_ind (fun t => config t = config s /\ params t = params s /\
                                mbInitialised t = mbInitialised s)); auto.
  intros i t (H1 & H2 & H3). destruct (refill_body_frame i t) as (-> & -> & ->). auto.
Qed.

Section Search.

Variable setParam : Q -> ScETSForecastCalculation -> ScETSForecastCalculation.
Variable eval : ScETSForecastCalculation -> option ScETSForecastCalculation.
(** [Track s v]: the constant being searched has the value [v] in [s]. *)
Variable Track : ScETSForecastCalculation -> Q -> Prop.
Variables Pre Post : ScETSForecastCalculation -> Prop.

Hypothesis Track_set : forall v s, Track (setParam v s) v.
Hypothesis Pre_set : forall v s, Pre s -> Pre (setParam v s).
Hypothesis Post_Pre : forall s, Post s -> Pre s.
Hypothesis eval_ok :
  forall s, Pre s ->
    exists s', eval s = Some s' /\ Post s' /\ forall v, Track s v -> Track s' v.

Lemma search_loop_ok (fuel : nat) :
  forall f0 f1 f2 fE0 fE2 s,
    Post s -> Track s f1 ->
    f1 - f0 == f2 - f1 -> 0 <= f0 -> f2 <= 1 -> 0 < f2 - f1 ->
    f2 - f1 <= cfMinABCResolution * pow2 fuel ->
    exists f0' f1' f2' fE0' fE2' s',
      search_loop setParam eval fuel f0 f1 f2 fE0 fE2 s
      = Some (f0', f1', f2', fE0', fE2', s') /\
      Post s' /\ Track s' f1' /\
      0 <= f0' /\ f0' < f1' /\ f1' < f2' /\ f2' <= 1 /\
      f1' - f0' == f2' - f1' /\
      f2' - f1' <= cfMinABCResolution /\ f0 <= f0' /\ f2' <= f2.
Proof.
  unfold cfMinABCResolution.
  induction fuel as [|fuel IH]; intros f0 f1 f2 fE0 fE2 s HP Hg Hmid H0 H1 Hw Hb.
  - cbn [search_loop pow2] in *.
    assert (Hoff : Qltb cfMinABCResolution (f2 - f1) = false)
      by (apply Qltb_ge; unfold cfMinABCResolution; lra).
    rewrite Hoff. exists f0, f1, f2, fE0, fE2, s.
    repeat split; auto; lra.
  - cbn [search_loop]. destruct (Qltb cfMinABCResolution (f2 - f1)) eqn:Hguard.
    + cbn [pow2] in Hb.
      destruct (Qltb fE0 fE2).
      * set (m := (f0 + f1) / 2) in *.
        assert (Hm : m * 2 == f0 + f1) by (unfold m; field). clearbody m.
        destruct (eval_ok (setParam m s)) as (s' & -> & HP' & Hg').
        { apply Pre_set, Post_Pre, HP. }
        assert (G : Track s' m) by apply Hg', Track_set.
        assert (A1 : m - f0 == f1 - m) by lra.
        assert (A2 : f1 <= 1) by lra.
        assert (A3 : 0 < f1 - m) by lra.
        assert (A4 : f1 - m <= (1 # 1000) * pow2 fuel) by lra.
        destruct (IH f0 m f1 fE0 (mfMSE s) s' HP' G A1 H0 A2 A3 A4)
          as (a & b & c & d & e & t & -> & K).
        exists a, b, c, d, e, t. split; [reflexivity|].
        destruct K as (? & ? & ? & ? & ? & ? & ? & ? & ? & ?). repeat split; auto; lra.
      * set (m := (f1 + f2) / 2) in *.
        assert (Hm : m * 2 == f1 + f2) by (unfold m; field). clearbody m.
        destruct (eval_ok (setParam m s)) as (s' & -> & HP' & Hg').
        { apply Pre_set, Post_Pre, HP. }
        assert (G : Track s' m) by apply Hg', Track_set.
        assert (A1 : m - f1 == f2 - m) by lra.
        assert (A2 : 0 <= f1) by lra.
        assert (A3 : 0 < f2 - m) by lra.
        assert (A4 : f2 - m <= (1 # 1000) * pow2 fuel) by lra.
        destruct (IH f1 m f2 (mfMSE s) fE2 s' HP' G A1 A2 H1 A3 A4)
          as (a & b & c & d & e & t & -> & K).
        exists a, b, c, d, e, t. split; [reflexivity|].
        destruct K as (? & ? & ? & ? & ? & ? & ? & ? & ? & ?). repeat split; auto; lra.
    + apply Qltb_ge in Hguard. unfold cfMinABCResolution in Hguard.
      exists f0, f1, f2, fE0, fE2, s.
      repeat split; auto; lra.
Qed.

Lemma search_adopt_ok f0 f1 f2 fE0 fE2 s :
  Post s -> Track s f1 -> 0 <= f0 -> f0 < f1 -> f1 < f2 -> f2 <= 1 ->
  exists s' v, search_adopt setParam eval f0 f2 fE0 fE2 s = Some s' /\
               Post s' /\ Track s' v /\ 0 <= v <= 1.
Proof.
  intros HP Hg H0 H01 H12 H2. unfold search_adopt.
  destruct (Qltb fE0 fE2).
  - destruct (Qltb fE0 (mfMSE s)).
    + destruct (eval_ok (setParam f0 s)) as (s' & -> & HP' & Hg').
      { apply Pre_set, Post_Pre, HP. }
      exists s', f0. repeat split; auto; try lra; try (apply Hg', Track_set).
    + exists s, f1. repeat split; auto; lra.
  - destruct (Qltb fE2 (mfMSE s)).
    + destruct (eval_ok (setParam f2 s)) as (s' & -> & HP' & Hg').
      { apply Pre_set, Post_Pre, HP. }
      exists s', f2. repeat split; auto; try lra; try (apply Hg', Track_set).
    + exists s, f1. repeat split; auto; lra.
Qed.

Lemma search_rest_ok finish fE0 s :
  (forall t, Post t -> Post (finish t) /\ forall v, Track t v -> Track (finish t) v) ->
  Pre s ->
  exists s' v, search_rest setParam eval finish fE0 s = Some s' /\ Post s' /\
               Track s' v /\ 0 <= v <= 1.
Proof.
  intros Hfin HP. unfold search_rest.
  destruct (eval_ok (setParam 1 s)) as (s2 & -> & HP2 & _).
  { apply Pre_set, HP. }
  destruct (eval_ok (setParam (1 # 2) s2)) as (s1 & -> & HP1 & Hg1).
  { apply Pre_set, Post_Pre, HP2. }
  destruct (Qeq_bool fE0 (mfMSE s1) && Qeq_bool (mfMSE s1) (mfMSE s2)).
  - destruct (eval_ok (setParam 0 s1)) as (s' & -> & HP' & Hg').
    { apply Pre_set, Post_Pre, HP1. }
    exists s', 0. repeat split; auto; try lra; try (apply Hg', Track_set).
  - assert (T1 : Track s1 (1 # 2)) by apply Hg1, Track_set.
    assert (W : 1 - (1 # 2) <= cfMinABCResolution * pow2 cnFuel).
    { unfold cfMinABCResolution, cnFuel. cbn [pow2]. lra. }
    destruct (search_loop_ok cnFuel 0 (1 # 2) 1 fE0 (mfMSE s2) s1 HP1 T1
                ltac:(lra) ltac:(lra) ltac:(lra) ltac:(lra) W)
      as (f0 & f1 & f2 & e0 & e2 & t & -> & HPt & Hgt & B0 & B01 & B12 & B2 & _).
    destruct (search_adopt_ok f0 f1 f2 e0 e2 t) as (s' & v & -> & HP' & Hg' & Hv); auto.
    destruct (Hfin s' HP') as [HPf Hgf].
    exists (finish s'), v. auto.
Qed.

End Search.

Lemma CalcGamma_shape sqrt this :
  CalcGamma sqrt this
  = search_rest set_mfGamma (fun s => Some (refill sqrt s)) (fun s => s)
      (mfMSE (refill sqrt (set_mfGamma 0 this))) (refill sqrt (set_mfGamma 0 this)).
Proof.
  unfold CalcGamma, search_rest.
  destruct (_ && _); [reflexivity|].
  destruct (search_loop _ _ _ _ _ _ _ _ _) as [[[[[[f0 f1] f2] e0] e2] t]|]; [|reflexivity].
  destruct (search_adopt _ _ _ _ _ _ _); reflexivity.
Qed.

Lemma CalcBetaGamma_shape sqrt this :
  CalcBetaGamma sqrt this
  = (s0 <- (t <- CalcGamma sqrt (set_mfBeta 0 this) ;; Some (refill sqrt t)) ;;
     search_rest set_mfBeta (fun s => t <- CalcGamma sqrt s ;; Some (refill sqrt t))
       (fun s => s) (mfMSE s0) s0).
Proof.
  unfold CalcBetaGamma, search_rest.
  destruct (CalcGamma sqrt (set_mfBeta 0 this)) as [t0|]; [|reflexivity].
  destruct (CalcGamma sqrt (set_mfBeta 1 (refill sqrt t0))) as [t2|]; [|reflexivity].
  destruct (CalcGamma sqrt (set_mfBeta (1 # 2) (refill sqrt t2))) as [t1|]; [|reflexivity].
  destruct (_ && _); [reflexivity|].
  destruct (search_loop _ _ _ _ _ _ _ _ _) as [[[[[[f0 f1] f2] e0] e2] t]|]; [|reflexivity].
  destruct (search_adopt _ _ _ _ _ _ _); reflexivity.
Qed.

Lemma CalcAlphaBetaGamma_shape sqrt this :
  CalcAlphaBetaGamma sqrt this
  = (s0 <- (if bEDS this
            then CalcGamma sqrt (set_mfBeta 0 (set_mfAlpha 0 this))
            else CalcBetaGamma sqrt (set_mfAlpha 0 this)) ;;
     search_rest set_mfAlpha
       (fun s => t <- (if bEDS s then CalcGamma sqrt s else CalcBetaGamma sqrt s) ;;
                 Some (refill sqrt t))
       (calcAccuracyIndicators sqrt) (mfMSE (refill sqrt s0)) (refill sqrt s0)).
Proof.
  reflexivity.
Qed.

Lemma CalcGamma_ok sqrt this :
  exists s', CalcGamma sqrt this = Some s' /\
    config s' = config this /\ mbInitialised s' = mbInitialised this /\
    mfAlpha s' = mfAlpha this /\ mfBeta s' = mfBeta this /\ 0 <= mfGamma s' <= 1.
Proof.
  rewrite CalcGamma_shape.
  set (Inv := fun s => config s = config this /\ mbInitialised s = mbInitialised this /\
                       mfAlpha s = mfAlpha this /\ mfBeta s = mfBeta this).
  set (Track := fun (s : ScETSForecastCalculation) (v : Q) => mfGamma s = v).
  assert (A1 : forall v s, Track (set_mfGamma v s) v) by reflexivity.
  assert (A2 : forall v s, Inv s -> Inv (set_mfGamma v s)) by (intros v s H; exact H).
  assert (A3 : forall s, Inv s -> Inv s) by auto.
  assert (A4 : forall s, Inv s ->
            exists s', Some (refill sqrt s) = Some s' /\ Inv s' /\
                       forall v, Track s v -> Track s' v).
  { intros s (H1 & H2 & H3 & H4). exists (refill sqrt s). split; [reflexivity|].
    destruct (refill_frame sqrt s) as (F1 & F2 & F3). unfold params in F2.
    unfold Inv, Track. repeat split; try congruence. }
  assert (A5 : Inv (refill sqrt (set_mfGamma 0 this))).
  { destruct (A4 (set_mfGamma 0 this)) as (s' & E & HI & _).
    - unfold Inv. repeat split; reflexivity.
    - now injection E as <-. }
  destruct (search_rest_ok _ _ _ _ _ A1 A2 A3 A4 (fun s => s)
              (mfMSE (refill sqrt (set_mfGamma 0 this))) _
              (fun t H => conj H (fun v K => K)) A5)
    as (s' & v & E & (H1 & H2 & H3 & H4) & H5 & H6).
  exists s'. unfold Track in H5. rewrite H5. auto 10.
Qed.

Lemma config_bEDS a b : config a = config b -> bEDS a = bEDS b.
Proof. unfold config. congruence. Qed.

Lemma CalcBetaGamma_ok sqrt this :
  exists s', CalcBetaGamma sqrt this = Some s' /\
    config s' = config this /\ mbInitialised s' = mbInitialised this /\
    mfAlpha s' = mfAlpha this /\ 0 <= mfBeta s' <= 1 /\ 0 <= mfGamma s' <= 1.
Proof.
  rewrite CalcBetaGamma_shape.
  set (Pre := fun s => config s = config this /\ mbInitialised s = mbInitialised this /\
                       mfAlpha s = mfAlpha this).
  set (Post := fun s => Pre s /\ 0 <= mfGamma s <= 1).
  set (Track := fun (s : ScETSForecastCalculation) (v : Q) => mfBeta s = v).
  set (eval := fun s => t <- CalcGamma sqrt s ;; Some (refill sqrt t)).
  assert (A1 : forall v s, Track (set_mfBeta v s) v) by reflexivity.
  assert (A2 : forall v s, Pre s -> Pre (set_mfBeta v s)) by (intros v s H; exact H).
  assert (A3 : forall s, Post s -> Pre s) by (intros s H; apply H).
  assert (A4 : forall s, Pre s ->
            exists s', eval s = Some s' /\ Post s' /\ forall v, Track s v -> Track s' v).
  { intros s (H1 & H2 & H3). unfold eval.
    destruct (CalcGamma_ok sqrt s) as (t & -> & G1 & G2 & G3 & G4 & G5).
    exists (refill sqrt t). split; [reflexivity|].
    destruct (refill_frame sqrt t) as (F1 & F2 & F3). unfold params in F2.
    assert (mfGamma (refill sqrt t) = mfGamma t) as Eg by congruence.
    unfold Post, Pre, Track. rewrite Eg. repeat split; try congruence; try apply G5. }
  destruct (A4 (set_mfBeta 0 this)) as (s0 & E0 & HP0 & _).
  { unfold Pre. repeat split; reflexivity. }
  unfold eval in E0. rewrite E0.
  destruct (search_rest_ok _ _ _ _ _ A1 A2 A3 A4 (fun s => s) (mfMSE s0) s0
              (fun t H => conj H (fun v K => K)) (A3 _ HP0))
    as (s' & v & E & ((H1 & H2 & H3) & H4) & H5 & H6).
  exists s'. unfold Track in H5. rewrite H5. auto 10.
Qed.

Lemma CalcAlphaBetaGamma_ok sqrt this :
  exists s', CalcAlphaBetaGamma sqrt this = Some s' /\
    config s' = config this /\ mbInitialised s' = mbInitialised this /\
    0 <= mfAlpha s' <= 1 /\ 0 <= mfBeta s' <= 1 /\ 0 <= mfGamma s' <= 1.
Proof.
  rewrite CalcAlphaBetaGamma_shape.
  set (Pre := fun s => config s = config this /\ mbInitialised s = mbInitialised this /\
                       (bEDS this = true -> 0 <= mfBeta s <= 1)).
  set (Post := fun s => config s = config this /\ mbInitialised s = mbInitialised this /\
                        0 <= mfBeta s <= 1 /\ 0 <= mfGamma s <= 1).
  set (Track := fun (s : ScETSForecastCalculation) (v : Q) => mfAlpha s = v).
  set (eval := fun s => t <- (if bEDS s then CalcGamma sqrt s else CalcBetaGamma sqrt s) ;;
                        Some (refill sqrt t)).
  assert (A1 : forall v s, Track (set_mfAlpha v s) v) by reflexivity.
  assert (A2 : forall v s, Pre s -> Pre (set_mfAlpha v s)) by (intros v s H; exact H).
  assert (A3 : forall s, Post s -> Pre s).
  { intros s (H1 & H2 & H3 & H4). unfold Pre. auto. }
  assert (A4 : forall s, Pre s ->
            exists s', eval s = Some s' /\ Post s' /\ forall v, Track s v -> Track s' v).
  { intros s (H1 & H2 & H3). unfold eval.
    rewrite (config_bEDS _ _ H1). destruct (bEDS this) eqn:HE.
    - destruct (CalcGamma_ok sqrt s) as (t & -> & G1 & G2 & G3 & G4 & G5).
      exists (refill sqrt t). split; [reflexivity|].
      destruct (refill_frame sqrt t) as (F1 & F2 & F3). unfold params in F2.
      assert (mfGamma (refill sqrt t) = mfGamma t) as Eg by congruence.
      assert (mfBeta (refill sqrt t) = mfBeta s) as Eb by congruence.
      unfold Post, Track. rewrite Eg, Eb.
      repeat split; try congruence; try apply G5; try (apply H3; auto).
    - destruct (CalcBetaGamma_ok sqrt s) as (t & -> & G1 & G2 & G3 & G4 & G5).
      exists (refill sqrt t). split; [reflexivity|].
      destruct (refill_frame sqrt t) as (F1 & F2 & F3). unfold params in F2.
      assert (mfGamma (refill sqrt t) = mfGamma t) as Eg by congruence.
      assert (mfBeta (refill sqrt t) = mfBeta t) as Eb by congruence.
      unfold Post, Track. rewrite Eg, Eb.
      repeat split; try congruence; try apply G5; try apply G4. }
  assert (A0 : exists s0,
            (if bEDS this
             then CalcGamma sqrt (set_mfBeta 0 (set_mfAlpha 0 this))
             else CalcBetaGamma sqrt (set_mfAlpha 0 this)) = Some s0 /\
            Post (refill sqrt s0)).
  { destruct (bEDS this) eqn:HE.
    - destruct (A4 (set_mfBeta 0 (set_mfAlpha 0 this))) as (s' & E & HP & _).
      { unfold Pre. cbn. repeat split; auto; lra. }
      unfold eval in E. cbn [bEDS set_mfBeta set_mfAlpha] in E. rewrite HE in E.
      destruct (CalcGamma sqrt _) as [t|]; [|discriminate].
      injection E as <-. eauto.
    - destruct (A4 (set_mfAlpha 0 this)) as (s' & E & HP & _).
      { unfold Pre. cbn. repeat split; auto; congruence. }
      unfold eval in E. cbn [bEDS set_mfAlpha] in E. rewrite HE in E.
      destruct (CalcBetaGamma sqrt _) as [t|]; [|discriminate].
      injection E as <-. eauto. }
  destruct A0 as (s0 & -> & HP0).
  destruct (search_rest_ok _ _ _ _ _ A1 A2 A3 A4 (calcAccuracyIndicators sqrt)
              (mfMSE (refill sqrt s0)) (refill sqrt s0))
    as (s' & v & E & (H1 & H2 & H3 & H4) & H5 & H6).
  - intros t (H1 & H2 & H3 & H4).
    destruct (calcAccuracyIndicators_frame sqrt t) as (F1 & F2 & F3). unfold params in F2.
    assert (mfGamma (calcAccuracyIndicators sqrt t) = mfGamma t) as Eg by congruence.
    assert (mfBeta (calcAccuracyIndicators sqrt t) = mfBeta t) as Eb by congruence.
    unfold Post, Track. rewrite Eg, Eb.
    repeat split; try congruence; try apply H3; try apply H4.
  - apply A3, HP0.
  - exists s'. unfold Track in H5. rewrite H5. auto 10.
Qed.

Lemma search_rest_flat setParam eval finish fE0 s s2 s1 :
  eval (setParam 1 s) = Some s2 -> eval (setParam (1 # 2) s2) = Some s1 ->
  fE0 == mfMSE s1 -> mfMSE s1 == mfMSE s2 ->
  search_rest setParam eval finish fE0 s = eval (setParam 0 s1).
Proof.
  intros E2 E1 H1 H2. unfold search_rest. rewrite E2, E1.
  apply Qeq_bool_iff in H1, H2. now rewrite H1, H2.
Qed.

Lemma search_loop_exit setParam eval :
  (forall t, exists t', eval t = Some t') ->
  forall fE0 fE2 s,
    exists f0 f1 f2 fE0' fE2' s',
      search_loop setParam eval cnFuel 0 (1 # 2) 1 fE0 fE2 s
      = Some (f0, f1, f2, fE0', fE2', s') /\
      0 <= f0 /\ f0 < f1 /\ f1 < f2 /\ f2 <= 1 /\
      f1 - f0 == f2 - f1 /\ f2 - f1 <= cfMinABCResolution.
Proof.
  intros Hev fE0 fE2 s.
  assert (W : 1 - (1 # 2) <= cfMinABCResolution * pow2 cnFuel).
  { unfold cfMinABCResolution, cnFuel. cbn [pow2]. lra. }
  destruct (search_loop_ok setParam eval (fun _ _ => True) (fun _ => True) (fun _ => True)
              (fun _ _ => I) (fun _ _ _ => I) (fun _ _ => I)
              (fun t _ => match Hev t with
                          | ex_intro _ t' E => ex_intro _ t' (conj E (conj I (fun _ _ => I)))
                          end)
              cnFuel 0 (1 # 2) 1 fE0 fE2 s I I
              ltac:(lra) ltac:(lra) ltac:(lra) ltac:(lra) W)
    as (f0 & f1 & f2 & e0 & e2 & t & E & _ & _ & K).
  exists f0, f1, f2, e0, e2, t. split; [exact E|].
  destruct K as (? & ? & ? & ? & ? & ? & ? & ?). auto 10.
Qed.

Lemma search_adopt_cases setParam eval f0 f2 fE0 fE2 s :
  (search_adopt setParam eval f0 f2 fE0 fE2 s = Some s /\
   mfMSE s <= fE0 /\ mfMSE s <= fE2) \/
  (search_adopt setParam eval f0 f2 fE0 fE2 s = eval (setParam f0 s) /\
   fE0 < mfMSE s /\ fE0 < fE2) \/
  (search_adopt setParam eval f0 f2 fE0 fE2 s = eval (setParam f2 s) /\
   fE2 < mfMSE s /\ fE2 <= fE0).
Proof.
  unfold search_adopt.
  destruct (Qltb fE0 fE2) eqn:H1; [apply Qltb_lt in H1 | apply Qltb_ge in H1].
  - destruct (Qltb fE0 (mfMSE s)) eqn:H2; [apply Qltb_lt in H2 | apply Qltb_ge in H2].
    + right; left. auto.
    + left. repeat split; auto; lra.
  - destruct (Qltb fE2 (mfMSE s)) eqn:H2; [apply Qltb_lt in H2 | apply Qltb_ge in H2].
    + right; right. auto.
    + left. repeat split; auto; lra.
Qed.

Lemma search_loop_turn setParam eval n f0 f1 f2 fE0 fE2 s :
  cfMinABCResolution < f2 - f1 ->
  search_loop setParam eval (S n) f0 f1 f2 fE0 fE2 s
  = if Qltb fE0 fE2
    then (s' <- eval (setParam ((f0 + f1) / 2) s) ;;
          search_loop setParam eval n f0 ((f0 + f1) / 2) f1 fE0 (mfMSE s) s')
    else (s' <- eval (setParam ((f1 + f2) / 2) s) ;;
          search_loop setParam eval n f1 ((f1 + f2) / 2) f2 (mfMSE s) fE2 s').
Proof.
  intros H. apply Qltb_lt in H. cbn [search_loop]. rewrite H. reflexivity.
Qed.

Lemma eval_gamma_param sqrt v s r :
  eval_gamma sqrt (set_mfGamma v s) = Some r -> mfGamma r = v.
Proof.
  unfold eval_gamma. intros E. injection E as <-.
  destruct (refill_frame sqrt (set_mfGamma v s)) as (_ & F & _).
  unfold params in F. cbn in F. congruence.
Qed.

Lemma eval_beta_param sqrt v s r :
  eval_beta sqrt (set_mfBeta v s) = Some r -> mfBeta r = v.
Proof.
  unfold eval_beta. intros E.
  destruct (CalcGamma_ok sqrt (set_mfBeta v s)) as (t & Et & _ & _ & _ & Hb & _).
  rewrite Et in E. injection E as <-.
  destruct (refill_frame sqrt t) as (_ & F & _). unfold params in F.
  cbn in Hb. congruence.
Qed.

Lemma eval_alpha_param sqrt v s r :
  eval_alpha sqrt (set_mfAlpha v s) = Some r -> mfAlpha r = v.
Proof.
  unfold eval_alpha. intros E.
  destruct (bEDS (set_mfAlpha v s)).
  - destruct (CalcGamma_ok sqrt (set_mfAlpha v s)) as (t & Et & _ & _ & Ha & _).
    rewrite Et in E. injection E as <-.
    destruct (refill_frame sqrt t) as (_ & F & _). unfold params in F.
    cbn in Ha. congruence.
  - destruct (CalcBetaGamma_ok sqrt (set_mfAlpha v s)) as (t & Et & _ & _ & Ha & _).
    rewrite Et in E. injection E as <-.
    destruct (refill_frame sqrt t) as (_ & F & _). unfold params in F.
    cbn in Ha. congruence.
Qed.


(** [initCalc] always returns [true]; it leaves the data range, the step
    size and the mode alone and marks the object as initialised. *)
Lemma initCalc_ok sqrt this :
  exists this', initCalc sqrt this = Some (true, this') /\
    config this' = config this /\ (mbInitialised this = true -> this' = this).
Proof.
  unfold initCalc. destruct (mbInitialised this) eqn:HI; cbn [negb].
  - exists this. auto.
  - destruct (CalcAlphaBetaGamma_ok sqrt this) as (s & -> & Hc & _).
    eexists. split; [reflexivity|]. split; [|discriminate].
    destruct (calcAccuracyIndicators_frame sqrt (set_mbInitialised true s)) as (-> & _).
    exact Hc.
Qed.

(** ** Prediction intervals of double exponential smoothing *)

Lemma Qtrunc_Z (x : Q) (z : Z) : x == inject_Z z -> Qtrunc x = z.
Proof.
  intros H. unfold Qtrunc. destruct (Qle_bool 0 x).
  - rewrite (Qfloor_comp _ _ H). apply Qfloor_Z.
  - rewrite (Qceiling_comp _ _ H). apply Qceiling_Z.
Qed.

Lemma Qtrunc_nonneg (x : Q) : 0 <= x -> Qtrunc x = Qfloor x.
Proof.
  intros H. unfold Qtrunc. apply Qle_bool_iff in H. now rewrite H.
Qed.

Lemma toSCSIZE_ofNat (x : Q) (n : nat) : x == ofNat n -> toSCSIZE x = Some n.
Proof.
  intros H. unfold toSCSIZE. rewrite (Qtrunc_Z x (Z.of_nat n) H).
  destruct (Z.ltb_spec (Z.of_nat n) 0); [lia|]. now rewrite Nat2Z.id.
Qed.

Lemma ofNat_mult_div (k : nat) (step x : Q) :
  0 < step -> x == ofNat k * step -> x / step == ofNat k.
Proof.
  intros Hs H. rewrite H. field. lra.
Qed.

Lemma fmod_multiple (k : nat) (step x : Q) :
  0 < step -> x == ofNat k * step -> fmod x step == 0.
Proof.
  intros Hs H. unfold fmod.
  rewrite (Qtrunc_Z (x / step) (Z.of_nat k)) by now apply ofNat_mult_div.
  fold (ofNat k). lra.
Qed.

Lemma ofNat_le (a b : nat) : (a <= b)%nat -> ofNat a <= ofNat b.
Proof. intros H. unfold ofNat. rewrite <- Zle_Qle. lia. Qed.

Lemma ofNat_S (n : nat) : ofNat (S n) == ofNat n + 1.
Proof.
  unfold ofNat. rewrite Nat2Z.inj_succ. unfold Z.succ.
  now rewrite inject_Z_plus.
Qed.

Lemma targetOffset_config (a b : ScETSForecastCalculation) (t : Q) :
  config a = config b -> targetOffset a t = targetOffset b t.
Proof.
  unfold config. intros H. injection H as H1 H2 H3 H4 H5 H6 H7 H8 H9.
  unfold targetOffset, convertXtoMonths, Xat. now rewrite H1, H2, H5, H6.
Qed.

Lemma nth_error_map_seq {A : Type} (f : nat -> A) (n i : nat) :
  (i < n)%nat -> nth_error (map f (seq 0 n)) i = Some (f i).
Proof.
  intros H. rewrite nth_error_map, nth_error_seq.
  apply Nat.ltb_lt in H. now rewrite H.
Qed.

Lemma mapM_Forall2 {A B : Type} (f : A -> option B) (l : list A) (l' : list B) :
  Forall2 (fun a b => f a = Some b) l l' -> mapM f l = Some l'.
Proof.
  induction 1 as [|a b l l' H _ IH]; cbn; [reflexivity|]. now rewrite H, IH.
Qed.

(** C2 (amended): a target [k >= 1] whole steps beyond the last X gets the
    interval z * RMSE * c[k-1] / c[0] (the index is the number of steps
    less one); the first step, k = 1, therefore gets z * RMSE.  The
    coefficient array is sized from the largest target, so the largest
    target has to be the farthest one as well, as it is on every axis that
    is not a month axis. *)
Theorem C2_EDS_interval_at_whole_steps (sqrt gaussinv : Q -> Q)
    (this : ScETSForecastCalculation) (rTMat : ScMatrix) (ks : list nat) (fPILevel : Q) :
  0 < mfStepSize this ->
  rTMat <> [] ->
  Forall2 (fun t k => (1 <= k)%nat /\ targetOffset this t == ofNat k * mfStepSize this)
    rTMat ks ->
  Forall (fun t => targetOffset this t <= targetOffset this (maxTarget rTMat)) rTMat ->
  exists this',
    initCalc sqrt this = Some (true, this') /\
    GetEDSPredictionIntervals sqrt gaussinv this rTMat fPILevel
    = Some (true, this',
            map (fun k => gaussinv ((1 + fPILevel) / 2) * mfRMSE this' *
                          EDS_c sqrt fPILevel (k - 1) / EDS_c sqrt fPILevel 0) ks) /\
    (~ EDS_c sqrt fPILevel 0 == 0 ->
     gaussinv ((1 + fPILevel) / 2) * mfRMSE this' *
     EDS_c sqrt fPILevel (1 - 1) / EDS_c sqrt fPILevel 0
     == gaussinv ((1 + fPILevel) / 2) * mfRMSE this').
Proof.
  intros Hstep Hne HF2 Hfar.
  destruct (initCalc_ok sqrt this) as (this' & Ei & Hc & _).
  exists this'. split; [exact Ei|]. split; [|intros H0; cbn [Nat.sub]; now field].
  unfold GetEDSPredictionIntervals. rewrite Ei. cbn [negb].
  assert (Hs : mfStepSize this' = mfStepSize this) by (unfold config in Hc; congruence).
  rewrite Hs.
  assert (Ho : forall t, targetOffset this' t = targetOffset this t)
    by (intro t; now apply targetOffset_config).
  rewrite !Ho.
  set (fMax := targetOffset this (maxTarget rTMat)) in *. clearbody fMax.
  set (step := mfStepSize this) in *.
  (* every requested step count is at most the truncated quotient *)
  assert (Hk : Forall (fun k => (Z.of_nat k <= Qfloor (fMax / step))%Z) ks).
  { clear Hne. induction HF2 as [|t k T K [Hk1 Hk2] _ IH]; constructor.
    - inversion Hfar as [|? ? Ht _]; subst.
      assert (Hle : ofNat k <= fMax / step).
      { apply Qle_shift_div_l; [exact Hstep|]. now rewrite <- Hk2. }
      apply Qfloor_resp_le in Hle.
      unfold ofNat in Hle. now rewrite Qfloor_Z in Hle.
    - apply IH. now inversion Hfar. }
  assert (Hpos : (1 <= Qfloor (fMax / step))%Z).
  { destruct HF2 as [|t k T K [Hk1 _] _]; [congruence|].
    inversion Hk; subst. lia. }
  assert (Hq : 0 <= fMax / step).
  { pose proof (Qfloor_le (fMax / step)) as H.
    assert (inject_Z 1 <= inject_Z (Qfloor (fMax / step))) by (rewrite <- Zle_Qle; lia).
    change (inject_Z 1) with 1 in *. lra. }
  unfold toSCSIZE at 1. rewrite (Qtrunc_nonneg _ Hq).
  destruct (Z.ltb_spec (Qfloor (fMax / step)) 0); [lia|].
  set (n0 := Z.to_nat (Qfloor (fMax / step))).
  set (nSize := if negb (Qeq_bool (fmod fMax step) 0) then S n0 else n0).
  assert (Hn : forall k, (Z.of_nat k <= Qfloor (fMax / step))%Z -> (k <= nSize)%nat).
  { intros k Hk'. assert (k <= n0)%nat by (unfold n0; lia).
    unfold nSize. destruct (negb _); lia. }
  rewrite (mapM_Forall2 _ rTMat
             (map (fun k => gaussinv ((1 + fPILevel) / 2) * mfRMSE this' *
                            EDS_c sqrt fPILevel (k - 1) / EDS_c sqrt fPILevel 0) ks));
    [reflexivity|].
  clear Hne Hfar Hpos. induction HF2 as [|t k T K [Hk1 Hk2] _ IH]; cbn [map]; constructor.
  - inversion Hk as [|? ? Hkk _]; subst. apply Hn in Hkk.
    cbv beta. rewrite !Ho.
    rewrite (toSCSIZE_ofNat _ (k - 1)).
    + rewrite (nth_error_map_seq _ nSize (k - 1)) by lia.
      rewrite (nth_error_map_seq _ nSize 0) by lia.
      pose proof (fmod_multiple k step _ Hstep Hk2) as Hf.
      apply Qeq_bool_iff in Hf. rewrite Hf. reflexivity.
    + rewrite (ofNat_mult_div k step _ Hstep Hk2).
      destruct k as [|k]; [lia|]. rewrite ofNat_S.
      replace (S k - 1)%nat with k by lia. lra.
  - apply IH. now inversion Hk.
Qed.

Lemma maxTarget_ge (rTMat : ScMatrix) :
  Forall (fun t => t <= maxTarget rTMat) rTMat.
Proof.
  unfold maxTarget. generalize (hd 0 rTMat) as m.
  induction rTMat as [|t T IH]; intros m; [constructor|]. cbn [fold_left].
  assert (Hmono : forall l a b, a <= b ->
            a <= fold_left (fun m t => if Qltb m t then t else m) l b).
  { induction l as [|x l IHl]; intros a b Hab; cbn [fold_left]; [exact Hab|].
    apply IHl. destruct (Qltb b x) eqn:E; [apply Qltb_lt in E; lra|exact Hab]. }
  constructor.
  - apply Hmono. destruct (Qltb m t) eqn:E; [lra|now apply Qltb_ge in E].
  - apply IH.
Qed.

(** Off a month axis the largest target is the farthest one. *)
Lemma maxTarget_farthest (this : ScETSForecastCalculation) (rTMat : ScMatrix) :
  mnMonthDay this = 0%Z ->
  Forall (fun t => targetOffset this t <= targetOffset this (maxTarget rTMat)) rTMat.
Proof.
  intros H. unfold targetOffset. rewrite H. cbn.
  eapply Forall_impl; [|apply maxTarget_ge]. cbv beta. intros t Ht. lra.
Qed.

(** C2, as stated, fails: with level 1/2 the targets 5 and 6, one and two
    steps beyond the last X = 4, get z*RMSE*c[0]/c[0] and z*RMSE*c[1]/c[0],
    not z*RMSE*c[1]/c[0] and z*RMSE*c[2]/c[0]. *)
Lemma C2_interval_uses_c_of_k_minus_1 :
  match GetEDSPredictionIntervals sqrt_ex gaussinv_ex des_step1 [5; 6] (1 # 2) with
  | Some (true, this', [pi1; pi2]) =>
      let z := gaussinv_ex ((1 + (1 # 2)) / 2) in
      let c := EDS_c sqrt_ex (1 # 2) in
      targetOffset this' 5 == 1 * mfStepSize this' /\
      targetOffset this' 6 == 2 * mfStepSize this' /\
      pi1 == z * mfRMSE this' * c 0%nat / c 0%nat /\
      pi2 == z * mfRMSE this' * c 1%nat / c 0%nat /\
      ~ pi1 == z * mfRMSE this' * c 1%nat / c 0%nat /\
      ~ pi2 == z * mfRMSE this' * c 2%nat / c 0%nat
  | _ => False
  end.
Proof.
  vm_compute. repeat split; discriminate.
Qed.

(** C2 (amended), at the targets 5 and 6 of the series above. *)
Lemma C2_EDS_interval_witness :
  exists this',
    initCalc sqrt_ex des_step1 = Some (true, this') /\
    GetEDSPredictionIntervals sqrt_ex gaussinv_ex des_step1 [5; 6] (1 # 2)
    = Some (true, this',
            map (fun k => gaussinv_ex ((1 + (1 # 2)) / 2) * mfRMSE this' *
                          EDS_c sqrt_ex (1 # 2) (k - 1) / EDS_c sqrt_ex (1 # 2) 0)
                [1; 2]%nat) /\
    (~ EDS_c sqrt_ex (1 # 2) 0 == 0 ->
     gaussinv_ex ((1 + (1 # 2)) / 2) * mfRMSE this' *
     EDS_c sqrt_ex (1 # 2) (1 - 1) / EDS_c sqrt_ex (1 # 2) 0
     == gaussinv_ex ((1 + (1 # 2)) / 2) * mfRMSE this').
Proof.
  apply (C2_EDS_interval_at_whole_steps sqrt_ex gaussinv_ex des_step1 [5; 6] [1; 2]%nat).
  - reflexivity.
  - discriminate.
  - repeat constructor; vm_compute; reflexivity.
  - apply maxTarget_farthest. reflexivity.
Defined.

(** ** Preprocessing: equal X at the end of the range *)

(** C10 fails on the code: for X = 1, 2, 2 and aggregation 1 (AVERAGE) the
    run of equal X reaches the last point; after the erasure the vector
    has 2 elements and the loop condition reads [maRange[2]] before it
    compares [i] with [mnCount]. *)
Lemma C10_trailing_duplicates_out_of_range :
  PreprocessDataRange (fun _ => 0) (ctor 3 Date.nullDate1899)
    [1; 2; 2] [1; 2; 4] 0 true 1 None etsAdd
  = OutOfRange 2 2.
Proof. reflexivity. Qed.

(** ** Preprocessing: the gaps *)

Lemma at_app_length (P R : list DataPoint) (b : DataPoint) :
  at_ (P ++ b :: R) (length P) = Ret b.
Proof.
  unfold at_. rewrite nth_error_app2 by lia. now rewrite Nat.sub_diag.
Qed.

Lemma at_app_last (L R : list DataPoint) (a : DataPoint) :
  at_ ((L ++ [a]) ++ R) (length (L ++ [a]) - 1) = Ret a.
Proof.
  rewrite <- app_assoc. cbn [app]. rewrite length_app. cbn [length].
  replace (length L + 1 - 1)%nat with (length L) by lia. apply at_app_length.
Qed.

Lemma insert_app_length (P R : list DataPoint) (d : DataPoint) :
  insert (P ++ R) (length P) d = (P ++ [d]) ++ R.
Proof.
  unfold insert. rewrite firstn_app, skipn_app, Nat.sub_diag, firstn_all, skipn_all.
  cbn. now rewrite app_nil_r, <- app_assoc.
Qed.

(** "More than 30% of the points are missing", on numbers of points. *)
Lemma over_30_percent (N n : nat) :
  (0 < N)%nat ->
  Qltb (3 # 10) (ofNat n / ofNat N) = true <-> (3 * N < 10 * n)%nat.
Proof.
  intros HN. rewrite Qltb_lt.
  assert (H0 : 0 < ofNat N).
  { unfold ofNat. change 0 with (inject_Z 0). rewrite <- Zlt_Qlt. lia. }
  split; intros H.
  - assert (H1 : (3 # 10) * ofNat N < ofNat n).
    { apply (Qmult_lt_r _ _ _ H0) in H.
      setoid_replace (ofNat n / ofNat N * ofNat N) with (ofNat n) in H by (field; lra).
      exact H. }
    unfold ofNat in H1. unfold Qlt, Qmult in H1.
    cbn [Qnum Qden inject_Z] in H1. lia.
  - apply Qlt_shift_div_l; auto.
    unfold ofNat. unfold Qlt, Qmult. cbn [Qnum Qden inject_Z]. lia.
Qed.

Lemma Qceiling_unique (q : Q) (z : Z) :
  inject_Z (z - 1) < q -> q <= inject_Z z -> Qceiling q = z.
Proof.
  intros H1 H2.
  pose proof (Qceiling_lt q) as H3. pose proof (Qle_ceiling q) as H4.
  assert (A : inject_Z (z - 1) < inject_Z (Qceiling q)) by lra.
  assert (B : inject_Z (Qceiling q - 1) < inject_Z z) by lra.
  rewrite <- Zlt_Qlt in A, B. lia.
Qed.

Lemma stepsBelow_0 (step from upto : Q) :
  0 < step -> upto <= from -> stepsBelow step from upto = 0%nat.
Proof.
  intros Hs H. unfold stepsBelow.
  assert (Hq : (upto - from) / step <= inject_Z 0).
  { change (inject_Z 0) with 0. apply Qle_shift_div_r; [exact Hs|lra]. }
  apply Qceiling_resp_le in Hq. rewrite Qceiling_Z in Hq. lia.
Qed.

Lemma stepsBelow_S (step from upto : Q) :
  0 < step -> from < upto ->
  stepsBelow step from upto = S (stepsBelow step (from + step) upto).
Proof.
  intros Hs H. unfold stepsBelow.
  set (c := Qceiling ((upto - (from + step)) / step)).
  assert (E : (upto - from) / step == (upto - (from + step)) / step + 1) by (field; lra).
  assert (Hc : Qceiling ((upto - from) / step) = (c + 1)%Z).
  { apply Qceiling_unique.
    - replace (c + 1 - 1)%Z with (c - 1 + 1)%Z by lia. rewrite inject_Z_plus, E.
      pose proof (Qceiling_lt ((upto - (from + step)) / step)). fold c in H0.
      change (inject_Z 1) with 1. lra.
    - rewrite inject_Z_plus, E.
      pose proof (Qle_ceiling ((upto - (from + step)) / step)). fold c in H0.
      change (inject_Z 1) with 1. lra. }
  assert (Hpos : (0 <= c)%Z).
  { assert (Hq : 0 < (upto - from) / step) by (apply Qlt_shift_div_l; [exact Hs|lra]).
    pose proof (Qle_ceiling ((upto - (from + step)) / step)) as H4. fold c in H4.
    assert (A : inject_Z (-1) < inject_Z c).
    { change (inject_Z (-1)) with (-1). lra. }
    rewrite <- Zlt_Qlt in A. lia. }
  rewrite Hc. lia.
Qed.

Lemma gapDist_fixed s t a b : fixed s = fixed t -> gapDist s a b = gapDist t a b.
Proof.
  unfold fixed. intros H. injection H as H1 H2 H3 H4 H5 H6.
  unfold gapDist, dateOf. now rewrite H1, H4.
Qed.

Lemma missingBetween_fixed s t a b :
  fixed s = fixed t -> missingBetween s a b = missingBetween t a b.
Proof.
  intros H. unfold missingBetween. rewrite (gapDist_fixed s t a b H).
  unfold fixed in H. injection H as H1 H2 H3 H4 H5 H6. now rewrite H3.
Qed.

Lemma missingCount_fixed s t v :
  fixed s = fixed t -> missingCount s v = missingCount t v.
Proof.
  intros H. induction v as [|a v IH]; [reflexivity|].
  destruct v as [|b v]; [reflexivity|].
  change (missingCount s (a :: b :: v))
    with (missingBetween s a b + missingCount s (b :: v))%nat.
  change (missingCount t (a :: b :: v))
    with (missingBetween t a b + missingCount t (b :: v))%nat.
  now rewrite (missingBetween_fixed s t a b H), IH.
Qed.

Lemma Filled_fixed s t dc v v' :
  fixed s = fixed t -> Filled s dc v v' -> Filled t dc v v'.
Proof.
  intros H HF. induction HF; constructor; auto.
  - now rewrite <- (missingBetween_fixed s t a b H).
  - unfold fixed in H. injection H as _ _ H _ _ _. now rewrite <- H.
Qed.

Lemma fill_gap_spec (dc : bool) (N0 : nat) (y : Q) (fuel : nat) :
  forall (fX : Q) (P : list DataPoint) (b : DataPoint) (R : list DataPoint)
         (this : ScETSForecastCalculation) (nMiss : nat),
    maRange this = P ++ b :: R ->
    mnCount this = length (maRange this) ->
    0 < mfStepSize this -> (0 < N0)%nat ->
    (10 * nMiss <= 3 * N0)%nat -> (3 * N0 < 10 * (nMiss + fuel))%nat ->
    if (10 * (nMiss + stepsBelow (mfStepSize this) fX (X b)) <=? 3 * N0)%nat then
      exists ins this',
        fill_gap dc N0 y fuel fX (length P) this nMiss
        = Ret (true, (length P + length ins)%nat, this', (nMiss + length ins)%nat) /\
        length ins = stepsBelow (mfStepSize this) fX (X b) /\
        Forall (fun d => Y d = (if dc then y else 0) /\ fX <= X d /\ X d < X b) ins /\
        StepsFrom (mfStepSize this) fX ins /\
        maRange this' = (P ++ ins) ++ b :: R /\
        mnCount this' = length (maRange this') /\
        fixed this' = fixed this /\ mnErrorValue this' = mnErrorValue this
    else
      exists i' this' n',
        fill_gap dc N0 y fuel fX (length P) this nMiss = Ret (false, i', this', n') /\
        mnErrorValue this' = Some errNoValue.
Proof.
  induction fuel as [|fuel IH]; intros fX P b R this nMiss HR HC Hs HN Hn Hf.
  - (* no turn is left: the loop has to leave *)
    assert (Hge : X b <= fX).
    { destruct (Qlt_le_dec fX (X b)) as [Hlt|]; [|assumption]. exfalso. lia. }
    rewrite (stepsBelow_0 _ _ _ Hs Hge). rewrite Nat.add_0_r.
    destruct (Nat.leb_spec (10 * nMiss) (3 * N0)); [|lia]. lia.
  - cbn [fill_gap]. rewrite HR, at_app_length. 
    destruct (Qltb fX (X b)) eqn:Hlt.
    + apply Qltb_lt in Hlt. rewrite (stepsBelow_S _ _ _ Hs Hlt).
      set (d := mkDataPoint fX (if dc then y else 0)).
      set (this1 := set_mnCount _ (set_maRange (insert (P ++ b :: R) (length P) d) this)).
      assert (HR1 : maRange this1 = (P ++ [d]) ++ b :: R).
      { unfold this1. cbn. apply insert_app_length. }
      assert (HC1 : mnCount this1 = length (maRange this1)).
      { rewrite HR1. unfold this1. cbn. rewrite HC, HR, !length_app. cbn. lia. }
      destruct (Qltb (3 # 10) (ofNat (S nMiss) / ofNat N0)) eqn:Hover.
      * apply (over_30_percent N0 (S nMiss) HN) in Hover.
        destruct (Nat.leb_spec (10 * (nMiss + S (stepsBelow (mfStepSize this) (fX + mfStepSize this) (X b)))) (3 * N0)); [lia|].
        eexists _, _, _. split; [reflexivity|reflexivity].
      * assert (Hn1 : (10 * S nMiss <= 3 * N0)%nat).
        { destruct (Nat.le_gt_cases (10 * S nMiss) (3 * N0)) as [|Hgt]; [assumption|].
          apply (over_30_percent N0 (S nMiss) HN) in Hgt. congruence. }
        specialize (IH (fX + mfStepSize this) (P ++ [d]) b R this1 (S nMiss)
                      HR1 HC1 Hs HN Hn1 ltac:(lia)).
        change (mfStepSize this1) with (mfStepSize this) in IH.
        change (mfStepSize this1) with (mfStepSize this).
        replace (nMiss + S (stepsBelow (mfStepSize this) (fX + mfStepSize this) (X b)))%nat
          with (S nMiss + stepsBelow (mfStepSize this) (fX + mfStepSize this) (X b))%nat
          by lia.
        destruct (_ <=? _)%nat.
        -- destruct IH as (ins & this' & E & Hl & HF & HP & HR' & HC' & Hfix & Herr).
           exists (d :: ins), this'. 
           replace (length (P ++ [d])) with (S (length P)) in E
             by (rewrite length_app; cbn; lia).
           rewrite E. cbn [length].
           split; [f_equal; f_equal; [f_equal; f_equal; lia | lia]|].
           split; [now rewrite Hl|].
           split.
           { constructor; [cbn; repeat split; auto; lra|].
             eapply Forall_impl; [|exact HF]. cbv beta. intros e (E1 & E2 & E3).
             repeat split; auto. lra. }
           split; [split; [reflexivity|exact HP]|].
           split; [rewrite HR', <- !app_assoc; reflexivity|].
           split; [exact HC'|]. split; [exact Hfix|exact Herr].
        -- destruct IH as (i' & this' & n' & E & Herr).
           replace (length (P ++ [d])) with (S (length P)) in E
             by (rewrite length_app; cbn; lia).
           rewrite E. eauto.
    + apply Qltb_ge in Hlt. rewrite (stepsBelow_0 _ _ _ Hs Hlt). rewrite Nat.add_0_r.
      destruct (Nat.leb_spec (10 * nMiss) (3 * N0)); [|lia].
      exists [], this. cbn [length]. rewrite !Nat.add_0_r, app_nil_r.
      repeat split; auto.
Qed.

Lemma fill_loop_spec (dc : bool) (N0 : nat) :
  forall (R : list DataPoint) (fuel : nat) (L : list DataPoint) (a : DataPoint)
         (this : ScETSForecastCalculation) (nMiss : nat) (aDate : Z),
    maRange this = (L ++ [a]) ++ R ->
    mnCount this = length (maRange this) ->
    0 < mfStepSize this -> (0 < N0)%nat ->
    (10 * nMiss <= 3 * N0)%nat -> (length R <= fuel)%nat ->
    (mnMonthDay this <> 0%Z -> aDate = dateOf this (X a)) ->
    if (10 * (nMiss + missingCount this (a :: R)) <=? 3 * N0)%nat then
      exists v' this',
        fill_loop dc N0 fuel (length (L ++ [a])) aDate this nMiss = Ret (true, this') /\
        Filled this dc (a :: R) v' /\
        maRange this' = L ++ v' /\
        mnCount this' = length (maRange this') /\
        fixed this' = fixed this /\ mnErrorValue this' = mnErrorValue this /\
        length v' = (S (length R) + missingCount this (a :: R))%nat
    else
      exists this',
        fill_loop dc N0 fuel (length (L ++ [a])) aDate this nMiss = Ret (false, this') /\
        mnErrorValue this' = Some errNoValue.
Proof.
  induction R as [|b R IH]; intros fuel L a this nMiss aDate HR HC Hs HN Hn Hf Hd.
  - cbn [missingCount]. rewrite Nat.add_0_r.
    destruct (Nat.leb_spec (10 * nMiss) (3 * N0)); [|lia].
    exists [a], this.
    assert (Hi : (length (L ++ [a]) <? mnCount this)%nat = false).
    { apply Nat.ltb_ge. rewrite HC, HR, app_nil_r. lia. }
    split; [destruct fuel; cbn [fill_loop]; now rewrite Hi|].
    split; [constructor|]. rewrite HC, HR, app_nil_r. repeat split; auto.
  - destruct fuel as [|fuel]; [cbn in Hf; lia|].
    cbn [length] in Hf.
    change (missingCount this (a :: b :: R))
      with (missingBetween this a b + missingCount this (b :: R))%nat.
    cbn [fill_loop].
    assert (Hi : (length (L ++ [a]) <? mnCount this)%nat = true).
    { apply Nat.ltb_lt. rewrite HC, HR, (length_app (L ++ [a])). cbn. lia. }
    rewrite Hi, HR, at_app_length, at_app_last.
    (* the distance is [gapDist] on either axis *)
    assert (Hdist :
      (r <-- (if negb (mnMonthDay this =? 0)%Z
              then Ret (monthsBetween aDate (dateOf this (X b)), dateOf this (X b))
              else Ret (X b - X a, aDate)) ;;
       Ret r)
      = Ret (gapDist this a b,
             if negb (mnMonthDay this =? 0)%Z then dateOf this (X b) else aDate)).
    { unfold gapDist. destruct (Z.eqb_spec (mnMonthDay this) 0) as [E|E]; cbn [negb].
      - reflexivity.
      - now rewrite (Hd E). }
    destruct (negb (mnMonthDay this =? 0)%Z) eqn:Hmd;
      injection Hdist as Hdist; rewrite Hdist; clear Hdist.
    all: unfold missingBetween.
    all: destruct (Qltb (mfStepSize this) (gapDist this a b)) eqn:Hgap.
    all: try (
      (* a gap: the inner loop runs *)
      pose proof (fill_gap_spec dc N0 ((Y b + Y a) / 2) (S N0) (X a + mfStepSize this)
                    (L ++ [a]) b R this nMiss HR HC Hs HN Hn ltac:(lia)) as G;
      apply Qltb_lt in Hgap;
      destruct (Nat.leb_spec
                  (10 * (nMiss + stepsBelow (mfStepSize this) (X a + mfStepSize this) (X b)))
                  (3 * N0)) as [Hle|Hgt];
      [ destruct G as (ins & this1 & -> & Hl & HF & HP & HR1 & HC1 & Hfix & Herr);
        assert (Hs1 : 0 < mfStepSize this1)
          by (unfold fixed in Hfix; injection Hfix as _ _ -> _ _ _; exact Hs);
        assert (HR1' : maRange this1 = (((L ++ [a]) ++ ins) ++ [b]) ++ R)
          by (rewrite HR1, <- !app_assoc; reflexivity);
        assert (Hd1 : mnMonthDay this1 <> 0%Z ->
                      dateOf this (X b) = dateOf this1 (X b))
          by (intros _; unfold fixed in Hfix; unfold dateOf; congruence);
        rewrite <- Hl in Hle;
        pose proof (fun ad H => IH fuel ((L ++ [a]) ++ ins) b this1 (nMiss + length ins)%nat
                      ad HR1' HC1 Hs1 HN Hle ltac:(lia) H) as IH';
        rewrite (missingCount_fixed this1 this _ Hfix) in IH';
        replace (S (length (L ++ [a]) + length ins))
          with (length (((L ++ [a]) ++ ins) ++ [b]))
          by (rewrite !length_app; cbn; lia);
        rewrite <- Hl, Nat.add_assoc
      | destruct G as (i' & this1 & n' & -> & Herr);
        destruct (Nat.leb_spec
                    (10 * (nMiss + (stepsBelow (mfStepSize this) (X a + mfStepSize this)
                                      (X b) + missingCount this (b :: R)))) (3 * N0));
        [lia|]; exists this1; split; [reflexivity|exact Herr] ]).
    all: try (
      (* no gap: the next pair *)
      cbn [Nat.add];
      assert (HR' : maRange this = ((L ++ [a]) ++ [b]) ++ R)
        by (rewrite HR, <- !app_assoc; reflexivity);
      pose proof (fun ad H => IH fuel (L ++ [a]) b this nMiss ad HR' HC Hs HN Hn
                    ltac:(lia) H) as IH';
      replace (S (length (L ++ [a]))) with (length ((L ++ [a]) ++ [b]))
        by (rewrite !length_app; cbn; lia)).
    + (* month axis, gap *)
      specialize (IH' (dateOf this (X b)) Hd1).
      destruct (_ <=? _)%nat.
      * destruct IH' as (v' & this' & -> & HFl & HRf & HCf & Hfx & He & Hlen).
        exists (a :: ins ++ v'), this'. split; [reflexivity|].
        split.
        { constructor.
          - unfold missingBetween.
            assert (Hg : Qltb (mfStepSize this) (gapDist this a b) = true)
              by now apply Qltb_lt.
            now rewrite Hg.
          - eapply Forall_impl; [|exact HF]. cbv beta. intros e (E1 & E2 & E3).
            unfold fillY. repeat split; auto. lra.
          - exact HP.
          - eapply Filled_fixed; [exact Hfix|exact HFl]. }
        split; [rewrite HRf, <- !app_assoc; reflexivity|].
        split; [exact HCf|]. split; [congruence|]. split; [congruence|].
        cbn [length]. rewrite length_app, Hlen. cbn [length]. lia.
      * destruct IH' as (this' & -> & He). eauto.
    + (* month axis, no gap *)
      specialize (IH' (dateOf this (X b)) (fun _ => eq_refl)).
      destruct (_ <=? _)%nat.
      * destruct IH' as (v' & this' & -> & HFl & HRf & HCf & Hfx & He & Hlen).
        exists (a :: [] ++ v'), this'. split; [reflexivity|].
        split.
        { constructor; [|constructor|exact I|exact HFl].
          unfold missingBetween. now rewrite Hgap. }
        split; [rewrite HRf, <- !app_assoc; reflexivity|].
        repeat split; auto. cbn [length app]. rewrite Hlen. cbn [length]. lia.
      * destruct IH' as (this' & -> & He). eauto.
    + (* other axis, gap *)
      assert (Hz : mnMonthDay this1 = 0%Z).
      { unfold fixed in Hfix. apply negb_false_iff, Z.eqb_eq in Hmd. congruence. }
      specialize (IH' aDate (fun H => False_ind _ (H Hz))).
      destruct (_ <=? _)%nat.
      * destruct IH' as (v' & this' & -> & HFl & HRf & HCf & Hfx & He & Hlen).
        exists (a :: ins ++ v'), this'. split; [reflexivity|].
        split.
        { constructor.
          - unfold missingBetween.
            assert (Hg : Qltb (mfStepSize this) (gapDist this a b) = true)
              by now apply Qltb_lt.
            now rewrite Hg.
          - eapply Forall_impl; [|exact HF]. cbv beta. intros e (E1 & E2 & E3).
            unfold fillY. repeat split; auto. lra.
          - exact HP.
          - eapply Filled_fixed; [exact Hfix|exact HFl]. }
        split; [rewrite HRf, <- !app_assoc; reflexivity|].
        split; [exact HCf|]. split; [congruence|]. split; [congruence|].
        cbn [length]. rewrite length_app, Hlen. cbn [length]. lia.
      * destruct IH' as (this' & -> & He). eauto.
    + (* other axis, no gap *)
      assert (Hz : mnMonthDay this = 0%Z) by now apply negb_false_iff, Z.eqb_eq in Hmd.
      specialize (IH' aDate (fun H => False_ind _ (H Hz))).
      destruct (_ <=? _)%nat.
      * destruct IH' as (v' & this' & -> & HFl & HRf & HCf & Hfx & He & Hlen).
        exists (a :: [] ++ v'), this'. split; [reflexivity|].
        split.
        { constructor; [|constructor|exact I|exact HFl].
          unfold missingBetween. now rewrite Hgap. }
        split; [rewrite HRf, <- !app_assoc; reflexivity|].
        repeat split; auto. cbn [length app]. rewrite Hlen. cbn [length]. lia.
      * destruct IH' as (this' & -> & He). eauto.
Qed.

(** ** Preprocessing: [mnCount] is the length of [maRange] *)

Lemma modify_length (f : DataPoint -> DataPoint) (v : list DataPoint) (i : nat) :
  length (modify f v i) = length v.
Proof.
  revert i. induction v as [|d t IH]; intros [|j]; cbn; auto.
Qed.

Lemma at_Ret (v : list DataPoint) (i : nat) (d : DataPoint) :
  at_ v i = Ret d -> (i < length v)%nat /\ nth_error v i = Some d.
Proof.
  unfold at_. destruct (nth_error v i) eqn:E; [|discriminate].
  intros [= ->]. split; [|reflexivity]. apply nth_error_Some. congruence.
Qed.

Lemma at_lt (v : list DataPoint) (i : nat) :
  (i < length v)%nat -> exists d, at_ v i = Ret d.
Proof.
  intros H. unfold at_. destruct (nth_error v i) eqn:E; [eauto|].
  apply nth_error_None in E. lia.
Qed.

Lemma setX_Counted this i x this' :
  setX this i x = Ret this' ->
  mnCount this' = mnCount this /\ length (maRange this') = length (maRange this) /\
  mnMonthDay this' = mnMonthDay this /\ mfStepSize this' = mfStepSize this.
Proof.
  unfold setX. destruct (at_ (maRange this) i); try discriminate.
  intros [= <-]. cbn. now rewrite modify_length.
Qed.

Lemma setY_Counted this i y this' :
  setY this i y = Ret this' ->
  mnCount this' = mnCount this /\ length (maRange this') = length (maRange this) /\
  mnMonthDay this' = mnMonthDay this /\ mfStepSize this' = mfStepSize this.
Proof.
  unfold setY. destruct (at_ (maRange this) i); try discriminate.
  intros [= <-]. cbn. now rewrite modify_length.
Qed.

Lemma erase_length (v : list DataPoint) (i : nat) :
  (i < length v)%nat -> length (erase v i) = (length v - 1)%nat.
Proof.
  intros H. unfold erase. rewrite length_app, length_firstn, length_skipn. lia.
Qed.

Lemma sort_insert_length {A : Type} (lt : A -> A -> bool) (d : A) (l : list A) :
  length (sort_insert lt d l) = S (length l).
Proof.
  induction l as [|h t IH]; cbn; [reflexivity|].
  destruct (lt h d); cbn; auto.
Qed.

Lemma sort_length {A : Type} (lt : A -> A -> bool) (l : list A) :
  length (sort lt l) = length l.
Proof.
  induction l as [|h t IH]; [reflexivity|].
  change (sort lt (h :: t)) with (sort_insert lt h (sort lt t)).
  rewrite sort_insert_length, IH. reflexivity.
Qed.

Lemma while_dup_Counted (body : DataPoint -> Acc -> Acc) (fuel i : nat) :
  forall this a this' a',
    Counted this -> while_dup body fuel i this a = Ret (this', a') ->
    Counted this' /\ mnMonthDay this' = mnMonthDay this /\
    mfStepSize this' = mfStepSize this /\ (mnCount this' <= mnCount this)%nat.
Proof.
  induction fuel as [|fuel IH]; intros this a this' a' HC H; [discriminate|].
  cbn [while_dup] in H.
  destruct (at_ (maRange this) i) as [di| |]; try discriminate.
  destruct (at_ (maRange this) (i - 1)) as [dp| |]; try discriminate.
  destruct (Qeq_bool (X di) (X dp) && (i <? mnCount this)%nat) eqn:E.
  - apply andb_true_iff in E. destruct E as [_ E]. apply Nat.ltb_lt in E.
    apply IH in H.
    + cbn in H. destruct H as (H1 & H2 & H3 & H4). repeat split; auto. lia.
    + unfold Counted in *. cbn. rewrite erase_length; lia.
  - injection H as <- <-. repeat split; auto.
Qed.

Lemma aggregate_Counted (nAggregation : Z) (i : nat) this this' :
  Counted this -> aggregate nAggregation i this = Ret this' ->
  Counted this' /\ mnMonthDay this' = mnMonthDay this /\
  mfStepSize this' = mfStepSize this /\ (mnCount this' <= mnCount this)%nat.
Proof.
  intros HC H. unfold aggregate in H.
  destruct (at_ (maRange this) (i - 1)) as [dp| |]; try discriminate.
  assert (K : forall body a0 (k : ScETSForecastCalculation -> Acc -> Q),
             (r <-- while_dup body (S (length (maRange this))) i this a0 ;;
              let '(this, a) := r in setY this (i - 1) (k this a)) = Ret this' ->
             Counted this' /\ mnMonthDay this' = mnMonthDay this /\
             mfStepSize this' = mfStepSize this /\ (mnCount this' <= mnCount this)%nat).
  { intros body a0 k H0.
    destruct (while_dup body _ i this a0) as [[this1 a1]| |] eqn:E; try discriminate.
    apply while_dup_Counted in E; [|exact HC].
    apply setY_Counted in H0. unfold Counted in *.
    destruct E as (E1 & E2 & E3 & E4), H0 as (F1 & F2 & F3 & F4).
    repeat split; congruence || lia. }
  destruct nAggregation as [|p|p]; [injection H as <-; auto| |injection H as <-; auto].
  do 3 (try destruct p as [p|p|]);
    try (injection H as <-; repeat split; auto; fail).
  all: try (eapply (K _ _ (fun _ a => _)) ; exact H).
  all: try (eapply (K _ _ (fun _ a => fTmp a)); exact H).
  all: try (eapply (K _ _ (fun _ a => ofNat (nCounter a))); exact H).
  apply (K (fun d a => mkAcc (fTmp a) (S (nCounter a)) (aTmp a ++ [Y d]))
           (mkAcc (Y dp) 1 [Y dp])
           (fun _ a =>
                  if (nCounter a mod 2 =? 0)%nat
                  then (rd (sort Qltb (aTmp a)) (nCounter a / 2) +
                        rd (sort Qltb (aTmp a)) (nCounter a / 2 - 1)) / 2
                  else rd (sort Qltb (aTmp a)) (nCounter a / 2))).
  destruct (while_dup _ _ i this _) as [[this1 a1]| |]; try discriminate.
  now destruct (nCounter a1 mod 2 =? 0)%nat.
Qed.

Lemma step_loop_Counted (nAggregation : Z) (fuel : nat) :
  forall i aDate this ok this',
    Counted this -> step_loop nAggregation fuel i aDate this = Ret (ok, this') ->
    Counted this' /\ mnMonthDay this' = mnMonthDay this /\
    (mnCount this' <= mnCount this)%nat.
Proof.
  induction fuel as [|fuel IH]; intros i aDate this ok this' HC H.
  - cbn [step_loop] in H. destruct (i <? mnCount this)%nat; [discriminate|].
    injection H as _ <-. auto.
  - cbn [step_loop] in H. destruct (i <? mnCount this)%nat; [|injection H as _ <-; auto].
    (* the conversion of X to a month number *)
    destruct (if negb (mnMonthDay this =? 0)%Z then _ else _)
      as [[aDate1 this1]| |] eqn:E1; try discriminate.
    assert (H1 : Counted this1 /\ mnMonthDay this1 = mnMonthDay this /\
                 mnCount this1 = mnCount this).
    { destruct (negb (mnMonthDay this =? 0)%Z).
      - destruct (at_ (maRange this) i); try discriminate.
        destruct (setX this i _) as [t| |] eqn:E2; try discriminate.
        injection E1 as _ <-. apply setX_Counted in E2. unfold Counted in *.
        destruct E2 as (F1 & F2 & F3 & F4). repeat split; congruence.
      - injection E1 as _ <-. auto. }
    clear E1. destruct H1 as (C1 & M1 & N1).
    destruct (at_ (maRange this1) i) as [di| |]; try discriminate.
    destruct (at_ (maRange this1) (i - 1)) as [dp| |]; try discriminate.
    destruct (Qeq_bool (X di - X dp) 0).
    + destruct (nAggregation =? 0)%Z.
      { injection H as _ <-. cbn. repeat split; auto. lia. }
      destruct (aggregate nAggregation i this1) as [this2| |] eqn:E2; try discriminate.
      apply aggregate_Counted in E2; [|exact C1].
      destruct E2 as (C2 & M2 & S2 & N2).
      destruct (i <? mnCount this2 - 1)%nat.
      * destruct (if negb (mnMonthDay this2 =? 0)%Z then _ else _)
          as [[fStep aDate2]| |]; try discriminate.
        apply IH in H.
        -- destruct H as (H1 & H2 & H3).
           destruct (Qltb fStep (mfStepSize this2)); cbn in H2, H3;
             repeat split; auto; try congruence; lia.
        -- destruct (Qltb fStep (mfStepSize this2)); exact C2.
      * apply IH in H; [|exact C2]. destruct H as (H1 & H2 & H3).
        repeat split; auto; try congruence; lia.
    + apply IH in H.
      * destruct H as (H1 & H2 & H3).
        destruct (Qltb (X di - X dp) (mfStepSize this1)); cbn in H2, H3;
          repeat split; auto; try congruence; lia.
      * destruct (Qltb (X di - X dp) (mfStepSize this1)); exact C1.
Qed.

Lemma for_loop_append_length (f : nat -> DataPoint) (n : nat) :
  forall lo this,
    let this' :=
      for_loop lo (lo + n)
        (fun i this => set_maRange (maRange this ++ [f i]) this) this in
    length (maRange this') = (length (maRange this) + n)%nat /\
    mnCount this' = mnCount this.
Proof.
  unfold for_loop. induction n as [|n IH]; intros lo this.
  - replace (lo + 0 - lo)%nat with 0%nat by lia. cbn. auto.
  - replace (lo + S n - lo)%nat with (S n) by lia. cbn [seq fold_left].
    specialize (IH (S lo) (set_maRange (maRange this ++ [f lo]) this)).
    replace (S lo + n - S lo)%nat with n in IH by lia.
    cbv zeta in IH. destruct IH as (I1 & I2). rewrite I1, I2. cbn.
    rewrite length_app. cbn. split; [lia|reflexivity].
Qed.

(** The first part of the preprocessing leaves [mnCount] the number of the
    points of [maRange], on an object whose [maRange] was empty. *)
Lemma Preprocess_steps_Counted this rMatX rMatY rSmplInPrd nAggregation rTMat eETSType
    ok this1 :
  maRange this = [] ->
  Preprocess_steps this rMatX rMatY rSmplInPrd nAggregation rTMat eETSType
  = Ret (ok, this1) ->
  Counted this1 /\ (mnCount this1 <= mnCount this)%nat.
Proof.
  intros H0 H. unfold Preprocess_steps in H.
  set (thisA := set_bAdditive _ (set_bEDS _ this)) in H.
  pose proof (for_loop_append_length (fun i => mkDataPoint (rd rMatX i) (rd rMatY i))
                (mnCount thisA) 0 thisA) as L.
  cbv zeta in L. cbn [Nat.add] in L.
  set (thisB := for_loop 0 (mnCount thisA) _ thisA) in *.
  destruct L as (L1 & L2). clearbody thisB.
  assert (LA : length (maRange thisA) = 0%nat /\ mnCount thisA = mnCount this)
    by (unfold thisA; cbn; rewrite H0; auto).
  destruct LA as (LA & NA). rewrite LA, NA in *. clearbody thisA.
  set (thisC := set_maRange (sort lcl_SortByX (maRange thisB)) thisB) in H.
  assert (CC : Counted thisC /\ mnCount thisC = mnCount this).
  { unfold Counted, thisC. cbn. rewrite sort_length, L1, L2. auto. }
  clearbody thisC. clear L1 L2. destruct CC as (CC & NC).
  destruct (match rTMat with Some _ => _ | None => _ end) as [r| |]; try discriminate.
  destruct (negb r).
  { injection H as _ <-. cbn. split; [exact CC|lia]. }
  set (thisD := if negb (rSmplInPrd =? 1)%nat then _ else _) in H.
  assert (CD : Counted thisD /\ mnCount thisD = mnCount this).
  { unfold thisD. destruct (negb (rSmplInPrd =? 1)%nat); cbn; auto. }
  clearbody thisD. destruct CD as (CD & ND).
  destruct (at_ (maRange thisD) 0) as [d0| |]; try discriminate.
  destruct (month_scan thisD _ _ _) as [nMonthDay| |]; try discriminate.
  set (thisE := set_mfStepSize DBL_MAX (set_mnMonthDay nMonthDay thisD)) in H.
  assert (CE : Counted thisE /\ mnCount thisE = mnCount this) by (cbn; auto).
  clearbody thisE. destruct CE as (CE & NE).
  destruct (if negb (mnMonthDay thisE =? 0)%Z then _ else _)
    as [[aDate thisF]| |] eqn:E1; try discriminate.
  assert (CF : Counted thisF /\ mnCount thisF = mnCount this).
  { destruct (negb (mnMonthDay thisE =? 0)%Z).
    - destruct (at_ (maRange thisE) 0); try discriminate.
      destruct (setX thisE 0 _) as [t| |] eqn:E2; try discriminate.
      injection E1 as _ <-. apply setX_Counted in E2. unfold Counted in *.
      destruct E2 as (F1 & F2 & _). split; congruence.
    - injection E1 as _ <-. auto. }
  destruct CF as (CF & NF).
  apply step_loop_Counted in H; [|exact CF]. destruct H as (H1 & _ & H3).
  split; [exact H1|lia].
Qed.

(** The scan for a gap ends in one of three ways; when it finds none on an
    axis that is not a month axis, no two neighbours are more than a step
    apart. *)
Lemma gap_scan_cases (this : ScETSForecastCalculation) :
  forall (R L : list DataPoint) (a : DataPoint),
    maRange this = L ++ a :: R ->
    let g := gap_scan this (seq (S (length L)) (length R)) in
    g = Ret None \/ g = Ret (Some true) \/
    (g = Ret (Some false) /\
     (mnMonthDay this = 0%Z ->
      missingCount this (a :: R) = 0%nat /\
      forall dc, Filled this dc (a :: R) (a :: R))).
Proof.
  induction R as [|b R IH]; intros L a HR; cbv zeta.
  - right. right. split; [reflexivity|]. intros _. split; [reflexivity|]. constructor.
  - assert (HR' : maRange this = (L ++ [a]) ++ b :: R)
      by (rewrite HR, <- app_assoc; reflexivity).
    assert (G : gap_scan this (seq (S (length L)) (length (b :: R)))
                = if negb (Qeq_bool (X b - X a) (mfStepSize this)) then
                    if negb (Qeq_bool (fmod (X b - X a) (mfStepSize this)) 0)
                    then Ret None else Ret (Some true)
                  else gap_scan this (seq (S (length (L ++ [a]))) (length R))).
    { cbn [length seq gap_scan].
      replace (S (length L)) with (length (L ++ [a])) by (rewrite length_app; cbn; lia).
      rewrite HR' at 1. rewrite at_app_length.
      rewrite HR' at 1. rewrite at_app_last. reflexivity. }
    rewrite G. clear G.
    destruct (Qeq_bool (X b - X a) (mfStepSize this)) eqn:E; cbn [negb].
    + specialize (IH (L ++ [a]) b HR'). cbv zeta in IH.
      destruct IH as [IH|[IH|(IH & IHm)]]; auto.
      right. right. split; [exact IH|]. intros Hm. destruct (IHm Hm) as (M & F).
      assert (B : missingBetween this a b = 0%nat).
      { unfold missingBetween, gapDist. rewrite Hm. cbn [Z.eqb].
        apply Qeq_bool_iff in E.
        destruct (Qltb (mfStepSize this) (X b - X a)) eqn:G; [|reflexivity].
        apply Qltb_lt in G. lra. }
      split.
      * change (missingCount this (a :: b :: R))
          with (missingBetween this a b + missingCount this (b :: R))%nat.
        now rewrite B, M.
      * intros dc. apply (Filled_gap this dc a b R [] (b :: R)); auto. exact I.
    + destruct (negb (Qeq_bool (fmod (X b - X a) (mfStepSize this)) 0)); auto.
Qed.

(** ** Forecasts *)

(** [initCalc] does its work once: the object it returns is marked as
    initialised, and a further call returns it unchanged. *)
Lemma initCalc_once sqrt this :
  exists this', initCalc sqrt this = Some (true, this') /\
    config this' = config this /\ mbInitialised this' = true /\
    initCalc sqrt this' = Some (true, this').
Proof.
  unfold initCalc at 1. destruct (mbInitialised this) eqn:HI; cbn [negb].
  - exists this. repeat split; auto. unfold initCalc. now rewrite HI.
  - destruct (CalcAlphaBetaGamma_ok sqrt this) as (s & -> & Hc & _).
    eexists. split; [reflexivity|].
    destruct (calcAccuracyIndicators_frame sqrt (set_mbInitialised true s)) as (C & _ & I).
    cbn in I. repeat split.
    + rewrite C. exact Hc.
    + exact I.
    + unfold initCalc. now rewrite I.
Qed.

Lemma Qfloor_unique (q : Q) (z : Z) :
  inject_Z z <= q -> q < inject_Z (z + 1) -> Qfloor q = z.
Proof.
  intros H1 H2.
  pose proof (Qfloor_le q) as H3. pose proof (Qlt_floor q) as H4.
  assert (A : inject_Z z < inject_Z (Qfloor q + 1)) by lra.
  assert (B : inject_Z (Qfloor q) < inject_Z (z + 1)) by lra.
  rewrite <- Zlt_Qlt in A, B. lia.
Qed.

(** A distance of [k] whole steps and the fraction [f] of a step: the
    number of steps the code computes from it, and the remainder. *)
Lemma steps_and_fraction (k : nat) (f step x : Q) :
  0 < step -> 0 <= f -> f < 1 -> x == (ofNat k + f) * step ->
  toSCSIZE (x / step) = Some k /\ fmod x step == f * step.
Proof.
  intros Hs F0 F1 H.
  assert (D : x / step == ofNat k + f) by (rewrite H; field; lra).
  assert (K : 0 <= ofNat k) by apply ofNat_nonneg.
  assert (T : Qtrunc (x / step) = Z.of_nat k).
  { rewrite Qtrunc_nonneg by (rewrite D; lra).
    apply Qfloor_unique; rewrite D; fold (ofNat k).
    - lra.
    - rewrite inject_Z_plus. fold (ofNat k). change (inject_Z 1) with 1. lra. }
  split.
  - unfold toSCSIZE. rewrite T.
    destruct (Z.ltb_spec (Z.of_nat k) 0); [lia|]. now rewrite Nat2Z.id.
  - unfold fmod. rewrite T. fold (ofNat k). rewrite H. ring.
Qed.

Lemma atZ_nat {A : Type} (a : list A) (n : nat) : atZ a (Z.of_nat n) = nth_error a n.
Proof.
  unfold atZ. destruct (Z.ltb_spec (Z.of_nat n) 0); [lia|]. now rewrite Nat2Z.id.
Qed.

Lemma atZ_last {A : Type} (a : list A) (n : nat) :
  (1 <= n)%nat -> atZ a (Z.of_nat n - 1) = nth_error a (n - 1).
Proof.
  intros H. replace (Z.of_nat n - 1)%Z with (Z.of_nat (n - 1)) by lia. apply atZ_nat.
Qed.

Lemma Qeq_bool_pos (x : Q) : 0 < x -> Qeq_bool x 0 = false.
Proof.
  intros H. destruct (Qeq_bool x 0) eqn:E; [|reflexivity].
  apply Qeq_bool_iff in E. lra.
Qed.

Lemma Qle_bool_true (x y : Q) : x <= y -> Qle_bool x y = true.
Proof. apply Qle_bool_iff. Qed.

Lemma Qle_bool_false (x y : Q) : y < x -> Qle_bool x y = false.
Proof.
  intros H. destruct (Qle_bool x y) eqn:E; [|reflexivity].
  apply Qle_bool_iff in E. lra.
Qed.

(** X16: a target within the range, [k] whole steps and the fraction [f]
    of a step after the first X.  [GetForecast] returns the observed Y of
    point [k] itself, not its smoothed forecast, when [f] times the step
    size is below 0.001; otherwise it returns the value interpolated
    between that observation and the smoothed forecast of point [k + 1]. *)
Theorem X16_GetForecast_within_range (sqrt : Q -> Q) (this : ScETSForecastCalculation)
    (k : nat) (f : Q) (d0 dk dLast : DataPoint) (fTarget rForecast : Q) :
  0 < mfStepSize this -> 0 <= f -> f < 1 ->
  (1 <= mnCount this)%nat ->
  nth_error (maRange this) 0 = Some d0 ->
  nth_error (maRange this) k = Some dk ->
  nth_error (maRange this) (mnCount this - 1) = Some dLast ->
  fTarget == X d0 + (ofNat k + f) * mfStepSize this ->
  fTarget <= X dLast ->
  exists this',
    initCalc sqrt this = Some (true, this') /\
    (f * mfStepSize this < cfMinABCResolution ->
     GetForecast sqrt this fTarget rForecast = Some (true, this', Y dk)) /\
    (cfMinABCResolution <= f * mfStepSize this ->
     forall fFc_1, nth_error (mpForecast this') (k + 1) = Some fFc_1 ->
       exists v, GetForecast sqrt this fTarget rForecast = Some (true, this', v) /\
                 v == Y dk + f * (fFc_1 - Y dk)).
Proof.
  intros Hs F0 F1 HN H0 Hk HL HT HR.
  destruct (initCalc_once sqrt this) as (this' & HI & HC & _).
  exists this'. split; [exact HI|].
  unfold config in HC. injection HC as _ K2 _ K4 K5 _ _ _ _.
  assert (S : toSCSIZE ((fTarget - X d0) / mfStepSize this) = Some k /\
              fmod (fTarget - X d0) (mfStepSize this) == f * mfStepSize this).
  { apply steps_and_fraction; auto. rewrite HT. ring. }
  destruct S as (S1 & S2).
  assert (G : forall r,
    GetForecast sqrt this fTarget r =
    (if Qle_bool cfMinABCResolution (fmod (fTarget - X d0) (mfStepSize this)) then
       fFc_1 <- nth_error (mpForecast this') (k + 1) ;;
       Some (true, this',
             Y dk + fmod (fTarget - X d0) (mfStepSize this) / mfStepSize this * (fFc_1 - Y dk))
     else Some (true, this', Y dk))).
  { intros r. unfold GetForecast. rewrite HI. cbn [negb].
    rewrite K2, K4, K5, atZ_last, HL by exact HN.
    rewrite Qeq_bool_pos by exact Hs.
    rewrite Qle_bool_true by exact HR.
    change 0%Z with (Z.of_nat 0). rewrite atZ_nat, H0, S1, Hk. reflexivity. }
  split.
  - intros Hlt. rewrite G, Qle_bool_false; [reflexivity|]. rewrite S2. exact Hlt.
  - intros Hge fFc_1 HF. rewrite G, Qle_bool_true, HF by (rewrite S2; exact Hge).
    eexists. split; [reflexivity|]. rewrite S2. field. lra.
Qed.

(** X16 on the smoothed series 1, 2, 4, 3: the forecast for X = 3 is the
    observation 4; the forecast for X = 5/2 lies half way between the
    observation 2 and the smoothed forecast of the third point. *)
Lemma X16_GetForecast_within_range_witness :
  GetForecast sqrt_ex des_ready 3 0 = Some (true, des_ready, 4) /\
  exists v,
    GetForecast sqrt_ex des_ready (5 # 2) 0 = Some (true, des_ready, v) /\
    v == 2 + (1 # 2) * (rd (mpForecast des_ready) 2 - 2).
Proof.
  split.
  - destruct (X16_GetForecast_within_range sqrt_ex des_ready 2 0
                (mkDataPoint 1 1) (mkDataPoint 3 4) (mkDataPoint 4 3) 3 0
                ltac:(reflexivity) ltac:(vm_compute; discriminate) ltac:(reflexivity)
                ltac:(vm_compute; lia) ltac:(reflexivity) ltac:(reflexivity)
                ltac:(reflexivity) ltac:(vm_compute; reflexivity)
                ltac:(vm_compute; discriminate))
      as (this' & HI & HA & _).
    assert (E : this' = des_ready) by (vm_compute in HI; now injection HI).
    subst this'. apply HA. reflexivity.
  - destruct (X16_GetForecast_within_range sqrt_ex des_ready 1 (1 # 2)
                (mkDataPoint 1 1) (mkDataPoint 2 2) (mkDataPoint 4 3) (5 # 2) 0
                ltac:(reflexivity) ltac:(vm_compute; discriminate) ltac:(reflexivity)
                ltac:(vm_compute; lia) ltac:(reflexivity) ltac:(reflexivity)
                ltac:(reflexivity) ltac:(vm_compute; reflexivity)
                ltac:(vm_compute; discriminate))
      as (this' & HI & _ & HB).
    assert (E : this' = des_ready) by (vm_compute in HI; now injection HI).
    subst this'.
    exact (HB ltac:(vm_compute; discriminate) (rd (mpForecast des_ready) 2) eq_refl).
Defined.

Lemma ofNat_add_1 (n : nat) : ofNat (n + 1) == ofNat n + 1.
Proof. rewrite Nat.add_1_r. apply ofNat_S. Qed.

(** X17: double exponential smoothing, a target beyond the range, [k]
    whole steps and the fraction [f] of a step after the last X.  The
    forecast continues the last base value along the last trend:
    Base + (k + f) * Trend; but when [f] times the step size is below
    0.001 the fraction is dropped and the forecast is Base + k * Trend. *)
Theorem X17_GetForecast_EDS_beyond_range (sqrt : Q -> Q) (this : ScETSForecastCalculation)
    (k : nat) (f : Q) (dLast : DataPoint) (fTarget rForecast : Q) :
  bEDS this = true ->
  0 < mfStepSize this -> 0 <= f -> f < 1 ->
  (1 <= mnCount this)%nat ->
  nth_error (maRange this) (mnCount this - 1) = Some dLast ->
  fTarget == X dLast + (ofNat k + f) * mfStepSize this ->
  X dLast < fTarget ->
  exists this',
    initCalc sqrt this = Some (true, this') /\
    forall fBase fTrend,
      nth_error (mpBase this') (mnCount this - 1) = Some fBase ->
      nth_error (mpTrend this') (mnCount this - 1) = Some fTrend ->
      exists v,
        GetForecast sqrt this fTarget rForecast = Some (true, this', v) /\
        (cfMinABCResolution <= f * mfStepSize this -> v == fBase + (ofNat k + f) * fTrend) /\
        (f * mfStepSize this < cfMinABCResolution -> v == fBase + ofNat k * fTrend).
Proof.
  intros HE Hs F0 F1 HN HL HT HR.
  destruct (initCalc_once sqrt this) as (this' & HI & HC & _).
  exists this'. split; [exact HI|]. intros fBase fTrend HB HTr.
  unfold config in HC. injection HC as _ K2 _ K4 K5 _ _ K8 _.
  assert (S : toSCSIZE ((fTarget - X dLast) / mfStepSize this) = Some k /\
              fmod (fTarget - X dLast) (mfStepSize this) == f * mfStepSize this).
  { apply steps_and_fraction; auto. rewrite HT. ring. }
  destruct S as (S1 & S2).
  assert (F : forall n, stepForecast this' n = Some (fBase + ofNat n * fTrend)).
  { intros n. unfold stepForecast.
    rewrite K5, K8, HE, atZ_last, atZ_last, HB, HTr by exact HN. reflexivity. }
  unfold GetForecast. rewrite HI. cbn [negb].
  rewrite K2, K4, K5, atZ_last, HL by exact HN.
  rewrite Qeq_bool_pos by exact Hs.
  rewrite Qle_bool_false by exact HR.
  rewrite S1, !F.
  destruct (Qle_bool cfMinABCResolution (fmod (fTarget - X dLast) (mfStepSize this))) eqn:E.
  - eexists. split; [reflexivity|]. apply Qle_bool_iff in E. rewrite S2 in E. split.
    + intros _. rewrite S2, ofNat_add_1. field. lra.
    + intros Hlt. lra.
  - eexists. split; [reflexivity|]. split.
    + intros Hge. apply Qle_bool_true in Hge. rewrite <- S2 in Hge at 1.
      rewrite E in Hge. discriminate.
    + intros _. reflexivity.
Qed.

(** X17 on the smoothed series 1, 2, 4, 3: two and a half steps after the
    last point, and two steps and 1/2000 of a step after it. *)
Lemma X17_GetForecast_EDS_beyond_range_witness :
  (exists v,
     GetForecast sqrt_ex des_ready (13 # 2) 0 = Some (true, des_ready, v) /\
     v == rd (mpBase des_ready) 3 + (5 # 2) * rd (mpTrend des_ready) 3) /\
  (exists v,
     GetForecast sqrt_ex des_ready (12001 # 2000) 0 = Some (true, des_ready, v) /\
     v == rd (mpBase des_ready) 3 + 2 * rd (mpTrend des_ready) 3).
Proof.
  split.
  - destruct (X17_GetForecast_EDS_beyond_range sqrt_ex des_ready 2 (1 # 2)
                (mkDataPoint 4 3) (13 # 2) 0
                ltac:(reflexivity) ltac:(reflexivity) ltac:(vm_compute; discriminate)
                ltac:(reflexivity) ltac:(vm_compute; lia) ltac:(reflexivity)
                ltac:(vm_compute; reflexivity) ltac:(reflexivity))
      as (this' & HI & HA).
    assert (E : this' = des_ready) by (vm_compute in HI; now injection HI).
    subst this'.
    destruct (HA (rd (mpBase des_ready) 3) (rd (mpTrend des_ready) 3)
                ltac:(reflexivity) ltac:(reflexivity))
      as (v & HG & HV & _).
    exists v. split; [exact HG|].
    rewrite HV by (vm_compute; discriminate). reflexivity.
  - destruct (X17_GetForecast_EDS_beyond_range sqrt_ex des_ready 2 (1 # 2000)
                (mkDataPoint 4 3) (12001 # 2000) 0
                ltac:(reflexivity) ltac:(reflexivity) ltac:(vm_compute; discriminate)
                ltac:(reflexivity) ltac:(vm_compute; lia) ltac:(reflexivity)
                ltac:(vm_compute; reflexivity) ltac:(reflexivity))
      as (this' & HI & HA).
    assert (E : this' = des_ready) by (vm_compute in HI; now injection HI).
    subst this'.
    destruct (HA (rd (mpBase des_ready) 3) (rd (mpTrend des_ready) 3)
                ltac:(reflexivity) ltac:(reflexivity))
      as (v & HG & _ & HV).
    exists v. split; [exact HG|].
    rewrite HV by reflexivity. reflexivity.
Defined.

(** X18: seasonal smoothing, a target [n >= 1] whole steps after the last
    X.  The forecast is Base + n * Trend combined with the seasonal index
    PerIdx[N - 1 - P + n mod P], for N points and P samples per period;
    so targets a whole number of periods apart share their seasonal
    index, and a target at whole periods ([n mod P = 0]) takes
    PerIdx[N - 1 - P], not the latest index PerIdx[N - 1]. *)
Theorem X18_GetForecast_seasonal_beyond_range (sqrt : Q -> Q)
    (this : ScETSForecastCalculation) (k j : nat) (dLast : DataPoint)
    (fTarget rForecast : Q) :
  bEDS this = false ->
  0 < mfStepSize this ->
  (1 <= mnSmplInPrd this)%nat -> (mnSmplInPrd this + 1 <= mnCount this)%nat ->
  nth_error (maRange this) (mnCount this - 1) = Some dLast ->
  (1 <= k)%nat ->
  fTarget == X dLast + ofNat (k + j * mnSmplInPrd this) * mfStepSize this ->
  exists this',
    initCalc sqrt this = Some (true, this') /\
    forall fBase fTrend fPerIdx,
      nth_error (mpBase this') (mnCount this - 1) = Some fBase ->
      nth_error (mpTrend this') (mnCount this - 1) = Some fTrend ->
      nth_error (mpPerIdx this')
        (mnCount this - 1 - mnSmplInPrd this + k mod mnSmplInPrd this) = Some fPerIdx ->
      GetForecast sqrt this fTarget rForecast
      = Some (true, this',
              seasonal this (fBase + ofNat (k + j * mnSmplInPrd this) * fTrend) fPerIdx).
Proof.
  intros HE Hs HP HN HL Hk HT.
  destruct (initCalc_once sqrt this) as (this' & HI & HC & _).
  exists this'. split; [exact HI|]. intros fBase fTrend fPerIdx HB HTr HPer.
  unfold config in HC. injection HC as _ K2 K3 K4 K5 _ K7 K8 _.
  set (n := (k + j * mnSmplInPrd this)%nat) in *.
  assert (S : toSCSIZE ((fTarget - X dLast) / mfStepSize this) = Some n /\
              fmod (fTarget - X dLast) (mfStepSize this) == 0 * mfStepSize this).
  { apply steps_and_fraction; lra. }
  destruct S as (S1 & S2).
  assert (Kn : 1 <= ofNat n) by (apply (ofNat_le 1 n); unfold n; lia).
  unfold GetForecast. rewrite HI. cbn [negb].
  rewrite K2, K4, K5, atZ_last, HL by lia.
  rewrite Qeq_bool_pos by exact Hs.
  rewrite Qle_bool_false by (rewrite HT; nra).
  rewrite S1.
  assert (F : stepForecast this' n
              = Some (seasonal this (fBase + ofNat n * fTrend) fPerIdx)).
  { unfold stepForecast, seasonal.
    rewrite K3, K5, K7, K8, HE, atZ_last, atZ_last, HB, HTr by lia.
    destruct (Nat.eqb_spec (mnSmplInPrd this) 0) as [Z0|_]; [lia|].
    replace (Z.of_nat (mnCount this) - 1 - Z.of_nat (mnSmplInPrd this) +
             Z.of_nat (n mod mnSmplInPrd this))%Z
      with (Z.of_nat (mnCount this - 1 - mnSmplInPrd this + k mod mnSmplInPrd this)).
    - rewrite atZ_nat, HPer. destruct (bAdditive this); reflexivity.
    - unfold n. rewrite Nat.Div0.mod_add. lia. }
  rewrite F.
  rewrite Qle_bool_false; [reflexivity|]. rewrite S2. reflexivity.
Qed.

(** X18 on the series 3, 5, 4, 6, 5, 7 with period 2: one step and three
    steps after the last point. *)
Lemma X18_GetForecast_seasonal_beyond_range_witness :
  GetForecast sqrt_ex seasonal_ready 7 0
  = Some (true, seasonal_ready,
          rd (mpBase seasonal_ready) 5 + 1 * rd (mpTrend seasonal_ready) 5 +
          rd (mpPerIdx seasonal_ready) 4) /\
  GetForecast sqrt_ex seasonal_ready 9 0
  = Some (true, seasonal_ready,
          rd (mpBase seasonal_ready) 5 + 3 * rd (mpTrend seasonal_ready) 5 +
          rd (mpPerIdx seasonal_ready) 4).
Proof.
  split.
  - destruct (X18_GetForecast_seasonal_beyond_range sqrt_ex seasonal_ready 1 0
                (mkDataPoint 6 7) 7 0
                ltac:(reflexivity) ltac:(reflexivity) ltac:(vm_compute; lia)
                ltac:(vm_compute; lia) ltac:(reflexivity) ltac:(lia)
                ltac:(vm_compute; reflexivity))
      as (this' & HI & HA).
    assert (E : this' = seasonal_ready) by (vm_compute in HI; now injection HI).
    subst this'.
    exact (HA _ _ _ eq_refl eq_refl eq_refl).
  - destruct (X18_GetForecast_seasonal_beyond_range sqrt_ex seasonal_ready 1 1
                (mkDataPoint 6 7) 9 0
                ltac:(reflexivity) ltac:(reflexivity) ltac:(vm_compute; lia)
                ltac:(vm_compute; lia) ltac:(reflexivity) ltac:(lia)
                ltac:(vm_compute; reflexivity))
      as (this' & HI & HA).
    assert (E : this' = seasonal_ready) by (vm_compute in HI; now injection HI).
    subst this'.
    exact (HA _ _ _ eq_refl eq_refl eq_refl).
Defined.

Lemma convertXtoMonths_config (a b : ScETSForecastCalculation) (t : Q) :
  config a = config b -> convertXtoMonths a t = convertXtoMonths b t.
Proof.
  unfold config. intros H. injection H as H1 H2 H3 H4 H5 H6 H7 H8 H9.
  unfold convertXtoMonths. now rewrite H1, H6.
Qed.

(** What [GetForecast] computes depends on the object after [initCalc]
    only, and not on the value its result variable held. *)
Lemma GetForecast_initCalc sqrt this this' (fTarget r : Q) :
  initCalc sqrt this = Some (true, this') ->
  initCalc sqrt this' = Some (true, this') ->
  GetForecast sqrt this fTarget r
  = match GetForecast sqrt this' fTarget 0 with
    | Some (_, _, v) => Some (true, this', v)
    | None => None
    end.
Proof.
  intros H1 H2. unfold GetForecast. rewrite H1, H2. cbn [negb].
  repeat match goal with
         | |- context [match ?x with _ => _ end] =>
             lazymatch x with
             | context [match _ with _ => _ end] => fail
             | _ => destruct x
             end
         end; reflexivity.
Qed.

Lemma written_app (pre rest fs : list Q) :
  length rest = length fs -> written (pre ++ rest) (length pre) fs = pre ++ fs.
Proof.
  revert pre rest. induction fs as [|f fs IH]; intros pre [|r rest] H; try discriminate.
  - reflexivity.
  - cbn [written].
    replace (upd (pre ++ r :: rest) (length pre) f) with ((pre ++ [f]) ++ rest).
    + replace (S (length pre)) with (length (pre ++ [f]))
        by (rewrite length_app; cbn; lia).
      rewrite IH by (cbn in H; lia). now rewrite <- app_assoc.
    + rewrite <- app_assoc. cbn. clear. induction pre; cbn; congruence.
Qed.

Lemma mapM_length {A B : Type} (f : A -> option B) (l : list A) (l' : list B) :
  mapM f l = Some l' -> length l' = length l.
Proof.
  revert l'. induction l as [|a l IH]; intros l' H; cbn in H.
  - now injection H as <-.
  - destruct (f a); [|discriminate]. destruct (mapM f l); [|discriminate].
    injection H as <-. cbn. now rewrite (IH l0).
Qed.

Lemma GetForecastRange_loop_initialised sqrt fresh this' :
  initCalc sqrt this' = Some (true, this') ->
  forall rTMat i rFcMat,
    GetForecastRange_loop sqrt fresh this' rTMat i rFcMat
    = (fs <- mapM (cellForecast sqrt this') rTMat ;;
       Some (true, this', written rFcMat i fs)).
Proof.
  intros HI. induction rTMat as [|t rTMat IH]; intros i rFcMat; [reflexivity|].
  cbn [GetForecastRange_loop mapM]. unfold cellForecast at 1.
  rewrite (GetForecast_initCalc sqrt this' this' _ (fresh 0%nat) HI HI).
  destruct (GetForecast sqrt this' _ 0) as [[[ok s] v]|]; [|reflexivity].
  rewrite IH. cbn [snd]. destruct (mapM _ rTMat); reflexivity.
Qed.

(** X19: [GetForecastRange] initialises the object at its first cell and
    leaves it as that one call of [initCalc] made it; when it returns it
    returns [true], and the result matrix holds, cell by cell, the forecast
    of the initialised object for the target of that cell (converted to
    months on a month axis).  It is undefined exactly when the forecast
    of some cell is. *)
Theorem X19_GetForecastRange_cells (sqrt : Q -> Q) (fresh : nat -> Q)
    (this : ScETSForecastCalculation) (rTMat rFcMat : ScMatrix) :
  rTMat <> [] ->
  length rFcMat = length rTMat ->
  exists this',
    initCalc sqrt this = Some (true, this') /\
    GetForecastRange sqrt fresh this rTMat rFcMat
    = (fs <- mapM (cellForecast sqrt this') rTMat ;; Some (true, this', fs)).
Proof.
  intros HT HL.
  destruct (initCalc_once sqrt this) as (this' & HI & HC & _ & HI').
  exists this'. split; [exact HI|].
  destruct rTMat as [|t rTMat]; [congruence|].
  unfold GetForecastRange. cbn [GetForecastRange_loop mapM]. unfold cellForecast at 1.
  assert (M : mnMonthDay this' = mnMonthDay this)
    by (unfold config in HC; now injection HC).
  rewrite M, (convertXtoMonths_config this' this t HC).
  rewrite (GetForecast_initCalc sqrt this this' _ (fresh 0%nat) HI HI').
  rewrite (GetForecast_initCalc sqrt this' this' _ 0 HI' HI').
  destruct (GetForecast sqrt this' _ 0) as [[[ok s] v]|]; [|reflexivity].
  rewrite (GetForecastRange_loop_initialised sqrt fresh this' HI'). cbn [snd].
  destruct (mapM (cellForecast sqrt this') rTMat) as [fs|] eqn:E; [|reflexivity].
  apply mapM_length in E.
  destruct rFcMat as [|r rFcMat]; [discriminate|]. cbn [upd].
  change (v :: rFcMat) with ([v] ++ rFcMat).
  change 1%nat with (length [v]).
  rewrite written_app by (cbn in HL; lia). reflexivity.
Qed.

(** X19 on the smoothed series 1, 2, 4, 3: the targets 3 and 5. *)
Lemma X19_GetForecastRange_cells_witness :
  GetForecastRange sqrt_ex (fun _ => 0) des_ready [3; 5] [0; 0]
  = (fs <- mapM (cellForecast sqrt_ex des_ready) [3; 5] ;; Some (true, des_ready, fs)) /\
  mapM (cellForecast sqrt_ex des_ready) [3; 5]
  = Some [4; rd (mpBase des_ready) 3 + 1 * rd (mpTrend des_ready) 3].
Proof.
  split; [|reflexivity].
  destruct (X19_GetForecastRange_cells sqrt_ex (fun _ => 0) des_ready [3; 5] [0; 0]
              ltac:(discriminate) ltac:(reflexivity))
    as (this' & HI & HA).
  assert (E : this' = des_ready) by (vm_compute in HI; now injection HI).
  subst this'. exact HA.
Defined.

(** ** The outcome of [initData] *)

Lemma aPeriodAverage_same_input (a b : ScETSForecastCalculation) (n : nat) :
  maRange b = maRange a -> mnSmplInPrd b = mnSmplInPrd a ->
  aPeriodAverage b n = aPeriodAverage a n.
Proof.
  intros H1 H2. unfold aPeriodAverage, Yat. now rewrite H1, H2.
Qed.

Lemma existsb_Qeq_zero (l : list Q) :
  existsb (fun a => Qeq_bool a 0) l = true <-> Exists (fun a => a == 0) l.
Proof.
  rewrite existsb_exists, Exists_exists.
  split; intros (a & H1 & H2); exists a; split; auto; now apply Qeq_bool_iff.
Qed.

(** X20: what [initData] returns.  For double exponential smoothing it
    always succeeds.  For seasonal smoothing with P samples per period on
    N points it fails with [errUnknownState] when P is 0, with
    [errNoValue] when there are fewer than two periods of data (N < 2 P),
    and with [errDivisionByZero] when the average of some complete period
    is 0; in every other case it succeeds and leaves the error value as
    it was. *)
Theorem X20_initData_outcome (fresh : nat -> Q) (this : ScETSForecastCalculation) :
  (bEDS this = true ->
   fst (initData fresh this) = true /\
   mnErrorValue (snd (initData fresh this)) = mnErrorValue this) /\
  (bEDS this = false ->
   (mnSmplInPrd this = 0%nat ->
    fst (initData fresh this) = false /\
    mnErrorValue (snd (initData fresh this)) = Some errUnknownState) /\
   (mnSmplInPrd this <> 0%nat ->
    ((mnCount this < 2 * mnSmplInPrd this)%nat ->
     fst (initData fresh this) = false /\
     mnErrorValue (snd (initData fresh this)) = Some errNoValue) /\
    ((2 * mnSmplInPrd this <= mnCount this)%nat ->
     (Exists (fun a => a == 0)
        (aPeriodAverage this (mnCount this / mnSmplInPrd this)) ->
      fst (initData fresh this) = false /\
      mnErrorValue (snd (initData fresh this)) = Some errDivisionByZero) /\
     (~ Exists (fun a => a == 0)
          (aPeriodAverage this (mnCount this / mnSmplInPrd this)) ->
      fst (initData fresh this) = true /\
      mnErrorValue (snd (initData fresh this)) = mnErrorValue this)))).
Proof.
  unfold initData.
  set (this0 := set_mpForecast _ (set_mpForecast _ _)).
  assert (I : maRange this0 = maRange this /\ mnCount this0 = mnCount this /\
              mnSmplInPrd this0 = mnSmplInPrd this /\ bEDS this0 = bEDS this /\
              mnErrorValue this0 = mnErrorValue this).
  { unfold this0. destruct (bEDS this) eqn:E; cbn; rewrite ?E; cbn; auto. }
  clearbody this0. destruct I as (I1 & I2 & I3 & I4 & I5).
  split.
  - intros E. unfold prefillTrendData. rewrite I4, E.
    unfold prefillPerIdx. cbn. rewrite I4, E. cbn.
    unfold prefillBaseData. cbn. rewrite I4, E. cbn. auto.
  - intros E. unfold prefillTrendData. rewrite I4, E, I2, I3.
    split; [intros P0|intros P0; split; [intros HN|intros HN]].
    + rewrite P0. cbn [Nat.mul Nat.ltb Nat.leb].
      unfold prefillPerIdx. cbn. rewrite I4, E, I3, P0. cbn. auto.
    + apply Nat.ltb_lt in HN. rewrite HN. cbn. auto.
    + apply Nat.ltb_ge in HN. rewrite HN.
      set (this1 := set_mpTrend _ this0).
      assert (J : maRange this1 = maRange this /\ mnCount this1 = mnCount this /\
                  mnSmplInPrd this1 = mnSmplInPrd this /\ bEDS this1 = bEDS this /\
                  mnErrorValue this1 = mnErrorValue this) by (cbn; auto).
      clearbody this1. destruct J as (J1 & J2 & J3 & J4 & J5).
      unfold prefillPerIdx. rewrite J4, E, J3, J2. cbn [negb].
      apply Nat.eqb_neq in P0. rewrite P0.
      rewrite (aPeriodAverage_same_input this this1) by assumption.
      split; intros HA.
      * apply existsb_Qeq_zero in HA. rewrite HA. cbn. auto.
      * destruct (existsb _ _) eqn:EX; [apply existsb_Qeq_zero in EX; contradiction|].
        unfold prefillBaseData.
        match goal with
        | |- context [for_loop ?lo ?hi ?body ?s] =>
            assert (K : bEDS (for_loop lo hi body s) = false /\
                        mnErrorValue (for_loop lo hi body s) = mnErrorValue this)
        end.
        { apply for_loop_ind; [|split; congruence].
          intros i s (K1 & K2). cbn. auto. }
        destruct K as (K1 & K2). rewrite K1. cbn. auto.
Qed.

(** X20 on the series 6, 2, 6, 2: with the period 0, with the period 3,
    as it is (period 2), and with the values 1, -1, 2, -2, whose periods
    have the average 0. *)
Lemma X20_initData_outcome_witness :
  mnErrorValue (snd (initData (fun _ => 0) (set_mnSmplInPrd 0 additive_6262)))
  = Some errUnknownState /\
  mnErrorValue (snd (initData (fun _ => 0) (set_mnSmplInPrd 3 additive_6262)))
  = Some errNoValue /\
  fst (initData (fun _ => 0) additive_6262) = true /\
  mnErrorValue (snd (initData (fun _ => 0) zero_average)) = Some errDivisionByZero.
Proof.
  split; [|split; [|split]].
  - apply (proj1 (proj2 (X20_initData_outcome (fun _ => 0)
                           (set_mnSmplInPrd 0 additive_6262)) eq_refl)).
    reflexivity.
  - apply (proj2 (proj2 (X20_initData_outcome (fun _ => 0)
                           (set_mnSmplInPrd 3 additive_6262)) eq_refl)).
    + discriminate.
    + vm_compute. lia.
  - apply (proj2 (proj2 (X20_initData_outcome (fun _ => 0) additive_6262) eq_refl)).
    + discriminate.
    + vm_compute. lia.
    + intros H. vm_compute in H.
      inversion H as [? ? A|? ? A]; [discriminate A|].
      inversion A as [? ? B|? ? B]; [discriminate B|inversion B].
  - apply (proj2 (proj2 (X20_initData_outcome (fun _ => 0) zero_average) eq_refl)).
    + discriminate.
    + vm_compute. lia.
    + apply Exists_cons_hd. reflexivity.
Defined.

(** ** The smoothing recurrences *)

(** A counted loop with an invariant that depends on the counter. *)
Lemma for_loop_inv {St : Type} (Inv : nat -> St -> Prop) (body : nat -> St -> St)
    (lo hi : nat) (s : St) :
  (lo <= hi)%nat -> Inv lo s ->
  (forall i t, (lo <= i < hi)%nat -> Inv i t -> Inv (S i) (body i t)) ->
  Inv hi (for_loop lo hi body s).
Proof.
  intros Hle H0 Hstep. unfold for_loop.
  replace hi with (lo + (hi - lo))%nat at 1 by lia.
  assert (B : (hi - lo <= hi - lo)%nat) by lia. revert B.
  generalize (hi - lo)%nat at 1 3 4 as n.
  induction n as [|n IH]; intros B.
  - rewrite Nat.add_0_r. exact H0.
  - rewrite seq_S, fold_left_app. cbn [fold_left].
    replace (lo + S n)%nat with (S (lo + n)) by lia.
    apply Hstep; [lia|]. apply IH. lia.
Qed.

(** X25: the recurrences of double exponential smoothing.  On an object
    whose arrays have [mnCount] cells, [refill] leaves the cells 0 of
    Base, Trend and Forecast as they are, and its result satisfies, for
    every point [i] from 1 on: Forecast[i] = Base[i-1] + Trend[i-1];
    Base[i] = alpha Y[i] + (1 - alpha) Forecast[i], that is the forecast
    corrected by alpha times its error; and
    Trend[i] = gamma (Base[i] - Base[i-1]) + (1 - gamma) Trend[i-1]. *)
Theorem X25_refill_EDS_recurrences (sqrt : Q -> Q) (this : ScETSForecastCalculation) :
  bEDS this = true ->
  length (mpBase this) = mnCount this ->
  length (mpTrend this) = mnCount this ->
  length (mpForecast this) = mnCount this ->
  rd (mpBase (refill sqrt this)) 0 = rd (mpBase this) 0 /\
  rd (mpTrend (refill sqrt this)) 0 = rd (mpTrend this) 0 /\
  rd (mpForecast (refill sqrt this)) 0 = rd (mpForecast this) 0 /\
  forall i, (1 <= i < mnCount this)%nat ->
    rd (mpForecast (refill sqrt this)) i
    = rd (mpBase (refill sqrt this)) (i - 1) + rd (mpTrend (refill sqrt this)) (i - 1) /\
    rd (mpBase (refill sqrt this)) i
    = mfAlpha this * Yat this i +
      (1 - mfAlpha this) *
      (rd (mpBase (refill sqrt this)) (i - 1) + rd (mpTrend (refill sqrt this)) (i - 1)) /\
    rd (mpBase (refill sqrt this)) i
    == rd (mpForecast (refill sqrt this)) i +
       mfAlpha this * (Yat this i - rd (mpForecast (refill sqrt this)) i) /\
    rd (mpTrend (refill sqrt this)) i
    = mfGamma this *
      (rd (mpBase (refill sqrt this)) i - rd (mpBase (refill sqrt this)) (i - 1)) +
      (1 - mfGamma this) * rd (mpTrend (refill sqrt this)) (i - 1).
Proof.
  intros HE LB LT LF.
  set (Inv := fun (k : nat) (t : ScETSForecastCalculation) =>
    config t = config this /\ params t = params this /\
    length (mpBase t) = mnCount this /\ length (mpTrend t) = mnCount this /\
    length (mpForecast t) = mnCount this /\
    rd (mpBase t) 0 = rd (mpBase this) 0 /\
    rd (mpTrend t) 0 = rd (mpTrend this) 0 /\
    rd (mpForecast t) 0 = rd (mpForecast this) 0 /\
    forall i, (1 <= i < k)%nat ->
      rd (mpForecast t) i = rd (mpBase t) (i - 1) + rd (mpTrend t) (i - 1) /\
      rd (mpBase t) i
      = mfAlpha this * Yat this i +
        (1 - mfAlpha this) * (rd (mpBase t) (i - 1) + rd (mpTrend t) (i - 1)) /\
      rd (mpTrend t) i
      = mfGamma this * (rd (mpBase t) i - rd (mpBase t) (i - 1)) +
        (1 - mfGamma this) * rd (mpTrend t) (i - 1)).
  assert (L : Inv (Nat.max 1 (mnCount this))
                (for_loop 1 (Nat.max 1 (mnCount this)) refill_body this)).
  { apply for_loop_inv; [lia| |].
    - unfold Inv. repeat split; auto; lia.
    - intros k t Hk (C & P & B & T & F & B0 & T0 & F0 & R).
      assert (E : bEDS t = true) by (unfold config in C; congruence).
      assert (A : mfAlpha t = mfAlpha this) by (unfold params in P; congruence).
      assert (G : mfGamma t = mfGamma this) by (unfold params in P; congruence).
      assert (Y : maRange t = maRange this) by (unfold config in C; congruence).
      destruct (refill_body_frame k t) as (C' & P' & _).
      unfold Inv. rewrite C', P'. split; [exact C|]. split; [exact P|].
      unfold refill_body. rewrite E. cbv zeta.
      unfold Yat.
      cbn [mpBase mpTrend mpForecast mfAlpha mfGamma maRange
           set_mpBase set_mpTrend set_mpForecast].
      rewrite !upd_length. do 3 (split; [assumption|]).
      rewrite !rd_upd_other by lia. do 3 (split; [assumption|]).
      intros i Hi.
      destruct (Nat.eq_dec i k) as [->|Hne].
      + rewrite !rd_upd_same by lia. rewrite !rd_upd_other by lia.
        rewrite A, G, Y. repeat split; reflexivity.
      + rewrite !rd_upd_other by lia. apply R. lia. }
  assert (FL : for_loop 1 (Nat.max 1 (mnCount this)) refill_body this
               = for_loop 1 (mnCount this) refill_body this).
  { unfold for_loop. f_equal. f_equal. lia. }
  rewrite FL in L. clear FL.
  destruct L as (_ & _ & _ & _ & _ & B0 & T0 & F0 & R).
  assert (AB : mpBase (refill sqrt this)
               = mpBase (for_loop 1 (mnCount this) refill_body this)).
  { unfold refill, calcAccuracyIndicators.
    destruct (for_loop 1 (mnCount _) _ (0, 0, 0)) as [[a e] p]. reflexivity. }
  assert (AT : mpTrend (refill sqrt this)
               = mpTrend (for_loop 1 (mnCount this) refill_body this)).
  { unfold refill, calcAccuracyIndicators.
    destruct (for_loop 1 (mnCount _) _ (0, 0, 0)) as [[a e] p]. reflexivity. }
  assert (AF : mpForecast (refill sqrt this)
               = mpForecast (for_loop 1 (mnCount this) refill_body this)).
  { unfold refill, calcAccuracyIndicators.
    destruct (for_loop 1 (mnCount _) _ (0, 0, 0)) as [[a e] p]. reflexivity. }
  rewrite AB, AT, AF. do 3 (split; [assumption|]).
  intros i Hi. destruct (R i ltac:(lia)) as (R1 & R2 & R3).
  split; [exact R1|]. split; [exact R2|]. split; [|exact R3].
  rewrite R2, R1. ring.
Qed.

(** X25 on the series 1, 2, 4, 3 with alpha = gamma = 1/2, at its third
    point: the forecast 31/12 = 11/6 + 3/4 of the observation 4 is
    corrected by half its error 17/12, which gives the base 79/24. *)
Lemma X25_refill_EDS_recurrences_witness :
  rd (mpForecast des_ready) 2 = rd (mpBase des_ready) 1 + rd (mpTrend des_ready) 1 /\
  rd (mpBase des_ready) 2 == rd (mpForecast des_ready) 2 +
                             (1 # 2) * (4 - rd (mpForecast des_ready) 2) /\
  rd (mpBase des_ready) 1 == 11 # 6 /\ rd (mpTrend des_ready) 1 == 3 # 4 /\
  rd (mpForecast des_ready) 2 == 31 # 12 /\ rd (mpBase des_ready) 2 == 79 # 24.
Proof.
  destruct (X25_refill_EDS_recurrences sqrt_ex
              (set_mfGamma (1 # 2) (set_mfAlpha (1 # 2) des_step1))
              eq_refl eq_refl eq_refl eq_refl) as (_ & _ & _ & R).
  destruct (R 2%nat ltac:(vm_compute; lia)) as (R1 & _ & R3 & _).
  split; [exact R1|]. split; [exact R3|]. repeat split; vm_compute; reflexivity.
Defined.

(** ** The accuracy indicators *)








(** ** The statistics *)

Lemma upd_app_length (P : list Q) (o v : Q) (r : list Q) :
  upd (P ++ o :: r) (length P) v = P ++ v :: r.
Proof.
  induction P as [|h P IH]; [reflexivity|]. cbn [app length upd]. now rewrite IH.
Qed.

Lemma GetStatisticValue_loop_cells (this : ScETSForecastCalculation) :
  forall (rTypeMat P rest : ScMatrix),
    Forall (fun t => (- 2 ^ 31 <= Qtrunc t <= 2 ^ 31 - 1)%Z) rTypeMat ->
    length rest = length rTypeMat ->
    GetStatisticValue_loop this rTypeMat (length P) (P ++ rest)
    = Some (P ++ statCells this rTypeMat rest).
Proof.
  induction rTypeMat as [|t ts IH]; intros P rest HF HL.
  - destruct rest; [reflexivity|discriminate].
  - destruct rest as [|o rest]; [discriminate|]. injection HL as HL.
    inversion HF as [|? ? Ht HF']; subst.
    cbn [GetStatisticValue_loop]. unfold toInt.
    replace ((- 2 ^ 31 <=? Qtrunc t) && (Qtrunc t <=? 2 ^ 31 - 1))%Z with true
      by (symmetry; apply andb_true_iff; split; apply Z.leb_le; lia).
    unfold statCells. cbn [combine map fst snd]. unfold statCell at 1.
    destruct (statisticValue this (Qtrunc t)) as [v|].
    + rewrite upd_app_length.
      replace (P ++ v :: rest) with ((P ++ [v]) ++ rest)
        by (rewrite <- app_assoc; reflexivity).
      replace (S (length P)) with (length (P ++ [v])) by (rewrite length_app; cbn; lia).
      rewrite (IH (P ++ [v]) rest HF' HL). rewrite <- app_assoc. reflexivity.
    + replace (P ++ o :: rest) with ((P ++ [o]) ++ rest)
        by (rewrite <- app_assoc; reflexivity).
      replace (S (length P)) with (length (P ++ [o])) by (rewrite length_app; cbn; lia).
      rewrite (IH (P ++ [o]) rest HF' HL). rewrite <- app_assoc. reflexivity.
Qed.

(** X27: [GetStatisticValue] and [GetSamplesInPeriod] initialise the
    object and return true.  For a type matrix whose cells truncate to
    an [int], [GetStatisticValue] puts into each cell of the result
    matrix the value for the type of that cell, truncated toward zero:
    1 alpha, 2 gamma, 3 beta, 4 MASE, 5 SMAPE, 6 MAE, 7 RMSE, 8 the step
    size, 9 the samples per period; a cell with any other type is not
    written.  [GetSamplesInPeriod] gives the samples per period. *)
Theorem X27_GetStatisticValue_cells (sqrt : Q -> Q) (this : ScETSForecastCalculation)
    (rTypeMat rStatMat : ScMatrix) (rVal : Q) :
  Forall (fun t => (- 2 ^ 31 <= Qtrunc t <= 2 ^ 31 - 1)%Z) rTypeMat ->
  length rStatMat = length rTypeMat ->
  exists this',
    initCalc sqrt this = Some (true, this') /\
    GetStatisticValue sqrt this rTypeMat rStatMat
    = Some (true, this', statCells this' rTypeMat rStatMat) /\
    GetSamplesInPeriod sqrt this rVal = Some (true, this', ofNat (mnSmplInPrd this)) /\
    (forall old,
       statCell this' 1 old = mfAlpha this' /\ statCell this' 2 old = mfGamma this' /\
       statCell this' 3 old = mfBeta this' /\ statCell this' 4 old = mfMASE this' /\
       statCell this' 5 old = mfSMAPE this' /\ statCell this' 6 old = mfMAE this' /\
       statCell this' 7 old = mfRMSE this' /\ statCell this' 8 old = mfStepSize this /\
       statCell this' 9 old = ofNat (mnSmplInPrd this) /\
       statCell this' (19 # 10) old = mfAlpha this' /\
       statCell this' 0 old = old /\ statCell this' 10 old = old).
Proof.
  intros HF HL.
  destruct (initCalc_once sqrt this) as (this' & HI & HC & _).
  assert (S1 : mfStepSize this' = mfStepSize this) by (unfold config in HC; congruence).
  assert (S2 : mnSmplInPrd this' = mnSmplInPrd this) by (unfold config in HC; congruence).
  exists this'. split; [exact HI|]. split; [|split].
  - unfold GetStatisticValue. rewrite HI. cbn [negb].
    pose proof (GetStatisticValue_loop_cells this' rTypeMat [] rStatMat HF HL) as L.
    cbn [length app] in L. rewrite L. reflexivity.
  - unfold GetSamplesInPeriod. rewrite HI. cbn [negb]. now rewrite S2.
  - intros old. unfold statCell. cbn. rewrite S1, S2. repeat split; reflexivity.
Qed.

(** X27 on the smoothed series 1, 2, 4, 3 and the types 1, 2, 8, 0, 2.5:
    alpha, gamma, the step size, the cell as it was, and gamma again. *)
Lemma X27_GetStatisticValue_cells_witness :
  GetStatisticValue sqrt_ex des_ready [1; 2; 8; 0; 5 # 2] [7; 7; 7; 7; 7]
  = Some (true, des_ready, [1 # 2; 1 # 2; 1; 7; 1 # 2]) /\
  GetSamplesInPeriod sqrt_ex des_ready 7 = Some (true, des_ready, 0).
Proof.
  destruct (X27_GetStatisticValue_cells sqrt_ex des_ready [1; 2; 8; 0; 5 # 2]
              [7; 7; 7; 7; 7] 7
              ltac:(repeat constructor; vm_compute; discriminate) eq_refl)
    as (this' & HI & HS & HP & _).
  assert (E : this' = des_ready) by (vm_compute in HI; now injection HI).
  subst this'. split; [exact HS|exact HP].
Defined.

(** ** Preprocessing: the order of the range and the target *)

Lemma sort_insert_In {A : Type} (lt : A -> A -> bool) (d x : A) (l : list A) :
  In x (sort_insert lt d l) <-> x = d \/ In x l.
Proof.
  induction l as [|h t IH]; cbn.
  - intuition.
  - destruct (lt h d); cbn; rewrite ?IH; intuition.
Qed.

Lemma sort_In {A : Type} (lt : A -> A -> bool) (x : A) (l : list A) :
  In x (sort lt l) <-> In x l.
Proof.
  induction l as [|h t IH]; [reflexivity|].
  change (sort lt (h :: t)) with (sort_insert lt h (sort lt t)).
  rewrite sort_insert_In, IH. cbn. intuition.
Qed.

Lemma sort_insert_SortedByX (d : DataPoint) (l : list DataPoint) :
  SortedByX l -> SortedByX (sort_insert lcl_SortByX d l).
Proof.
  induction l as [|h t IH]; intros S; cbn.
  - split; constructor.
  - destruct S as (Hh & Ht).
    unfold lcl_SortByX at 1. destruct (Qltb (X h) (X d)) eqn:E.
    + apply Qltb_lt in E. cbn. split; [|auto].
      apply Forall_forall. intros x Hx. apply sort_insert_In in Hx.
      destruct Hx as [->|Hx]; [lra|]. rewrite Forall_forall in Hh. auto.
    + apply Qltb_ge in E. cbn. split; [|split; assumption].
      constructor; [exact E|]. apply Forall_forall. intros x Hx.
      rewrite Forall_forall in Hh. specialize (Hh x Hx). lra.
Qed.

Lemma sort_SortedByX (l : list DataPoint) : SortedByX (sort lcl_SortByX l).
Proof.
  induction l as [|h t IH]; [exact I|].
  change (sort lcl_SortByX (h :: t)) with (sort_insert lcl_SortByX h (sort lcl_SortByX t)).
  now apply sort_insert_SortedByX.
Qed.

Lemma SortedByX_last (v : list DataPoint) (dn d : DataPoint) :
  SortedByX v -> nth_error v (length v - 1) = Some dn -> In d v -> X d <= X dn.
Proof.
  induction v as [|h t IH]; intros S Hn Hd; [destruct Hd|]. destruct S as (Hh & Ht).
  cbn [length] in Hn. rewrite Nat.sub_succ, Nat.sub_0_r in Hn.
  destruct t as [|h' t'].
  - injection Hn as <-. destruct Hd as [<-|[]]. lra.
  - cbn [length nth_error] in Hn.
    assert (Hn' : nth_error (h' :: t') (length (h' :: t') - 1) = Some dn).
    { cbn [length]. rewrite Nat.sub_succ, Nat.sub_0_r. exact Hn. }
    destruct Hd as [<-|Hd].
    + rewrite Forall_forall in Hh. apply Hh. eapply nth_error_In. exact Hn.
    + apply IH; assumption.
Qed.

Lemma for_loop_append_map (f : nat -> DataPoint) (n : nat) :
  forall lo this,
    maRange (for_loop lo (lo + n)
               (fun i this => set_maRange (maRange this ++ [f i]) this) this)
    = maRange this ++ map f (seq lo n).
Proof.
  unfold for_loop. induction n as [|n IH]; intros lo this.
  - replace (lo + 0 - lo)%nat with 0%nat by lia. cbn. now rewrite app_nil_r.
  - replace (lo + S n - lo)%nat with (S n) by lia. cbn [seq fold_left map].
    specialize (IH (S lo) (set_maRange (maRange this ++ [f lo]) this)).
    replace (S lo + n - S lo)%nat with n in IH by lia.
    rewrite IH. cbn. now rewrite <- app_assoc.
Qed.

(** X21: the check of the target against the range looks at the first
    cell of the target matrix only.  On a new object for [nSize >= 1]
    points, [PreprocessDataRange] returns [false] with
    [errIllegalFPOperation] when that cell is below every X (for the
    functions that forecast) or below some X, that is below the largest
    X (for the two functions that return prediction intervals). *)
Theorem X21_target_before_range (fresh : nat -> Q) (nSize : nat) (pFormatter : Z)
    (rMatX rMatY : ScMatrix) (rSmplInPrd : nat) (bDataCompletion : bool)
    (nAggregation : Z) (rTMat : ScMatrix) (eETSType : ScETSType) :
  (1 <= nSize)%nat ->
  (if isPI eETSType
   then exists i, (i < nSize)%nat /\ rd rTMat 0 < rd rMatX i
   else forall i, (i < nSize)%nat -> rd rTMat 0 < rd rMatX i) ->
  exists this',
    PreprocessDataRange fresh (ctor nSize pFormatter) rMatX rMatY rSmplInPrd
      bDataCompletion nAggregation (Some rTMat) eETSType = Ret (false, this') /\
    mnErrorValue this' = Some errIllegalFPOperation.
Proof.
  intros HN HT. unfold PreprocessDataRange, Preprocess_steps.
  set (thisA := set_bAdditive _ (set_bEDS _ (ctor nSize pFormatter))).
  pose proof (for_loop_append_map (fun i => mkDataPoint (rd rMatX i) (rd rMatY i))
                (mnCount thisA) 0 thisA) as L.
  pose proof (for_loop_append_length (fun i => mkDataPoint (rd rMatX i) (rd rMatY i))
                (mnCount thisA) 0 thisA) as L'.
  cbv zeta in L'. cbn [Nat.add] in L, L'.
  set (thisB := for_loop 0 (mnCount thisA) _ thisA) in *.
  change (maRange thisA) with (@nil DataPoint) in L. cbn [app] in L.
  change (mnCount thisA) with nSize in L, L'. destruct L' as (_ & L').
  clearbody thisB. clear thisA.
  set (v := sort lcl_SortByX (maRange thisB)).
  assert (S : SortedByX v) by apply sort_SortedByX.
  assert (LV : length v = nSize)
    by (unfold v; now rewrite sort_length, L, length_map, length_seq).
  assert (IV : forall d, In d v <-> exists i, (i < nSize)%nat /\
                                          d = mkDataPoint (rd rMatX i) (rd rMatY i)).
  { intros d. unfold v. rewrite sort_In, L, in_map_iff.
    split; intros (i & H1 & H2).
    - exists i. apply in_seq in H2. split; [lia|auto].
    - exists i. split; [auto|]. apply in_seq. lia. }
  change (maRange (set_maRange v thisB)) with v.
  change (mnCount (set_maRange v thisB)) with (mnCount thisB). rewrite L'.
  unfold isPI in HT.
  destruct (ScETSType_eqb eETSType etsPIAdd || ScETSType_eqb eETSType etsPIMult) eqn:PI.
  - apply orb_true_iff in PI.
    replace (negb (ScETSType_eqb eETSType etsPIAdd) &&
             negb (ScETSType_eqb eETSType etsPIMult)) with false
      by (destruct PI as [-> | ->]; cbn; now rewrite ?andb_false_r).
    unfold at_. destruct (nth_error v (nSize - 1)) as [dn|] eqn:En;
      [|apply nth_error_None in En; lia].
    destruct HT as (i & Hi & HT).
    assert (K : X (mkDataPoint (rd rMatX i) (rd rMatY i)) <= X dn).
    { apply (SortedByX_last v); [exact S|now rewrite LV|]. apply IV. eauto. }
    cbn [X] in K.
    assert (B : Qltb (rd rTMat 0) (X dn) = true) by (apply Qltb_lt; lra).
    rewrite B. cbn. eexists. split; reflexivity.
  - apply orb_false_iff in PI. destruct PI as (-> & ->). cbn [negb andb].
    unfold at_. destruct (nth_error v 0) as [d0|] eqn:E0;
      [|apply nth_error_None in E0; lia].
    assert (I0 : In d0 v) by (eapply nth_error_In; exact E0).
    apply IV in I0. destruct I0 as (i & Hi & ->). cbn [X].
    assert (B : Qltb (rd rTMat 0) (rd rMatX i) = true) by (apply Qltb_lt; auto).
    rewrite B. cbn. eexists. split; reflexivity.
Qed.

(** X21 for X = 1, 2, 3: the target 0 for a forecast, the target 2 for a
    prediction interval. *)
Lemma X21_target_before_range_witness :
  (exists this',
     PreprocessDataRange (fun _ => 0) (ctor 3 Date.nullDate1899) [1; 2; 3] [5; 6; 7]
       1 true 1 (Some [0]) etsAdd = Ret (false, this') /\
     mnErrorValue this' = Some errIllegalFPOperation) /\
  (exists this',
     PreprocessDataRange (fun _ => 0) (ctor 3 Date.nullDate1899) [1; 2; 3] [5; 6; 7]
       1 true 1 (Some [2]) etsPIAdd = Ret (false, this') /\
     mnErrorValue this' = Some errIllegalFPOperation).
Proof.
  split.
  - apply X21_target_before_range; [lia|].
    intros [|[|[|i]]] Hi; try reflexivity. lia.
  - apply X21_target_before_range; [lia|].
    exists 2%nat. split; [lia|reflexivity].
Defined.

(** ** Preprocessing: a run of equal X that reaches the end of the range *)

Lemma at_app_beyond (P R : list DataPoint) (a : DataPoint) :
  at_ (P ++ [a]) (S (length P)) = OutOfRange (S (length P)) (S (length P)).
Proof.
  unfold at_.
  assert (E : nth_error (P ++ [a]) (S (length P)) = None)
    by (apply nth_error_None; rewrite length_app; cbn; lia).
  rewrite E, length_app. cbn [length]. now rewrite Nat.add_1_r.
Qed.

Lemma erase_app_second (P run : list DataPoint) (a b : DataPoint) :
  erase (P ++ a :: b :: run) (S (length P)) = P ++ a :: run.
Proof.
  unfold erase. induction P as [|p P IH]; [reflexivity|].
  cbn [app length firstn skipn]. cbn [app length firstn skipn] in IH.
  now rewrite IH.
Qed.

(** The loop that erases a run of equal X, on a run that reaches the end
    of the range: after the last erasure the condition reads the element
    behind the last one. *)
Lemma while_dup_trailing_run (body : DataPoint -> Acc -> Acc) (P : list DataPoint)
    (a : DataPoint) :
  forall (run : list DataPoint) (fuel : nat) (this : ScETSForecastCalculation) (acc : Acc),
    maRange this = P ++ a :: run ->
    Forall (fun d => X d == X a) run ->
    Counted this ->
    (length run < fuel)%nat ->
    while_dup body fuel (S (length P)) this acc
    = OutOfRange (S (length P)) (S (length P)).
Proof.
  induction run as [|b run IH]; intros fuel this acc HR HX HC HF.
  - destruct fuel as [|fuel]; [cbn in HF; lia|]. cbn [while_dup].
    rewrite HR, (at_app_beyond P [] a). reflexivity.
  - destruct fuel as [|fuel]; [cbn in HF; lia|]. cbn [while_dup].
    replace (at_ (maRange this) (S (length P))) with (Ret b).
    2:{ rewrite HR. replace (P ++ a :: b :: run) with ((P ++ [a]) ++ b :: run)
          by (now rewrite <- app_assoc).
        replace (S (length P)) with (length (P ++ [a]))
          by (rewrite length_app; cbn; lia).
        now rewrite at_app_length. }
    replace (at_ (maRange this) (S (length P) - 1)) with (Ret a).
    2:{ rewrite HR. cbn [Nat.sub]. rewrite Nat.sub_0_r. now rewrite at_app_length. }
    inversion HX as [|b' run' Hb Hrun]; subst.
    apply Qeq_bool_iff in Hb. rewrite Hb.
    assert (N : (S (length P) <? mnCount this)%nat = true).
    { apply Nat.ltb_lt. unfold Counted in HC. rewrite HC, HR, length_app. cbn. lia. }
    rewrite N. cbn [andb].
    apply IH.
    + change (erase (maRange this) (S (length P)) = P ++ a :: run).
      rewrite HR. apply erase_app_second.
    + exact Hrun.
    + unfold Counted in *.
      change (mnCount this - 1 = length (erase (maRange this) (S (length P))))%nat.
      rewrite HC, HR, erase_app_second, !length_app. cbn. lia.
    + cbn in HF. lia.
Qed.

(** X22: the loop that aggregates equal X, on a range that is not on a
    month axis and whose points from [i - 1] on all share one X (a run of
    equal X that reaches the end of the range), for every aggregation 1
    to 7: the run is erased down to its first point, and then the
    condition of the inner loop reads [maRange[i]] in a vector of [i]
    elements, before it compares [i] with [mnCount]. *)
Theorem X22_trailing_run_out_of_range (nAggregation : Z) (fuel : nat) (aDate : Z)
    (this : ScETSForecastCalculation) (P : list DataPoint) (a b : DataPoint)
    (run : list DataPoint) :
  (1 <= nAggregation <= 7)%Z ->
  mnMonthDay this = 0%Z ->
  Counted this ->
  maRange this = P ++ a :: b :: run ->
  Forall (fun d => X d == X a) (b :: run) ->
  step_loop nAggregation (S fuel) (S (length P)) aDate this
  = OutOfRange (S (length P)) (S (length P)).
Proof.
  intros HA HM HC HR HX. cbn [step_loop].
  assert (N : (S (length P) <? mnCount this)%nat = true).
  { apply Nat.ltb_lt. unfold Counted in HC. rewrite HC, HR, length_app. cbn. lia. }
  rewrite N, HM. cbn [Z.eqb negb].
  replace (at_ (maRange this) (S (length P))) with (Ret b).
  2:{ rewrite HR. replace (P ++ a :: b :: run) with ((P ++ [a]) ++ b :: run)
        by (now rewrite <- app_assoc).
      replace (S (length P)) with (length (P ++ [a])) by (rewrite length_app; cbn; lia).
      now rewrite at_app_length. }
  assert (A1 : at_ (maRange this) (S (length P) - 1) = Ret a).
  { rewrite HR. cbn [Nat.sub]. rewrite Nat.sub_0_r. now rewrite at_app_length. }
  rewrite A1.
  assert (Hb : X b == X a) by (inversion HX; assumption).
  assert (Z0 : Qeq_bool (X b - X a) 0 = true) by (apply Qeq_bool_iff; lra).
  rewrite Z0.
  assert (A0 : (nAggregation =? 0)%Z = false) by (apply Z.eqb_neq; lia).
  rewrite A0.
  assert (W : forall body acc,
             while_dup body (S (length (maRange this))) (S (length P)) this acc
             = OutOfRange (S (length P)) (S (length P))).
  { intros body acc. apply (while_dup_trailing_run body P a (b :: run)); auto.
    rewrite HR, length_app. cbn. lia. }
  assert (G : aggregate nAggregation (S (length P)) this
              = OutOfRange (S (length P)) (S (length P))).
  { unfold aggregate. rewrite A1.
    assert (C : (nAggregation = 1 \/ nAggregation = 2 \/ nAggregation = 3 \/
                 nAggregation = 4 \/ nAggregation = 5 \/ nAggregation = 6 \/
                 nAggregation = 7)%Z) by lia.
    destruct C as [->|[->|[->|[->|[->|[->| ->]]]]]]; rewrite W; reflexivity. }
  rewrite G. reflexivity.
Qed.

(** X22 for X = 1, 2, 2, 2 and the aggregation MAX. *)
Lemma X22_trailing_run_out_of_range_witness :
  step_loop 4 4 2 0
    (set_mfStepSize 1
       (set_maRange [mkDataPoint 1 1; mkDataPoint 2 2; mkDataPoint 2 4; mkDataPoint 2 3]
          (ctor 4 Date.nullDate1899)))
  = OutOfRange 2 2.
Proof.
  apply (X22_trailing_run_out_of_range 4 3 0 _ [mkDataPoint 1 1] (mkDataPoint 2 2)
           (mkDataPoint 2 4) [mkDataPoint 2 3]).
  - lia.
  - reflexivity.
  - reflexivity.
  - reflexivity.
  - repeat constructor.
Defined.

(** ** Preprocessing: the gaps *)

Lemma missingBetween_plain this a b :
  mnMonthDay this = 0%Z -> missingBetween this a b = missingPoints (mfStepSize this) a b.
Proof.
  intros H. unfold missingBetween, missingPoints, gapDist. now rewrite H.
Qed.

Lemma missingCount_plain this v :
  mnMonthDay this = 0%Z -> missingCount this v = missingInRange (mfStepSize this) v.
Proof.
  intros H. induction v as [|a [|b t] IH]; try reflexivity.
  change (missingCount this (a :: b :: t))
    with (missingBetween this a b + missingCount this (b :: t))%nat.
  change (missingInRange (mfStepSize this) (a :: b :: t))
    with (missingPoints (mfStepSize this) a b + missingInRange (mfStepSize this) (b :: t))%nat.
  now rewrite IH, missingBetween_plain.
Qed.

Lemma Filled_plain this dc v v' :
  mnMonthDay this = 0%Z -> Filled this dc v v' -> FilledRange (mfStepSize this) dc v v'.
Proof.
  intros H F. induction F; constructor; auto.
  now rewrite <- missingBetween_plain.
Qed.

(** The scan for a gap does not fail on a range whose distances are
    whole multiples of the step size. *)
Lemma gap_scan_WholeSteps (this : ScETSForecastCalculation) :
  forall (R L : list DataPoint) (a : DataPoint),
    maRange this = L ++ a :: R ->
    WholeSteps (mfStepSize this) (a :: R) ->
    gap_scan this (seq (S (length L)) (length R)) <> Ret None.
Proof.
  induction R as [|b R IH]; intros L a HR HW; [discriminate|].
  assert (HR' : maRange this = (L ++ [a]) ++ b :: R)
    by (rewrite HR, <- app_assoc; reflexivity).
  assert (G : gap_scan this (seq (S (length L)) (length (b :: R)))
              = if negb (Qeq_bool (X b - X a) (mfStepSize this)) then
                  if negb (Qeq_bool (fmod (X b - X a) (mfStepSize this)) 0)
                  then Ret None else Ret (Some true)
                else gap_scan this (seq (S (length (L ++ [a]))) (length R))).
  { cbn [length seq gap_scan].
    replace (S (length L)) with (length (L ++ [a])) by (rewrite length_app; cbn; lia).
    rewrite HR' at 1. rewrite at_app_length.
    rewrite HR' at 1. rewrite at_app_last. reflexivity. }
  rewrite G. destruct HW as (HW1 & HW2).
  destruct (Qeq_bool (X b - X a) (mfStepSize this)); cbn [negb].
  - apply (IH (L ++ [a]) b HR' HW2).
  - apply Qeq_bool_iff in HW1. rewrite HW1. discriminate.
Qed.

(** [Preprocess_gaps] on a counted range, when the scan for a gap does
    not fail: it ends with [errNoValue] when the points to insert number
    more than 30% of the points, and else goes on to [initData] with the
    range filled. *)
Lemma Preprocess_gaps_exact (fresh : nat -> Q) this dc :
  Counted this -> 0 < mfStepSize this ->
  (mnMonthDay this = 0%Z \/
   gap_scan this (seq 1 (mnCount this - 1)) = Ret (Some true)) ->
  gap_scan this (seq 1 (mnCount this - 1)) <> Ret None ->
  if (10 * missingCount this (maRange this) <=? 3 * mnCount this)%nat then
    exists this2,
      Preprocess_gaps fresh this dc = Ret (initData fresh this2) /\
      Filled this dc (maRange this) (maRange this2) /\
      Counted this2 /\
      mnCount this2 = (mnCount this + missingCount this (maRange this))%nat /\
      fixed this2 = fixed this /\ mnErrorValue this2 = mnErrorValue this
  else
    exists this',
      Preprocess_gaps fresh this dc = Ret (false, this') /\
      mnErrorValue this' = Some errNoValue.
Proof.
  intros HC Hs Hm HG. unfold Preprocess_gaps.
  destruct (maRange this) as [|a R] eqn:HR.
  { (* no point at all *)
    unfold Counted in HC. rewrite HR in HC. cbn in HC. rewrite HC. cbn.
    exists this. rewrite HR.
    repeat split; auto; [constructor|unfold Counted; now rewrite HR]. }
  assert (HN : mnCount this = S (length R)) by (unfold Counted in HC; now rewrite HC, HR).
  pose proof (gap_scan_cases this R [] a HR) as G. cbv zeta in G.
  cbn [length] in G. rewrite HN in *. replace (S (length R) - 1)%nat with (length R) by lia.
  replace (S (length R) - 1)%nat with (length R) in Hm, HG by lia.
  destruct G as [G|[G|(G & Gm)]]; [contradiction| |].
  - rewrite G.
    pose proof (fill_loop_spec dc (S (length R)) R (S (length R)) [] a this 0) as F.
    assert (HR' : maRange this = ([] ++ [a]) ++ R) by (rewrite HR; reflexivity).
    cbn [app length] in F.
    assert (A : exists aDate,
               (if negb (mnMonthDay this =? 0)%Z
                then d0 <-- at_ (a :: R) 0 ;; Ret (dateOf this (X d0))
                else Ret 0%Z) = Ret aDate /\
               (mnMonthDay this <> 0%Z -> aDate = dateOf this (X a))).
    { destruct (Z.eqb_spec (mnMonthDay this) 0); cbn; eauto.
      eexists; split; [reflexivity|]. intros; contradiction. }
    destruct A as (aDate & -> & Ha).
    specialize (F aDate HR' HC Hs ltac:(lia) ltac:(lia) ltac:(lia) Ha).
    cbn [Nat.add] in F.
    destruct (_ <=? _)%nat eqn:Hle.
    + destruct F as (v' & this' & -> & F1 & F2 & F3 & F4 & F5 & F6).
      exists this'. cbn [app] in F2. rewrite F2.
      repeat split; auto. rewrite F3, F2, F6. lia.
    + destruct F as (this' & -> & F1). eauto.
  - destruct Hm as [Hm|Hm]; [|congruence].
    destruct (Gm Hm) as (M0 & F). rewrite G, M0.
    replace (10 * 0 <=? 3 * S (length R))%nat with true
      by (symmetry; apply Nat.leb_le; lia).
    exists this. rewrite HR. repeat split; auto. lia.
Qed.

(** X23: the gaps of a range that is not on a month axis, after the first
    part of [PreprocessDataRange] has succeeded on a new object and left
    N points with a positive step size, every distance between neighbours
    a whole multiple of it.  Let M be the number of the points missing
    between neighbours (at step intervals).  If M is more than 30% of N,
    [PreprocessDataRange] returns false with [errNoValue]; otherwise it
    goes on to [initData] with a range of N + M points in which every gap
    has got its missing points, at step intervals, each with Y the mean of
    the two bracketing Y when completion is enabled, else 0. *)
Theorem X23_gap_filling (fresh : nat -> Q) this rMatX rMatY rSmplInPrd
    (bDataCompletion : bool) nAggregation rTMat eETSType this1 :
  maRange this = [] ->
  Preprocess_steps this rMatX rMatY rSmplInPrd nAggregation rTMat eETSType
  = Ret (true, this1) ->
  0 < mfStepSize this1 ->
  mnMonthDay this1 = 0%Z ->
  WholeSteps (mfStepSize this1) (maRange this1) ->
  ((3 * mnCount this1 < 10 * missingInRange (mfStepSize this1) (maRange this1))%nat ->
   exists this',
     PreprocessDataRange fresh this rMatX rMatY rSmplInPrd bDataCompletion
       nAggregation rTMat eETSType = Ret (false, this') /\
     mnErrorValue this' = Some errNoValue) /\
  ((10 * missingInRange (mfStepSize this1) (maRange this1) <= 3 * mnCount this1)%nat ->
   exists this2,
     PreprocessDataRange fresh this rMatX rMatY rSmplInPrd bDataCompletion
       nAggregation rTMat eETSType = Ret (initData fresh this2) /\
     FilledRange (mfStepSize this1) bDataCompletion (maRange this1) (maRange this2) /\
     mnCount this2
     = (mnCount this1 + missingInRange (mfStepSize this1) (maRange this1))%nat /\
     length (maRange this2) = mnCount this2 /\
     fixed this2 = fixed this1 /\ mnErrorValue this2 = mnErrorValue this1).
Proof.
  intros H0 HP Hs Hm HW. unfold PreprocessDataRange. rewrite HP.
  destruct (Preprocess_steps_Counted _ _ _ _ _ _ _ _ _ H0 HP) as (HC & _).
  assert (HG : gap_scan this1 (seq 1 (mnCount this1 - 1)) <> Ret None).
  { destruct (maRange this1) as [|a R] eqn:HR.
    - unfold Counted in HC. rewrite HR in HC. rewrite HC. cbn. discriminate.
    - unfold Counted in HC. rewrite HR in HC. rewrite HC. cbn [length].
      replace (S (length R) - 1)%nat with (length R) by lia.
      apply (gap_scan_WholeSteps this1 R [] a); [exact HR|exact HW]. }
  pose proof (Preprocess_gaps_exact fresh this1 bDataCompletion HC Hs (or_introl Hm) HG)
    as E.
  rewrite (missingCount_plain this1 _ Hm) in E.
  split; intros HM.
  - apply Nat.leb_gt in HM. rewrite HM in E. exact E.
  - apply Nat.leb_le in HM. rewrite HM in E.
    destruct E as (this2 & E1 & E2 & E3 & E4 & E5 & E6).
    exists this2. repeat split; auto.
    now apply Filled_plain.
Qed.

(** X23 on ten points at 1..6, 9, 14, 15, 16 (six points missing) and on
    ten points at 1..8, 10, 11 (the point at 9 missing). *)
Lemma X23_gap_filling_witness :
  (exists this',
     PreprocessDataRange (fun _ => 0) (ctor 10 Date.nullDate1899) gaps_X gaps_Y 0 true 1
       None etsAdd = Ret (false, this') /\
     mnErrorValue this' = Some errNoValue) /\
  (exists this2,
     PreprocessDataRange (fun _ => 0) (ctor 10 Date.nullDate1899) gap_X gap_Y 0 true 1
       None etsAdd = Ret (initData (fun _ => 0) this2) /\
     FilledRange 1 true (maRange gap_steps) (maRange this2) /\
     mnCount this2 = 11%nat).
Proof.
  split.
  - refine (proj1 (X23_gap_filling (fun _ => 0) (ctor 10 Date.nullDate1899)
                     gaps_X gaps_Y 0%nat true 1%Z None etsAdd gaps_steps
                     eq_refl _ _ _ _) _).
    + vm_compute. reflexivity.
    + reflexivity.
    + reflexivity.
    + vm_compute. repeat split.
    + vm_compute. lia.
  - destruct (proj2 (X23_gap_filling (fun _ => 0) (ctor 10 Date.nullDate1899)
                       gap_X gap_Y 0%nat true 1%Z None etsAdd gap_steps
                       eq_refl ltac:(vm_compute; reflexivity) ltac:(reflexivity)
                       ltac:(reflexivity) ltac:(vm_compute; repeat split))
                    ltac:(vm_compute; lia))
      as (this2 & E1 & E2 & E3 & _).
    exists this2. split; [exact E1|]. split; [exact E2|exact E3].
Defined.

(** The scan for a gap stops at the first distance that differs from the
    step size. *)
Lemma gap_scan_GapFirst (this : ScETSForecastCalculation) :
  forall (R L : list DataPoint) (a : DataPoint),
    maRange this = L ++ a :: R ->
    GapFirst (mfStepSize this) (a :: R) ->
    gap_scan this (seq (S (length L)) (length R)) = Ret (Some true).
Proof.
  induction R as [|b R IH]; intros L a HR HG; [destruct HG|].
  assert (HR' : maRange this = (L ++ [a]) ++ b :: R)
    by (rewrite HR, <- app_assoc; reflexivity).
  assert (G : gap_scan this (seq (S (length L)) (length (b :: R)))
              = if negb (Qeq_bool (X b - X a) (mfStepSize this)) then
                  if negb (Qeq_bool (fmod (X b - X a) (mfStepSize this)) 0)
                  then Ret None else Ret (Some true)
                else gap_scan this (seq (S (length (L ++ [a]))) (length R))).
  { cbn [length seq gap_scan].
    replace (S (length L)) with (length (L ++ [a])) by (rewrite length_app; cbn; lia).
    rewrite HR' at 1. rewrite at_app_length.
    rewrite HR' at 1. rewrite at_app_last. reflexivity. }
  rewrite G. destruct HG as [(N & F)|(E & HG)].
  - destruct (Qeq_bool (X b - X a) (mfStepSize this)) eqn:E.
    + apply Qeq_bool_iff in E. contradiction.
    + apply Qeq_bool_iff in F. rewrite F. reflexivity.
  - apply Qeq_bool_iff in E. rewrite E. cbn [negb].
    apply (IH (L ++ [a]) b HR' HG).
Qed.

(** X24: the check that the distances between neighbours are whole
    multiples of the step size ends at the first gap.  On a counted range
    whose first distance that differs from the step size is a whole
    multiple of it, the scan reports a gap and no error, whatever the
    distances after that gap are. *)
Theorem X24_distances_checked_up_to_first_gap (this : ScETSForecastCalculation) :
  mnCount this = length (maRange this) ->
  GapFirst (mfStepSize this) (maRange this) ->
  gap_scan this (seq 1 (mnCount this - 1)) = Ret (Some true).
Proof.
  intros HC HG. destruct (maRange this) as [|a R] eqn:HR; [destruct HG|].
  rewrite HC. cbn [length]. rewrite Nat.sub_succ, Nat.sub_0_r.
  apply (gap_scan_GapFirst this R [] a); [exact HR|exact HG].
Qed.

(** X24 on the points at 1, ..., 7, 9, 10.5, 11.5 (step size 1): the scan
    reports the gap from 7 to 9 and does not see the distance 1.5 after
    it, which is no multiple of the step size; [PreprocessDataRange]
    returns true, with a point put in at 8 and one at 10, before 10.5.
    With the distance 1.5 before the gap it returns false with
    [errNoValue]. *)
Lemma X24_distances_checked_up_to_first_gap_witness :
  gap_scan irregular_steps (seq 1 (mnCount irregular_steps - 1)) = Ret (Some true) /\
  mfStepSize irregular_steps = 1 /\
  ~ WholeSteps (mfStepSize irregular_steps) (maRange irregular_steps) /\
  (exists this',
     PreprocessDataRange (fun _ => 0) (ctor 10 Date.nullDate1899) irregular_X irregular_Y
       0 true 1 None etsAdd = Ret (true, this') /\
     mnErrorValue this' = None /\
     map (fun d => Qred (X d)) (maRange this')
     = [1; 2; 3; 4; 5; 6; 7; 8; 9; 10; 21 # 2; 23 # 2]) /\
  (exists this',
     PreprocessDataRange (fun _ => 0) (ctor 10 Date.nullDate1899) irregular_first_X
       irregular_Y 0 true 1 None etsAdd = Ret (false, this') /\
     mnErrorValue this' = Some errNoValue).
Proof.
  split; [|split; [|split; [|split]]].
  - apply (X24_distances_checked_up_to_first_gap irregular_steps).
    + reflexivity.
    + vm_compute. repeat (first [right; split; [reflexivity|] | left; split;
                                   [discriminate|reflexivity]]).
  - reflexivity.
  - vm_compute. intros H. decompose [and] H. discriminate.
  - vm_compute. eexists. split; [reflexivity|]. split; reflexivity.
  - vm_compute. eexists. split; reflexivity.
Defined.

(** C4 fails on the code, on a month axis.  Ten monthly values from
    January 2020 to February 2021, all on the first of the month, with four
    months missing: the first part of the preprocessing replaces the X by
    month numbers (step size 1) and four points are missing, more than 30%
    of 10.  The loop that fills the gaps reads these month numbers as day
    numbers again; two neighbours are then some days apart, never more
    than one month, so it finds no distance above the step size: nothing
    is inserted and [PreprocessDataRange] returns true without an error,
    with the ten points and their gaps.  The same pattern on an axis of
    plain numbers returns false with [errNoValue]. *)
Lemma C4_month_axis_gaps_not_filled :
  Preprocess_steps (ctor 10 Date.nullDate1899) months_X months_Y 0 1 None etsAdd
  = Ret (true, months_steps) /\
  mnMonthDay months_steps = 1%Z /\ mfStepSize months_steps = 1 /\
  map X (maRange months_steps)
  = [24241; 24242; 24243; 24244; 24245; 24246; 24249; 24250; 24253; 24254] /\
  mnCount months_steps = 10%nat /\
  missingInRange (mfStepSize months_steps) (maRange months_steps) = 4%nat /\
  missingCount months_steps (maRange months_steps) = 0%nat /\
  (exists this',
     PreprocessDataRange (fun _ => 0) (ctor 10 Date.nullDate1899) months_X months_Y
       0 true 1 None etsAdd = Ret (true, this') /\
     mnErrorValue this' = None /\ mnCount this' = 10%nat /\
     maRange this' = maRange months_steps) /\
  (exists this',
     PreprocessDataRange (fun _ => 0) (ctor 10 Date.nullDate1899) plain_X months_Y
       0 true 1 None etsAdd = Ret (false, this') /\
     mnErrorValue this' = Some errNoValue).
Proof.
  repeat split; try (vm_compute; reflexivity).
  - vm_compute. eexists. repeat split.
  - vm_compute. eexists. repeat split.
Qed.

(** ** The search for the smoothing constants, turn by turn *)


Section SearchTrace.

Variable setParam : Q -> ScETSForecastCalculation -> ScETSForecastCalculation.
Variable eval : ScETSForecastCalculation -> option ScETSForecastCalculation.
Variable param : ScETSForecastCalculation -> Q.
Variables Pre Post : ScETSForecastCalculation -> Prop.

Hypothesis param_set : forall v s, param (setParam v s) = v.
Hypothesis Pre_set : forall v s, Pre s -> Pre (setParam v s).
Hypothesis Post_Pre : forall s, Post s -> Pre s.
Hypothesis eval_ok :
  forall s, Pre s -> exists s', eval s = Some s' /\ Post s' /\ param s' = param s.




End SearchTrace.






(** * Properties: the export of OOXML signatures *)

Import XSec.
Import XSecSpec.
Close Scope Q_scope.
Open Scope string_scope.
Open Scope list_scope.

Lemma bindOut_emit {B : Type} (l : list SaxEvent) (k : unit -> Out B) :
  bindOut (emit l) k = ((l ++ fst (k tt))%list, snd (k tt)).
Proof. unfold bindOut, emit. now destruct (k tt). Qed.

Lemma bindOut_Some {A B : Type} (l : list SaxEvent) (a : A) (k : A -> Out B) :
  bindOut (l, Some a) k = ((l ++ fst (k a))%list, snd (k a)).
Proof. unfold bindOut. now destruct (k a). Qed.

Lemma bindOut_None {A B : Type} (l : list SaxEvent) (k : A -> Out B) :
  bindOut (l, None) k = (l, None).
Proof. reflexivity. Qed.

Lemma bindOut_assoc {A B C : Type} (c : Out A) (k1 : A -> Out B) (k2 : B -> Out C) :
  bindOut (bindOut c k1) k2 = bindOut c (fun a => bindOut (k1 a) k2).
Proof.
  destruct c as [l [a|]]; [|reflexivity]. unfold bindOut at 2 3.
  destruct (k1 a) as [l1 [b|]]; [|reflexivity].
  unfold bindOut. destruct (k2 b) as [l2 r]. now rewrite app_assoc.
Qed.

(** The output of a function in [Out], step by step. *)
Ltac out_steps :=
  unfold emit, throw;
  repeat first [rewrite bindOut_Some | rewrite bindOut_None | progress cbn [fst snd]].

Lemma bindOut_fst_success {A B : Type} (c : Out A) (k : A -> Out B) (b : B) :
  snd (bindOut c k) = Some b ->
  exists a, snd c = Some a /\ snd (k a) = Some b /\
            fst (bindOut c k) = (fst c ++ fst (k a))%list.
Proof.
  destruct c as [l [a|]]; cbn; [|discriminate].
  destruct (k a) as [l' r] eqn:E. cbn. intros ->. exists a. now rewrite E.
Qed.

Lemma forEach_success {A : Type} (body : A -> Out unit) (l : list A) :
  snd (forEach l body) = Some tt ->
  Forall (fun a => snd (body a) = Some tt) l /\
  fst (forEach l body) = flat_map (fun a => fst (body a)) l.
Proof.
  induction l as [|a t IH]; cbn [forEach flat_map]; intros H.
  - split; [constructor|reflexivity].
  - apply bindOut_fst_success in H. destruct H as ([] & H1 & H2 & H3).
    destruct (IH H2) as (F & E). split; [constructor; assumption|].
    now rewrite H3, E.
Qed.

Lemma filter_flat_map {A B : Type} (p : B -> bool) (f : A -> list B) (l : list A) :
  filter p (flat_map f l) = flat_map (fun a => filter p (f a)) l.
Proof.
  induction l as [|a t IH]; cbn; [reflexivity|].
  now rewrite filter_app, IH.
Qed.

Lemma flat_map_nil {A B : Type} (f : A -> list B) (l : list A) :
  (forall a, f a = []) -> flat_map f l = [].
Proof.
  intros H. induction l as [|a t IH]; cbn; [reflexivity|]. now rewrite H, IH.
Qed.

(** The blacklist of the code is the list of the three types. *)
Lemma lcl_isOOXMLRelationBlacklist_spec (aType : string) :
  lcl_isOOXMLRelationBlacklist aType = existsb (String.eqb aType) blacklistedRelationTypes.
Proof.
  unfold lcl_isOOXMLRelationBlacklist, blacklistedRelationTypes. cbn [existsb].
  now rewrite !(String.eqb_sym aType).
Qed.

(** The loop over the relations writes one element for each pair whose
    type is none of the three, in order. *)
Lemma exportRelations_spec (aRelationsInfo : list (list StringPair)) :
  exportRelations aRelationsInfo
  = flat_map RelationshipReference
      (signedRelationIds (map relationIdType aRelationsInfo)).
Proof.
  unfold exportRelations, signedRelationIds.
  induction aRelationsInfo as [|rPairs t IH]; [reflexivity|].
  cbn [flat_map map filter]. rewrite IH.
  destruct (relationIdType rPairs) as [aId aType]. cbn [snd].
  rewrite <- lcl_isOOXMLRelationBlacklist_spec.
  destruct (lcl_isOOXMLRelationBlacklist aType); reflexivity.
Qed.

Lemma filter_RelationshipReference (ids : list string) :
  filter (isStart "mdssi:RelationshipReference") (flat_map RelationshipReference ids)
  = map RelationshipReference_start ids.
Proof.
  induction ids as [|i t IH]; [reflexivity|].
  change (flat_map RelationshipReference (i :: t))
    with (RelationshipReference_start i :: endElement "mdssi:RelationshipReference"
          :: flat_map RelationshipReference t).
  change (filter (isStart "mdssi:RelationshipReference")
            (RelationshipReference_start i :: endElement "mdssi:RelationshipReference"
             :: flat_map RelationshipReference t))
    with (RelationshipReference_start i
          :: filter (isStart "mdssi:RelationshipReference")
               (flat_map RelationshipReference t)).
  now rewrite IH.
Qed.

Section ExportTheorems.

Variable toISO8601 : DateTime -> string.
Variable XInputStream : Type.
Variable ReadRelationsInfoSequence :
  XInputStream -> string -> option (list (list StringPair)).
Variable xRootStorage : string -> option XInputStream.

(** What a reference with a relationship transform adds to the
    manifest. *)
Lemma exportManifestReference_relationship (r : SignatureReferenceInformation) :
  hasRelationshipTransform r = true ->
  snd (exportManifestReference XInputStream ReadRelationsInfoSequence xRootStorage r) = Some tt ->
  fst (exportManifestReference XInputStream ReadRelationsInfoSequence xRootStorage r)
  = [startElement "Reference" [("URI", ouURI r)];
     startElement "Transforms" [];
     startElement "Transform" [("Algorithm", ALGO_RELATIONSHIP)]]%string ++
    flat_map RelationshipReference (signedRelationIds (relationsOf XInputStream ReadRelationsInfoSequence xRootStorage r)) ++
    [endElement "Transform";
     startElement "Transform" [("Algorithm", ALGO_C14N)];
     endElement "Transform";
     endElement "Transforms";
     startElement "DigestMethod" [("Algorithm", ALGO_XMLDSIGSHA256)];
     endElement "DigestMethod";
     startElement "DigestValue" [];
     characters (ouDigestValue r);
     endElement "DigestValue";
     endElement "Reference"]%string.
Proof.
  unfold hasRelationshipTransform, exportManifestReference, relationsOf.
  intros H. apply andb_true_iff in H. destruct H as (H & H3).
  apply andb_true_iff in H. destruct H as (H1 & H2).
  rewrite H1, H3. apply negb_true_iff in H2. rewrite H2.
  destruct (xRootStorage (relationsPartName (ouURI r))) as [s|];
    [|out_steps; discriminate].
  destruct (ReadRelationsInfoSequence s (relationsPartName (ouURI r))) as [infos|] eqn:E;
    out_steps; rewrite E; out_steps; [|discriminate].
  intros _. cbn [app]. rewrite exportRelations_spec, <- app_assoc. reflexivity.
Qed.

Lemma exportManifestReference_starts (r : SignatureReferenceInformation) :
  snd (exportManifestReference XInputStream ReadRelationsInfoSequence xRootStorage r) = Some tt ->
  filter (isStart "mdssi:RelationshipReference") (fst (exportManifestReference XInputStream ReadRelationsInfoSequence xRootStorage r))
  = if hasRelationshipTransform r
    then map RelationshipReference_start (signedRelationIds (relationsOf XInputStream ReadRelationsInfoSequence xRootStorage r))
    else [].
Proof.
  intros HS. destruct (hasRelationshipTransform r) eqn:H.
  - rewrite (exportManifestReference_relationship r H HS).
    rewrite !filter_app, filter_RelationshipReference.
    set (ids := map RelationshipReference_start _). cbn. apply app_nil_r.
  - clear HS. unfold hasRelationshipTransform in H. unfold exportManifestReference.
    destruct (negb (SignatureReferenceType_eqb (nType r) SAMEDOCUMENT)); [|reflexivity].
    destruct (lcl_isOOXMLBlacklist (ouURI r)); [reflexivity|].
    cbn [negb andb] in H. rewrite H. reflexivity.
Qed.

Lemma exportSignedInfoReference_starts (aName : string) (r : SignatureReferenceInformation) :
  existsb (String.eqb aName)
    ["Reference"; "Transforms"; "Transform"; "DigestMethod"; "DigestValue"]%string = false ->
  filter (isStart aName) (exportSignedInfoReference r) = [].
Proof.
  intros H. cbn [existsb] in H. rewrite !orb_false_iff in H.
  destruct H as (H1 & H2 & H3 & H4 & H5 & _).
  rewrite String.eqb_sym in H1, H2, H3, H4, H5.
  unfold exportSignedInfoReference.
  destruct (SignatureReferenceType_eqb (nType r) SAMEDOCUMENT); [|reflexivity].
  destruct (String.eqb (ouURI r) "idSignedProperties");
    cbn [app filter isStart];
    unfold TAG_REFERENCE, TAG_TRANSFORMS, TAG_TRANSFORM, TAG_DIGESTMETHOD, TAG_DIGESTVALUE;
    now rewrite ?H1, ?H2, ?H3, ?H4, ?H5.
Qed.

(** The output of a completed [exportOOXMLSignature], in its parts. *)
Lemma exportOOXMLSignature_output (bTest : bool) (rInformation : SignatureInformation) :
  snd (exportOOXMLSignature toISO8601 XInputStream ReadRelationsInfoSequence bTest
         xRootStorage rInformation) = Some tt ->
  Forall
    (fun r =>
       snd (exportManifestReference XInputStream ReadRelationsInfoSequence xRootStorage r)
       = Some tt)
    (vSignatureReferenceInfors rInformation) /\
  fst (exportOOXMLSignature toISO8601 XInputStream ReadRelationsInfoSequence bTest
         xRootStorage rInformation)
  = exportOOXML_beforeManifest rInformation ++
    flat_map
      (fun r =>
         fst (exportManifestReference XInputStream ReadRelationsInfoSequence
                xRootStorage r))
      (vSignatureReferenceInfors rInformation) ++
    exportOOXML_afterManifest toISO8601 rInformation ++
    fst (if negb bTest then exportSignedProperties toISO8601 rInformation else emit []) ++
    [endElement "xd:QualifyingProperties"; endElement "Object"; endElement "Signature"].
Proof.
  unfold exportOOXMLSignature. cbv zeta. rewrite bindOut_emit. cbn [fst snd].
  intros H. apply bindOut_fst_success in H. destruct H as ([] & H1 & H2 & H3).
  apply forEach_success in H1. destruct H1 as (F & E).
  split; [exact F|]. rewrite H3, E.
  rewrite bindOut_emit in H2 |- *. cbn [fst snd] in H2 |- *.
  apply bindOut_fst_success in H2. destruct H2 as ([] & _ & _ & H4).
  rewrite H4. reflexivity.
Qed.

(** [xd:SignedProperties] holds none of the elements the properties
    below look for. *)
Lemma exportSignedProperties_starts (bTest : bool) (rInformation : SignatureInformation)
    (aName : string) :
  existsb (String.eqb aName)
    ["mdssi:RelationshipReference"; "Reference"; "mdssi:Value"]%string = true ->
  filter (isStart aName)
    (fst (if negb bTest then exportSignedProperties toISO8601 rInformation else emit []))
  = [].
Proof.
  intros H. cbn [existsb] in H. rewrite !orb_true_iff in H.
  destruct bTest; [reflexivity|]. cbn [negb]. unfold exportSignedProperties, assert_.
  destruct H as [H|[H|[H|H]]]; try discriminate H;
    apply String.eqb_eq in H; subst aName;
    destruct (negb (isEmpty (ouCertDigest rInformation))); reflexivity.
Qed.

Lemma exportOOXML_beforeManifest_starts (rInformation : SignatureInformation) :
  filter (isStart "mdssi:RelationshipReference") (exportOOXML_beforeManifest rInformation)
  = [].
Proof.
  unfold exportOOXML_beforeManifest. cbv zeta.
  rewrite !filter_app, filter_flat_map.
  rewrite (flat_map_nil _ _
             (fun r => exportSignedInfoReference_starts
                         "mdssi:RelationshipReference" r eq_refl)).
  reflexivity.
Qed.

(** C6: in a completed [exportOOXMLSignature], a reference of the
    manifest with a relationship transform has, between the start and the
    end of that transform, exactly one [mdssi:RelationshipReference]
    element for each [<Id, Type>] pair of its relationships part whose
    type is none of the three blacklisted types, in order and with
    [SourceId] the id of the pair; and these are all the
    [mdssi:RelationshipReference] elements of the output. *)
Theorem C6_relationship_references (bTest : bool) (rInformation : SignatureInformation) :
  snd (exportOOXMLSignature toISO8601 XInputStream ReadRelationsInfoSequence bTest
         xRootStorage rInformation) = Some tt ->
  Forall
    (fun r =>
       hasRelationshipTransform r = true ->
       fst (exportManifestReference XInputStream ReadRelationsInfoSequence xRootStorage r)
       = [startElement "Reference" [("URI", ouURI r)];
          startElement "Transforms" [];
          startElement "Transform" [("Algorithm", ALGO_RELATIONSHIP)]]%string ++
         flat_map RelationshipReference
           (signedRelationIds
              (relationsOf XInputStream ReadRelationsInfoSequence xRootStorage r)) ++
         [endElement "Transform";
          startElement "Transform" [("Algorithm", ALGO_C14N)];
          endElement "Transform";
          endElement "Transforms";
          startElement "DigestMethod" [("Algorithm", ALGO_XMLDSIGSHA256)];
          endElement "DigestMethod";
          startElement "DigestValue" [];
          characters (ouDigestValue r);
          endElement "DigestValue";
          endElement "Reference"]%string)
    (vSignatureReferenceInfors rInformation) /\
  filter (isStart "mdssi:RelationshipReference")
    (fst (exportOOXMLSignature toISO8601 XInputStream ReadRelationsInfoSequence bTest
            xRootStorage rInformation))
  = flat_map
      (fun r =>
         if hasRelationshipTransform r
         then map RelationshipReference_start
                (signedRelationIds
                   (relationsOf XInputStream ReadRelationsInfoSequence xRootStorage r))
         else [])
      (vSignatureReferenceInfors rInformation).
Proof.
  intros H. destruct (exportOOXMLSignature_output bTest rInformation H) as (F & E).
  split.
  - eapply Forall_impl; [|exact F]. cbv beta. intros r Hr Ht.
    now apply exportManifestReference_relationship.
  - rewrite E, !filter_app, exportOOXML_beforeManifest_starts, filter_flat_map.
    replace (filter (isStart "mdssi:RelationshipReference")
               (exportOOXML_afterManifest toISO8601 rInformation)) with (@nil SaxEvent)
      by reflexivity.
    rewrite (exportSignedProperties_starts bTest rInformation
               "mdssi:RelationshipReference" eq_refl).
    cbn [app filter isStart]. rewrite app_nil_r.
    clear E H. induction F as [|r t Hr F IH]; [reflexivity|].
    cbn [flat_map]. now rewrite IH, exportManifestReference_starts.
Qed.

Lemma exportManifestReference_no_SignedProperties (r : SignatureReferenceInformation) :
  filter (isStart "xd:SignedProperties")
    (fst (exportManifestReference XInputStream ReadRelationsInfoSequence xRootStorage r))
  = [].
Proof.
  unfold exportManifestReference.
  destruct (negb (SignatureReferenceType_eqb (nType r) SAMEDOCUMENT)); [|reflexivity].
  destruct (lcl_isOOXMLBlacklist (ouURI r)); [reflexivity|].
  destruct (endsWith (ouURI r) _); [|reflexivity].
  destruct (xRootStorage (relationsPartName (ouURI r))) as [s|]; [|reflexivity].
  destruct (ReadRelationsInfoSequence s (relationsPartName (ouURI r))) as [infos|] eqn:E;
    out_steps; rewrite E; out_steps; [|reflexivity].
  rewrite exportRelations_spec, !filter_app.
  set (ids := signedRelationIds _). clearbody ids.
  replace (filter (isStart "xd:SignedProperties") (flat_map RelationshipReference ids))
    with (@nil SaxEvent); [reflexivity|].
  induction ids as [|i t IH]; [reflexivity|]. exact IH.
Qed.

(** In the test mode the [xd:QualifyingProperties] element is the last
    but two of the events before the end, with nothing inside. *)
Lemma exportOOXMLSignature_test_tail (rInformation : SignatureInformation) :
  snd (exportOOXMLSignature toISO8601 XInputStream ReadRelationsInfoSequence true
         xRootStorage rInformation) = Some tt ->
  exists pre,
    fst (exportOOXMLSignature toISO8601 XInputStream ReadRelationsInfoSequence true
           xRootStorage rInformation)
    = pre ++
      [startElement "Object" [];
       startElement "xd:QualifyingProperties"
         [("xmlns:xd", NS_XD); ("Target", "#idPackageSignature")];
       endElement "xd:QualifyingProperties";
       endElement "Object";
       endElement "Signature"]%string.
Proof.
  intros H. destruct (exportOOXMLSignature_output true rInformation H) as (_ & E).
  rewrite E. cbn [negb app fst emit].
  eexists (exportOOXML_beforeManifest rInformation ++
           flat_map _ (vSignatureReferenceInfors rInformation) ++
           firstn 63 (exportOOXML_afterManifest toISO8601 rInformation)).
  rewrite <- !app_assoc. do 2 f_equal.
Qed.

Lemma exportOOXMLSignature_test_no_SignedProperties (rInformation : SignatureInformation) :
  filter (isStart "xd:SignedProperties")
    (fst (exportOOXMLSignature toISO8601 XInputStream ReadRelationsInfoSequence true
            xRootStorage rInformation))
  = [].
Proof.
  unfold exportOOXMLSignature. cbv zeta. rewrite bindOut_emit. cbn [fst].
  rewrite filter_app.
  assert (B : filter (isStart "xd:SignedProperties")
                (exportOOXML_beforeManifest rInformation) = []).
  { unfold exportOOXML_beforeManifest. cbv zeta.
    rewrite !filter_app, filter_flat_map.
    rewrite (flat_map_nil _ _
               (fun r => exportSignedInfoReference_starts "xd:SignedProperties" r eq_refl)).
    reflexivity. }
  rewrite B. cbn [app].
  induction (vSignatureReferenceInfors rInformation) as [|r t IH].
  - cbn [forEach]. out_steps. reflexivity.
  - cbn [forEach].
    pose proof (exportManifestReference_no_SignedProperties r) as Hr.
    destruct (exportManifestReference XInputStream ReadRelationsInfoSequence
                xRootStorage r) as [l [[]|]]; cbn [fst] in Hr.
    + rewrite bindOut_assoc, bindOut_Some. cbn [fst].
      rewrite filter_app, Hr. exact IH.
    + rewrite !bindOut_None. exact Hr.
Qed.

End ExportTheorems.

(** *** A package with four relations *)

Lemma C6_relationship_references_witness :
  filter (isStart "mdssi:RelationshipReference")
    (fst (exportOOXMLSignature toISO8601_example _ read_example false storage_example
            signature_example))
  = [RelationshipReference_start "rId4"].
Proof.
  exact (proj2 (C6_relationship_references toISO8601_example _ read_example
                  storage_example false signature_example eq_refl)).
Defined.

(** C7 as stated does not hold: with [LO_TESTNAME] set, a completed
    [exportOOXMLSignature] still writes an [xd:QualifyingProperties]
    element. *)
Lemma C7_QualifyingProperties_is_written :
  snd (exportOOXMLSignature toISO8601_example _ read_example true storage_example
         signature_example) = Some tt /\
  existsb (isStart "xd:QualifyingProperties")
    (fst (exportOOXMLSignature toISO8601_example _ read_example true storage_example
            signature_example)) = true.
Proof. split; reflexivity. Qed.

(** C7, amended: with [LO_TESTNAME] set, a completed
    [exportOOXMLSignature] ends with the third [Object] and, in it, an
    [xd:QualifyingProperties] element with its two attributes and nothing
    inside; no [xd:SignedProperties] element is written; and [isXML]
    returns true for every URI. *)
Theorem C7_test_mode (toISO8601 : DateTime -> string) (XInputStream : Type)
    (ReadRelationsInfoSequence : XInputStream -> string -> option (list (list StringPair)))
    (xRootStorage : string -> option XInputStream) (rInformation : SignatureInformation) :
  snd (exportOOXMLSignature toISO8601 XInputStream ReadRelationsInfoSequence true
         xRootStorage rInformation) = Some tt ->
  (exists pre,
     fst (exportOOXMLSignature toISO8601 XInputStream ReadRelationsInfoSequence true
            xRootStorage rInformation)
     = pre ++
       [startElement "Object" [];
        startElement "xd:QualifyingProperties"
          [("xmlns:xd", NS_XD); ("Target", "#idPackageSignature")];
        endElement "xd:QualifyingProperties";
        endElement "Object";
        endElement "Signature"]%string) /\
  filter (isStart "xd:SignedProperties")
    (fst (exportOOXMLSignature toISO8601 XInputStream ReadRelationsInfoSequence true
            xRootStorage rInformation)) = [] /\
  (forall (XMLSignatureHelper : Type)
          (equalsReferenceUriManifestPath : string -> string -> bool)
          (this : DocumentSignatureManager XMLSignatureHelper) (rURI : string),
     isXML XMLSignatureHelper equalsReferenceUriManifestPath true this rURI = true).
Proof.
  intros H. split; [|split].
  - now apply exportOOXMLSignature_test_tail.
  - apply exportOOXMLSignature_test_no_SignedProperties.
  - reflexivity.
Qed.

Lemma C7_test_mode_witness :
  filter (isStart "xd:SignedProperties")
    (fst (exportOOXMLSignature toISO8601_example _ read_example true storage_example
            signature_example)) = [].
Proof.
  exact (proj1 (proj2 (C7_test_mode toISO8601_example _ read_example storage_example
                         signature_example eq_refl))).
Defined.

(** * Properties: the SAX chain *)

(** C8 as stated does not hold in a state without an
    [ElementStackKeeper]: there [blockingStatusChanged] connects the
    [SAXEventKeeper], a transition from disengaged to engaged, and no
    [stop] is called ([chainOn] calls it only through a reference that
    is not null). *)
Lemma C8_no_stack_keeper_no_stop :
  Ready (set_m_xElementStackKeeper None controller_example) /\
  m_bIsSAXEventKeeperConnected (set_m_xElementStackKeeper None controller_example)
  = false /\
  exists this' log,
    blockingStatusChanged true (set_m_xElementStackKeeper None controller_example)
    = Some (tt, this', log) /\
    m_bIsSAXEventKeeperConnected this' = true /\
    stops log = 0.
Proof.
  split; [repeat split|]. split; [reflexivity|].
  eexists _, _. split; [reflexivity|]. split; reflexivity.
Qed.

(** C8 (amended): in a state of the controller with the security
    components initialized (and so with a [SAXEventKeeper]) and the sticky
    flag clear, each of [blockingStatusChanged] and
    [collectionStatusChanged] returns; it sets its flag and then the
    connected flag, to whether collecting or blocking holds, and changes
    nothing else.  When the keeper gets connected the calls are those of
    [chainOn], when it gets disconnected those of [chainOff], in their
    order, and otherwise there is no call.  So the stack keeper's [stop]
    is called once when the keeper goes from disconnected to connected
    and there is a stack keeper, and never otherwise; its [start] once
    when the keeper goes from connected to disconnected and there is a
    stack keeper, and never otherwise.  The state after the call is again
    such a state. *)
Theorem C8_chain_follows_status (this : XSecController) (b : bool) :
  Ready this ->
  FollowsStatus (set_m_bIsBlocking b this) (blockingStatusChanged b this) /\
  FollowsStatus (set_m_bIsCollectingElement b this) (collectionStatusChanged b this).
Proof.
  unfold Ready, FollowsStatus. intros (H1 & H2 & H3).
  destruct this as [ctx wrapper sek sig secctx uri nextid infos prev initializable next esk
                      connected collecting blocking status sticky err reserved verify].
  cbn in H1, H2, H3. subst status sticky.
  destruct sek as [sek|]; [clear H3|discriminate H3].
  split.
  - destruct b, connected, collecting, prev as [prev|], initializable, esk as [esk|];
      (do 2 eexists; split; [reflexivity|]; cbn; repeat split; reflexivity).
  - destruct b, connected, blocking, prev as [prev|], initializable, esk as [esk|];
      (do 2 eexists; split; [reflexivity|]; cbn; repeat split; reflexivity).
Qed.

(** C8 (amended) on a chain with a stack keeper and on one without. *)
Lemma C8_chain_follows_status_witness :
  FollowsStatus (set_m_bIsBlocking true controller_example)
    (blockingStatusChanged true controller_example) /\
  FollowsStatus
    (set_m_bIsCollectingElement true (set_m_xElementStackKeeper None controller_example))
    (collectionStatusChanged true (set_m_xElementStackKeeper None controller_example)).
Proof.
  split.
  - apply (C8_chain_follows_status controller_example true). repeat split.
  - apply (C8_chain_follows_status (set_m_xElementStackKeeper None controller_example)
             true).
    repeat split.
Defined.

(** * Properties: [DocumentSignatureManager] *)

Section ManagerProperties.

Variable XMLSignatureHelper : Type.
Variable equalsReferenceUriManifestPath : string -> string -> bool.
Variable World : Type.
Variable helperCall :
  forall A : Type, HelperCall A -> XMLSignatureHelper -> World ->
                   option A * XMLSignatureHelper * World.
Variable extCall : forall A : Type, ExtCall A -> World -> option A * World.

Lemma KeepsList_retD {A : Type} (a : A) : KeepsList (retD XMLSignatureHelper World a).
Proof. intros this w. reflexivity. Qed.

Lemma KeepsList_bindD {A B : Type} (c : DM XMLSignatureHelper World A)
    (k : A -> DM XMLSignatureHelper World B) :
  KeepsList c -> (forall a, KeepsList (k a)) -> KeepsList (bindD XMLSignatureHelper World c k).
Proof.
  intros Hc Hk this w. unfold bindD. specialize (Hc this w).
  destruct (c this w) as [[[[a|] this1] w1] l1]; cbn in Hc; [|exact Hc].
  specialize (Hk a this1 w1). destruct (k a this1 w1) as [[[r this2] w2] l2].
  cbn in *. congruence.
Qed.

Lemma KeepsList_getD : KeepsList (getD XMLSignatureHelper World).
Proof. intros this w. reflexivity. Qed.

Lemma KeepsList_helper {A : Type} (c : HelperCall A) :
  KeepsList (helper XMLSignatureHelper World helperCall c).
Proof.
  intros this w. unfold helper.
  now destruct (helperCall A c (maSignatureHelper _ this) w) as [[r h] w'].
Qed.

Lemma KeepsList_ext {A : Type} (c : ExtCall A) : KeepsList (ext XMLSignatureHelper World extCall c).
Proof. intros this w. unfold ext. now destruct (extCall A c w). Qed.

Lemma KeepsList_nonNull (r : option XInterface) : KeepsList (nonNull XMLSignatureHelper World r).
Proof. intros this w. reflexivity. Qed.

Lemma KeepsList_index {A : Type} (v : list A) (n : nat) : KeepsList (index XMLSignatureHelper World v n).
Proof. intros this w. reflexivity. Qed.

Lemma KeepsList_whenD (b : bool) (c : DM XMLSignatureHelper World unit) :
  KeepsList c -> KeepsList (whenD XMLSignatureHelper World b c).
Proof. intros H. destruct b; [exact H|apply KeepsList_retD]. Qed.

Lemma KeepsList_forD {A : Type} (l : list A)
    (body : A -> DM XMLSignatureHelper World unit) :
  (forall a, KeepsList (body a)) -> KeepsList (forD XMLSignatureHelper World l body).
Proof.
  intros H. induction l as [|a t IH]; cbn [forD].
  - apply KeepsList_retD.
  - apply KeepsList_bindD; [apply H|intros _; exact IH].
Qed.

Lemma KeepsList_modifyD
    (f : DocumentSignatureManager XMLSignatureHelper ->
         DocumentSignatureManager XMLSignatureHelper) :
  (forall this, maCurrentSignatureInformations _ (f this)
                = maCurrentSignatureInformations _ this) ->
  KeepsList (modifyD XMLSignatureHelper World f).
Proof. intros H this w. apply H. Qed.

(** The rules above, applied as far as they go. *)
Ltac keeps :=
  repeat first
    [ apply KeepsList_retD | apply KeepsList_getD | apply KeepsList_helper
    | apply KeepsList_ext | apply KeepsList_nonNull | apply KeepsList_index
    | apply KeepsList_modifyD; intros; reflexivity
    | apply KeepsList_whenD
    | apply KeepsList_forD; intros
    | apply KeepsList_bindD; [|intros]
    | match goal with
      | |- KeepsList (if ?b then _ else _) => destruct b
      | |- KeepsList (match ?x with _ => _ end) => destruct x
      end ].

Lemma KeepsList_ImplOpenSignatureStream (nStreamOpenMode : Z) (bTempStream : bool) :
  KeepsList (ImplOpenSignatureStream XMLSignatureHelper World extCall nStreamOpenMode bTempStream).
Proof. unfold ImplOpenSignatureStream. keeps. Qed.

Lemma KeepsList_exportOld (xDocumentHandler : XInterface) :
  KeepsList (exportOld XMLSignatureHelper World extCall xDocumentHandler).
Proof. unfold exportOld. keeps. Qed.

Lemma KeepsList_exportOldOOXML (xSignatureStorage : option XInterface) :
  KeepsList (exportOldOOXML XMLSignatureHelper World helperCall xSignatureStorage).
Proof. unfold exportOldOOXML. keeps. Qed.



End ManagerProperties.

(** ** The security components and the chain *)

(** X1: [createXSecComponent] always returns; it leaves the status
    [INITIALIZED] if all three services can be created and
    [FAILTOINITIALIZED] otherwise; with [INITIALIZED] the three references
    are set and the only calls are the initialisation of the
    [SAXEventKeeper] with the document wrapper and the registration as
    status listener; otherwise nothing is called and the [SAXEventKeeper]
    reference is null. *)
Theorem X1_createXSecComponent_status (this : XSecController) :
  exists this' log,
    createXSecComponent this = Some (tt, this', log) /\
    m_nStatusOfSecurityComponents this'
    = (if servicesAvailable this then INITIALIZED else FAILTOINITIALIZED) /\
    (if servicesAvailable this then
       m_xXMLSignature this' = mxCtx this XMLSIGNATURE_COMPONENT /\
       m_xXMLDocumentWrapper this' = mxCtx this XMLDOCUMENTWRAPPER_COMPONENT /\
       m_xSAXEventKeeper this' = mxCtx this SAXEVENTKEEPER_COMPONENT /\
       is_ (m_xSAXEventKeeper this') = true /\
       log = [SAXEventKeeper_initialize (m_xXMLDocumentWrapper this');
              addSAXEventKeeperStatusChangeListener true]
     else
       m_xSAXEventKeeper this' = None /\ log = []).
Proof.
  unfold servicesAvailable, createXSecComponent.
  destruct this as [ctx wrapper sek sig secctx uri nextid infos prev initializable next esk
                      connected collecting blocking status sticky err reserved verify].
  cbn [mxCtx]. unfold bind, modify, get, when, through, ret. cbn.
  destruct (ctx XMLSIGNATURE_COMPONENT) as [x|]; cbn;
    [|do 2 eexists; repeat split; reflexivity].
  destruct (ctx XMLDOCUMENTWRAPPER_COMPONENT) as [d|]; cbn;
    [|do 2 eexists; repeat split; reflexivity].
  destruct (ctx SAXEVENTKEEPER_COMPONENT) as [k|]; cbn;
    do 2 eexists; repeat split; reflexivity.
Qed.

(** X2: with the sticky flag set, or with the [SAXEventKeeper] already
    connected, [chainOn] returns false, calls nothing and leaves the
    controller as it is; the security components are not created either. *)
Theorem X2_chainOn_does_nothing (this : XSecController) (bRetrievingLastEvent : bool) :
  m_bIsSAXEventKeeperSticky this = true \/ m_bIsSAXEventKeeperConnected this = true ->
  chainOn bRetrievingLastEvent this = Some (false, this, []).
Proof.
  intros H. unfold chainOn, bind, get, ret.
  destruct H as [H|H]; rewrite H; cbn; [reflexivity|].
  now rewrite andb_false_r.
Qed.

Lemma X2_chainOn_does_nothing_witness :
  chainOn true (set_m_bIsSAXEventKeeperConnected true controller_example)
  = Some (false, set_m_bIsSAXEventKeeperConnected true controller_example, []).
Proof.
  apply (X2_chainOn_does_nothing
           (set_m_bIsSAXEventKeeperConnected true controller_example) true).
  right. reflexivity.
Defined.

(** X3: in a ready state with the [SAXEventKeeper] disconnected,
    [chainOn] returns true and only sets the connected flag; it first
    cuts the keeper's output, then connects the previous node to the
    keeper, lets the stack keeper hand over and stop, and last connects the
    keeper to the next node.  [chainOff] on the result undoes it: the
    controller is as before, the previous node is connected to the next
    node and the stack keeper is started. *)
Theorem X3_chainOn_chainOff_round_trip (this : XSecController) (bRetrievingLastEvent : bool) :
  Ready this ->
  m_bIsSAXEventKeeperConnected this = false ->
  chainOn bRetrievingLastEvent this
  = Some (true, set_m_bIsSAXEventKeeperConnected true this,
          chainOnCalls this bRetrievingLastEvent) /\
  chainOff (set_m_bIsSAXEventKeeperConnected true this)
  = Some (tt, this, chainOffCalls this).
Proof.
  unfold Ready. intros (H1 & H2 & H3) H4.
  destruct this as [ctx wrapper sek sig secctx uri nextid infos prev initializable next esk
                      connected collecting blocking status sticky err reserved verify].
  cbn in H1, H2, H3, H4. subst status sticky connected.
  destruct sek as [sek|]; [clear H3|discriminate H3].
  split; destruct prev as [prev|], initializable, esk as [esk|]; reflexivity.
Qed.

Lemma X3_chainOn_chainOff_round_trip_witness :
  chainOn true controller_example
  = Some (true, set_m_bIsSAXEventKeeperConnected true controller_example,
          chainOnCalls controller_example true) /\
  chainOff (set_m_bIsSAXEventKeeperConnected true controller_example)
  = Some (tt, controller_example, chainOffCalls controller_example).
Proof.
  apply (X3_chainOn_chainOff_round_trip controller_example true).
  - repeat split.
  - reflexivity.
Defined.

(** X4: with the sticky flag clear and the keeper disconnected, a first
    [chainOn] (status [UNINITIALIZED]) creates the security components and
    returns whether all three services could be created, which is also
    the connected flag afterwards; after a failed creation (status
    [FAILTOINITIALIZED]) [chainOn] returns false without a call and
    without a new attempt. *)
Theorem X4_chainOn_creates_components (this : XSecController) (bRetrievingLastEvent : bool) :
  m_bIsSAXEventKeeperSticky this = false ->
  m_bIsSAXEventKeeperConnected this = false ->
  (m_nStatusOfSecurityComponents this = UNINITIALIZED ->
   exists this' log,
     chainOn bRetrievingLastEvent this = Some (servicesAvailable this, this', log) /\
     m_bIsSAXEventKeeperConnected this' = servicesAvailable this /\
     m_nStatusOfSecurityComponents this'
     = (if servicesAvailable this then INITIALIZED else FAILTOINITIALIZED) /\
     (servicesAvailable this = false -> log = [])) /\
  (m_nStatusOfSecurityComponents this = FAILTOINITIALIZED ->
   chainOn bRetrievingLastEvent this = Some (false, this, [])).
Proof.
  intros H1 H2.
  destruct this as [ctx wrapper sek sig secctx uri nextid infos prev initializable next esk
                      connected collecting blocking status sticky err reserved verify].
  cbn in H1, H2. subst sticky connected. split; cbn; intros ->; [|reflexivity].
  vm_compute.
  repeat match goal with
         | |- context [ctx ?s] => destruct (ctx s); vm_compute
         end;
    try (do 2 eexists; repeat split; first [reflexivity | discriminate]; fail).
  destruct prev as [prev|], initializable, esk as [esk|]; vm_compute;
    do 2 eexists; repeat split; first [reflexivity | discriminate].
Qed.

Lemma X4_chainOn_creates_components_witness :
  chainOn true (set_m_nStatusOfSecurityComponents FAILTOINITIALIZED controller_example)
  = Some (false, set_m_nStatusOfSecurityComponents FAILTOINITIALIZED controller_example, []) /\
  exists this' log,
    chainOn true (set_m_nStatusOfSecurityComponents UNINITIALIZED controller_example)
    = Some (servicesAvailable
              (set_m_nStatusOfSecurityComponents UNINITIALIZED controller_example),
            this', log) /\
    m_bIsSAXEventKeeperConnected this'
    = servicesAvailable
        (set_m_nStatusOfSecurityComponents UNINITIALIZED controller_example) /\
    m_nStatusOfSecurityComponents this'
    = (if servicesAvailable
            (set_m_nStatusOfSecurityComponents UNINITIALIZED controller_example)
       then INITIALIZED else FAILTOINITIALIZED).
Proof.
  split.
  - apply (X4_chainOn_creates_components
             (set_m_nStatusOfSecurityComponents FAILTOINITIALIZED controller_example) true);
      reflexivity.
  - destruct (proj1 (X4_chainOn_creates_components
                       (set_m_nStatusOfSecurityComponents UNINITIALIZED controller_example)
                       true eq_refl eq_refl) eq_refl)
      as (this' & log & H1 & H2 & H3 & _).
    exists this', log. split; [exact H1|]. split; [exact H2|exact H3].
Defined.

(** X5: [setSAXChainConnector] always returns; it records the three
    references, marks the previous node as initializable and clears the
    connected, collecting and blocking flags; the only call is the start of
    the stack keeper, if one is given: as the connected flag is cleared
    before [chainOff] runs, nothing is called on the [SAXEventKeeper] or on
    the previous node, whatever the flag was. *)
Theorem X5_setSAXChainConnector_resets
    (xInitialization xDocumentHandler xElementStackKeeper : option XInterface)
    (this : XSecController) :
  exists this',
    setSAXChainConnector xInitialization xDocumentHandler xElementStackKeeper this
    = Some (tt, this',
            if is_ xElementStackKeeper then [ElementStackKeeper_start] else []) /\
    m_bIsSAXEventKeeperConnected this' = false /\
    m_bIsCollectingElement this' = false /\
    m_bIsBlocking this' = false /\
    m_bIsPreviousNodeInitializable this' = true /\
    m_xPreviousNodeOnSAXChain this' = xInitialization /\
    m_xNextNodeOnSAXChain this' = xDocumentHandler /\
    m_xElementStackKeeper this' = xElementStackKeeper /\
    m_nStatusOfSecurityComponents this' = m_nStatusOfSecurityComponents this /\
    m_xSAXEventKeeper this' = m_xSAXEventKeeper this.
Proof.
  destruct this as [ctx wrapper sek sig secctx uri nextid infos prev initializable next esk
                      connected collecting blocking status sticky err reserved verify].
  destruct xElementStackKeeper as [k|], sticky; vm_compute;
    (eexists; repeat split; reflexivity).
Qed.

(** ** Security ids and the list of signatures *)

Lemma getNewSecurityId_run (this : XSecController) :
  (m_nNextSecurityId this < SAL_MAX_INT32)%Z ->
  getNewSecurityId this
  = Some (m_nNextSecurityId this,
          set_m_nNextSecurityId (m_nNextSecurityId this + 1) this, []).
Proof.
  intros H. unfold getNewSecurityId, bind, get.
  destruct (Z.eqb_spec (m_nNextSecurityId this) SAL_MAX_INT32) as [E|_]; [lia|].
  reflexivity.
Qed.

Lemma set_m_nNextSecurityId_twice (a b : Z) (this : XSecController) :
  set_m_nNextSecurityId a (set_m_nNextSecurityId b this) = set_m_nNextSecurityId a this.
Proof. reflexivity. Qed.

Lemma newSecurityIds_run (k : nat) :
  forall this : XSecController,
    (m_nNextSecurityId this + Z.of_nat k <= SAL_MAX_INT32)%Z ->
    newSecurityIds k this
    = Some (map (fun i => (m_nNextSecurityId this + Z.of_nat i)%Z) (seq 0 k),
            set_m_nNextSecurityId (m_nNextSecurityId this + Z.of_nat k)%Z this, []).
Proof.
  induction k as [|k IH]; intros this Hhi.
  - cbn [newSecurityIds seq map Z.of_nat]. rewrite Z.add_0_r. now destruct this.
  - cbn [newSecurityIds]. unfold bind at 1. rewrite getNewSecurityId_run by lia.
    set (this1 := set_m_nNextSecurityId (m_nNextSecurityId this + 1)%Z this).
    assert (N1 : m_nNextSecurityId this1 = (m_nNextSecurityId this + 1)%Z)
      by reflexivity.
    unfold bind at 1. rewrite (IH this1) by (rewrite N1; lia). rewrite N1.
    unfold ret. cbn [app].
    assert (L : map (fun i => (m_nNextSecurityId this + Z.of_nat i)%Z) (seq 0 (S k))
                = m_nNextSecurityId this
                  :: map (fun i => (m_nNextSecurityId this + 1 + Z.of_nat i)%Z) (seq 0 k)).
    { cbn [seq map Z.of_nat]. rewrite Z.add_0_r. f_equal.
      rewrite <- seq_shift, map_map. apply map_ext. intros i. lia. }
    rewrite L.
    assert (S1 : set_m_nNextSecurityId (m_nNextSecurityId this + 1 + Z.of_nat k)%Z this1
                 = set_m_nNextSecurityId (m_nNextSecurityId this + Z.of_nat (S k))%Z this).
    { unfold this1. rewrite set_m_nNextSecurityId_twice. f_equal. lia. }
    now rewrite S1.
Qed.

(** X6: as long as no increment starts from the largest [sal_Int32], [k]
    calls of [getNewSecurityId] return the [k] numbers from the counter
    on, one after the other, so no two of them are equal, and advance the
    counter by [k]; nothing else changes and nothing is called.  A call
    with the counter at the largest [sal_Int32] has no result: its
    increment overflows, which is undefined in the source. *)
Theorem X6_getNewSecurityId_consecutive (k : nat) (this : XSecController) :
  (m_nNextSecurityId this + Z.of_nat k <= SAL_MAX_INT32)%Z ->
  newSecurityIds k this
  = Some (map (fun i => (m_nNextSecurityId this + Z.of_nat i)%Z) (seq 0 k),
          set_m_nNextSecurityId (m_nNextSecurityId this + Z.of_nat k)%Z this, []) /\
  NoDup (map (fun i => (m_nNextSecurityId this + Z.of_nat i)%Z) (seq 0 k)) /\
  getNewSecurityId (set_m_nNextSecurityId SAL_MAX_INT32 this) = None.
Proof.
  intros Hhi. split; [|split; [|reflexivity]].
  - now apply newSecurityIds_run.
  - clear Hhi. generalize 0%nat as a.
    induction k as [|k IH]; intros a; cbn [seq map].
    + constructor.
    + constructor; [|apply IH].
      intros H. apply in_map_iff in H. destruct H as (i & E & Hi).
      apply in_seq in Hi. lia.
Qed.

Lemma X6_getNewSecurityId_consecutive_witness :
  newSecurityIds 3 controller_example
  = Some ([1; 2; 3]%Z, set_m_nNextSecurityId 4 controller_example, []).
Proof.
  apply (proj1 (X6_getNewSecurityId_consecutive 3 controller_example
                  ltac:(vm_compute; discriminate))).
Defined.

Lemma findSignatureInfor_from_spec (v : list InternalSignatureInformation) (nId : Z) :
  forall i : Z,
    findSignatureInfor_from v i nId
    = match firstWithId v nId with
      | Some n => (i + Z.of_nat n)%Z
      | None => (-1)%Z
      end.
Proof.
  induction v as [|isi t IH]; intros i; cbn [findSignatureInfor_from firstWithId].
  - reflexivity.
  - destruct (nSecurityId (signatureInfor isi) =? nId)%Z; [lia|].
    rewrite IH. destruct (firstWithId t nId); cbn [option_map]; lia.
Qed.

Lemma firstWithId_Some (v : list InternalSignatureInformation) (nId : Z) (n : nat) :
  firstWithId v nId = Some n ->
  exists isi,
    nth_error v n = Some isi /\ nSecurityId (signatureInfor isi) = nId /\
    forall m isi', (m < n)%nat -> nth_error v m = Some isi' ->
                   nSecurityId (signatureInfor isi') <> nId.
Proof.
  revert n. induction v as [|a t IH]; intros n; cbn [firstWithId]; [discriminate|].
  destruct (Z.eqb_spec (nSecurityId (signatureInfor a)) nId) as [E|E].
  - intros [= <-]. exists a. repeat split; auto. intros m isi' Hm. lia.
  - destruct (firstWithId t nId) as [k|]; [|discriminate].
    intros [= <-]. destruct (IH k eq_refl) as (isi & H1 & H2 & H3).
    exists isi. repeat split; auto.
    intros [|m] isi' Hm; cbn; [now intros [= <-]|]. apply H3. lia.
Qed.

Lemma firstWithId_None (v : list InternalSignatureInformation) (nId : Z) :
  firstWithId v nId = None ->
  Forall (fun isi => nSecurityId (signatureInfor isi) <> nId) v.
Proof.
  induction v as [|a t IH]; cbn [firstWithId]; [constructor|].
  destruct (Z.eqb_spec (nSecurityId (signatureInfor a)) nId) as [E|E]; [discriminate|].
  destruct (firstWithId t nId); [discriminate|]. intros _. constructor; auto.
Qed.

(** X7: [findSignatureInfor] returns -1 exactly when no signature of the
    list has the id, and otherwise the index of the first one that has
    it; [getSignatureInformation] then returns that signature's record,
    and for an id that is not in the list the record of a new signature
    of the id 0. *)
Theorem X7_findSignatureInfor_first (this : XSecController) (nId : Z) :
  (findSignatureInfor this nId = (-1)%Z /\
   Forall (fun isi => nSecurityId (signatureInfor isi) <> nId)
     (m_vInternalSignatureInformations this) /\
   getSignatureInformation this nId = SignatureInformation_ctor 0) \/
  (exists n isi,
     findSignatureInfor this nId = Z.of_nat n /\
     nth_error (m_vInternalSignatureInformations this) n = Some isi /\
     nSecurityId (signatureInfor isi) = nId /\
     (forall m isi', (m < n)%nat ->
        nth_error (m_vInternalSignatureInformations this) m = Some isi' ->
        nSecurityId (signatureInfor isi') <> nId) /\
     getSignatureInformation this nId = signatureInfor isi).
Proof.
  unfold getSignatureInformation, findSignatureInfor.
  rewrite findSignatureInfor_from_spec.
  destruct (firstWithId (m_vInternalSignatureInformations this) nId) as [n|] eqn:E.
  - right. destruct (firstWithId_Some _ _ _ E) as (isi & H1 & H2 & H3).
    exists n, isi. cbn [Z.add]. repeat split; auto.
    destruct (Z.eqb_spec (Z.of_nat n) (-1)); [lia|]. cbn [negb].
    now rewrite Nat2Z.id, H1.
  - left. repeat split; auto. now apply firstWithId_None.
Qed.

Lemma setStatusAt_spec (v : list InternalSignatureInformation) (nResult : Z) :
  forall n,
    setStatusAt v n nResult
    = if (n <? length v)%nat then Some (replaceAt (withStatus nResult) v n) else None.
Proof.
  induction v as [|a t IH]; intros [|n]; cbn [setStatusAt replaceAt length]; auto.
  rewrite IH. change (S n <? S (length t))%nat with (n <? length t)%nat.
  now destruct (n <? length t)%nat.
Qed.

Lemma firstWithId_lt (v : list InternalSignatureInformation) (nId : Z) (n : nat) :
  firstWithId v nId = Some n -> (n < length v)%nat.
Proof.
  intros H. destruct (firstWithId_Some _ _ _ H) as (isi & H1 & _).
  apply nth_error_Some. congruence.
Qed.

(** X8: [signatureCreated] and [signatureVerified] set the status of the
    first signature of the list that has the id, and of no other, and
    change nothing else; for an id that no signature has they do not
    return (the checked access [at] throws). *)
Theorem X8_signature_status_set (this : XSecController) (securityId nResult : Z) :
  signatureVerified securityId nResult this = signatureCreated securityId nResult this /\
  signatureCreated securityId nResult this
  = match firstWithId (m_vInternalSignatureInformations this) securityId with
    | Some n =>
        Some (tt,
              set_m_vInternalSignatureInformations
                (replaceAt (withStatus nResult) (m_vInternalSignatureInformations this) n)
                this,
              [])
    | None => None
    end.
Proof.
  split; [reflexivity|]. unfold signatureCreated, findSignatureInfor.
  rewrite findSignatureInfor_from_spec.
  destruct (firstWithId _ securityId) as [n|] eqn:E; [|reflexivity].
  cbn [Z.add]. destruct (Z.ltb_spec (Z.of_nat n) 0); [lia|].
  rewrite Nat2Z.id, setStatusAt_spec.
  apply firstWithId_lt in E. apply Nat.ltb_lt in E. now rewrite E.
Qed.

Lemma endMission_loop_spec (v : list InternalSignatureInformation) (this : XSecController) :
  endMission_loop v this
  = if ComponentStatus_eqb (m_nStatusOfSecurityComponents this) INITIALIZED then
      if forallb (fun isi => is_ (xReferenceResolvedListener isi)) v
      then Some (tt, this,
                 map (fun isi => MissionTaker_endMission (xReferenceResolvedListener isi)) v)
      else None
    else Some (tt, this, []).
Proof.
  induction v as [|isi t IH]; cbn [endMission_loop forallb map].
  - now destruct (ComponentStatus_eqb _ _).
  - unfold bind at 1 2. unfold get at 1. unfold when, through, ret.
    destruct (ComponentStatus_eqb (m_nStatusOfSecurityComponents this) INITIALIZED) eqn:E.
    + destruct (xReferenceResolvedListener isi) as [l|]; cbn; [|reflexivity].
      rewrite IH. now destruct (forallb _ t).
    + cbn. now rewrite IH.
Qed.

(** X9: [startMission] calls nothing; it sets the status to
    [UNINITIALIZED] and empties the list of signatures, but it leaves the
    counter of the security ids and the [SAXEventKeeper] reference as they
    are.  [endMission] ends the mission of the listener of every
    signature, in the order of the list, only with the status
    [INITIALIZED] (it does not return if one of these listeners is null),
    and clears the two references of the mission; it keeps the list of
    signatures. *)
Theorem X9_mission_start_and_end (this : XSecController)
    (xUriBinding xSecurityContext : option XInterface) :
  (exists this',
     startMission xUriBinding xSecurityContext this = Some (tt, this', []) /\
     m_nStatusOfSecurityComponents this' = UNINITIALIZED /\
     m_vInternalSignatureInformations this' = [] /\
     m_nNextSecurityId this' = m_nNextSecurityId this /\
     m_xSAXEventKeeper this' = m_xSAXEventKeeper this) /\
  (m_nStatusOfSecurityComponents this = INITIALIZED ->
   forallb (fun isi => is_ (xReferenceResolvedListener isi))
     (m_vInternalSignatureInformations this) = true ->
   exists this',
     endMission this
     = Some (tt, this',
             map (fun isi => MissionTaker_endMission (xReferenceResolvedListener isi))
               (m_vInternalSignatureInformations this) ++
             (if is_ (m_xSAXEventKeeper this)
              then [addSAXEventKeeperStatusChangeListener false] else [])) /\
     m_xUriBinding this' = None /\ m_xSecurityContext this' = None /\
     m_vInternalSignatureInformations this' = m_vInternalSignatureInformations this) /\
  (m_nStatusOfSecurityComponents this = INITIALIZED ->
   forallb (fun isi => is_ (xReferenceResolvedListener isi))
     (m_vInternalSignatureInformations this) = false ->
   endMission this = None) /\
  (m_nStatusOfSecurityComponents this <> INITIALIZED ->
   exists this',
     endMission this
     = Some (tt, this',
             if is_ (m_xSAXEventKeeper this)
             then [addSAXEventKeeperStatusChangeListener false] else [])).
Proof.
  split; [|split; [|split]].
  - eexists. split; [reflexivity|]. destruct this; cbn. auto.
  - intros HS HL. unfold endMission. unfold bind at 1. unfold get at 1.
    unfold bind at 1. rewrite endMission_loop_spec, HS, HL. cbn [ComponentStatus_eqb].
    destruct this; cbn in *. destruct m_xSAXEventKeeper0;
      (eexists; split; [reflexivity|]; cbn; auto).
  - intros HS HL. unfold endMission. unfold bind at 1. unfold get at 1.
    unfold bind at 1. now rewrite endMission_loop_spec, HS, HL.
  - intros HS. unfold endMission. unfold bind at 1. unfold get at 1.
    unfold bind at 1. rewrite endMission_loop_spec.
    destruct (m_nStatusOfSecurityComponents this) eqn:E; [|congruence|];
      cbn [ComponentStatus_eqb]; destruct this; cbn in *;
      destruct m_xSAXEventKeeper0; (eexists; reflexivity).
Qed.

(** ** The events of the two exports *)

Lemma nest_app (l1 l2 : list SaxEvent) :
  forall opened,
    nest opened (l1 ++ l2)
    = match nest opened l1 with Some o => nest o l2 | None => None end.
Proof.
  induction l1 as [|e t IH]; intros opened; [reflexivity|].
  destruct e as [n a|n|c]; cbn [app nest]; auto.
  destruct opened as [|o rest]; [reflexivity|]. destruct (String.eqb o n); auto.
Qed.

Lemma nest_flat_map {A : Type} (f : A -> list SaxEvent) (l : list A) :
  (forall a opened, nest opened (f a) = Some opened) ->
  forall opened, nest opened (flat_map f l) = Some opened.
Proof.
  intros H. induction l as [|a t IH]; intros opened; cbn [flat_map]; [reflexivity|].
  now rewrite nest_app, H, IH.
Qed.

(** Rewriting with [nest_app] and evaluation, as far as they go. *)
Ltac nest_steps :=
  repeat first
    [ rewrite nest_app
    | progress cbn [nest String.eqb Ascii.eqb Bool.eqb app
                    TAG_SIGNATURE TAG_SIGNEDINFO TAG_CANONICALIZATIONMETHOD
                    TAG_SIGNATUREMETHOD TAG_REFERENCE TAG_TRANSFORMS TAG_TRANSFORM
                    TAG_DIGESTMETHOD TAG_DIGESTVALUE TAG_SIGNATUREVALUE TAG_KEYINFO
                    TAG_X509DATA TAG_X509ISSUERSERIAL TAG_X509ISSUERNAME
                    TAG_X509SERIALNUMBER TAG_X509CERTIFICATE TAG_OBJECT TAG_MANIFEST
                    TAG_RELATIONSHIPREFERENCE TAG_SIGNATUREPROPERTIES
                    TAG_SIGNATUREPROPERTY TAG_SIGNATURETIME TAG_FORMAT TAG_VALUE
                    TAG_QUALIFYINGPROPERTIES TAG_SIGNEDPROPERTIES TAG_DATE
                    TAG_DESCRIPTION NSTAG_DC NSTAG_XD NSTAG_MDSSI String.append] ].

(** X10: the events that [exportSignature] sends for a signature of an ODF
    document are balanced, whatever the signature holds: every element is
    ended after the elements inside it, and the [Signature] element
    encloses all of them. *)
Theorem X10_exportSignature_balanced (toISO8601 : DateTime -> string)
    (signatureInfo : SignatureInformation) :
  Balanced (exportSignature toISO8601 signatureInfo) /\
  hd_error (exportSignature toISO8601 signatureInfo)
  = Some (startElement "Signature"
            (("xmlns", NS_XMLDSIG) ::
             (if negb (isEmpty (ouSignatureId signatureInfo))
              then [("Id", ouSignatureId signatureInfo)] else []))) /\
  last (exportSignature toISO8601 signatureInfo) (characters EmptyString)
  = endElement "Signature".
Proof.
  split; [|split].
  - unfold Balanced, exportSignature. cbv zeta. nest_steps.
    rewrite nest_flat_map.
    + nest_steps.
      destruct (negb (isEmpty (ouX509Certificate signatureInfo))); nest_steps;
        destruct (negb (isEmpty (ouDescription signatureInfo))); nest_steps; reflexivity.
    + intros r opened.
      destruct (SignatureReferenceType_eqb (nType r) XMLSTREAM); nest_steps; reflexivity.
  - reflexivity.
  - unfold exportSignature. cbv zeta.
    change [endElement TAG_SIGNATUREPROPERTIES; endElement TAG_OBJECT;
            endElement TAG_SIGNATURE]
      with ([endElement TAG_SIGNATUREPROPERTIES; endElement TAG_OBJECT] ++
            [endElement TAG_SIGNATURE]).
    rewrite !app_assoc. apply last_last.
Qed.

Section ExportCompletion.

Variable toISO8601 : DateTime -> string.
Variable XInputStream : Type.
Variable ReadRelationsInfoSequence :
  XInputStream -> string -> option (list (list StringPair)).
Variable xRootStorage : string -> option XInputStream.

Lemma exportRelations_nest (aRelationsInfo : list (list StringPair)) (opened : list string) :
  nest opened (exportRelations aRelationsInfo) = Some opened.
Proof.
  unfold exportRelations. apply nest_flat_map. intros rPairs o.
  destruct (relationIdType rPairs) as [aId aType].
  destruct (lcl_isOOXMLRelationBlacklist aType); nest_steps; reflexivity.
Qed.

(** One reference of the manifest: it is written completely, or the
    export ends with the [Reference] element open. *)
Lemma exportManifestReference_nest (r : SignatureReferenceInformation)
    (opened : list string) :
  if readable XInputStream ReadRelationsInfoSequence xRootStorage r then
    snd (exportManifestReference XInputStream ReadRelationsInfoSequence xRootStorage r)
    = Some tt /\
    nest opened
      (fst (exportManifestReference XInputStream ReadRelationsInfoSequence xRootStorage r))
    = Some opened
  else
    snd (exportManifestReference XInputStream ReadRelationsInfoSequence xRootStorage r)
    = None /\
    exists inner,
      nest opened
        (fst (exportManifestReference XInputStream ReadRelationsInfoSequence
                xRootStorage r))
      = Some (inner ++ "Reference" :: opened).
Proof.
  unfold readable, hasRelationshipTransform, exportManifestReference.
  destruct (negb (SignatureReferenceType_eqb (nType r) SAMEDOCUMENT));
    cbn [andb]; [|split; reflexivity].
  destruct (lcl_isOOXMLBlacklist (ouURI r)); cbn [negb andb]; [split; reflexivity|].
  destruct (endsWith (ouURI r) _).
  - destruct (xRootStorage (relationsPartName (ouURI r))) as [s|].
    + destruct (ReadRelationsInfoSequence s (relationsPartName (ouURI r))) as [infos|] eqn:E;
        out_steps; rewrite E; out_steps.
      * split; [reflexivity|]. nest_steps. rewrite exportRelations_nest. nest_steps.
        reflexivity.
      * split; [reflexivity|]. exists ["Transform"; "Transforms"]. reflexivity.
    + out_steps. split; [reflexivity|]. exists []. reflexivity.
  - out_steps. split; reflexivity.
Qed.

Lemma forEach_manifest_nest (l : list SignatureReferenceInformation) :
  forall opened,
    if forallb (readable XInputStream ReadRelationsInfoSequence xRootStorage) l then
      snd (forEach l (exportManifestReference XInputStream ReadRelationsInfoSequence
                        xRootStorage)) = Some tt /\
      nest opened
        (fst (forEach l (exportManifestReference XInputStream ReadRelationsInfoSequence
                           xRootStorage))) = Some opened
    else
      snd (forEach l (exportManifestReference XInputStream ReadRelationsInfoSequence
                        xRootStorage)) = None /\
      exists inner,
        nest opened
          (fst (forEach l (exportManifestReference XInputStream ReadRelationsInfoSequence
                             xRootStorage)))
        = Some (inner ++ "Reference" :: opened).
Proof.
  induction l as [|r t IH]; intros opened; [split; reflexivity|].
  cbn [forallb forEach].
  pose proof (exportManifestReference_nest r opened) as Hr.
  destruct (readable XInputStream ReadRelationsInfoSequence xRootStorage r);
    cbn [andb].
  - destruct Hr as (H1 & H2). specialize (IH opened).
    destruct (exportManifestReference XInputStream ReadRelationsInfoSequence
                xRootStorage r) as [l1 [[]|]]; [|discriminate H1].
    cbn [fst] in H2. rewrite bindOut_Some. cbn [fst snd]. rewrite nest_app, H2.
    exact IH.
  - destruct Hr as (H1 & inner & H2).
    destruct (exportManifestReference XInputStream ReadRelationsInfoSequence
                xRootStorage r) as [l1 [[]|]]; [discriminate H1|].
    rewrite bindOut_None. split; [reflexivity|]. exists inner. exact H2.
Qed.

Lemma exportSignedInfoReference_nest (r : SignatureReferenceInformation)
    (opened : list string) :
  nest opened (exportSignedInfoReference r) = Some opened.
Proof.
  unfold exportSignedInfoReference.
  destruct (SignatureReferenceType_eqb (nType r) SAMEDOCUMENT); [|reflexivity].
  destruct (String.eqb (ouURI r) "idSignedProperties"); nest_steps; reflexivity.
Qed.

(** X11: [exportOOXMLSignature] returns if and only if the relationships
    part of every reference with a relationship transform can be opened
    and read and, outside the test mode, the digest of the certificate
    is not empty; the events of a completed export are balanced.  An
    export that is left by an exception has written events that leave
    open the [Signature], the first [Object], the [Manifest] and the
    [Reference] of the part that could not be read.  An export that
    fails the assertion on the digest has written events that leave open
    the [DigestValue] of the certificate and the eight elements around
    it. *)
Theorem X11_exportOOXMLSignature_completion (bTest : bool)
    (rInformation : SignatureInformation) :
  if forallb (readable XInputStream ReadRelationsInfoSequence xRootStorage)
       (vSignatureReferenceInfors rInformation)
  then
    if bTest || negb (isEmpty (ouCertDigest rInformation)) then
      snd (exportOOXMLSignature toISO8601 XInputStream ReadRelationsInfoSequence bTest
             xRootStorage rInformation) = Some tt /\
      Balanced (fst (exportOOXMLSignature toISO8601 XInputStream
                       ReadRelationsInfoSequence bTest xRootStorage rInformation))
    else
      snd (exportOOXMLSignature toISO8601 XInputStream ReadRelationsInfoSequence bTest
             xRootStorage rInformation) = None /\
      nest [] (fst (exportOOXMLSignature toISO8601 XInputStream ReadRelationsInfoSequence
                      bTest xRootStorage rInformation))
      = Some ["DigestValue"; "xd:CertDigest"; "xd:Cert"; "xd:SigningCertificate";
              "xd:SignedSignatureProperties"; "xd:SignedProperties";
              "xd:QualifyingProperties"; "Object"; "Signature"]
  else
    snd (exportOOXMLSignature toISO8601 XInputStream ReadRelationsInfoSequence bTest
           xRootStorage rInformation) = None /\
    exists inner,
      nest [] (fst (exportOOXMLSignature toISO8601 XInputStream ReadRelationsInfoSequence
                      bTest xRootStorage rInformation))
      = Some (inner ++ ["Reference"; "Manifest"; "Object"; "Signature"]).
Proof.
  unfold Balanced, exportOOXMLSignature. cbv zeta. rewrite bindOut_emit. cbn [fst snd].
  assert (B : nest [] (exportOOXML_beforeManifest rInformation)
              = Some ["Manifest"; "Object"; "Signature"]).
  { unfold exportOOXML_beforeManifest. cbv zeta. nest_steps.
    rewrite (nest_flat_map _ _ exportSignedInfoReference_nest). nest_steps. reflexivity. }
  pose proof (forEach_manifest_nest (vSignatureReferenceInfors rInformation)
                ["Manifest"; "Object"; "Signature"]) as F.
  destruct (forallb _ (vSignatureReferenceInfors rInformation)).
  - destruct F as (F1 & F2).
    destruct (forEach _ _) as [l [[]|]]; [|discriminate F1]. cbn [fst] in F2.
    unfold exportSignedProperties, assert_.
    destruct bTest; cbn [negb orb];
      [|destruct (negb (isEmpty (ouCertDigest rInformation)))];
      out_steps; (split; [reflexivity|]); rewrite nest_app, B; cbv beta iota;
      rewrite nest_app, F2; cbv beta iota; reflexivity.
  - destruct F as (F1 & inner & F2).
    destruct (forEach _ _) as [l [[]|]]; [discriminate F1|]. cbn [fst] in F2.
    out_steps. split; [reflexivity|]. exists inner. rewrite nest_app, B. exact F2.
Qed.

End ExportCompletion.

Section ExportReferences.

Variable toISO8601 : DateTime -> string.
Variable XInputStream : Type.
Variable ReadRelationsInfoSequence :
  XInputStream -> string -> option (list (list StringPair)).
Variable xRootStorage : string -> option XInputStream.

Lemma exportSignedInfoReference_Reference (r : SignatureReferenceInformation) :
  filter (isStart "Reference") (exportSignedInfoReference r)
  = if isSameDocument r then [signedInfoReference_start r] else [].
Proof.
  unfold exportSignedInfoReference, isSameDocument, signedInfoReference_start.
  destruct (SignatureReferenceType_eqb (nType r) SAMEDOCUMENT); [|reflexivity].
  destruct (String.eqb (ouURI r) "idSignedProperties"); reflexivity.
Qed.

Lemma exportManifestReference_Reference (r : SignatureReferenceInformation) :
  snd (exportManifestReference XInputStream ReadRelationsInfoSequence xRootStorage r)
  = Some tt ->
  filter (isStart "Reference")
    (fst (exportManifestReference XInputStream ReadRelationsInfoSequence xRootStorage r))
  = if isSignedStream r then [manifestReference_start r] else [].
Proof.
  unfold exportManifestReference, isSignedStream, isSameDocument, manifestReference_start.
  change (existsb (fun p => prefix p (ouURI r)) unsignedStreamPrefixes)
    with (lcl_isOOXMLBlacklist (ouURI r)).
  destruct (negb (SignatureReferenceType_eqb (nType r) SAMEDOCUMENT));
    cbn [andb]; [|reflexivity].
  destruct (lcl_isOOXMLBlacklist (ouURI r)); cbn [negb]; [reflexivity|].
  destruct (endsWith (ouURI r) _); [|reflexivity].
  destruct (xRootStorage (relationsPartName (ouURI r))) as [s|];
    [|out_steps; discriminate].
  destruct (ReadRelationsInfoSequence s (relationsPartName (ouURI r))) as [infos|] eqn:E;
    out_steps; rewrite E; out_steps; [|discriminate].
  intros _. rewrite exportRelations_spec.
  assert (N : forall ids,
             filter (isStart "Reference") (flat_map RelationshipReference ids) = []).
  { intros ids. induction ids as [|i t IH]; [reflexivity|]. exact IH. }
  rewrite !filter_app, N. reflexivity.
Qed.

(** X12: a completed [exportOOXMLSignature] writes a [Reference] element
    in [SignedInfo] for every same-document reference, with the type of
    the signed properties or of an object and the URI as a fragment, and
    then a [Reference] element in the [Manifest] for every other
    reference whose stream name starts with none of the four prefixes that
    are not signed, with its URI; it writes no other [Reference]
    element, and each in the order of the references. *)
Theorem X12_exportOOXMLSignature_references (bTest : bool)
    (rInformation : SignatureInformation) :
  snd (exportOOXMLSignature toISO8601 XInputStream ReadRelationsInfoSequence bTest
         xRootStorage rInformation) = Some tt ->
  filter (isStart "Reference")
    (fst (exportOOXMLSignature toISO8601 XInputStream ReadRelationsInfoSequence bTest
            xRootStorage rInformation))
  = map signedInfoReference_start
      (filter isSameDocument (vSignatureReferenceInfors rInformation)) ++
    map manifestReference_start
      (filter isSignedStream (vSignatureReferenceInfors rInformation)).
Proof.
  intros H.
  destruct (exportOOXMLSignature_output toISO8601 XInputStream ReadRelationsInfoSequence
              xRootStorage bTest rInformation H) as (F & E).
  rewrite E, !filter_app. clear E H.
  replace (filter (isStart "Reference")
             (exportOOXML_afterManifest toISO8601 rInformation))
    with (@nil SaxEvent) by reflexivity.
  rewrite (exportSignedProperties_starts toISO8601 bTest rInformation "Reference"
             eq_refl).
  cbn [app]. rewrite app_nil_r. f_equal.
  - unfold exportOOXML_beforeManifest. cbv zeta. rewrite !filter_app, filter_flat_map.
    match goal with
    | |- ?A ++ ?B ++ ?C = _ =>
        replace A with (@nil SaxEvent) by reflexivity;
        replace C with (@nil SaxEvent) by reflexivity
    end.
    cbn [app]. rewrite app_nil_r. clear F.
    induction (vSignatureReferenceInfors rInformation) as [|r t IH]; [reflexivity|].
    cbn [flat_map filter]. rewrite exportSignedInfoReference_Reference.
    destruct (isSameDocument r); cbn [app map]; now rewrite ?IH.
  - rewrite filter_flat_map.
    induction F as [|r t Hr F IH]; [reflexivity|].
    cbn [flat_map filter]. rewrite (exportManifestReference_Reference r Hr), IH.
    now destruct (isSignedStream r).
Qed.

End ExportReferences.

Lemma X12_exportOOXMLSignature_references_witness :
  filter (isStart "Reference")
    (fst (exportOOXMLSignature toISO8601_example _ read_example false storage_example
            signature_example))
  = [signedInfoReference_start (mkReference SAMEDOCUMENT "idPackageObject" "AAAA");
     signedInfoReference_start (mkReference SAMEDOCUMENT "idOfficeObject" "BBBB");
     signedInfoReference_start (mkReference SAMEDOCUMENT "idSignedProperties" "CCCC");
     manifestReference_start
       (mkReference XMLSTREAM
          "/_rels/.rels?ContentType=application/vnd.openxmlformats-package.relationships+xml"
          "DDDD");
     manifestReference_start
       (mkReference XMLSTREAM
          "/word/document.xml?ContentType=application/vnd.openxmlformats-officedocument.wordprocessingml.document.main+xml"
          "EEEE")].
Proof.
  exact (X12_exportOOXMLSignature_references toISO8601_example _ read_example
           storage_example false signature_example eq_refl).
Defined.

Lemma indexOf_copy_to (s : string) (c : ascii) :
  forall n, indexOf s c = Some n -> indexOf (copy_to s n) c = None.
Proof.
  unfold copy_to. induction s as [|a t IH]; intros n; cbn [indexOf]; [discriminate|].
  destruct (Ascii.eqb a c) eqn:E.
  - intros [= <-]. reflexivity.
  - destruct (indexOf t c) as [m|]; [|discriminate]. intros [= <-].
    cbn [substring indexOf]. rewrite E. now rewrite (IH m eq_refl).
Qed.

Lemma indexOf_append_None (s t : string) (c : ascii) :
  indexOf s c = None -> indexOf t c = None -> indexOf (s ++ t) c = None.
Proof.
  intros Hs Ht. induction s as [|a s IH]; cbn [indexOf append] in *; [exact Ht|].
  destruct (Ascii.eqb a c); [discriminate|].
  destruct (indexOf s c); [discriminate|]. now rewrite (IH eq_refl).
Qed.

Section ExportTime.

Variable toISO8601 : DateTime -> string.
Variable XInputStream : Type.
Variable ReadRelationsInfoSequence :
  XInputStream -> string -> option (list (list StringPair)).
Variable xRootStorage : string -> option XInputStream.

Lemma exportManifestReference_no_Value (r : SignatureReferenceInformation) :
  filter (isStart "mdssi:Value")
    (fst (exportManifestReference XInputStream ReadRelationsInfoSequence xRootStorage r))
  = [].
Proof.
  unfold exportManifestReference.
  destruct (negb (SignatureReferenceType_eqb (nType r) SAMEDOCUMENT)); [|reflexivity].
  destruct (lcl_isOOXMLBlacklist (ouURI r)); [reflexivity|].
  destruct (endsWith (ouURI r) _); [|reflexivity].
  destruct (xRootStorage (relationsPartName (ouURI r))) as [s|]; [|reflexivity].
  destruct (ReadRelationsInfoSequence s (relationsPartName (ouURI r))) as [infos|] eqn:E;
    out_steps; rewrite E; out_steps; [|reflexivity].
  rewrite exportRelations_spec, !filter_app.
  set (ids := signedRelationIds _). clearbody ids.
  replace (filter (isStart "mdssi:Value") (flat_map RelationshipReference ids))
    with (@nil SaxEvent); [reflexivity|].
  induction ids as [|i t IH]; [reflexivity|]. exact IH.
Qed.

(** X13: the time of the signature.  It is the date string of the
    signature as it is when there is one.  Otherwise it is the ISO 8601
    string of the date: cut before its first comma and followed by [Z]
    when it has a comma, and as it is when it has none; so it has no
    comma, and no fraction of a second.  A completed
    [exportOOXMLSignature] writes this time as the text of its one
    [mdssi:Value] element and, outside the test mode, as the text of
    [xd:SigningTime], the third event of [xd:SignedProperties]. *)
Theorem X13_signature_time (bTest : bool) (rInformation : SignatureInformation) :
  (isEmpty (ouDateTime rInformation) = false ->
   signatureTimeValue toISO8601 rInformation = ouDateTime rInformation) /\
  (isEmpty (ouDateTime rInformation) = true ->
   (forall n, indexOf (toISO8601 (stDateTime rInformation)) "," = Some n ->
      signatureTimeValue toISO8601 rInformation
      = (copy_to (toISO8601 (stDateTime rInformation)) n ++ "Z")%string) /\
   (indexOf (toISO8601 (stDateTime rInformation)) "," = None ->
      signatureTimeValue toISO8601 rInformation = toISO8601 (stDateTime rInformation)) /\
   indexOf (signatureTimeValue toISO8601 rInformation) "," = None) /\
  (snd (exportOOXMLSignature toISO8601 XInputStream ReadRelationsInfoSequence bTest
          xRootStorage rInformation) = Some tt ->
   (exists pre post,
      fst (exportOOXMLSignature toISO8601 XInputStream ReadRelationsInfoSequence bTest
             xRootStorage rInformation)
      = pre ++ textElement "mdssi:Value" (signatureTimeValue toISO8601 rInformation)
            ++ post /\
      filter (isStart "mdssi:Value") pre = [] /\
      filter (isStart "mdssi:Value") post = []) /\
   (bTest = false ->
    exists pre post,
      fst (exportOOXMLSignature toISO8601 XInputStream ReadRelationsInfoSequence bTest
             xRootStorage rInformation)
      = pre ++
        [startElement "xd:SignedProperties" [("Id", "idSignedProperties")];
         startElement "xd:SignedSignatureProperties" []] ++
        textElement "xd:SigningTime" (signatureTimeValue toISO8601 rInformation) ++
        post)).
Proof.
  split; [|split].
  - unfold signatureTimeValue. intros H. rewrite H. reflexivity.
  - unfold signatureTimeValue. intros H. rewrite H. cbn [negb].
    destruct (indexOf (toISO8601 (stDateTime rInformation)) ",") as [n|] eqn:E.
    + split; [now intros m [= <-]|]. split; [discriminate|].
      apply indexOf_append_None; [now apply indexOf_copy_to|reflexivity].
    + split; [discriminate|]. split; [reflexivity|exact E].
  - intros H.
    destruct (exportOOXMLSignature_output toISO8601 XInputStream ReadRelationsInfoSequence
                xRootStorage bTest rInformation H) as (F & E).
    split.
    + exists (exportOOXML_beforeManifest rInformation ++
              flat_map
                (fun r => fst (exportManifestReference XInputStream
                                 ReadRelationsInfoSequence xRootStorage r))
                (vSignatureReferenceInfors rInformation) ++
              firstn 7 (exportOOXML_afterManifest toISO8601 rInformation)),
             (skipn 10 (exportOOXML_afterManifest toISO8601 rInformation) ++
              fst (if negb bTest then exportSignedProperties toISO8601 rInformation
                   else emit []) ++
              [endElement "xd:QualifyingProperties"; endElement "Object";
               endElement "Signature"]).
      split; [|split].
      * rewrite E, <- !app_assoc. do 2 f_equal.
      * rewrite !filter_app, filter_flat_map.
        rewrite (flat_map_nil _ _ exportManifestReference_no_Value).
        unfold exportOOXML_beforeManifest. cbv zeta.
        rewrite !filter_app, filter_flat_map.
        rewrite (flat_map_nil _ _
                   (fun r => exportSignedInfoReference_starts "mdssi:Value" r eq_refl)).
        reflexivity.
      * rewrite !filter_app.
        rewrite (exportSignedProperties_starts toISO8601 bTest rInformation
                   "mdssi:Value" eq_refl).
        reflexivity.
    + intros ->. cbn [negb] in E.
      assert (D : negb (isEmpty (ouCertDigest rInformation)) = true).
      { revert H. unfold exportOOXMLSignature. cbv zeta. cbn [negb].
        unfold exportSignedProperties, assert_.
        destruct (negb (isEmpty (ouCertDigest rInformation))); [reflexivity|].
        rewrite bindOut_emit. cbn [snd].
        destruct (forEach _ _) as [l [[]|]]; out_steps; discriminate. }
      eexists (exportOOXML_beforeManifest rInformation ++
               flat_map _ (vSignatureReferenceInfors rInformation) ++
               exportOOXML_afterManifest toISO8601 rInformation), _.
      rewrite E. unfold exportSignedProperties, assert_. rewrite D. out_steps.
      rewrite <- !app_assoc. do 3 f_equal. reflexivity.
Qed.

End ExportTime.

(** X13 on the example: the date [2016-03-04T10:11:12,500000000] is
    written as [2016-03-04T10:11:12Z], once as [mdssi:Value] and once as
    [xd:SigningTime]. *)
Lemma X13_signature_time_witness :
  signatureTimeValue toISO8601_example signature_example = "2016-03-04T10:11:12Z"%string /\
  (exists pre post,
     fst (exportOOXMLSignature toISO8601_example _ read_example false storage_example
            signature_example)
     = pre ++ textElement "mdssi:Value" "2016-03-04T10:11:12Z" ++ post /\
     filter (isStart "mdssi:Value") pre = [] /\
     filter (isStart "mdssi:Value") post = []) /\
  (exists pre post,
     fst (exportOOXMLSignature toISO8601_example _ read_example false storage_example
            signature_example)
     = pre ++
       [startElement "xd:SignedProperties" [("Id", "idSignedProperties")];
        startElement "xd:SignedSignatureProperties" []] ++
       textElement "xd:SigningTime" "2016-03-04T10:11:12Z" ++ post).
Proof.
  destruct (X13_signature_time toISO8601_example _ read_example storage_example false
              signature_example) as (_ & H2 & H3).
  split; [|split].
  - exact (proj1 (H2 eq_refl) 19%nat eq_refl).
  - exact (proj1 (H3 eq_refl)).
  - exact (proj2 (H3 eq_refl) eq_refl).
Defined.

(** ** [isXML], [remove], [read] and the signature stream *)

Lemma lastIndexOf_None_append (s t : string) (c : ascii) :
  lastIndexOf t c = None ->
  lastIndexOf (s ++ t) c = lastIndexOf s c.
Proof.
  intros H. induction s as [|a s IH]; cbn [append lastIndexOf]; [exact H|].
  now rewrite IH.
Qed.

Lemma lastIndexOf_dot_extension (p ext : string) :
  lastIndexOf ext "." = None ->
  lastIndexOf (p ++ String "." ext) "." = Some (String.length p).
Proof.
  intros H. induction p as [|a p IH]; cbn [append lastIndexOf String.length].
  - rewrite H. reflexivity.
  - now rewrite IH.
Qed.

Lemma copy_from_extension (p ext : string) :
  copy_from (p ++ String "." ext) (String.length p + 1) = ext.
Proof.
  unfold copy_from.
  induction p as [|a p IH].
  - cbn [append String.length Nat.add Nat.sub substring].
    rewrite Nat.sub_0_r. clear. induction ext as [|b e IH]; cbn; [reflexivity|].
    now rewrite IH.
  - cbn [append String.length Nat.add Nat.sub substring]. exact IH.
Qed.

Section IsXML.

Variable XMLSignatureHelper : Type.
Variable equalsReferenceUriManifestPath : string -> string -> bool.

Lemma isXML_manifest_find (manifest : list (list PropertyValue)) (rURI : string) :
  isXML_manifest equalsReferenceUriManifestPath manifest rURI
  = option_map
      (fun entry => String.eqb (entryMediaType entry) "text/xml" && negb (entryEncrypted entry))
      (find (fun entry => equalsReferenceUriManifestPath rURI (entryPath entry)) manifest).
Proof.
  unfold entryMediaType, entryEncrypted, entryPath.
  induction manifest as [|entry t IH]; cbn [isXML_manifest find]; [reflexivity|].
  destruct (manifestEntry entry) as [[sPath sMediaType] bEncrypted] eqn:E.
  cbn [fst snd].
  destruct (equalsReferenceUriManifestPath rURI sPath); [|exact IH].
  cbn [option_map]. now rewrite E.
Qed.

(** X14: without [LO_TESTNAME], [isXML] goes by the first entry of the
    manifest whose path equals the URI: the stream is XML if the media
    type of that entry is [text/xml] and the entry has no [Digest]
    property (it is not encrypted).  When no entry has the path, the
    stream is XML exactly when the URI has a dot and what follows its last
    dot is [xml] in any mix of upper and lower case; so a URI without a
    dot is not XML, and a name that ends in [.xml] or [.XML] is. *)
Theorem X14_isXML_manifest_then_extension
    (this : DocumentSignatureManager XMLSignatureHelper) (rURI : string) :
  (forall entry,
     find (fun entry => equalsReferenceUriManifestPath rURI (entryPath entry))
       (m_manifest _ this) = Some entry ->
     isXML _ equalsReferenceUriManifestPath false this rURI
     = (String.eqb (entryMediaType entry) "text/xml" && negb (entryEncrypted entry))) /\
  (find (fun entry => equalsReferenceUriManifestPath rURI (entryPath entry))
     (m_manifest _ this) = None ->
   (lastIndexOf rURI "." = None ->
    isXML _ equalsReferenceUriManifestPath false this rURI = false) /\
   (forall p ext,
      rURI = (p ++ String "." ext)%string -> lastIndexOf ext "." = None ->
      isXML _ equalsReferenceUriManifestPath false this rURI
      = equalsIgnoreAsciiCase ext "XML")).
Proof.
  unfold isXML. rewrite isXML_manifest_find. split.
  - intros entry ->. reflexivity.
  - intros ->. cbn [option_map]. split.
    + intros ->. reflexivity.
    + intros p ext -> Hext. rewrite (lastIndexOf_dot_extension p ext Hext).
      now rewrite copy_from_extension.
Qed.

End IsXML.

Lemma X14_isXML_manifest_then_extension_examples :
  isXML unit String.eqb false manager_example "content.xml" = true /\
  isXML unit String.eqb false manager_example "styles.xml" = false /\
  isXML unit String.eqb false manager_example "Pictures/1.png" = false /\
  isXML unit String.eqb false manager_example "META-INF/manifest.Xml" = true /\
  isXML unit String.eqb false manager_example "mimetype" = false.
Proof. repeat split. Qed.

(** The rules for [KeepsList], applied as far as they go. *)
Ltac keeps_list :=
  repeat first
    [ apply KeepsList_retD | apply KeepsList_getD | apply KeepsList_helper
    | apply KeepsList_ext | apply KeepsList_nonNull | apply KeepsList_index
    | apply KeepsList_ImplOpenSignatureStream | apply KeepsList_exportOld
    | apply KeepsList_exportOldOOXML
    | apply KeepsList_modifyD; intros; reflexivity
    | apply KeepsList_whenD
    | apply KeepsList_forD; intros
    | apply KeepsList_bindD; [|intros]
    | match goal with
      | |- KeepsList (if ?b then _ else _) => destruct b
      | |- KeepsList (match ?x with _ => _ end) => destruct x
      end ].

Section ManagerCalls.

Variable XMLSignatureHelper : Type.
Variable World : Type.
Variable helperCall :
  forall A : Type, HelperCall A -> XMLSignatureHelper -> World ->
                   option A * XMLSignatureHelper * World.
Variable extCall : forall A : Type, ExtCall A -> World -> option A * World.

Lemma after_bindD {A B : Type} (c : DM XMLSignatureHelper World A)
    (k : A -> DM XMLSignatureHelper World B)
    (this : DocumentSignatureManager XMLSignatureHelper) (w : World) :
  after (bindD XMLSignatureHelper World c k this w)
  = match c this w with
    | (Some a, this1, w1, _) => after (k a this1 w1)
    | (None, this1, _, _) => this1
    end.
Proof.
  unfold bindD, after. destruct (c this w) as [[[[a|] this1] w1] l1]; [|reflexivity].
  now destruct (k a this1 w1) as [[[r this2] w2] l2].
Qed.

(** X15: [remove] at a position below the size of the list erases that
    signature before anything is written: however the call ends, also
    when the export of the other signatures is left by an exception, the
    list is the old one without the element at the position.  At a
    position that is not below the size [remove] does not return, and
    nothing has changed or been called. *)
Theorem X15_remove_erases_first (nPosition : nat)
    (this : DocumentSignatureManager XMLSignatureHelper) (w : World) :
  if (nPosition <? length (maCurrentSignatureInformations _ this))%nat then
    maCurrentSignatureInformations _
      (after (remove _ _ helperCall extCall nPosition this w))
    = firstn nPosition (maCurrentSignatureInformations _ this) ++
      skipn (S nPosition) (maCurrentSignatureInformations _ this)
  else
    remove _ _ helperCall extCall nPosition this w = (None, this, w, []).
Proof.
  unfold remove.
  destruct (Nat.ltb_spec nPosition (length (maCurrentSignatureInformations _ this)))
    as [H|H].
  - apply nth_error_Some in H.
    destruct (nth_error (maCurrentSignatureInformations _ this) nPosition) as [info|] eqn:E;
      [clear H|congruence].
    rewrite after_bindD. unfold getD at 1. cbv beta iota.
    rewrite after_bindD. unfold index at 1. rewrite E. cbv beta iota.
    rewrite after_bindD. unfold modifyD at 1. cbv beta iota.
    match goal with
    | |- maCurrentSignatureInformations _ (after (?c ?t ?w0)) = _ =>
        assert (K : KeepsList c) by keeps_list; rewrite (K t w0)
    end.
    reflexivity.
  - apply nth_error_None in H.
    unfold bindD at 1. unfold getD at 1. unfold bindD at 1. unfold index at 1.
    now rewrite H.
Qed.

End ManagerCalls.
